(* ===== verification/_CoqProject ===== *)
-Q . S2P
Prelude.v
Page.v
PageThm.v
Mem.v
Klib.v
KlibThm.v
Dll.v
Tiling.v
Buddy.v
BuddyInv.v
BuddyAlloc.v
BuddyFree.v
BuddyInit.v
BuddyThm.v
Pmm.v
PmmThm.v
PageTable.v
Vmm.v
PtInv.v
PtWalk.v
VmmMap.v
VmmCopy.v
VmmFork.v
VmmThm.v
VmmDemo.v
UStream.v
Kbase.v
Kernel.v
KFile.v
KLock.v
PipeThm.v
Proc.v
KDemo.v
ProcLife.v
ProcInv.v
ProcAlloc.v
ProcThm.v
ProcSync.v
ProcSyncThm.v
ProcCalls.v
Syscall.v
KBalance.v
SysInv.v
SysThm.v
