(* ===== verification/Prelude.v ===== *)
(** * Verification of the RuOK kernel (oskernel2025)

    The kernel is a Unix-like teaching kernel in C++ for RISC-V and LoongArch.
    [src/hal] holds the two ports, [src/hsai] the hardware service interface
    between a port and the kernel, [src/kernel] the kernel proper: memory
    management ([mm]), processes ([pm]), file systems ([fs]), system calls
    ([syscall]) and a small C library ([klib]).  This library models the core of
    the kernel in Rocq and proves what makes it correct.

    ** How the code is modelled

    - A [w]-bit integer is a [Z]; an operation that can leave its range is
      followed by the wrap of its C++ type ([u64], [u32], [i32], ..., and the
      notations for sum, difference and shift of [ulong] in [mach_scope]).
    - A function that changes state is a computation of the monad [M S]:
      from a state to an [outcome], which is the returned value and the new
      state ([Ret]), a stop of the kernel by [assert] or [log_panic] ([Panic]),
      an access C++ leaves undefined ([Stuck]), or a loop model out of fuel
      ([Spin]).  [log_warn], [log_error] and [printf] have no effect.
    - A loop whose bound is not a datum takes fuel.  Each definition computes its
      own fuel from its arguments (a page count, a byte count, the 64 bits of a
      word, the 33 orders of the buddy lists), or takes it as an argument where
      the bound is the position of a terminator; the theorems show that
      [Spin] is not reached.
    - The kernel is built for one CPU ([CONF_CPU_NUM = 1]).  A spin lock is free
      or held by that CPU; taking it twice stops the kernel, as [acquire] does.
      Interrupts are off while a lock is held, so the code between two switches
      runs alone: interleavings of processes are sequences of whole calls,
      context switches and clock interrupts ([ProcInv.step]).
    - A call that blocks is cut at the switch to the scheduler: the first part
      returns where the process goes on ([progress], or the pair of definitions
      [_out] and [_in]), and the rest runs when the process is chosen again.
    - A system call is a resumption ([Syscall.Call]): it returns, it is gone, or
      it sleeps and says how it goes on.  The arrays a handler keeps on its stack
      or heap have fixed kernel addresses ([stk], [kbuf]).
    - Objects of the kernel heap (files, pipes, directory entries) live in maps
      from addresses; a deleted object leaves its map, so a use after [delete]
      is [Stuck].

    ** Files

    - [Prelude]: machine integers, the monad, tactics ([mstep], [mrun], [zbool])
      and arithmetic and bit lemmas.
    - [Page], [PageThm]: [hsai/include/mem/page.hh] and the page-table entries
      of both ports ([hal/riscv/page.cc], [hal/loongarch/page.cc]) as instances
      of the class [PteHal]; the laws the page-table code needs ([PteLaws]).
    - [Mem]: byte-addressed memory, little-endian words.
    - [Klib], [KlibThm]: [kernel/klib/klib.cc], [common.cc] and
      [template_algorithmn.hh]: block, string and bit routines, binary search.
    - [Dll]: intrusive doubly linked rings in a heap of nodes.
    - [Tiling]: the abstract buddy system: tilings of page ranges by aligned
      blocks, canonical when no two free buddies remain.
    - [Buddy], [BuddyInv], [BuddyAlloc], [BuddyFree], [BuddyInit], [BuddyThm]:
      [mm::BuddyAllocator] with its invariant and the refinement to [Tiling].
    - [Pmm], [PmmThm]: [mm::PhysicalMemoryManager] over the interface
      [PageAllocator] ([VirtualPageAllocator]); the buddy allocator discharges
      the interface's laws.
    - [PageTable], [PtInv], [PtWalk]: [mm::PageTable] over the memory of the
      manager, the class [Port] of the two ports with its laws, the invariant
      of a tree of tables and the address space it represents ([leaf]).
    - [Vmm], [VmmMap], [VmmCopy], [VmmFork], [VmmThm], [VmmDemo]:
      [mm::VirtualMemoryManager]: mapping, unmapping, moving data to and from
      user memory, copying an address space; [VmmDemo] holds the witnesses.
    - [UStream]: [mm::UserspaceStream] ([kernel/mm/userspace_stream.cc]), the
      buffered access to user memory, and its equivalence with [copy_in] and
      [copyout].
    - [Kbase]: record update and a program logic ([wlp], [wp], [keeps]) for the
      monad.
    - [Kernel], [KLock]: the state of the process manager; spin locks, interrupt
      nesting, sleeping and waking ([hsai/smp/spin_lock.cc],
      [hsai/virtual_cpu.cc], [kernel/pm/process.hh]).
    - [KFile], [PipeThm]: pipes, directory entries and open files
      ([kernel/pm/ipc], [kernel/fs/file], [kernel/fs/dentry.cc]) over the class
      [Inode] of what a file system promises; pipes as queues of bytes.
    - [Proc], [ProcLife]: [pm::ProcessManager], the scheduler, the timer and
      signal dispositions ([kernel/pm], [kernel/tm]); [TrapHal] is what a port
      says of trap frames and contexts.
    - [ProcInv], [ProcThm]: the invariant of the process table, kept by every
      operation, and what holds in every reachable state.
    - [ProcAlloc], [ProcSync], [ProcSyncThm], [ProcCalls]: allocation of a process;
      exit, wait, scheduling, wakeups; descriptors, pipes and signal masks.
      [KDemo] is the state on which their theorems are instantiated.
    - [Syscall]: [syscall::SyscallHandler] ([kernel/syscall/syscall_handler.cc]):
      the table, the trap, the arguments and 66 of the 87 handlers.  [KBalance]:
      which locks each operation of the process manager takes and gives back;
      [SysInv], [SysThm]: the same for the handlers, and what they do.

    ** What the theorems show

    - Physical memory: every reachable state of the allocator is a canonical
      tiling; blocks in use never overlap; a request succeeds exactly when a
      free aligned run exists; a release undoes a request; each refusal has its
      code.  The manager above it hands out zeroed memory.
    - Virtual memory, for any port and allocator that satisfy the laws, and so
      for RISC-V and LoongArch over the buddy allocator: walking keeps every
      translation; mapping, unmapping and copying change exactly the entries
      and bytes they should; copying an address space is complete or undone.
    - The buddy allocator decides which requests for single pages succeed
      ([PmmThm.supply]): the theorems on virtual memory and on [alloc_proc] state
      that these calls stop for lack of memory only when that supply is short.
    - Processes: in every state reached from initialisation, identifiers are
      unique and bounded, every slot has its shape, and locks and interrupt
      nesting agree.  Exit makes a zombie, gives its children to the first
      process and wakes the parent; wait returns the zombie's status and frees
      it, or reports why it cannot; the scheduler picks the first process of the
      best priority; a new process has a private address space with the
      trampoline and trap frame mapped.
    - Pipes are bounded queues: what is written is read in order, a full or empty
      pipe puts the caller to sleep and the other side wakes it.
    - A stream over user memory reads and writes what [copy_in] and [copyout]
      would; on unmapped memory it does not end, which a theorem shows.
    - System calls: every modelled handler keeps the invariant of the process
      table and gives back the locks it takes, at every point where it sleeps
      as well, with the exception of [futex], which a theorem shows; the table
      sends each number to the handler bound to it ([clone] excepted, whose
      number [fork] takes over); [dup] followed by [close]
      gives the files back.
    - The C library routines meet their contracts; where they do not (the
      overlap of [memmove], [memcmp] at a zero byte) an example shows it.

    ** Bounds

    Buddy memory is at most 2^45 bytes below 2^64 - 2^24; requests at most
    2^31 pages, beyond which the source shifts out of range.  Physical addresses
    are below 2^56 in the kernel's window, virtual addresses below 2^39 (RISC-V)
    and 2^48 (LoongArch), which is what the table levels distinguish.

    ** What is not modelled

    Device drivers, interrupt and exception entry, assembly and the vendored
    EASTL are hardware or third-party code.  The file systems below the class
    [Inode] (ext4, FAT, ramfs and the buffer cache), [execve] and the loading of
    programs, and the kernel heap are not modelled; nor are the system calls
    that rest on them (the ones that take a path, [getdents], [ppoll]) or on the
    clock device and the log ([clock_gettime], [getrusage], [syslog],
    [poweroff]).  The project's manifest lists
    every part with its status. *)

From Stdlib Require Import ZArith Lia.
From stdpp Require Import base numbers strings gmap list.

Set Default Goal Selector "!".

(** * Machine integers

    A [w]-bit integer of the kernel is a [Z]; every operation that can leave
    the range is followed by the wrap of its C++ type ([types.hh]). *)

Declare Scope mach_scope.
Delimit Scope mach_scope with mach.
Open Scope Z_scope.

Definition wrap (w : Z) (x : Z) : Z := x mod 2 ^ w.
Definition u8 (x : Z) : Z := x mod 2 ^ 8.
Definition u16 (x : Z) : Z := x mod 2 ^ 16.
Definition u32 (x : Z) : Z := x mod 2 ^ 32.
Definition u64 (x : Z) : Z := x mod 2 ^ 64.

(** Conversion to the signed types, two's complement. *)
Definition sgn (w : Z) (x : Z) : Z :=
  let y := x mod 2 ^ w in if y <? 2 ^ (w - 1) then y else y - 2 ^ w.
Definition i8 (x : Z) : Z := sgn 8 x.
Definition i32 (x : Z) : Z := sgn 32 x.
Definition i64 (x : Z) : Z := sgn 64 x.

#[global] Arguments u8 : simpl never.
#[global] Arguments u16 : simpl never.
#[global] Arguments u32 : simpl never.
#[global] Arguments u64 : simpl never.
#[global] Arguments i32 : simpl never.
#[global] Arguments i64 : simpl never.

Definition U64_MAX : Z := 2 ^ 64 - 1.

(** [ulong] arithmetic: sum, difference and left shift, wrapped at 64 bits. *)
Notation "x ⊞ y" := (u64 (x + y)) (at level 50, left associativity) : mach_scope.
Notation "x ⊟ y" := (u64 (x - y)) (at level 50, left associativity) : mach_scope.
Notation "x ⋘ n" := (u64 (Z.shiftl x n)) (at level 38, left associativity) : mach_scope.
Open Scope mach_scope.

(** [~x] at 64 bits. *)
Definition not64 (x : Z) : Z := U64_MAX - x.

(** * Outcomes of kernel code

    A kernel function runs on a state and either returns, or stops the machine
    through [assert] / [log_panic] / [hsai_panic] ([Panic]), or performs an
    access the C++ code does not define: a null dereference or an index out of
    an array ([Stuck]).  [Spin] is the result of a loop model whose fuel ran
    out; the theorems show it is not reached. *)
Inductive outcome (S A : Type) : Type :=
| Ret (a : A) (s : S)
| Panic
| Stuck
| Spin.
Arguments Ret {S A} a s.
Arguments Panic {S A}.
Arguments Stuck {S A}.
Arguments Spin {S A}.

Definition M (S A : Type) : Type := S → outcome S A.

#[export] Instance M_ret S : MRet (M S) := λ A a s, Ret a s.
#[export] Instance M_bind S : MBind (M S) := λ A B f m s,
  match m s with
  | Ret a s' => f a s'
  | Panic => Panic
  | Stuck => Stuck
  | Spin => Spin
  end.

Definition get {S} : M S S := λ s, Ret s s.
Definition gets {S A} (f : S → A) : M S A := λ s, Ret (f s) s.
Definition put {S} (s : S) : M S unit := λ _, Ret tt s.
Definition modify {S} (f : S → S) : M S unit := λ s, Ret tt (f s).
Definition panic {S A} : M S A := λ _, Panic.
Definition stuck {S A} : M S A := λ _, Stuck.
Definition spin {S A} : M S A := λ _, Spin.

(** The kernel's [assert] macro ([klib/common.hh]). *)
Definition assert {S} (b : bool) : M S unit := if b then mret tt else panic.

(** [when b m]: an [if] without [else]. *)
Definition when {S} (b : bool) (m : M S unit) : M S unit :=
  if b then m else mret tt.

(** Dereference of a pointer that may be null. *)
Definition deref {S A} (o : option A) : M S A :=
  match o with Some a => mret a | None => stuck end.

(** Running a computation on a component of a larger state. *)
Definition zoom {S T A} (pr : S → T) (up : T → S → S) (m : M T A) : M S A := λ s,
  match m (pr s) with
  | Ret a t => Ret a (up t s)
  | Panic => Panic
  | Stuck => Stuck
  | Spin => Spin
  end.

Lemma ret_inj {S A} (a : A) (s s' : S) : Ret a s = Ret a s' → s = s'.
Proof. congruence. Qed.

Lemma ret_inv {S A} (a a' : A) (s s' : S) : Ret a s = Ret a' s' → a = a' ∧ s = s'.
Proof. by intros [=]. Qed.

Lemma bind_ret {S A B} (m : M S A) (f : A → M S B) (s s' : S) (a : A) :
  m s = Ret a s' → (m ≫= f) s = f a s'.
Proof. intros H. unfold mbind, M_bind. by rewrite H. Qed.

Lemma bind_inv {S A B} (m : M S A) (f : A → M S B) (s s' : S) (b : B) :
  (m ≫= f) s = Ret b s' → ∃ a s1, m s = Ret a s1 ∧ f a s1 = Ret b s'.
Proof. unfold mbind, M_bind. destruct (m s); naive_solver. Qed.

Lemma bind_mret {S A B} (a : A) (f : A → M S B) : mret a ≫= f = f a.
Proof. reflexivity. Qed.

Lemma bind_assert {S B} b (f : unit → M S B) s : b = true → (assert b ≫= f) s = f tt s.
Proof. by intros ->. Qed.

(** A run of three calls as the prefix of a longer one. *)
Lemma seq3_ret {S A B C D} (m1 : M S A) (m2 : M S B) (m3 : M S C) (k : C → M S D) s r s' :
  (m1;; m2;; m3) s = Ret r s' → (m1;; m2;; (x ← m3; k x)) s = k r s'.
Proof.
  unfold mbind, M_bind. destruct (m1 s) as [a s1| | |]; try done.
  destruct (m2 s1) as [b s2| | |]; try done. by intros ->.
Qed.

(** * Tactics *)

(** Step through a run whose next call's result is known. *)
Ltac mstep H := rewrite (bind_ret _ _ _ _ _ H); cbn beta.

(** Run the administrative operations of the monad. *)
Ltac mrun :=
  unfold mbind, M_bind, mret, M_ret, get, gets, put, modify, when, assert, deref;
  cbn beta iota zeta.

(** Decide a boolean comparison of integers in the goal. *)
Ltac zbool :=
  repeat match goal with
  | |- context [?a <? ?b] => destruct (Z.ltb_spec a b)
  | |- context [?a <=? ?b] => destruct (Z.leb_spec a b)
  | |- context [?a =? ?b] => destruct (Z.eqb_spec a b)
  end.

(** * Shared arithmetic *)

Create HintDb mach.

Lemma wrap64_small x : 0 ≤ x < 2 ^ 64 → u64 x = x.
Proof. apply Z.mod_small. Qed.

Lemma wrap32_small x : 0 ≤ x < 2 ^ 32 → u32 x = x.
Proof. apply Z.mod_small. Qed.

Lemma u64_bound x : 0 ≤ u64 x < 2 ^ 64.
Proof. apply Z.mod_pos_bound. lia. Qed.

Lemma u32_bound x : 0 ≤ u32 x < 2 ^ 32.
Proof. apply Z.mod_pos_bound. lia. Qed.

Lemma i64_small x : 0 ≤ x < 2 ^ 63 → i64 x = x.
Proof.
  intros H. unfold i64, sgn. rewrite Z.mod_small by lia.
  change (64 - 1) with 63. destruct (Z.ltb_spec x (2 ^ 63)); lia.
Qed.

Lemma i32_small x : 0 ≤ x < 2 ^ 31 → i32 x = x.
Proof.
  intros H. unfold i32, sgn. rewrite Z.mod_small by lia.
  change (32 - 1) with 31. destruct (Z.ltb_spec x (2 ^ 31)); lia.
Qed.

#[export] Hint Resolve u64_bound u32_bound : mach.

Lemma in_range i n : 0 ≤ i < n → (0 <=? i) && (i <? n) = true.
Proof. intros. apply andb_true_intro. split; [apply Z.leb_le|apply Z.ltb_lt]; lia. Qed.

Lemma pow2_pos k : 0 ≤ k → 0 < 2 ^ k.
Proof. intros. by apply Z.pow_pos_nonneg. Qed.

Lemma pow2_S k : 0 ≤ k → 2 ^ (k + 1) = 2 * 2 ^ k.
Proof. intros. rewrite Z.pow_add_r by lia. lia. Qed.

Lemma pow2_mono j k : 0 ≤ j ≤ k → 2 ^ j ≤ 2 ^ k.
Proof. intros. apply Z.pow_le_mono_r; lia. Qed.

Lemma pow2_split j k : 0 ≤ j ≤ k → 2 ^ k = 2 ^ j * 2 ^ (k - j).
Proof. intros. rewrite <- Z.pow_add_r by lia. f_equal. lia. Qed.

(** Injectivity of cons that leaves the heads as they are. *)
Lemma cons_inv {A} (x y : A) l k : x :: l = y :: k → x = y ∧ l = k.
Proof. by intros [=]. Qed.

(** * Bits *)

Lemma testbit_above x n i : 0 ≤ x < 2 ^ n → n ≤ i → Z.testbit x i = false.
Proof.
  intros Hx Hi. destruct (Z.lt_ge_cases n 0).
  { rewrite Z.pow_neg_r in Hx by lia. lia. }
  rewrite <- (Z.mod_small x (2 ^ n)) by done. by apply Z.mod_pow2_bits_high.
Qed.

Lemma testbit_below x n i : x mod 2 ^ n = 0 → 0 ≤ n → i < n → Z.testbit x i = false.
Proof.
  intros Hx Hn Hi. destruct (Z.lt_ge_cases i 0); [by apply Z.testbit_neg_r|].
  rewrite <- (Z.mod_pow2_bits_low x n) by lia. by rewrite Hx, Z.testbit_0_l.
Qed.

Lemma testbit_u64 x i : Z.testbit (u64 x) i = (i <? 64) && Z.testbit x i.
Proof.
  unfold u64. destruct (Z.ltb_spec i 64); simpl.
  - by rewrite Z.mod_pow2_bits_low.
  - rewrite Z.mod_pow2_bits_high; [done|lia].
Qed.

Lemma land_lor_absorb x y m : Z.land y m = y → Z.land x m = 0 → Z.land (Z.lor x y) m = y.
Proof. intros Hy Hx. by rewrite Z.land_lor_distr_l, Hx, Hy, Z.lor_0_l. Qed.

Lemma lor_disjoint_add x y : Z.land x y = 0 → Z.lor x y = x + y.
Proof. intros H. symmetry. rewrite <- Z.lxor_lor by done. by apply Z.add_nocarry_lxor. Qed.

Lemma land_high_low x y n : 0 ≤ n → x mod 2 ^ n = 0 → 0 ≤ y < 2 ^ n → Z.land x y = 0.
Proof.
  intros Hn Hx Hy. apply Z.bits_inj'. intros i Hi.
  rewrite Z.land_spec, Z.testbit_0_l. destruct (Z.lt_ge_cases i n).
  - by rewrite (testbit_below x n i).
  - rewrite (testbit_above y n i) by lia. by rewrite andb_false_r.
Qed.

Lemma lor_bound x y n : 0 ≤ n → 0 ≤ x < 2 ^ n → 0 ≤ y < 2 ^ n → 0 ≤ Z.lor x y < 2 ^ n.
Proof.
  intros Hn Hx Hy. split; [apply Z.lor_nonneg; lia|].
  rewrite <- (Z.mod_small x (2 ^ n)), <- (Z.mod_small y (2 ^ n)) by done.
  rewrite <- !Z.land_ones, <- Z.land_lor_distr_l, Z.land_ones by lia.
  apply Z.mod_pos_bound. by apply pow2_pos.
Qed.

Lemma land_bound x y n : 0 ≤ n → 0 ≤ x → 0 ≤ y < 2 ^ n → 0 ≤ Z.land x y < 2 ^ n.
Proof.
  intros Hn Hx Hy. split; [apply Z.land_nonneg; lia|].
  rewrite <- (Z.mod_small y (2 ^ n)) by done.
  rewrite <- Z.land_ones, Z.land_assoc, Z.land_ones by lia.
  apply Z.mod_pos_bound. by apply pow2_pos.
Qed.
