(* ===== verification/Page.v ===== *)
(** Pages and page-table entries.

    Models [hsai/include/mem/page.hh] (page size, rounding, the split of a
    virtual address into table indices), the two implementations of the
    page-table-entry class [hsai::Pte] ([hal/riscv/page.cc] and
    [hal/loongarch/page.cc]) and the address windows of the two memories
    ([rv_mem.cc], [la_mem.cc]).  What the page-table code relies on is the
    class [PteHal] with its laws [PteLaws]; both architectures are instances. *)

From Stdlib Require Import ZArith Lia.
From stdpp Require Import base numbers list.
From S2P Require Import Prelude.

Set Default Goal Selector "!".
Open Scope Z_scope.

(** * Page arithmetic *)

Definition page_size : Z := 4096.
Definition page_number_mask : Z := 0x1FF.

(** The constexpr loops of [page.hh] that compute a shift from a mask; the
    fuel is the width of [ulong], after which the shifted bit has left the
    word and the source loop does not end. *)
Fixpoint lowest_1_bit_loop (fuel : nat) (k i cnt : Z) : option Z :=
  match fuel with
  | O => None
  | S f => if Z.land k i =? 0 then lowest_1_bit_loop f (k ⋘ 1) i (cnt + 1) else Some cnt
  end.
Definition lowest_1_bit (i : Z) : option Z := lowest_1_bit_loop 64 1 i 0.

Fixpoint mask_width_loop (fuel : nat) (i m k : Z) : Z :=
  match fuel with
  | O => k
  | S f => if Z.land i m =? 0 then k else mask_width_loop f (i ⋘ 1) m (k + 1)
  end.

Definition page_size_shift : Z := default 0 (lowest_1_bit page_size).
Definition page_number_mask_width : Z := mask_width_loop 64 1 page_number_mask 0.

Definition page_round_up (addr : Z) : Z :=
  Z.land (u64 (u64 (addr + page_size) - 1)) (not64 (page_size - 1)).
Definition page_round_down (addr : Z) : Z := Z.land addr (not64 (page_size - 1)).
Definition is_page_align (addr : Z) : bool := Z.land addr (page_size - 1) =? 0.

(** The four index masks ([PT_LEVEL] is 4) and their shifts. *)
Definition level_mask (level : Z) : Z :=
  page_number_mask ⋘ page_size_shift ⋘ (page_number_mask_width * level).
Definition pgd_mask : Z := level_mask 3.
Definition pud_mask : Z := level_mask 2.
Definition pmd_mask : Z := level_mask 1.
Definition pt_mask : Z := level_mask 0.
Definition mask_shift (m : Z) : Z := if m =? 0 then 0 else default 0 (lowest_1_bit m).

Definition pgd_num (va : Z) : Z := Z.land va pgd_mask ≫ mask_shift pgd_mask.
Definition pud_num (va : Z) : Z := Z.land va pud_mask ≫ mask_shift pud_mask.
Definition pmd_num (va : Z) : Z := Z.land va pmd_mask ≫ mask_shift pmd_mask.
Definition pt_num (va : Z) : Z := Z.land va pt_mask ≫ mask_shift pt_mask.
#[global] Arguments pgd_num : simpl never.
#[global] Arguments pud_num : simpl never.
#[global] Arguments pmd_num : simpl never.
#[global] Arguments pt_num : simpl never.

(** ** Rounding and indices as division *)

Lemma land_not_low x n : 0 ≤ n ≤ 64 → 0 ≤ x < 2 ^ 64 →
  Z.land x (not64 (2 ^ n - 1)) = x / 2 ^ n * 2 ^ n.
Proof.
  intros Hn Hx.
  rewrite <- Z.shiftl_mul_pow2, <- Z.shiftr_div_pow2, <- Z.ldiff_ones_r by lia.
  apply Z.bits_inj'. intros i Hi. rewrite Z.land_spec, Z.ldiff_spec.
  destruct (Z.lt_ge_cases i 64) as [Hlt|Hge].
  - f_equal. unfold not64, U64_MAX.
    replace (2 ^ 64 - 1 - (2 ^ n - 1)) with (Z.ldiff (Z.ones 64) (Z.ones n)).
    { rewrite Z.ldiff_spec, Z.ones_spec_low by lia. done. }
    rewrite Z.ldiff_ones_r, Z.shiftr_div_pow2, Z.shiftl_mul_pow2, Z.ones_equiv by lia.
    assert (2 ^ 64 = 2 ^ n * 2 ^ (64 - n)) as E by (apply pow2_split; lia).
    pose proof (pow2_pos n ltac:(lia)). pose proof (pow2_pos (64 - n) ltac:(lia)).
    replace (Z.pred (2 ^ 64) / 2 ^ n) with (2 ^ (64 - n) - 1); [nia|].
    apply (Z.div_unique_pos _ _ _ (2 ^ n - 1)); [lia|]. rewrite E. nia.
  - rewrite <- (Z.mod_small x (2 ^ 64)) by lia.
    by rewrite Z.mod_pow2_bits_high by lia.
Qed.

Lemma page_round_down_eq x : 0 ≤ x < 2 ^ 64 → page_round_down x = x / 4096 * 4096.
Proof. intros. apply (land_not_low x 12); lia. Qed.

Lemma page_round_up_eq x : 0 ≤ x → x + 4096 < 2 ^ 64 →
  page_round_up x = (x + 4095) / 4096 * 4096.
Proof.
  intros. unfold page_round_up, page_size.
  rewrite (wrap64_small (x + 4096)), (wrap64_small (x + 4096 - 1)) by lia.
  rewrite (land_not_low _ 12) by lia. do 2 f_equal. lia.
Qed.

Lemma is_page_align_spec x : 0 ≤ x → is_page_align x = true ↔ x mod 4096 = 0.
Proof.
  intros. unfold is_page_align, page_size.
  change (4096 - 1) with (Z.ones 12). rewrite Z.land_ones by lia.
  change (2 ^ 12) with 4096. apply Z.eqb_eq.
Qed.

Lemma mask_field x n w : 0 ≤ n → 0 ≤ w → 0 ≤ x →
  Z.land x (Z.ones w ≪ n) ≫ n = x / 2 ^ n mod 2 ^ w.
Proof.
  intros. rewrite Z.shiftr_land, Z.shiftr_shiftl_l, Z.sub_diag, Z.shiftl_0_r by lia.
  by rewrite Z.land_ones, Z.shiftr_div_pow2 by lia.
Qed.

Lemma pgd_num_eq va : 0 ≤ va → pgd_num va = va / 2 ^ 39 mod 512.
Proof. apply (mask_field va 39 9); lia. Qed.
Lemma pud_num_eq va : 0 ≤ va → pud_num va = va / 2 ^ 30 mod 512.
Proof. apply (mask_field va 30 9); lia. Qed.
Lemma pmd_num_eq va : 0 ≤ va → pmd_num va = va / 2 ^ 21 mod 512.
Proof. apply (mask_field va 21 9); lia. Qed.
Lemma pt_num_eq va : 0 ≤ va → pt_num va = va / 2 ^ 12 mod 512.
Proof. apply (mask_field va 12 9); lia. Qed.

(** * Page-table entries *)

(** The entry operations of [hsai::Pte], as functions of the 64-bit entry. *)
Class PteHal : Type := {
  is_valid : Z → bool;
  is_dirty : Z → bool;
  is_present : Z → bool;
  is_writable : Z → bool;
  is_readable : Z → bool;
  is_executable : Z → bool;
  is_dir_page : Z → bool;
  is_super_plv : Z → bool;
  is_user_plv : Z → bool;
  set_super_plv : Z → Z;
  set_user_plv : Z → Z;
  to_pa : Z → Z;
  get_flags : Z → Z;
  map_code_page_flags : Z;
  map_data_page_flags : Z;
  map_dir_page_flags : Z;
  super_plv_flag : Z;
  user_plv_flag : Z;
  valid_flag : Z;
  (** [set_data]: the entry stored for its argument. *)
  set_data : Z → Z;
  (** the memory's address windows, [hsai::k_mem] *)
  to_vir : Z → Z;
  to_phy : Z → Z
}.

(** Conversion of an integer to [bool] in C++. *)
Definition to_bool (x : Z) : bool := negb (x =? 0).

Module Riscv.

Definition pte_valid_m : Z := 0x1 ≪ 0.
Definition pte_read_m : Z := 0x1 ≪ 1.
Definition pte_write_m : Z := 0x1 ≪ 2.
Definition pte_execute_m : Z := 0x1 ≪ 3.
Definition pte_user_m : Z := 0x1 ≪ 4.
Definition pte_global_m : Z := 0x1 ≪ 5.
Definition pte_accessed_m : Z := 0x1 ≪ 6.
Definition pte_dirty_m : Z := 0x1 ≪ 7.
Definition pte_rsw_m : Z := 0x3 ≪ 8.
Definition pte_flags_m : Z :=
  Z.lor pte_valid_m (Z.lor pte_read_m (Z.lor pte_write_m (Z.lor pte_execute_m
    (Z.lor pte_user_m (Z.lor pte_global_m (Z.lor pte_accessed_m
      (Z.lor pte_dirty_m pte_rsw_m))))))).

#[export] Instance riscv_pte : PteHal := {
  is_valid d := to_bool (Z.land d pte_valid_m);
  is_dirty d := to_bool (Z.land d pte_dirty_m);
  is_present d := to_bool (Z.land d pte_valid_m);
  is_writable d := to_bool (Z.land d pte_write_m);
  is_readable d := to_bool (Z.land d pte_read_m);
  is_executable d := to_bool (Z.land d pte_execute_m);
  is_dir_page d :=
    Z.land d (Z.lor pte_valid_m (Z.lor pte_read_m (Z.lor pte_execute_m pte_write_m)))
      =? pte_valid_m;
  is_super_plv d := Z.land d pte_user_m =? 0;
  is_user_plv d := to_bool (Z.land d pte_user_m);
  set_super_plv d := Z.land d (not64 pte_user_m);
  set_user_plv d := Z.lor d pte_user_m;
  to_pa d := (d ≫ 10) ⋘ 12;
  get_flags d := Z.land d pte_flags_m;
  map_code_page_flags := Z.lor pte_valid_m (Z.lor pte_read_m pte_execute_m);
  map_data_page_flags := Z.lor pte_valid_m (Z.lor pte_read_m pte_write_m);
  map_dir_page_flags := pte_valid_m;
  super_plv_flag := 0;
  user_plv_flag := pte_user_m;
  valid_flag := pte_valid_m;
  set_data d := Z.lor ((d ≫ 12) ⋘ 10) (Z.land d pte_flags_m);
  to_vir a := a;
  to_phy a := a
}.

End Riscv.

Module Loongarch.

Definition pte_valid_m : Z := 0x1 ≪ 0.
Definition pte_dirty_m : Z := 0x1 ≪ 1.
Definition pte_plv_s : Z := 2.
Definition pte_plv_m : Z := 0x3 ≪ pte_plv_s.
Definition pte_mat_s : Z := 4.
Definition pte_mat_m : Z := 0x3 ≪ pte_mat_s.
Definition pte_base_global_m : Z := 0x1 ≪ 6.
Definition pte_present_m : Z := 0x1 ≪ 7.
Definition pte_writable_m : Z := 0x1 ≪ 8.
Definition pte_base_pa_m : Z := 0x1FFFFFFFFFFFF ≪ 12.
Definition pte_no_read_m : Z := 0x1 ≪ 61.
Definition pte_no_execute_m : Z := 0x1 ≪ 62.
Definition pte_rplv_m : Z := 0x1 ≪ 63.
Definition pte_flags_m : Z :=
  Z.lor pte_valid_m (Z.lor pte_dirty_m (Z.lor pte_plv_m (Z.lor pte_mat_m
    (Z.lor pte_base_global_m (Z.lor pte_present_m (Z.lor pte_writable_m
      (Z.lor pte_no_read_m (Z.lor pte_no_execute_m pte_rplv_m)))))))).
Definition mat_cc : Z := 1.
Definition plv_super : Z := 0.
Definition plv_user : Z := 3.
Definition dmwin_mask : Z := 0xF ≪ 60.
Definition win_0 : Z := 0x9 ≪ 60.

#[export] Instance loongarch_pte : PteHal := {
  is_valid d := to_bool (Z.land d pte_valid_m);
  is_dirty d := to_bool (Z.land d pte_dirty_m);
  is_present d := to_bool (Z.land d pte_present_m);
  is_writable d := to_bool (Z.land d pte_writable_m);
  is_readable d := negb (to_bool (Z.land d pte_no_read_m));
  is_executable d := negb (to_bool (Z.land d pte_no_execute_m));
  is_dir_page d := Z.land d pte_flags_m =? pte_valid_m;
  is_super_plv d := Z.land d pte_plv_m =? plv_super;
  is_user_plv d := Z.land d pte_plv_m =? plv_user;
  set_super_plv d := Z.land d (not64 (plv_user ≪ pte_plv_s));
  set_user_plv d := Z.lor d (plv_user ≪ pte_plv_s);
  to_pa d := Z.land d pte_base_pa_m;
  get_flags d := Z.land d pte_flags_m;
  map_code_page_flags := Z.lor pte_present_m (mat_cc ≪ pte_mat_s);
  map_data_page_flags :=
    Z.lor pte_present_m (Z.lor pte_writable_m (Z.lor pte_dirty_m
      (Z.lor pte_no_execute_m (mat_cc ≪ pte_mat_s))));
  map_dir_page_flags := pte_valid_m;
  super_plv_flag := plv_super ≪ pte_plv_s;
  user_plv_flag := plv_user ≪ pte_plv_s;
  valid_flag := pte_valid_m;
  set_data d := d;
  to_vir a := Z.lor (Z.land a (not64 dmwin_mask)) win_0;
  to_phy a := Z.land a (not64 dmwin_mask)
}.

(** The flag mask has the value [loongarch.hh] asserts statically. *)
Lemma pte_flags_m_value : pte_flags_m = 0xE0000000000001FF.
Proof. reflexivity. Qed.

End Loongarch.

(** ** What the page-table code relies on *)

(** A page frame: page aligned, inside the 56-bit physical space. *)
Definition frame (p : Z) : Prop := 0 ≤ p < 2 ^ 56 ∧ p mod 4096 = 0.

Class PteLaws `{PteHal} : Prop := {
  pte_zero_invalid : is_valid 0 = false;
  pte_pa : ∀ p f, frame p → 0 ≤ f < 2 ^ 64 → get_flags f = f →
    to_pa (set_data (Z.lor p f)) = p;
  pte_flags : ∀ p f, frame p → 0 ≤ f < 2 ^ 64 → get_flags f = f →
    get_flags (set_data (Z.lor p f)) = f;
  pte_valid_flags : ∀ d, 0 ≤ d → is_valid d = is_valid (get_flags d);
  pte_dir_flags : ∀ d, 0 ≤ d → is_dir_page d = is_dir_page (get_flags d);
  pte_super_flags : ∀ d, 0 ≤ d → is_super_plv d = is_super_plv (get_flags d);
  pte_dir_ok : 0 ≤ map_dir_page_flags < 2 ^ 64 ∧
    get_flags map_dir_page_flags = map_dir_page_flags ∧
    is_valid map_dir_page_flags = true ∧ is_dir_page map_dir_page_flags = true;
  pte_range : ∀ d, 0 ≤ d < 2 ^ 64 → 0 ≤ set_data d < 2 ^ 64;
  vir_phy : ∀ p, frame p → to_phy (to_vir p) = p;
  phy_frame : ∀ p, frame p → to_phy p = p
}.

Lemma land_sub d m f : Z.land m f = f → Z.land d f = Z.land (Z.land d m) f.
Proof. intros Hm. by rewrite <- Z.land_assoc, Hm. Qed.

Module RiscvLaws.
Import Riscv.

Lemma rv_flags_m_ones : pte_flags_m = Z.ones 10.
Proof. reflexivity. Qed.

Lemma flags_bound f : 0 ≤ f → get_flags f = f → 0 ≤ f < 2 ^ 10.
Proof.
  intros Hf E. cbn in E. rewrite rv_flags_m_ones, Z.land_ones in E by lia.
  pose proof (Z.mod_pos_bound f (2 ^ 10)). lia.
Qed.

(** The stored entry: the frame number above bit 10, the flags below. *)
Lemma set_data_eq p f : frame p → 0 ≤ f < 2 ^ 10 →
  set_data (Z.lor p f) = p / 4096 * 1024 + f.
Proof.
  intros [Hp Ha] Hf. cbn.
  rewrite rv_flags_m_ones, Z.land_ones by lia.
  rewrite (lor_disjoint_add p f) by (apply (land_high_low _ _ 12); [lia|done|lia]).
  rewrite Z.shiftr_div_pow2, Z.shiftl_mul_pow2 by lia.
  change (2 ^ 12) with 4096. change (2 ^ 10) with 1024 in *. change (2 ^ 56) with (4096 * 2 ^ 44) in Hp.
  replace ((p + f) / 4096) with (p / 4096) by (Z.div_mod_to_equations; lia).
  replace ((p + f) mod 1024) with f by (Z.div_mod_to_equations; lia).
  rewrite wrap64_small by (Z.div_mod_to_equations; lia).
  apply lor_disjoint_add, (land_high_low _ _ 10); [lia| |lia].
  by rewrite Z.mod_mul.
Qed.

#[export] Instance riscv_laws : PteLaws.
Proof.
  split.
  - done.
  - intros p f Hp Hf E. apply flags_bound in E; [|lia].
    rewrite set_data_eq by done. destruct Hp as [Hp Ha]. cbn.
    rewrite Z.shiftr_div_pow2, Z.shiftl_mul_pow2 by lia.
    change (2 ^ 12) with 4096. change (2 ^ 10) with 1024 in *.
    rewrite wrap64_small; Z.div_mod_to_equations; lia.
  - intros p f Hp Hf E. apply flags_bound in E; [|lia].
    rewrite set_data_eq by done. cbn. rewrite rv_flags_m_ones, Z.land_ones by lia.
    change (2 ^ 10) with 1024 in *. Z.div_mod_to_equations. lia.
  - intros d Hd. cbn. f_equal. by rewrite (land_sub d pte_flags_m).
  - intros d Hd. cbn. f_equal. by rewrite (land_sub d pte_flags_m).
  - intros d Hd. cbn. f_equal. by rewrite (land_sub d pte_flags_m).
  - cbn. repeat split; done.
  - intros d Hd. cbn. rewrite rv_flags_m_ones, Z.land_ones by lia.
    apply lor_bound; [lia|apply u64_bound|].
    pose proof (Z.mod_pos_bound d (2 ^ 10)). lia.
  - done.
  - done.
Qed.

End RiscvLaws.

Module LoongarchLaws.
Import Loongarch.

Lemma base_pa_ones : pte_base_pa_m = Z.ones 49 ≪ 12.
Proof. reflexivity. Qed.

Lemma la_flags_m_ones : pte_flags_m = Z.lor (Z.ones 9) (Z.ones 3 ≪ 61).
Proof. reflexivity. Qed.

Lemma frame_bit p i : frame p → Z.testbit p i = true → 12 ≤ i < 56.
Proof.
  intros [Hp Ha] Hb. split.
  - destruct (Z.lt_ge_cases i 12); [|done]. by rewrite (testbit_below p 12) in Hb.
  - destruct (Z.lt_ge_cases i 56); [done|]. by rewrite (testbit_above p 56) in Hb by lia.
Qed.

Lemma frame_land_flags p : frame p → Z.land p pte_flags_m = 0.
Proof.
  intros Hp. apply Z.bits_inj'. intros i Hi.
  rewrite la_flags_m_ones, Z.land_spec, Z.lor_spec, Z.shiftl_spec, Z.testbit_0_l by done.
  destruct (Z.testbit p i) eqn:E; [|done]. apply frame_bit in E; [|done].
  rewrite Z.testbit_ones, (Z.testbit_neg_r (Z.ones 3)) by lia.
  destruct (Z.ltb_spec i 9), (Z.leb_spec 0 i); (lia || done).
Qed.

Lemma frame_land_pa p : frame p → Z.land p pte_base_pa_m = p.
Proof.
  intros Hp. apply Z.bits_inj'. intros i Hi.
  rewrite base_pa_ones, Z.land_spec, Z.shiftl_spec by done.
  destruct (Z.testbit p i) eqn:E; [|done]. apply frame_bit in E; [|done].
  rewrite Z.testbit_ones by lia. zbool; (lia || done).
Qed.

Lemma flags_land_pa : Z.land pte_flags_m pte_base_pa_m = 0.
Proof. reflexivity. Qed.

Lemma frame_land_window p : frame p → Z.land p (not64 dmwin_mask) = p.
Proof.
  intros [Hp Ha]. change (not64 dmwin_mask) with (Z.ones 60).
  rewrite Z.land_ones by lia. apply Z.mod_small. lia.
Qed.

#[export] Instance loongarch_laws : PteLaws.
Proof.
  split.
  - done.
  - intros p f Hp Hf E. cbn in *. rewrite Z.land_lor_distr_l, frame_land_pa by done.
    by rewrite <- E, <- Z.land_assoc, flags_land_pa, Z.land_0_r, Z.lor_0_r.
  - intros p f Hp Hf E. cbn in *. apply land_lor_absorb; [done|]. by apply frame_land_flags.
  - intros d Hd. cbn. f_equal. by rewrite (land_sub d pte_flags_m).
  - intros d Hd. cbn. f_equal. by rewrite <- Z.land_assoc, Z.land_diag.
  - intros d Hd. cbn. f_equal. by rewrite (land_sub d pte_flags_m).
  - cbn. repeat split; done.
  - intros d Hd. cbn. done.
  - intros p Hp. cbn. rewrite (frame_land_window p), Z.land_lor_distr_l, (frame_land_window p) by done.
    apply Z.lor_0_r.
  - intros p Hp. cbn. by apply frame_land_window.
Qed.

End LoongarchLaws.
