(* ===== verification/PageThm.v ===== *)
(** Addresses and page-table entries: what the arithmetic of [Page.v] means. *)

From Stdlib Require Import ZArith Lia.
From stdpp Require Import base numbers list.
From S2P Require Import Prelude Page.

Set Default Goal Selector "!".
Open Scope Z_scope.

Module PageThm.

(** C37: the four table indices and the page offset of a 48-bit address are in
    range and determine it; rounding down gives the page's address and rounding
    up the least page boundary not below the address. *)
Theorem va_decomposition va : 0 ≤ va < 2 ^ 48 →
  va = pgd_num va * 2 ^ 39 + pud_num va * 2 ^ 30 + pmd_num va * 2 ^ 21 + pt_num va * 2 ^ 12 + va mod page_size ∧
  0 ≤ pgd_num va < 512 ∧ 0 ≤ pud_num va < 512 ∧ 0 ≤ pmd_num va < 512 ∧ 0 ≤ pt_num va < 512 ∧
  page_round_down va + va mod page_size = va ∧
  (is_page_align (page_round_up va) = true ∧ va ≤ page_round_up va ∧
   ∀ b, 0 ≤ b → is_page_align b = true → va ≤ b → page_round_up va ≤ b).
Proof.
  intros Hva. rewrite pgd_num_eq, pud_num_eq, pmd_num_eq, pt_num_eq by lia.
  rewrite page_round_down_eq, page_round_up_eq by lia. unfold page_size.
  change (2 ^ 48) with 281474976710656 in *. change (2 ^ 39) with 549755813888 in *.
  change (2 ^ 30) with 1073741824 in *. change (2 ^ 21) with 2097152 in *. change (2 ^ 12) with 4096 in *.
  assert (0 ≤ (va + 4095) / 4096 * 4096) as Hu by (Z.div_mod_to_equations; lia).
  split_and!; try (Z.div_mod_to_equations; lia).
  - apply is_page_align_spec; [done|]. by apply Z.mod_mul.
  - intros b Hb Ha Hle. apply is_page_align_spec in Ha; [|done]. Z.div_mod_to_equations. lia.
Qed.

(** C36: on both ports an entry built from a page frame and flags gives back
    that frame and those flags, and the frame does not disturb the validity,
    directory and privilege tests. *)
Theorem pte_roundtrip (P : PteHal) p f :
  P = Riscv.riscv_pte ∨ P = Loongarch.loongarch_pte → frame p → 0 ≤ f < 2 ^ 64 → get_flags f = f →
  let d := set_data (Z.lor p f) in
  0 ≤ d < 2 ^ 64 ∧ to_pa d = p ∧ get_flags d = f ∧
  is_valid d = is_valid f ∧ is_dir_page d = is_dir_page f ∧ is_super_plv d = is_super_plv f.
Proof.
  intros HP Hp Hf E d. assert (PteLaws) as PL.
  { destruct HP as [-> | ->]; [apply RiscvLaws.riscv_laws|apply LoongarchLaws.loongarch_laws]. }
  assert (0 ≤ d < 2 ^ 64) as Hd.
  { apply pte_range, lor_bound; [lia| |done]. destruct Hp. lia. }
  assert (get_flags d = f) as Ef by (by apply pte_flags). split_and!; [lia|lia|by apply pte_pa|exact Ef| | |].
  - rewrite pte_valid_flags by lia. by rewrite Ef.
  - rewrite pte_dir_flags by lia. by rewrite Ef.
  - rewrite pte_super_flags by lia. by rewrite Ef.
Qed.

(** On LoongArch [is_user_plv] compares the masked field, which lies at bits 2
    and 3, with the unshifted level 3: it holds of no entry, not even one that
    [set_user_plv] has just marked. *)
Theorem loongarch_is_user_plv_false d : 0 ≤ d < 2 ^ 64 →
  is_user_plv (PteHal := Loongarch.loongarch_pte) d = false ∧
  is_user_plv (PteHal := Loongarch.loongarch_pte) (set_user_plv (PteHal := Loongarch.loongarch_pte) d) = false.
Proof.
  assert (∀ x, Z.land x Loongarch.pte_plv_m ≠ Loongarch.plv_user) as Hx.
  { intros x E. apply (f_equal (λ z, Z.testbit z 0)) in E. rewrite Z.land_spec in E.
    change (Z.testbit Loongarch.pte_plv_m 0) with false in E. by rewrite andb_false_r in E. }
  intros Hd. cbn. split; apply Z.eqb_neq, Hx.
Qed.

Lemma va_decomposition_witness : page_round_down 0x123456789abc + 0x123456789abc mod page_size = 0x123456789abc.
Proof. apply (va_decomposition 0x123456789abc). lia. Defined.

Lemma pte_roundtrip_witness :
  to_pa (PteHal := Riscv.riscv_pte) (set_data (PteHal := Riscv.riscv_pte) (Z.lor 0x80001000 0x17)) = 0x80001000.
Proof.
  apply (pte_roundtrip Riscv.riscv_pte 0x80001000 0x17); [by left|split; [lia|done]|lia|done].
Defined.

End PageThm.
