(* ===== verification/Mem.v ===== *)
(** Byte-addressed kernel memory.

    Addresses are the kernel's pointers.  A byte that was never written reads
    as zero.  Wider accesses are little endian, as on both ports. *)

From Stdlib Require Import ZArith Lia.
From stdpp Require Import base numbers gmap list.
From S2P Require Import Prelude.

Set Default Goal Selector "!".
Open Scope Z_scope.

Abbreviation mem := (gmap Z Z).

Definition byte_at (m : mem) (a : Z) : Z := default 0 (m !! a).
Definition store_byte (a v : Z) (m : mem) : mem := <[a := v]> m.

Fixpoint load_bytes (m : mem) (a : Z) (n : nat) : list Z :=
  match n with
  | O => []
  | S n' => byte_at m a :: load_bytes m (a + 1) n'
  end.

Fixpoint store_bytes (m : mem) (a : Z) (l : list Z) : mem :=
  match l with
  | [] => m
  | b :: l' => store_bytes (store_byte a b m) (a + 1) l'
  end.

(** Little-endian words. *)
Definition le_combine (l : list Z) : Z := foldr (λ b acc, b + 256 * acc) 0 l.
Fixpoint le_split (n : nat) (v : Z) : list Z :=
  match n with
  | O => []
  | S n' => v mod 256 :: le_split n' (v / 256)
  end.

Definition load64 (m : mem) (a : Z) : Z := le_combine (load_bytes m a 8).
Definition store64 (a v : Z) (m : mem) : mem := store_bytes m a (le_split 8 v).

Definition bytes (l : list Z) : Prop := Forall (λ b, 0 ≤ b < 256) l.
Definition mem_ok (m : mem) : Prop := ∀ a, 0 ≤ byte_at m a < 256.

#[global] Arguments byte_at : simpl never.
#[global] Arguments store_byte : simpl never.
#[global] Arguments load64 : simpl never.
#[global] Arguments store64 : simpl never.

(** ** Single bytes *)

Lemma byte_store m a v x : byte_at (store_byte a v m) x = if decide (x = a) then v else byte_at m x.
Proof.
  unfold byte_at, store_byte. destruct (decide (x = a)) as [->|Hne].
  - by rewrite lookup_insert_eq.
  - by rewrite lookup_insert_ne.
Qed.

Lemma mem_ok_store m a v : mem_ok m → 0 ≤ v < 256 → mem_ok (store_byte a v m).
Proof. intros Hm Hv x. rewrite byte_store. by destruct (decide _). Qed.

(** ** Runs of bytes *)

Lemma length_load m a n : length (load_bytes m a n) = n.
Proof. revert a. induction n as [|n IH]; intros a; simpl; congruence. Qed.

Lemma load_bytes_lookup m a n i : (i < n)%nat → load_bytes m a n !! i = Some (byte_at m (a + Z.of_nat i)).
Proof.
  revert a i. induction n as [|n IH]; intros a [|i] Hi; simpl; try lia.
  - by rewrite Z.add_0_r.
  - rewrite IH by lia. do 2 f_equal. lia.
Qed.

Lemma load_bytes_ext m m' a n : (∀ x, a ≤ x < a + Z.of_nat n → byte_at m x = byte_at m' x) →
  load_bytes m a n = load_bytes m' a n.
Proof.
  revert a. induction n as [|n IH]; intros a H; simpl; [done|].
  rewrite H, IH by (intros; try apply H; lia). done.
Qed.

Lemma load_bytes_app m a n k : load_bytes m a (n + k) = load_bytes m a n ++ load_bytes m (a + Z.of_nat n) k.
Proof.
  revert a. induction n as [|n IH]; intros a; simpl; [by rewrite Z.add_0_r|].
  rewrite IH. do 3 f_equal. lia.
Qed.

Lemma load_prefix m a n k : (n ≤ k)%nat → load_bytes m a n = take n (load_bytes m a k).
Proof.
  intros Hle. replace k with (n + (k - n))%nat by lia. rewrite load_bytes_app.
  rewrite take_app_length'; [done|by rewrite length_load].
Qed.

Lemma store_bytes_at m a l x : byte_at (store_bytes m a l) x =
  if decide (a ≤ x < a + Z.of_nat (length l)) then default 0 (l !! Z.to_nat (x - a)) else byte_at m x.
Proof.
  revert m a. induction l as [|b l IH]; intros m a; simpl.
  { rewrite decide_False by lia. done. }
  rewrite IH, byte_store. destruct (decide (x = a)) as [->|Hx].
  - rewrite decide_False, decide_True by lia. by rewrite Z.sub_diag.
  - destruct (decide (a + 1 ≤ x < a + 1 + Z.of_nat (length l))).
    + rewrite decide_True by lia. by replace (Z.to_nat (x - a)) with (S (Z.to_nat (x - (a + 1)))) by lia.
    + by rewrite decide_False by lia.
Qed.

Lemma store_bytes_out m a l x : ¬ a ≤ x < a + Z.of_nat (length l) →
  byte_at (store_bytes m a l) x = byte_at m x.
Proof. intros H. rewrite store_bytes_at. by rewrite decide_False. Qed.

Lemma mem_ok_bytes m a l : mem_ok m → bytes l → mem_ok (store_bytes m a l).
Proof.
  intros Hm Hl. revert m a Hm. induction Hl as [|b l Hb _ IH]; intros m a Hm; simpl; [done|].
  by apply IH, mem_ok_store.
Qed.

Lemma bytes_load m a n : mem_ok m → bytes (load_bytes m a n).
Proof. intros Hm. revert a. induction n as [|n IH]; intros a; constructor; [apply Hm|apply IH]. Qed.

Lemma load_store_same m a l : load_bytes (store_bytes m a l) a (length l) = l.
Proof.
  apply list_eq. intros i. destruct (decide (i < length l)%nat) as [Hi|Hi].
  - rewrite load_bytes_lookup, store_bytes_at, decide_True by lia.
    replace (Z.to_nat (a + Z.of_nat i - a)) with i by lia. by destruct (lookup_lt_is_Some_2 l i Hi) as [b ->].
  - by rewrite !lookup_ge_None_2 by (rewrite ?length_load; lia).
Qed.

Lemma load_store_disj m a l b n : b + Z.of_nat n ≤ a ∨ a + Z.of_nat (length l) ≤ b →
  load_bytes (store_bytes m a l) b n = load_bytes m b n.
Proof. intros H. apply load_bytes_ext. intros x Hx. apply store_bytes_out. lia. Qed.

(** ** Words *)

Lemma length_split n v : length (le_split n v) = n.
Proof. revert v. induction n as [|n IH]; intros v; simpl; congruence. Qed.

Lemma bytes_split n v : bytes (le_split n v).
Proof. revert v. induction n as [|n IH]; intros v; constructor; [by apply Z.mod_pos_bound|apply IH]. Qed.

Lemma le_combine_split n v : 0 ≤ v < 256 ^ Z.of_nat n → le_combine (le_split n v) = v.
Proof.
  revert v. induction n as [|n IH]; intros v Hv; [simpl in *; lia|].
  change (le_combine (le_split (S n) v)) with (v mod 256 + 256 * le_combine (le_split n (v / 256))).
  rewrite Nat2Z.inj_succ, Z.pow_succ_r in Hv by lia.
  rewrite IH by (split; [apply Z.div_pos; lia|apply Z.div_lt_upper_bound; lia]).
  Z.div_mod_to_equations. lia.
Qed.

Lemma le_combine_bound l : bytes l → 0 ≤ le_combine l < 256 ^ Z.of_nat (length l).
Proof.
  induction 1 as [|b l Hb _ IH]; [simpl; lia|].
  change (le_combine (b :: l)) with (b + 256 * le_combine l). cbn [length].
  rewrite Nat2Z.inj_succ, Z.pow_succ_r by lia. lia.
Qed.

Lemma load64_store64 m a v : 0 ≤ v < 2 ^ 64 → load64 (store64 a v m) a = v.
Proof.
  intros Hv. unfold load64, store64. change 8%nat with (length (le_split 8 v)) at 2.
  rewrite load_store_same. by apply le_combine_split.
Qed.

Lemma load64_store64_ne m a b v : b + 8 ≤ a ∨ a + 8 ≤ b → load64 (store64 a v m) b = load64 m b.
Proof. intros H. unfold load64, store64. rewrite load_store_disj; [done|]. rewrite length_split. lia. Qed.

Lemma load64_ext m m' a : (∀ x, a ≤ x < a + 8 → byte_at m x = byte_at m' x) → load64 m a = load64 m' a.
Proof. intros H. unfold load64. f_equal. by apply load_bytes_ext. Qed.

Lemma store64_out m a v x : ¬ a ≤ x < a + 8 → byte_at (store64 a v m) x = byte_at m x.
Proof. intros H. apply store_bytes_out. by rewrite length_split. Qed.

Lemma load64_bound m a : mem_ok m → 0 ≤ load64 m a < 2 ^ 64.
Proof.
  intros Hm. unfold load64. pose proof (le_combine_bound _ (bytes_load m a 8 Hm)) as H.
  by rewrite length_load in H.
Qed.

Lemma mem_ok_store64 m a v : mem_ok m → mem_ok (store64 a v m).
Proof. intros Hm. apply mem_ok_bytes; [done|apply bytes_split]. Qed.

Lemma load64_zero m a : (∀ x, a ≤ x < a + 8 → byte_at m x = 0) → load64 m a = 0.
Proof. intros H. by rewrite (load64_ext m ∅). Qed.

#[export] Hint Resolve mem_ok_store mem_ok_bytes mem_ok_store64 bytes_load bytes_split : mach.
