(* ===== verification/Klib.v ===== *)
(** The kernel's C library: [kernel/klib/klib.cc], [common.cc] and
    [template_algorithmn.hh].

    The memory and string routines run on the byte memory of [Mem.v]; loops
    whose bound is the position of a terminator take fuel.  [char_val] is the
    value of a [char]: unsigned on RISC-V, signed on LoongArch. *)

From Stdlib Require Import ZArith Lia.
From stdpp Require Import base numbers gmap list.
From S2P Require Import Prelude Mem.

Set Default Goal Selector "!".
Open Scope Z_scope.

Module Klib.

Abbreviation K := (M mem).

Definition rd (a : Z) : K Z := gets (λ m, byte_at m a).
Definition wr (a v : Z) : K unit := modify (store_byte a (u8 v)).

(** * klib.cc *)

Fixpoint memset_loop (k : nat) (b c : Z) : K unit :=
  match k with
  | O => mret tt
  | S k' => wr b c;; memset_loop k' (b + 1) c
  end.
Definition memset (s c n : Z) : K Z := memset_loop (Z.to_nat n) s c;; mret s.

(** The copy runs from the last byte down; the loop ends when the source
    pointer passes below [src], which a source at address 0 never does. *)
Fixpoint memmove_loop (fuel : nat) (src i j : Z) : K unit :=
  match fuel with
  | O => spin
  | S f =>
      if src <=? i then
        b ← rd i; wr j b;; memmove_loop f src (i ⊟ 1) (j ⊟ 1)
      else mret tt
  end.
Definition memmove (dst src n : Z) : K Z :=
  if n <=? 0 then mret dst
  else memmove_loop (S (Z.to_nat n)) src (src ⊞ (n - 1)) (dst ⊞ (n - 1));; mret dst.

Fixpoint memcpy_loop (k : nat) (i j : Z) : K unit :=
  match k with
  | O => mret tt
  | S k' => b ← rd i; wr j b;; memcpy_loop k' (i + 1) (j + 1)
  end.
Definition memcpy (out inp n : Z) : K Z := memcpy_loop (Z.to_nat n) inp out;; mret out.

Fixpoint memcmp_loop (fuel : nat) (i j cnt n : Z) : K Z :=
  match fuel with
  | O => spin
  | S f =>
      x ← rd i; y ← rd j;
      if x =? y then
        if (x =? 0) || (n <=? cnt) then mret 0 else memcmp_loop f (i + 1) (j + 1) (cnt + 1) n
      else mret (if x <? y then -1 else 1)
  end.
Definition memcmp (s1 s2 n : Z) : K Z :=
  if n =? 0 then mret 0 else memcmp_loop (Z.to_nat n) s1 s2 1 n.

Fixpoint strlen_loop (fuel : nat) (s len : Z) : K Z :=
  match fuel with
  | O => spin
  | S f => x ← rd s; if x =? 0 then mret len else strlen_loop f (s + 1) (len + 1)
  end.
Definition strlen (fuel : nat) (s : Z) : K Z := strlen_loop fuel s 0.

(** The copying loop of [strcpy] and [strcat]: ends with the written NUL. *)
Fixpoint strcpy_loop (fuel : nat) (j src : Z) : K unit :=
  match fuel with
  | O => spin
  | S f =>
      x ← rd src;
      if x =? 0 then wr j 0 else wr j x;; strcpy_loop f (j + 1) (src + 1)
  end.
Definition strcpy (fuel : nat) (dst src : Z) : K Z := strcpy_loop fuel dst src;; mret dst.

Fixpoint strncpy_loop (k : nat) (j src : Z) : K unit :=
  match k with
  | O => mret tt
  | S k' =>
      x ← rd src;
      if x =? 0 then memset_loop k j 0 else wr j x;; strncpy_loop k' (j + 1) (src + 1)
  end.
Definition strncpy (dst src n : Z) : K Z := strncpy_loop (Z.to_nat n) dst src;; mret dst.

Fixpoint skip_to_nul (fuel : nat) (j : Z) : K Z :=
  match fuel with
  | O => spin
  | S f => x ← rd j; if x =? 0 then mret j else skip_to_nul f (j + 1)
  end.
Definition strcat (fuel : nat) (dst src : Z) : K Z :=
  j ← skip_to_nul fuel dst; strcpy_loop fuel j src;; mret dst.

Section chars.
Context (char_val : Z → Z).

Fixpoint strcmp (fuel : nat) (s1 s2 : Z) : K Z :=
  match fuel with
  | O => spin
  | S f =>
      x ← rd s1; y ← rd s2;
      if x =? y then if x =? 0 then mret 0 else strcmp f (s1 + 1) (s2 + 1)
      else mret (if char_val x <? char_val y then -1 else 1)
  end.

(** The loop of [strncmp] and [strncmpamb], which differ in when two
    characters count as equal. *)
Fixpoint strncmp_loop (same : Z → Z → bool) (fuel : nat) (s1 s2 cnt n : Z) : K Z :=
  match fuel with
  | O => spin
  | S f =>
      x ← rd s1; y ← rd s2;
      if same x y then
        if (x =? 0) || (cnt =? n) then mret 0 else strncmp_loop same f (s1 + 1) (s2 + 1) (cnt + 1) n
      else mret (if char_val x <? char_val y then -1 else 1)
  end.
Definition strncmp (s1 s2 n : Z) : K Z :=
  if n =? 0 then mret 0 else strncmp_loop Z.eqb (Z.to_nat n) s1 s2 1 n.

(** ['A' = 65], ['a' = 97]. *)
Definition same_letter (x y : Z) : bool :=
  let c := char_val x in let d := char_val y in
  (c =? d) || (97 <=? c) && (c <=? 122) && (d - c =? 65 - 97)
           || (65 <=? c) && (c <=? 90) && (c - d =? 65 - 97).
Definition strncmpamb (s1 s2 n : Z) : K Z :=
  if n =? 0 then mret 0 else strncmp_loop same_letter (Z.to_nat n) s1 s2 1 n.
End chars.

(** Pointers are returned as addresses, [nullptr] as 0; [c] is compared as
    the byte it has. *)
Fixpoint strrchr_loop (fuel : nat) (s c j : Z) : K Z :=
  match fuel with
  | O => spin
  | S f =>
      x ← rd s;
      if x =? 0 then mret j else strrchr_loop f (s + 1) c (if x =? c then s else j)
  end.
Definition strrchr (fuel : nat) (s c : Z) : K Z := strrchr_loop fuel s (u8 c) 0.

Fixpoint strchr_loop (fuel : nat) (s c : Z) : K Z :=
  match fuel with
  | O => spin
  | S f =>
      x ← rd s;
      if x =? 0 then mret 0 else if x =? c then mret s else strchr_loop f (s + 1) c
  end.
Definition strchr (fuel : nat) (s c : Z) : K Z := strchr_loop fuel s (u8 c).

Fixpoint memchr_loop (k : nat) (src d : Z) : K Z :=
  match k with
  | O => mret 0
  | S k' => x ← rd src; if x =? d then mret src else memchr_loop k' (src + 1) d
  end.
Definition memchr (src c length : Z) : K Z := memchr_loop (Z.to_nat length) src (u8 c).

(** * common.cc *)

Definition bit_set (data kbit : Z) : K unit :=
  let p := data + kbit / 8 in
  x ← rd p; wr p (Z.lor x (Z.shiftl 1 (kbit mod 8))).
Definition bit_reset (data kbit : Z) : K unit :=
  let p := data + kbit / 8 in
  x ← rd p; wr p (Z.land x (u8 (Z.lnot (Z.shiftl 1 (kbit mod 8))))).
Definition bit_test (data kbit : Z) : K bool :=
  x ← rd (data + kbit / 8);
  mret (negb (Z.land x (Z.shiftl 1 (kbit mod 8)) =? 0)).

Fixpoint compare_loop (k : nat) (s t i : Z) : K Z :=
  match k with
  | O => mret 0
  | S k' =>
      x ← rd (s + i); y ← rd (t + i);
      if x =? y then compare_loop k' s t (i + 1) else mret i
  end.
Definition compare (s t len : Z) : K Z := compare_loop (Z.to_nat len) s t 0.

Fixpoint lowest_bit_loop (fuel : nat) (x pos : Z) : option Z :=
  match fuel with
  | O => None
  | S f => if Z.land x 1 =? 0 then lowest_bit_loop f (Z.shiftr x 1) (pos + 1) else Some pos
  end.
Definition lowest_bit (x : Z) : option Z :=
  if x =? 0 then Some (-1) else lowest_bit_loop 64 x 0.

Fixpoint highest_bit_loop (fuel : nat) (x test pos : Z) : option Z :=
  match fuel with
  | O => None
  | S f => if Z.land x test =? 0 then highest_bit_loop f (x ⋘ 1) test (pos - 1) else Some pos
  end.
Definition highest_bit (x : Z) : option Z :=
  if x =? 0 then Some (-1) else highest_bit_loop 64 x (U64_MAX ⋘ 63) 63.

Fixpoint power_loop (fuel : nat) (ans x y : Z) : option Z :=
  match fuel with
  | O => None
  | S f =>
      if y =? 0 then Some ans
      else power_loop f (if Z.land y 1 =? 0 then ans else u64 (ans * x)) (u64 (x * x)) (Z.shiftr y 1)
  end.
Definition power (x y : Z) : option Z := power_loop 65 1 x y.

(** * template_algorithmn.hh *)

(** [binary_search] on the array indices [first .. last]; [comp i] is the
    comparison of element [i] with the target. *)
Fixpoint binary_search (fuel : nat) (first last : Z) (comp : Z → Z) : option (option Z) :=
  match fuel with
  | O => None
  | S f =>
      if first <=? last then
        let len := last - first + 1 in
        let mid := first + Z.quot len 2 in
        let comp_res := comp mid in
        if comp_res <? 0 then binary_search f first (mid - 1) comp
        else if 0 <? comp_res then binary_search f (mid + 1) last comp
        else Some (Some mid)
      else Some None
  end.

End Klib.
