(* ===== verification/KlibThm.v ===== *)
(** Correctness of the kernel's C library ([Klib.v]). *)

From Stdlib Require Import ZArith Lia.
From stdpp Require Import base numbers gmap list.
From S2P Require Import Prelude Mem Klib.
Import Klib.

Set Default Goal Selector "!".
Open Scope Z_scope.

Module KlibThm.

(** ** Block operations *)

Lemma store_bytes_snoc m a l b :
  store_bytes m a (l ++ [b]) = store_bytes (store_byte (a + Z.of_nat (length l)) b m) a l.
Proof.
  revert m a. induction l as [|x l IH]; intros m a; simpl; [by rewrite Z.add_0_r|].
  rewrite IH. f_equal. unfold store_byte. rewrite insert_insert_ne by lia. do 2 f_equal. lia.
Qed.

Lemma u8_byte x : 0 ≤ x < 256 → u8 x = x.
Proof. intros. by apply Z.mod_small. Qed.

Lemma load_snoc m a k : load_bytes m a (S k) = load_bytes m a k ++ [byte_at m (a + Z.of_nat k)].
Proof. rewrite <- Nat.add_1_r, load_bytes_app. done. Qed.

Lemma load_store_byte m a v b k : ¬ b ≤ a < b + Z.of_nat k →
  load_bytes (store_byte a v m) b k = load_bytes m b k.
Proof. intros H. apply load_bytes_ext. intros x Hx. rewrite byte_store, decide_False; [done|lia]. Qed.

Lemma memset_loop_run k b c m :
  memset_loop k b c m = Ret tt (store_bytes m b (replicate k (u8 c))).
Proof. revert b m. induction k as [|k IH]; intros b m; [done|]. simpl. unfold wr. mrun. by rewrite IH. Qed.

Lemma memcpy_loop_run k i j m : mem_ok m → (j ≤ i ∨ i + Z.of_nat k ≤ j) →
  memcpy_loop k i j m = Ret tt (store_bytes m j (load_bytes m i k)).
Proof.
  revert i j m. induction k as [|k IH]; intros i j m Hm Hd; [done|]. simpl.
  unfold mbind at 1, M_bind at 1, rd, gets. unfold mbind, M_bind, wr, modify.
  rewrite u8_byte by apply Hm. rewrite IH by (auto with mach; lia). do 2 f_equal.
  apply load_store_byte. lia.
Qed.

Lemma memmove_loop_run k src dst m : mem_ok m → 1 ≤ src → src + Z.of_nat k < 2 ^ 64 →
  0 ≤ dst → dst + Z.of_nat k < 2 ^ 64 → src ≤ dst ∨ dst + Z.of_nat k ≤ src →
  memmove_loop (S k) src (src + Z.of_nat k - 1) (u64 (dst + Z.of_nat k - 1)) m =
    Ret tt (store_bytes m dst (load_bytes m src k)).
Proof.
  intros Hm Hs Hsk Hd0 Hdk Hd. revert m Hm. induction k as [|k IH]; intros m Hm.
  - simpl. zbool; [lia|done].
  - remember (S k) as k' eqn:Ek. cbn [memmove_loop]. zbool; [|lia].
    unfold mbind at 1, M_bind at 1, rd, gets. unfold mbind, M_bind, wr, modify.
    rewrite u8_byte by apply Hm. subst k'.
    replace (src + Z.of_nat (S k) - 1) with (src + Z.of_nat k) by lia.
    replace (dst + Z.of_nat (S k) - 1) with (dst + Z.of_nat k) by lia.
    rewrite (wrap64_small (src + Z.of_nat k - 1)), (wrap64_small (dst + Z.of_nat k)) by lia.
    rewrite IH by (auto with mach; lia).
    rewrite load_store_byte, load_snoc, store_bytes_snoc, length_load by lia. done.
Qed.

Lemma memmove_run dst src n m : mem_ok m → 0 ≤ n → 1 ≤ src → src + n < 2 ^ 64 →
  0 ≤ dst → dst + n < 2 ^ 64 → src ≤ dst ∨ dst + n ≤ src →
  memmove dst src n m = Ret dst (store_bytes m dst (load_bytes m src (Z.to_nat n))).
Proof.
  intros Hm Hn Hs Hsn Hd Hdn Ho. unfold memmove. zbool.
  { by replace n with 0 by lia. }
  rewrite (wrap64_small (src + (n - 1))) by lia.
  replace (src + (n - 1)) with (src + Z.of_nat (Z.to_nat n) - 1) by lia.
  replace (dst + (n - 1)) with (dst + Z.of_nat (Z.to_nat n) - 1) by lia.
  unfold mbind, M_bind. by rewrite memmove_loop_run by (auto; lia).
Qed.

(** ** Strings *)

(** The NUL-terminated string [l] is stored at [a]. *)
Definition cstr (m : mem) (a : Z) (l : list Z) : Prop :=
  load_bytes m a (S (length l)) = l ++ [0] ∧ Forall (λ b, b ≠ 0) l.

Lemma cstr_nil m a : cstr m a [] ↔ byte_at m a = 0.
Proof.
  unfold cstr. simpl. split; [by intros [[=] _]|]. intros ->. by split.
Qed.

Lemma cstr_cons m a x l : cstr m a (x :: l) ↔ byte_at m a = x ∧ x ≠ 0 ∧ cstr m (a + 1) l.
Proof.
  unfold cstr. rewrite Forall_cons. simpl. split.
  - intros [[= -> H] [Hx Hl]]. by split_and!.
  - intros (-> & Hx & H & Hl). split; [by f_equal|done].
Qed.

Lemma cstr_ext m m' a l : (∀ x, a ≤ x ≤ a + Z.of_nat (length l) → byte_at m x = byte_at m' x) →
  cstr m a l → cstr m' a l.
Proof.
  intros H [Hl Hn]. split; [|done]. rewrite <- Hl. symmetry. apply load_bytes_ext.
  intros x Hx. apply H. lia.
Qed.

Lemma strlen_loop_run fuel s len l m : cstr m s l → (length l < fuel)%nat →
  strlen_loop fuel s len m = Ret (len + Z.of_nat (length l)) m.
Proof.
  revert s len l. induction fuel as [|f IH]; intros s len l Hl Hf; [lia|]. simpl. mrun.
  unfold rd, gets. destruct l as [|x l].
  - apply cstr_nil in Hl. rewrite Hl. simpl. by rewrite Z.add_0_r.
  - apply cstr_cons in Hl as (-> & Hx & Hl). rewrite (proj2 (Z.eqb_neq x 0) Hx).
    rewrite (IH _ _ l) by (done || simpl in Hf; lia). f_equal. simpl. lia.
Qed.

Lemma strcpy_loop_run fuel dst src l m : mem_ok m → cstr m src l → (length l < fuel)%nat →
  dst ≤ src ∨ src + Z.of_nat (length l) < dst →
  strcpy_loop fuel dst src m = Ret tt (store_bytes m dst (l ++ [0])).
Proof.
  revert dst src l m. induction fuel as [|f IH]; intros dst src l m Hm Hl Hf Hd; [lia|]. simpl. mrun.
  unfold rd, gets, wr, modify. destruct l as [|x l].
  - apply cstr_nil in Hl. by rewrite Hl.
  - apply cstr_cons in Hl as (Hb & Hx & Hl). rewrite Hb, (proj2 (Z.eqb_neq x 0) Hx).
    simpl in Hf, Hd. rewrite u8_byte by (rewrite <- Hb; apply Hm).
    assert (0 ≤ x < 256) by (rewrite <- Hb; apply Hm).
    rewrite (IH _ _ l); [done|auto with mach| |lia|lia].
    apply (cstr_ext m); [|done]. intros y Hy. rewrite byte_store, decide_False; [done|lia].
Qed.

(** Reference comparison of two strings of characters. *)
Fixpoint str_compare (v : Z → Z) (l1 l2 : list Z) : Z :=
  match l1, l2 with
  | [], [] => 0
  | [], y :: _ => if v 0 <? v y then -1 else 1
  | x :: _, [] => if v x <? v 0 then -1 else 1
  | x :: l1', y :: l2' => if x =? y then str_compare v l1' l2' else if v x <? v y then -1 else 1
  end.

Lemma str_compare_eq v l1 l2 : Forall (λ b, b ≠ 0) l1 → Forall (λ b, b ≠ 0) l2 →
  str_compare v l1 l2 = 0 ↔ l1 = l2.
Proof.
  intros H1. revert l2. induction H1 as [|x l1 Hx _ IH]; intros l2 H2; destruct H2 as [|y l2 Hy H2]; simpl;
    [done|by destruct (v 0 <? v y)|by destruct (v x <? v 0)|].
  destruct (Z.eqb_spec x y) as [->|Hne]; [rewrite IH by done; naive_solver|].
  destruct (v x <? v y); naive_solver.
Qed.

Lemma strcmp_run v fuel s1 s2 l1 l2 m : cstr m s1 l1 → cstr m s2 l2 → (length l1 < fuel)%nat →
  strcmp v fuel s1 s2 m = Ret (str_compare v l1 l2) m.
Proof.
  revert s1 s2 l1 l2. induction fuel as [|f IH]; intros s1 s2 l1 l2 H1 H2 Hf; [lia|]. simpl. mrun.
  unfold rd, gets. destruct l1 as [|x l1], l2 as [|y l2]; rewrite ?cstr_nil, ?cstr_cons in *; simpl.
  - by rewrite H1, H2.
  - destruct H2 as (-> & Hy & _). rewrite H1. by destruct (Z.eqb_spec 0 y) as [<-|].
  - destruct H1 as (-> & Hx & _). rewrite H2. by destruct (Z.eqb_spec x 0).
  - destruct H1 as (-> & Hx & H1), H2 as (-> & Hy & H2). destruct (Z.eqb_spec x y) as [->|]; [|done].
    rewrite (proj2 (Z.eqb_neq y 0) Hy). apply IH; [done..|simpl in Hf; lia].
Qed.

(** ** Bits and powers *)

Lemma lowest_loop_run fuel x pos : 0 < x < 2 ^ Z.of_nat fuel →
  ∃ k, lowest_bit_loop fuel x pos = Some (pos + k) ∧ 0 ≤ k ∧
    Z.testbit x k = true ∧ ∀ i, 0 ≤ i < k → Z.testbit x i = false.
Proof.
  revert x pos. induction fuel as [|f IH]; intros x pos Hx; [simpl in Hx; lia|].
  cbn [lowest_bit_loop]. change 1 with (Z.ones 1) at 1. rewrite (Z.land_ones x 1), Z.shiftr_div_pow2 by lia. change (2 ^ 1) with 2.
  rewrite Nat2Z.inj_succ, Z.pow_succ_r in Hx by lia.
  destruct (Z.eqb_spec (x mod 2) 0) as [E|E].
  - destruct (IH (x / 2) (pos + 1)) as (k & R & Hk & Ht & Hlow).
    { Z.div_mod_to_equations; lia. }
    exists (k + 1). split_and!; [rewrite R; f_equal; lia|lia| |].
    + rewrite <- Ht. rewrite <- (Z.shiftr_spec x 1 k), Z.shiftr_div_pow2 by lia. done.
    + intros i Hi. destruct (Z.eq_dec i 0) as [->|].
      * rewrite Z.bit0_odd, Zodd_mod. by rewrite E.
      * replace i with ((i - 1) + 1) by lia. rewrite <- (Z.shiftr_spec x 1), Z.shiftr_div_pow2 by lia.
        change (2 ^ 1) with 2. apply Hlow. lia.
  - exists 0. split_and!; [f_equal; lia|done| |lia].
    rewrite Z.bit0_odd, Zodd_mod. apply Zeq_is_eq_bool. Z.div_mod_to_equations; lia.
Qed.

Lemma land_top x : 0 ≤ x < 2 ^ 64 → (Z.land x (2 ^ 63) =? 0) = (x <? 2 ^ 63).
Proof.
  intros Hx. destruct (Z.ltb_spec x (2 ^ 63)).
  - apply Z.eqb_eq. rewrite Z.land_comm. apply (land_high_low (2 ^ 63) x 63); [lia|done|lia].
  - apply Z.eqb_neq. intros E. apply (f_equal (λ z, Z.testbit z 63)) in E.
    rewrite Z.land_spec, Z.testbit_0_l, Z.pow2_bits_true, andb_true_r in E by lia.
    assert (Z.log2 x = 63) as L by (apply Z.log2_unique; lia).
    rewrite <- L, Z.bit_log2 in E by lia. done.
Qed.

Lemma highest_loop_run fuel x pos : 0 < x < 2 ^ 64 → 63 - Z.log2 x < Z.of_nat fuel →
  highest_bit_loop fuel x (2 ^ 63) pos = Some (pos - (63 - Z.log2 x)).
Proof.
  revert x pos. induction fuel as [|f IH]; intros x pos Hx Hf.
  { assert (Z.log2 x < 64) by (apply Z.log2_lt_pow2; lia). lia. }
  cbn [highest_bit_loop]. rewrite land_top by lia. zbool.
  - rewrite Z.shiftl_mul_pow2 by lia. rewrite wrap64_small by lia.
    assert (Z.log2 (x * 2 ^ 1) = Z.log2 x + 1) as L.
    { change (2 ^ 1) with 2. rewrite Z.mul_comm, Z.log2_double by lia. lia. }
    rewrite IH, L by lia. f_equal. lia.
  - assert (Z.log2 x = 63) as -> by (apply Z.log2_unique; lia). f_equal. lia.
Qed.

Lemma power_loop_run fuel ans x y : 0 ≤ y < 2 ^ (Z.of_nat fuel - 1) →
  power_loop fuel (u64 ans) (u64 x) y = Some (u64 (ans * x ^ y)).
Proof.
  revert ans x y. induction fuel as [|f IH]; intros ans x y Hy.
  { change (2 ^ (Z.of_nat 0 - 1)) with 0 in Hy. lia. }
  cbn [power_loop]. destruct (Z.eqb_spec y 0) as [->|Hy0].
  { by rewrite Z.pow_0_r, Z.mul_1_r. }
  assert (0 < Z.of_nat f) as Hf.
  { destruct f; [|lia]. change (2 ^ (Z.of_nat 1 - 1)) with 1 in Hy. lia. }
  replace (Z.of_nat (S f) - 1) with (Z.of_nat f - 1 + 1) in Hy by lia. rewrite pow2_S in Hy by lia.
  change 1 with (Z.ones 1) at 1. rewrite Z.land_ones, Z.shiftr_div_pow2 by lia. change (2 ^ 1) with 2.
  assert (u64 (u64 x * u64 x) = u64 (x * x)) as -> by (unfold u64; by rewrite <- Zmult_mod).
  assert (u64 (u64 ans * u64 x) = u64 (ans * x)) as -> by (unfold u64; by rewrite <- Zmult_mod).
  assert ((x * x) ^ (y / 2) = x ^ (2 * (y / 2))) as E.
  { rewrite Z.pow_mul_r by (Z.div_mod_to_equations; lia). by rewrite Z.pow_2_r. }
  destruct (Z.eqb_spec (y mod 2) 0) as [Ey|Ey]; rewrite IH by (Z.div_mod_to_equations; lia); rewrite E.
  - do 4 f_equal. Z.div_mod_to_equations; lia.
  - replace (x ^ y) with (x * x ^ (2 * (y / 2))); [by rewrite Z.mul_assoc|].
    rewrite <- Z.pow_succ_r by (Z.div_mod_to_equations; lia). f_equal. Z.div_mod_to_equations; lia.
Qed.

(** ** Binary search *)

(** [comp] is ordered the way a sorted array is: to the left of an element
    that lies before the target every element does, and to the right of one
    that lies after it every element does. *)
Definition ordered (comp : Z → Z) (first last : Z) : Prop :=
  ∀ i j, first ≤ i ≤ j → j ≤ last → (0 < comp j → 0 < comp i) ∧ (comp i < 0 → comp j < 0).

Lemma binary_search_run fuel first last comp : ordered comp first last →
  0 ≤ last - first + 1 < Z.of_nat fuel →
  ∃ r, binary_search fuel first last comp = Some r ∧
    match r with
    | Some i => first ≤ i ≤ last ∧ comp i = 0
    | None => ∀ i, first ≤ i ≤ last → comp i ≠ 0
    end.
Proof.
  revert first last. induction fuel as [|f IH]; intros first last Ho Hf; [lia|].
  cbn [binary_search]. destruct (Z.leb_spec first last); [|exists None; split; [done|lia]].
  rewrite Z.quot_div_nonneg by lia. set (mid := first + (last - first + 1) / 2).
  assert (first ≤ mid ≤ last) as Hm by (unfold mid; Z.div_mod_to_equations; lia).
  destruct (Z.ltb_spec (comp mid) 0) as [Hlt|]; [|destruct (Z.ltb_spec 0 (comp mid)) as [Hgt|]].
  - destruct (IH first (mid - 1)) as (r & R & Hr); [intros i j ??; apply Ho; lia|lia|].
    exists r. split; [done|]. destruct r as [i|]; [split; [lia|apply Hr]|].
    intros i Hi. destruct (Z.lt_ge_cases i mid); [apply Hr; lia|].
    pose proof (proj2 (Ho mid i ltac:(lia) ltac:(lia)) Hlt). lia.
  - destruct (IH (mid + 1) last) as (r & R & Hr); [intros i j ??; apply Ho; lia|lia|].
    exists r. split; [done|]. destruct r as [i|]; [split; [lia|apply Hr]|].
    intros i Hi. destruct (Z.lt_ge_cases mid i); [apply Hr; lia|].
    pose proof (proj1 (Ho i mid ltac:(lia) ltac:(lia)) Hgt). lia.
  - exists (Some mid). split; [done|]. split; [done|lia].
Qed.

(** ** Bit arrays *)

Definition bit_of (m : mem) (data k : Z) : bool := Z.testbit (byte_at m (data + k / 8)) (k mod 8).

Lemma bit_other m data k i v : 0 ≤ k → 0 ≤ i →
  bit_of (store_byte (data + k / 8) v m) data i =
    if decide (i / 8 = k / 8) then Z.testbit v (i mod 8) else bit_of m data i.
Proof.
  intros Hk Hi. unfold bit_of. rewrite byte_store.
  destruct (decide (i / 8 = k / 8)) as [E|E]; [by rewrite E, decide_True|].
  rewrite decide_False; [done|lia].
Qed.

Lemma same_bit i k : i / 8 = k / 8 → i mod 8 = k mod 8 ↔ i = k.
Proof. intros E. split; [|by intros ->]. intros F. rewrite (Z.div_mod i 8), (Z.div_mod k 8) by lia. congruence. Qed.

Lemma testbit_byte x i : 0 ≤ i < 8 → Z.testbit (u8 x) i = Z.testbit x i.
Proof. intros. unfold u8. apply Z.mod_pow2_bits_low. lia. Qed.

Lemma shl_bit j i : 0 ≤ j → 0 ≤ i → Z.testbit (Z.shiftl 1 j) i = bool_decide (i = j).
Proof.
  intros Hj Hi. rewrite Z.shiftl_1_l. destruct (decide (i = j)) as [->|].
  - by rewrite Z.pow2_bits_true, bool_decide_eq_true_2.
  - by rewrite Z.pow2_bits_false, bool_decide_eq_false_2.
Qed.

Lemma bit_set_run data k m i : 0 ≤ k → 0 ≤ i → ∃ m', bit_set data k m = Ret tt m' ∧
  bit_of m' data i = bool_decide (i = k) || bit_of m data i.
Proof.
  intros Hk Hi. unfold bit_set, rd, wr. mrun. eexists. split; [done|]. rewrite bit_other by done.
  pose proof (Z.mod_pos_bound i 8). pose proof (Z.mod_pos_bound k 8). destruct (decide _) as [E|E].
  - rewrite testbit_byte, Z.lor_spec, shl_bit by lia. unfold bit_of. rewrite E, orb_comm. f_equal.
    apply bool_decide_ext. by apply same_bit.
  - rewrite bool_decide_eq_false_2; [done|]. by intros ->.
Qed.

Lemma bit_reset_run data k m i : 0 ≤ k → 0 ≤ i → ∃ m', bit_reset data k m = Ret tt m' ∧
  bit_of m' data i = negb (bool_decide (i = k)) && bit_of m data i.
Proof.
  intros Hk Hi. unfold bit_reset, rd, wr. mrun. eexists. split; [done|]. rewrite bit_other by done.
  pose proof (Z.mod_pos_bound i 8). pose proof (Z.mod_pos_bound k 8). destruct (decide _) as [E|E].
  - rewrite testbit_byte, Z.land_spec, testbit_byte, Z.lnot_spec, shl_bit by lia.
    unfold bit_of. rewrite E, andb_comm. do 2 f_equal. apply bool_decide_ext. by apply same_bit.
  - rewrite bool_decide_eq_false_2; [done|]. by intros ->.
Qed.

Lemma bit_test_run data k m : 0 ≤ k → bit_test data k m = Ret (bit_of m data k) m.
Proof.
  intros Hk. unfold bit_test, rd. mrun. f_equal. unfold bit_of. set (x := byte_at m _).
  pose proof (Z.mod_pos_bound k 8 ltac:(lia)). destruct (Z.testbit x (k mod 8)) eqn:E.
  - apply negb_true_iff, Z.eqb_neq. intros F. apply (f_equal (λ z, Z.testbit z (k mod 8))) in F.
    rewrite Z.land_spec, shl_bit, E, bool_decide_eq_true_2, Z.testbit_0_l in F by (done || lia). done.
  - apply negb_false_iff, Z.eqb_eq, Z.bits_inj'. intros n Hn.
    rewrite Z.land_spec, shl_bit, Z.testbit_0_l by lia. destruct (decide (n = k mod 8)) as [->|].
    + by rewrite E.
    + by rewrite bool_decide_eq_false_2, andb_false_r.
Qed.

(** * The library's contracts *)

(** C38: [memset], [memcpy] and [memmove] write exactly the destination range.
    [memcpy] copies correctly when the destination is not inside the source,
    [memmove] when the source is not inside the destination. *)
Theorem klib_block_ops m dst src n c : mem_ok m → 0 ≤ n → 1 ≤ src → src + n < 2 ^ 64 →
  0 ≤ dst → dst + n < 2 ^ 64 →
  memset dst c n m = Ret dst (store_bytes m dst (replicate (Z.to_nat n) (u8 c))) ∧
  (dst ≤ src ∨ src + n ≤ dst →
    memcpy dst src n m = Ret dst (store_bytes m dst (load_bytes m src (Z.to_nat n)))) ∧
  (src ≤ dst ∨ dst + n ≤ src →
    memmove dst src n m = Ret dst (store_bytes m dst (load_bytes m src (Z.to_nat n)))).
Proof.
  intros Hm Hn Hs Hsn Hd Hdn. split_and!.
  - unfold memset, mbind, M_bind. by rewrite memset_loop_run.
  - intros Ho. unfold memcpy, mbind, M_bind. rewrite memcpy_loop_run; [done..|lia].
  - intros Ho. by apply memmove_run.
Qed.

(** With the destination below an overlapping source [memmove] repeats bytes
    it has already overwritten, though the source says the ranges may overlap. *)
Definition overlap_mem : mem := store_bytes ∅ 10 [1; 2; 3].
Example memmove_overlap :
  match memmove 9 10 3 overlap_mem with Ret _ m => load_bytes m 9 3 | _ => [] end = [3; 3; 3]
  ∧ load_bytes overlap_mem 10 3 = [1; 2; 3].
Proof. split; vm_compute; reflexivity. Qed.

(** [memcmp] stops at a common NUL byte, and [compare] returns 0 both for equal
    ranges and for ranges that differ at once. *)
Definition nul_mem : mem := store_bytes ∅ 10 [1; 0; 2; 1; 0; 3; 9].
Example memcmp_nul : memcmp 10 13 3 nul_mem = Ret 0 nul_mem ∧ byte_at nul_mem 12 ≠ byte_at nul_mem 15.
Proof. split; vm_compute; [reflexivity|discriminate]. Qed.
Example compare_first : compare 10 16 1 nul_mem = Ret 0 nul_mem ∧ compare 10 13 2 nul_mem = Ret 0 nul_mem.
Proof. split; vm_compute; reflexivity. Qed.

(** C39: on NUL-terminated strings, with fuel beyond their length, [strlen]
    returns the length, [strcpy] copies the string with its terminator and
    [strcmp] returns the comparison, 0 exactly for equal strings. *)
Theorem klib_strings v fuel m s1 s2 l1 l2 dst : mem_ok m → cstr m s1 l1 → cstr m s2 l2 →
  (length l1 < fuel)%nat → dst ≤ s1 ∨ s1 + Z.of_nat (length l1) < dst →
  strlen fuel s1 m = Ret (Z.of_nat (length l1)) m ∧
  strcpy fuel dst s1 m = Ret dst (store_bytes m dst (l1 ++ [0])) ∧
  strcmp v fuel s1 s2 m = Ret (str_compare v l1 l2) m ∧
  (str_compare v l1 l2 = 0 ↔ l1 = l2).
Proof.
  intros Hm H1 H2 Hf Hd. split_and!.
  - by apply (strlen_loop_run fuel s1 0 l1).
  - unfold strcpy, mbind, M_bind. by rewrite (strcpy_loop_run fuel dst s1 l1).
  - by apply strcmp_run.
  - apply str_compare_eq; [apply H1|apply H2].
Qed.

(** [bit_set], [bit_reset] and [bit_test] implement an array of bits:
    each changes or reads bit [k] and leaves every other bit as it was. *)
Theorem klib_bit_array m data k i : 0 ≤ k → 0 ≤ i →
  (∃ m', bit_set data k m = Ret tt m' ∧
     bit_test data i m' = Ret (bool_decide (i = k) || bit_of m data i) m') ∧
  (∃ m', bit_reset data k m = Ret tt m' ∧
     bit_test data i m' = Ret (negb (bool_decide (i = k)) && bit_of m data i) m') ∧
  bit_test data i m = Ret (bit_of m data i) m.
Proof.
  intros Hk Hi. split_and!.
  - destruct (bit_set_run data k m i Hk Hi) as (m' & R & E). exists m'. by rewrite bit_test_run, E.
  - destruct (bit_reset_run data k m i Hk Hi) as (m' & R & E). exists m'. by rewrite bit_test_run, E.
  - by apply bit_test_run.
Qed.

(** For a nonzero 64-bit word [lowest_bit] and [highest_bit] terminate with
    the position of the lowest and of the highest set bit, and [power] computes
    the power modulo 2^64. *)
Theorem klib_arith x y : 0 < x < 2 ^ 64 → 0 ≤ y < 2 ^ 64 →
  (∃ k, lowest_bit x = Some k ∧ 0 ≤ k ∧ Z.testbit x k = true ∧ ∀ i, 0 ≤ i < k → Z.testbit x i = false) ∧
  highest_bit x = Some (Z.log2 x) ∧ power x y = Some (u64 (x ^ y)).
Proof.
  intros Hx Hy. split_and!.
  - unfold lowest_bit. rewrite (proj2 (Z.eqb_neq x 0)) by lia. by apply (lowest_loop_run 64 x 0).
  - unfold highest_bit. rewrite (proj2 (Z.eqb_neq x 0)) by lia.
    change (U64_MAX ⋘ 63) with (2 ^ 63). pose proof (Z.log2_nonneg x).
    rewrite highest_loop_run by lia. f_equal. lia.
  - unfold power. replace (power_loop 65 1 x y) with (power_loop 65 (u64 1) (u64 x) y) by (by rewrite !wrap64_small by lia).
    rewrite power_loop_run by (change (Z.of_nat 65 - 1) with 64; lia). by rewrite Z.mul_1_l.
Qed.


(** ** Witnesses *)

Definition demo_mem : mem := store_bytes ∅ 0x100 [104; 105; 0; 104; 106; 0].
Lemma demo_mem_ok : mem_ok demo_mem.
Proof.
  apply mem_ok_bytes; [by intros a|]. unfold bytes. rewrite !Forall_cons. split_and!; lia || constructor.
Qed.

Lemma klib_block_ops_witness : memmove 0x200 0x100 3 demo_mem =
  Ret 0x200 (store_bytes demo_mem 0x200 (load_bytes demo_mem 0x100 3)).
Proof. apply (klib_block_ops demo_mem 0x200 0x100 3 0 demo_mem_ok); lia. Defined.

Lemma klib_strings_witness : strcmp i8 4 0x100 0x103 demo_mem = Ret (-1) demo_mem.
Proof.
  apply (klib_strings i8 4 demo_mem 0x100 0x103 [104; 105] [104; 106] 0x200 demo_mem_ok);
    [split; [vm_compute; reflexivity|repeat constructor; lia]..|simpl; lia|simpl; lia].
Defined.

Lemma klib_bit_array_witness : ∃ m', bit_set 0x100 17 demo_mem = Ret tt m' ∧
  bit_test 0x100 17 m' = Ret true m'.
Proof. apply (klib_bit_array demo_mem 0x100 17 17); lia. Defined.

Lemma klib_arith_witness : highest_bit 0x1234 = Some 12 ∧ power 3 5 = Some 243.
Proof.
  split; [apply (klib_arith 0x1234 5); lia|apply (klib_arith 3 5); lia].
Defined.


End KlibThm.
