(* ===== verification/Dll.v ===== *)
(** Circular doubly linked lists with a sentinel.

    The buddy allocator's free lists ([buddy_allocator.hh]) and the buffer
    blocks' LRU lists ([buffer.cc], [buffer_manager.cc]) are the same
    structure: nodes with [_prev] and [_next] in a shared memory, a sentinel
    node, insertion after the sentinel and removal from the middle.  A memory
    is a finite map from pointers to nodes; the class [Linked] is what a node
    type has to provide.  [dll] relates a memory to the list of the nodes
    between the sentinel and itself. *)

From Stdlib Require Import ZArith Lia.
From stdpp Require Import base gmap list.
From S2P Require Import Prelude.

Set Default Goal Selector "!".

(** A node type with the two link fields; [zero_node] is zeroed memory. *)
Class Linked (K N : Type) := {
  nxt : N → K;
  prv : N → K;
  set_nxt : K → N → N;
  set_prv : K → N → N;
  zero_node : N;
  nxt_set_nxt : ∀ k n, nxt (set_nxt k n) = k;
  nxt_set_prv : ∀ k n, nxt (set_prv k n) = nxt n;
  prv_set_prv : ∀ k n, prv (set_prv k n) = k;
  prv_set_nxt : ∀ k n, prv (set_nxt k n) = prv n
}.

Section dll.
Context {K : Type} `{EqDecision K, Countable K} {N : Type} `{!Linked K N}.
Implicit Types (m : gmap K N) (h p q : K) (l : list K).

(** Memory read (zeroed memory where nothing was written) and field update. *)
Definition node_at m p : N := default zero_node (m !! p).
Definition upd p (f : N → N) m : gmap K N := <[p := f (node_at m p)]> m.

(** [_insert_node]: link [p] right after the sentinel [h], in the order of
    the four assignments of the source. *)
Definition link_after h p m : gmap K N :=
  let m := upd p (set_nxt (nxt (node_at m h))) m in
  let m := upd p (set_prv h) m in
  let m := upd (nxt (node_at m h)) (set_prv p) m in
  upd h (set_nxt p) m.

(** [node->_prev->_next = node->_next; node->_next->_prev = node->_prev]. *)
Definition unlink p m : gmap K N :=
  let m := upd (prv (node_at m p)) (set_nxt (nxt (node_at m p))) m in
  upd (nxt (node_at m p)) (set_prv (prv (node_at m p))) m.

(** [l] are the nodes from [h]'s successor round to [h] again: the cyclic
    sequence [h :: l ++ [h]] is linked in both directions. *)
Fixpoint seg m (a : K) l (b : K) : Prop :=
  match l with
  | [] => nxt (node_at m a) = b ∧ prv (node_at m b) = a
  | x :: l' => nxt (node_at m a) = x ∧ prv (node_at m x) = a ∧ seg m x l' b
  end.
Definition dll m h l : Prop := NoDup (h :: l) ∧ seg m h l h.

Lemma node_at_upd m p q f :
  node_at (upd p f m) q = if decide (p = q) then f (node_at m p) else node_at m q.
Proof. unfold node_at, upd. rewrite lookup_insert. by case_decide; subst. Qed.
Lemma node_at_upd_eq m p f : node_at (upd p f m) p = f (node_at m p).
Proof. rewrite node_at_upd. by case_decide. Qed.
Lemma node_at_upd_ne m p q f : p ≠ q → node_at (upd p f m) q = node_at m q.
Proof. rewrite node_at_upd. by case_decide. Qed.

Lemma nxt_upd_prv m p q r :
  nxt (node_at (upd p (set_prv r) m) q) = nxt (node_at m q).
Proof. rewrite node_at_upd. case_decide; subst; by rewrite ?nxt_set_prv. Qed.
Lemma prv_upd_nxt m p q r :
  prv (node_at (upd p (set_nxt r) m) q) = prv (node_at m q).
Proof. rewrite node_at_upd. case_decide; subst; by rewrite ?prv_set_nxt. Qed.

(** A segment only depends on the links it uses. *)
Lemma seg_frame m m' a l b :
  (∀ x, x ∈ a :: l → nxt (node_at m' x) = nxt (node_at m x)) →
  (∀ x, x ∈ l ++ [b] → prv (node_at m' x) = prv (node_at m x)) →
  seg m a l b → seg m' a l b.
Proof.
  revert a. induction l as [|x l IH]; intros a Hn Hp; simpl.
  - intros [? ?]. rewrite Hn, Hp by apply list_elem_of_here. done.
  - intros (? & ? & ?).
    rewrite Hn, Hp by apply list_elem_of_here.
    split; [done|]. split; [done|].
    apply IH; [| |done]; intros y Hy; [apply Hn|apply Hp]; by apply list_elem_of_further.
Qed.

Lemma seg_app m a l1 x l2 b :
  seg m a (l1 ++ x :: l2) b ↔ seg m a l1 x ∧ seg m x l2 b.
Proof.
  revert a. induction l1 as [|y l1 IH]; intros a; simpl; [tauto|].
  rewrite IH. tauto.
Qed.

Lemma seg_head m a l b : seg m a l b → nxt (node_at m a) = hd b l.
Proof. destruct l; simpl; tauto. Qed.

Lemma seg_last m a l b : seg m a l b → prv (node_at m b) = default a (last l).
Proof.
  revert a. induction l as [|x l IH]; intros a; simpl; [tauto|].
  intros (? & ? & Hs). rewrite (IH _ Hs), last_cons. by destruct (last l).
Qed.

Lemma dll_nil m h : dll m h [] ↔ nxt (node_at m h) = h ∧ prv (node_at m h) = h.
Proof.
  unfold dll; simpl. split; [naive_solver|].
  intros ?. split; [|done]. apply NoDup_singleton.
Qed.

(** [_has_nodes]. *)
Lemma dll_has_nodes m h l : dll m h l → nxt (node_at m h) = h ↔ l = [].
Proof.
  intros [Hnd Hs]. apply seg_head in Hs. destruct l as [|x l]; simpl in *.
  - tauto.
  - split; [|done]. intros E. apply NoDup_cons in Hnd as [Hn _]. set_solver.
Qed.

Lemma dll_frame m m' h l :
  (∀ x, x ∈ h :: l → node_at m' x = node_at m x) → dll m h l → dll m' h l.
Proof.
  intros Hf [Hnd Hs]. split; [done|].
  eapply seg_frame; [| |done]; intros x Hx; rewrite Hf; set_solver.
Qed.
(** Linking a fresh node puts it at the front. *)
Lemma dll_link_after m h l p : dll m h l → p ∉ h :: l → dll (link_after h p m) h (p :: l).
Proof.
  intros [Hnd Hs] Hp. apply not_elem_of_cons in Hp as [Hph Hpl].
  split.
  { apply NoDup_cons in Hnd as [Hh Hl]. apply NoDup_cons. split; [set_solver|].
    by apply NoDup_cons. }
  pose proof (seg_head _ _ _ _ Hs) as Hx. unfold link_after.
  set (m1 := upd p (set_nxt _) m). set (m2 := upd p (set_prv h) m1).
  assert (nxt (node_at m2 h) = hd h l) as E2.
  { unfold m2, m1. rewrite !node_at_upd_ne by done. done. }
  rewrite E2. set (m3 := upd (hd h l) (set_prv p) m2).
  assert (∀ x, x ≠ p → x ≠ h → nxt (node_at (upd h (set_nxt p) m3) x) = nxt (node_at m x)) as Fn.
  { intros x ??. rewrite node_at_upd_ne by done. unfold m3, m2, m1.
    rewrite nxt_upd_prv, nxt_upd_prv, node_at_upd_ne by done. done. }
  assert (∀ x, x ≠ p → x ≠ hd h l → prv (node_at (upd h (set_nxt p) m3) x) = prv (node_at m x)) as Fp.
  { intros x ??. rewrite prv_upd_nxt. unfold m3. rewrite node_at_upd_ne by done.
    unfold m2, m1. rewrite node_at_upd_ne, prv_upd_nxt by done. done. }
  assert (hd h l ≠ p) as Hhd. { destruct l; simpl; set_solver. }
  assert (nxt (node_at (upd h (set_nxt p) m3) h) = p) as E3.
  { by rewrite node_at_upd_eq, nxt_set_nxt. }
  assert (nxt (node_at (upd h (set_nxt p) m3) p) = hd h l) as E4.
  { rewrite node_at_upd_ne by done. unfold m3, m2, m1.
    rewrite nxt_upd_prv, nxt_upd_prv, node_at_upd_eq, nxt_set_nxt. done. }
  assert (prv (node_at (upd h (set_nxt p) m3) p) = h) as E5.
  { rewrite prv_upd_nxt. unfold m3. rewrite node_at_upd_ne by done.
    unfold m2. by rewrite node_at_upd_eq, prv_set_prv. }
  assert (prv (node_at (upd h (set_nxt p) m3) (hd h l)) = p) as E6.
  { rewrite prv_upd_nxt. unfold m3. by rewrite node_at_upd_eq, prv_set_prv. }
  simpl. split; [done|]. split; [done|].
  destruct l as [|x l]; simpl in *; [done|].
  split; [done|]. split; [done|]. destruct Hs as (_ & _ & Hs).
  apply NoDup_cons in Hnd as [Hh Hnd]. apply NoDup_cons in Hnd as [Hxl Hnd].
  eapply seg_frame; [| |done].
  - intros y Hy. apply Fn; set_solver.
  - intros y Hy. apply Fp; set_solver.
Qed.

Lemma dll_link_after_frame m h p q l : dll m h l → q ∉ p :: h :: l →
  node_at (link_after h p m) q = node_at m q.
Proof.
  intros [Hnd Hs] Hq. pose proof (seg_head _ _ _ _ Hs) as Hx. unfold link_after.
  assert (q ≠ p ∧ q ≠ h ∧ q ≠ hd h l) as (? & ? & ?).
  { destruct l; simpl; set_solver. }
  destruct (decide (p = h)) as [->|Hph].
  - rewrite node_at_upd_ne by done.
    rewrite !nxt_upd_prv, node_at_upd_eq, nxt_set_nxt, Hx.
    by rewrite !node_at_upd_ne by done.
  - rewrite node_at_upd_ne by done. rewrite nxt_upd_prv.
    rewrite (node_at_upd_ne m p h) by done. rewrite Hx.
    by rewrite !node_at_upd_ne by done.
Qed.

Lemma seg_skip m m' a b s l1 p l2 h :
  NoDup (s :: l1 ++ p :: l2) → h ∉ l1 ++ p :: l2 →
  a = default s (last l1) → b = hd h l2 →
  m' = upd b (set_prv a) (upd a (set_nxt b) m) →
  seg m s (l1 ++ p :: l2) h → seg m' s (l1 ++ l2) h.
Proof.
  intros Hnd Hh Ha Hb ->. revert s Hnd Hh Ha.
  induction l1 as [|y l1 IH]; intros s Hnd Hh Ha; simpl in *.
  - subst a. intros (_ & _ & Hs).
    assert (nxt (node_at (upd b (set_prv s) (upd s (set_nxt b) m)) s) = b) as E1.
    { by rewrite nxt_upd_prv, node_at_upd_eq, nxt_set_nxt. }
    assert (prv (node_at (upd b (set_prv s) (upd s (set_nxt b) m)) b) = s) as E2.
    { by rewrite node_at_upd_eq, prv_set_prv. }
    destruct l2 as [|x l2]; simpl in *; subst b; [done|].
    destruct Hs as (_ & _ & Hs). split; [done|]. split; [done|].
    rewrite !NoDup_cons, !not_elem_of_cons in Hnd. rewrite !not_elem_of_cons in Hh.
    destruct_and!. eapply seg_frame; [| |done].
    + intros y Hy. rewrite nxt_upd_prv, node_at_upd_ne by set_solver. done.
    + intros y Hy. rewrite node_at_upd_ne by set_solver. by rewrite prv_upd_nxt.
  - intros (E1 & E2 & Hs).
    rewrite NoDup_cons, not_elem_of_cons in Hnd. rewrite not_elem_of_cons in Hh.
    destruct_and!. rewrite last_cons in Ha. pose proof (last_Some_elem_of l1) as Hl.
    assert (s ≠ a ∧ y ≠ b) as [??].
    { split.
      - destruct (last l1) as [z|]; simpl in Ha; subst a; [|done].
        specialize (Hl z eq_refl). set_solver.
      - match goal with H : NoDup (y :: _) |- _ => apply NoDup_cons in H as [? _] end.
        destruct l2; simpl in Hb; set_solver. }
    split; [by rewrite nxt_upd_prv, node_at_upd_ne by done|].
    split; [by rewrite node_at_upd_ne, prv_upd_nxt by done|].
    apply IH; [done|done| |done]. destruct (last l1); done.
Qed.

(** The neighbours of a linked node. *)
Lemma dll_neighbours m h l1 p l2 : dll m h (l1 ++ p :: l2) →
  nxt (node_at m p) = hd h l2 ∧ prv (node_at m p) = default h (last l1).
Proof.
  intros [_ Hs]. apply seg_app in Hs as [H1 H2].
  by rewrite (seg_head _ _ _ _ H2), (seg_last _ _ _ _ H1).
Qed.

Lemma unlink_eq m h l1 p l2 : dll m h (l1 ++ p :: l2) →
  unlink p m = upd (hd h l2) (set_prv (default h (last l1)))
                 (upd (default h (last l1)) (set_nxt (hd h l2)) m).
Proof.
  intros Hd. destruct (dll_neighbours _ _ _ _ _ Hd) as [En Ep].
  destruct Hd as [Hnd _]. unfold unlink. rewrite Ep, En.
  assert (default h (last l1) ≠ p).
  { pose proof (last_Some_elem_of l1) as Hl. rewrite NoDup_cons in Hnd.
    destruct Hnd as [Hh Hnd]. apply NoDup_app in Hnd as (_ & Hnd & _).
    destruct (last l1) as [z|]; simpl; [specialize (Hl z eq_refl)|]; set_solver. }
  by rewrite node_at_upd_ne, En, Ep by done.
Qed.

(** Unlinking removes exactly that node from the list. *)
Lemma dll_unlink m h l1 p l2 : dll m h (l1 ++ p :: l2) → dll (unlink p m) h (l1 ++ l2).
Proof.
  intros Hd. rewrite (unlink_eq _ _ _ _ _ Hd). destruct Hd as [Hnd Hs]. split.
  - rewrite NoDup_cons in Hnd |- *. destruct Hnd as [Hh Hnd].
    split; [set_solver|]. rewrite NoDup_app in Hnd |- *.
    rewrite NoDup_cons in Hnd. set_solver.
  - eapply seg_skip; [done| |done..]. by apply NoDup_cons in Hnd as [? _].
Qed.

Lemma unlink_frame m h l1 p l2 q : dll m h (l1 ++ p :: l2) → q ∉ h :: l1 ++ l2 →
  node_at (unlink p m) q = node_at m q.
Proof.
  intros Hd Hq. rewrite (unlink_eq _ _ _ _ _ Hd). pose proof (last_Some_elem_of l1) as Hl.
  rewrite !node_at_upd_ne; [done| |].
  - destruct (last l1) as [z|]; simpl; [specialize (Hl z eq_refl)|]; set_solver.
  - destruct l2; simpl; set_solver.
Qed.

(** Any data a node carries besides its links. *)
Lemma upd_data {T} (g : N → T) m p f q :
  (∀ n, g (f n) = g n) → g (node_at (upd p f m) q) = g (node_at m q).
Proof. intros Hf. rewrite node_at_upd. case_decide; subst; by rewrite ?Hf. Qed.

Lemma link_after_data {T} (g : N → T) m h p q :
  (∀ k n, g (set_nxt k n) = g n) → (∀ k n, g (set_prv k n) = g n) →
  g (node_at (link_after h p m) q) = g (node_at m q).
Proof.
  intros Gn Gp. unfold link_after. by rewrite !(upd_data g) by auto.
Qed.

Lemma unlink_data {T} (g : N → T) m p q :
  (∀ k n, g (set_nxt k n) = g n) → (∀ k n, g (set_prv k n) = g n) →
  g (node_at (unlink p m) q) = g (node_at m q).
Proof.
  intros Gn Gp. unfold unlink. by rewrite !(upd_data g) by auto.
Qed.

End dll.

#[global] Arguments node_at : simpl never.
#[global] Arguments upd : simpl never.
#[global] Arguments link_after : simpl never.
#[global] Arguments unlink : simpl never.
