(* ===== verification/Tiling.v ===== *)
(** The abstract buddy system: tilings of page ranges by aligned blocks.

    The specification the buddy allocator refines.  Memory is the pages
    [0 .. np-1], cut into areas (start, order); a tiling maps the first page of
    each block to its order and whether it is in use.  A tiling is canonical
    when no two buddies are both free.  Canonical tilings are determined by
    their used blocks ([canonical_unique]), and such a tiling has a free block
    of order at least [m] exactly when some aligned run of [2^m] pages is
    unused ([canonical_region]): merging loses nothing. *)

From Stdlib Require Import ZArith Lia.
From stdpp Require Import base numbers gmap list.
From S2P Require Import Prelude.

Set Default Goal Selector "!".
Open Scope Z_scope.

(** * Dyadic arithmetic *)

Definition aligned (x k : Z) : Prop := x mod 2 ^ k = 0.

(** Page offset of the buddy of the block of order [k] at offset [x]. *)
Definition buddy_off (x k : Z) : Z := Z.lxor x (2 ^ k).

Lemma aligned_le x j k : 0 ≤ j ≤ k → aligned x k → aligned x j.
Proof.
  unfold aligned. intros Hjk Hx. rewrite (pow2_split j k) in Hx by lia.
  pose proof (pow2_pos j ltac:(lia)). pose proof (pow2_pos (k - j) ltac:(lia)).
  apply Z.mod_divide in Hx as [c ->]; [|nia].
  rewrite Z.mul_comm, <- Z.mul_assoc, Z.mul_comm. apply Z.mod_mul. lia.
Qed.

Lemma aligned_add x k : 0 ≤ k → aligned x k → aligned (x + 2 ^ k) k.
Proof.
  unfold aligned. intros Hk Hx. pose proof (pow2_pos k Hk).
  rewrite <- (Z.mul_1_l (2 ^ k)) at 1. by rewrite Z.mod_add by lia.
Qed.

Lemma lxor_mul_pow2 c d k : 0 ≤ k → Z.lxor (c * 2 ^ k) (d * 2 ^ k) = Z.lxor c d * 2 ^ k.
Proof. intros. rewrite <- !Z.shiftl_mul_pow2 by lia. symmetry. apply Z.shiftl_lxor. Qed.

(** The two positions of a block inside its parent. *)
Lemma buddy_cases x k : 0 ≤ x → 0 ≤ k → aligned x k →
  (aligned x (k + 1) ∧ buddy_off x k = x + 2 ^ k) ∨
  (aligned (x - 2 ^ k) (k + 1) ∧ buddy_off x k = x - 2 ^ k ∧ 2 ^ k ≤ x).
Proof.
  unfold aligned, buddy_off. intros Hx Hk Ha. pose proof (pow2_pos k Hk).
  apply Z.mod_divide in Ha as [c ->]; [|lia]. rewrite pow2_S by lia.
  pose proof (lxor_mul_pow2 c 1 k Hk) as E. rewrite Z.mul_1_l in E. rewrite E.
  assert (0 ≤ c) as Hc by nia.
  destruct (Z.Even_or_Odd c) as [[d ->]|[d ->]].
  - left. replace (Z.lxor (2 * d) 1) with (2 * d + 1) by (by destruct d as [|[]|]).
    split; [|lia]. replace (2 * d * 2 ^ k) with (d * (2 * 2 ^ k)) by lia.
    apply Z.mod_mul. lia.
  - right. replace (Z.lxor (2 * d + 1) 1) with (2 * d).
    2: { destruct d as [|[]|]; try done; lia. }
    split; [|split; [lia|nia]].
    replace ((2 * d + 1) * 2 ^ k - 2 ^ k) with (d * (2 * 2 ^ k)) by lia.
    apply Z.mod_mul. lia.
Qed.

(** Two aligned blocks that share a page are nested. *)
Lemma dyadic_nested x j y k q : 0 ≤ j ≤ k → aligned x j → aligned y k →
  x ≤ q < x + 2 ^ j → y ≤ q < y + 2 ^ k → y ≤ x ∧ x + 2 ^ j ≤ y + 2 ^ k.
Proof.
  intros Hjk Hx Hy Hqx Hqy. apply (aligned_le y j k) in Hy as Hy'; [|done].
  unfold aligned in *. rewrite (pow2_split j k) in * by lia.
  pose proof (pow2_pos j ltac:(lia)) as Pj. pose proof (pow2_pos (k - j) ltac:(lia)) as Pk.
  set (t := 2 ^ j) in *. set (n := 2 ^ (k - j)) in *.
  apply Z.mod_divide in Hx as [c ->]; [|lia].
  apply Z.mod_divide in Hy' as [d ->]; [|lia].
  assert (d < c + 1) by nia. assert (c < d + n) by nia. nia.
Qed.

(** * Areas *)

(** Consecutive areas from page [p]: each is [2^K] pages long. *)
Fixpoint areas_from (p : Z) (ar : list (Z * Z)) (np : Z) : Prop :=
  match ar with
  | [] => p = np
  | (a, K) :: ar' => a = p ∧ 0 ≤ K ∧ areas_from (p + 2 ^ K) ar' np
  end.

Lemma areas_from_le p ar np : areas_from p ar np → p ≤ np.
Proof.
  revert p. induction ar as [|[a K] ar IH]; intros p; simpl; [lia|].
  intros (_ & HK & H). apply IH in H. pose proof (pow2_pos K HK). lia.
Qed.

Lemma areas_from_in p ar np a K : areas_from p ar np → (a, K) ∈ ar →
  p ≤ a ∧ a + 2 ^ K ≤ np ∧ 0 ≤ K.
Proof.
  revert p. induction ar as [|[a' K'] ar IH]; intros p; simpl.
  - intros _ H. by apply elem_of_nil in H.
  - intros (-> & HK & H) Hin. apply elem_of_cons in Hin as [[= -> ->]|Hin].
    + apply areas_from_le in H. lia.
    + apply IH in H; [|done]. pose proof (pow2_pos K' HK). lia.
Qed.

Lemma areas_cover p ar np q : areas_from p ar np → p ≤ q < np →
  ∃ a K, (a, K) ∈ ar ∧ a ≤ q < a + 2 ^ K.
Proof.
  revert p. induction ar as [|[a K] ar IH]; intros p; simpl; [lia|].
  intros (-> & HK & H) Hq. destruct (Z.lt_ge_cases q (p + 2 ^ K)).
  - exists p, K. split; [by left|lia].
  - destruct (IH _ H) as (a & K' & ? & ?); [lia|]. exists a, K'. split; [by right|done].
Qed.

Lemma areas_unique p ar np a K a' K' q : areas_from p ar np →
  (a, K) ∈ ar → (a', K') ∈ ar → a ≤ q < a + 2 ^ K → a' ≤ q < a' + 2 ^ K' → a = a' ∧ K = K'.
Proof.
  revert p. induction ar as [|[b L] ar IH]; intros p; simpl.
  - intros _ H. by apply elem_of_nil in H.
  - intros (-> & HL & H) H1 H2 Hq Hq'.
    apply elem_of_cons in H1 as [[= -> ->]|H1]; apply elem_of_cons in H2 as [[= -> ->]|H2].
    + done.
    + apply (areas_from_in _ _ _ _ _ H) in H2. lia.
    + apply (areas_from_in _ _ _ _ _ H) in H1. lia.
    + by eapply IH.
Qed.

(** * Tilings *)

Abbreviation blocks := (gmap Z (Z * bool)).

(** The block of order [k] at [p] lies in the area [(a, K)], aligned in it. *)
Definition in_area (ar : list (Z * Z)) (p k a K : Z) : Prop :=
  (a, K) ∈ ar ∧ a ≤ p ∧ aligned (p - a) k ∧ p + 2 ^ k ≤ a + 2 ^ K.

Record tiling (ar : list (Z * Z)) (np : Z) (bl : blocks) : Prop := {
  t_area : ∀ p k u, bl !! p = Some (k, u) → 0 ≤ k ∧ ∃ a K, in_area ar p k a K;
  t_cover : ∀ q, 0 ≤ q < np → ∃ p k u, bl !! p = Some (k, u) ∧ p ≤ q < p + 2 ^ k;
  t_disj : ∀ p k u p' k' u' q, bl !! p = Some (k, u) → bl !! p' = Some (k', u') →
    p ≤ q < p + 2 ^ k → p' ≤ q < p' + 2 ^ k' → p = p'
}.

(** No two buddies are both free. *)
Definition canonical (ar : list (Z * Z)) (bl : blocks) : Prop :=
  ∀ p k a K, bl !! p = Some (k, false) → in_area ar p k a K → k < K →
    bl !! (a + buddy_off (p - a) k) ≠ Some (k, false).

(** The used blocks: the state a client sees. *)
Definition used (bl : blocks) : gmap Z Z := omap (λ x : Z * bool, if x.2 then Some x.1 else None) bl.

Definition page_used (bl : blocks) (q : Z) : Prop :=
  ∃ p k, bl !! p = Some (k, true) ∧ p ≤ q < p + 2 ^ k.

Lemma lookup_used bl p k : used bl !! p = Some k ↔ bl !! p = Some (k, true).
Proof.
  unfold used. rewrite lookup_omap. destruct (bl !! p) as [[k' []]|]; simpl; naive_solver.
Qed.

Section tilings.
Context (ar : list (Z * Z)) (np : Z) (Har : areas_from 0 ar np).
Implicit Types (bl : blocks).

Lemma in_area_bounds p k a K : 0 ≤ k → in_area ar p k a K → 0 ≤ a ∧ 0 ≤ p ∧ p + 2 ^ k ≤ np ∧ k ≤ K.
Proof.
  intros Hk (Hin & Hp & Ha & He). destruct (areas_from_in _ _ _ _ _ Har Hin) as (? & ? & ?).
  repeat split; try lia. destruct (Z.le_gt_cases k K); [done|].
  assert (2 ^ K < 2 ^ k) by (apply Z.pow_lt_mono_r; lia). lia.
Qed.

Lemma in_area_unique p k a K p' k' a' K' q : 0 ≤ k → 0 ≤ k' →
  in_area ar p k a K → in_area ar p' k' a' K' →
  p ≤ q < p + 2 ^ k → p' ≤ q < p' + 2 ^ k' → a = a' ∧ K = K'.
Proof.
  intros Hk Hk' (H1 & Hp & _ & He) (H2 & Hp' & _ & He') Hq Hq'.
  apply (areas_unique _ _ _ _ _ _ _ q Har H1 H2); lia.
Qed.

(** Two blocks of one area that share a page are nested, by order. *)
Lemma in_area_nested p k p' k' a K q : 0 ≤ k ≤ k' →
  in_area ar p k a K → in_area ar p' k' a K →
  p ≤ q < p + 2 ^ k → p' ≤ q < p' + 2 ^ k' → p' ≤ p ∧ p + 2 ^ k ≤ p' + 2 ^ k'.
Proof.
  intros Hk (_ & _ & H1 & _) (_ & _ & H2 & _) Hq Hq'.
  pose proof (dyadic_nested (p - a) k (p' - a) k' (q - a) Hk H1 H2 ltac:(lia) ltac:(lia)). lia.
Qed.

(** The buddy position of a block below its area's order: the parent block is
    inside the area, and the two halves are [p] and the buddy. *)
Lemma buddy_pos p k a K : 0 ≤ k < K → in_area ar p k a K →
  let b := a + buddy_off (p - a) k in
  in_area ar b k a K ∧ a + buddy_off (b - a) k = p ∧
  ((b = p + 2 ^ k ∧ in_area ar p (k + 1) a K) ∨ (b = p - 2 ^ k ∧ in_area ar b (k + 1) a K)).
Proof.
  intros Hk (Hin & Hp & Ha & He) b.
  assert (a + buddy_off (b - a) k = p) as Hinv.
  { unfold b, buddy_off. replace (a + _ - a) with (Z.lxor (p - a) (2 ^ k)) by lia.
    rewrite Z.lxor_assoc, Z.lxor_nilpotent, Z.lxor_0_r. lia. }
  assert (2 ^ K = 2 ^ (k + 1) * 2 ^ (K - (k + 1))) as EK by (apply pow2_split; lia).
  assert (Hpk : 2 ^ (k + 1) = 2 * 2 ^ k) by (apply pow2_S; lia).
  pose proof (pow2_pos k ltac:(lia)). pose proof (pow2_pos (K - (k + 1)) ltac:(lia)).
  destruct (buddy_cases (p - a) k ltac:(lia) ltac:(lia) Ha) as [[H1 H2]|(H1 & H2 & H3)].
  - assert (b = p + 2 ^ k) as Hb by lia.
    assert (p + 2 ^ (k + 1) ≤ a + 2 ^ K).
    { unfold aligned in H1. apply Z.mod_divide in H1 as [c Hc]; [|lia].
      assert (c < 2 ^ (K - (k + 1))) by nia. nia. }
    assert (aligned (b - a) k).
    { replace (b - a) with (p - a + 2 ^ k) by lia. apply aligned_add; [lia|done]. }
    split; [|split; [done|left]]; repeat split; (done || lia).
  - assert (b = p - 2 ^ k) as Hb by lia.
    assert (aligned (b - a) (k + 1)) by (by replace (b - a) with (p - a - 2 ^ k) by lia).
    assert (aligned (b - a) k) by (apply (aligned_le _ k (k + 1)); [lia|done]).
    split; [|split; [done|right]]; repeat split; (done || lia).
Qed.

Lemma tiling_same bl p k u p' k' u' q : tiling ar np bl →
  bl !! p = Some (k, u) → bl !! p' = Some (k', u') →
  p ≤ q < p + 2 ^ k → p' ≤ q < p' + 2 ^ k' → p = p' ∧ k = k' ∧ u = u'.
Proof.
  intros T H1 H2 ? ?. assert (p = p') as -> by (by eapply (t_disj _ _ _ T)).
  rewrite H1 in H2. by simplify_eq.
Qed.

(** A block's buddy position starts a block of at most its order. *)
Lemma buddy_is_block bl p k u a K : tiling ar np bl → bl !! p = Some (k, u) →
  in_area ar p k a K → k < K →
  ∃ j u', bl !! (a + buddy_off (p - a) k) = Some (j, u') ∧ 0 ≤ j ≤ k.
Proof.
  intros T Hp Hpa Hk. destruct (t_area _ _ _ T _ _ _ Hp) as [Hk0 _].
  destruct (buddy_pos p k a K ltac:(lia) Hpa) as (Hb & _ & Hpar).
  set (b := a + buddy_off (p - a) k) in *.
  pose proof (in_area_bounds _ _ _ _ Hk0 Hb). pose proof (pow2_pos k Hk0).
  destruct (t_cover _ _ _ T b ltac:(lia)) as (x & j & u' & Hx & Hxb).
  destruct (t_area _ _ _ T _ _ _ Hx) as [Hj (a' & K' & Hxa)].
  destruct (in_area_unique x j a' K' b k a K b Hj Hk0 Hxa Hb Hxb ltac:(lia)) as [-> ->].
  destruct (Z.le_gt_cases j k) as [Hjk|Hjk].
  - exists j, u'. destruct (in_area_nested x j b k a K b ltac:(lia) Hxa Hb Hxb ltac:(lia)).
    replace b with x by lia. split; [done|lia].
  - exfalso. assert (Hpk : 2 ^ (k + 1) = 2 * 2 ^ k) by (apply pow2_S; lia).
    assert (x ≤ p < x + 2 ^ j).
    { destruct Hpar as [[Eb Hpp]|[Eb Hpp]].
      - destruct (in_area_nested p (k + 1) x j a K b ltac:(lia) Hpp Hxa ltac:(lia) Hxb). lia.
      - destruct (in_area_nested b (k + 1) x j a K b ltac:(lia) Hpp Hxa ltac:(lia) Hxb). lia. }
    destruct (tiling_same bl p k u x j u' p T Hp Hx ltac:(lia) ltac:(lia)) as (_ & -> & _). lia.
Qed.

(** ** Marking, splitting and merging keep a tiling *)

Lemma tiling_ext bl bl' :
  (∀ p k, (∃ u, bl' !! p = Some (k, u)) ↔ (∃ u, bl !! p = Some (k, u))) →
  tiling ar np bl → tiling ar np bl'.
Proof.
  intros He T. split.
  - intros p k u Hp. destruct (proj1 (He p k)) as [u' ?]; [by eexists|]. by eapply t_area.
  - intros q Hq. destruct (t_cover _ _ _ T q Hq) as (p & k & u & Hp & ?).
    destruct (proj2 (He p k)) as [u' ?]; [by eexists|]. by exists p, k, u'.
  - intros p k u p' k' u' q Hp Hp' ? ?.
    destruct (proj1 (He p k)) as [v ?]; [by eexists|].
    destruct (proj1 (He p' k')) as [v' ?]; [by eexists|]. by eapply (t_disj _ _ _ T).
Qed.

Lemma tiling_mark bl p k u u' : tiling ar np bl → bl !! p = Some (k, u) →
  tiling ar np (<[p := (k, u')]> bl).
Proof.
  intros T Hp. apply (tiling_ext bl); [|done]. intros q j.
  destruct (decide (p = q)) as [->|Hne].
  - rewrite lookup_insert_eq. naive_solver.
  - by rewrite lookup_insert_ne by done.
Qed.

Lemma tiling_other bl p k u x k' u' q : tiling ar np bl →
  bl !! p = Some (k, u) → bl !! x = Some (k', u') → x ≠ p →
  p ≤ q < p + 2 ^ k → ¬ (x ≤ q < x + 2 ^ k').
Proof. intros T Hp Hx Hne Hq Hq'. apply Hne. by eapply (t_disj _ _ _ T). Qed.

Definition split_block (p k : Z) (w : bool) bl : blocks :=
  <[p + 2 ^ k := (k, false)]> (<[p := (k, w)]> bl).

Lemma lookup_split_block p k w bl x : 0 ≤ k →
  split_block p k w bl !! x =
    if decide (x = p + 2 ^ k) then Some (k, false)
    else if decide (x = p) then Some (k, w) else bl !! x.
Proof.
  intros Hk. unfold split_block. rewrite !lookup_insert.
  repeat case_decide; (congruence || done).
Qed.

Lemma tiling_split bl p k u w : 0 ≤ k → tiling ar np bl → bl !! p = Some (k + 1, u) →
  tiling ar np (split_block p k w bl).
Proof.
  intros Hk T Hp. pose proof (pow2_pos k Hk). pose proof (pow2_S k Hk) as E2.
  destruct (t_area _ _ _ T _ _ _ Hp) as [_ (a & K & Hin & Ha & Hal & He)].
  apply (aligned_le _ k) in Hal; [|lia].
  assert (∀ x k' u' q, x ≠ p → bl !! x = Some (k', u') → p ≤ q < p + 2 ^ (k + 1) →
    ¬ (x ≤ q < x + 2 ^ k')) as Hoth.
  { intros x k' u' q Hne Hx Hq. by apply (tiling_other bl p (k + 1) u x k' u' q). }
  split.
  - intros x j v. rewrite lookup_split_block by done. repeat case_decide; intros; simplify_eq.
    + split; [done|]. exists a, K. repeat split; [done|lia| |lia].
      replace (p + 2 ^ j - a) with (p - a + 2 ^ j) by lia. by apply aligned_add.
    + split; [done|]. exists a, K. repeat split; (done || lia).
    + by eapply (t_area _ _ _ T).
  - intros q Hq. destruct (t_cover _ _ _ T q Hq) as (x & j & v & Hx & Hxq).
    destruct (decide (x = p)) as [->|Hne].
    + simplify_eq. destruct (Z.lt_ge_cases q (p + 2 ^ k)).
      * exists p, k, w. rewrite lookup_split_block by done. split; [|lia].
        repeat case_decide; (lia || done).
      * exists (p + 2 ^ k), k, false. rewrite lookup_split_block by done. split; [|lia].
        by case_decide.
    + exists x, j, v. rewrite lookup_split_block by done. split; [|done].
      case_decide; [|by case_decide]. subst x. exfalso.
      destruct (t_area _ _ _ T _ _ _ Hx) as [Hj _]. pose proof (pow2_pos j Hj).
      apply (Hoth _ _ _ (p + 2 ^ k) Hne Hx); lia.
  - intros x j v x' j' v' q. rewrite !lookup_split_block by done.
    intros Hx Hx' Hq Hq'.
    repeat case_decide; simplify_eq; try lia; try (by eapply (t_disj _ _ _ T));
      exfalso; match goal with
      | H : bl !! ?y = Some (?i, ?b) |- _ => apply (Hoth y i b q); (done || lia)
      end.
Qed.

Definition merge_blocks (c k : Z) (w : bool) bl : blocks :=
  <[c := (k + 1, w)]> (delete (c + 2 ^ k) bl).

Lemma lookup_merge_blocks c k w bl x : 0 ≤ k →
  merge_blocks c k w bl !! x =
    if decide (x = c) then Some (k + 1, w)
    else if decide (x = c + 2 ^ k) then None else bl !! x.
Proof.
  intros Hk. pose proof (pow2_pos k Hk). unfold merge_blocks.
  rewrite lookup_insert, lookup_delete. repeat case_decide; (congruence || done).
Qed.

Lemma tiling_merge bl c k u v w a K : 0 ≤ k → tiling ar np bl →
  bl !! c = Some (k, u) → bl !! (c + 2 ^ k) = Some (k, v) → in_area ar c (k + 1) a K →
  tiling ar np (merge_blocks c k w bl).
Proof.
  intros Hk T Hc Hd Hin. pose proof (pow2_pos k Hk). pose proof (pow2_S k Hk) as E2.
  assert (∀ x j t q, x ≠ c → x ≠ c + 2 ^ k → bl !! x = Some (j, t) →
    c ≤ q < c + 2 ^ (k + 1) → ¬ (x ≤ q < x + 2 ^ j)) as Hoth.
  { intros x j t q Hxc Hxd Hx Hq. destruct (Z.lt_ge_cases q (c + 2 ^ k)).
    - eapply (tiling_other bl c); [done..|lia].
    - eapply (tiling_other bl (c + 2 ^ k)); [done..|lia]. }
  split.
  - intros x j t. rewrite lookup_merge_blocks by done. repeat case_decide; intros; simplify_eq.
    + split; [lia|]. by exists a, K.
    + by eapply (t_area _ _ _ T).
  - intros q Hq. destruct (t_cover _ _ _ T q Hq) as (x & j & t & Hx & Hxq).
    destruct (decide (c ≤ q < c + 2 ^ (k + 1))).
    + exists c, (k + 1), w. rewrite lookup_merge_blocks by done. by case_decide.
    + exists x, j, t. rewrite lookup_merge_blocks by done. split; [|done].
      repeat case_decide; subst; simplify_eq; lia || done.
  - intros x j t x' j' t' q. rewrite !lookup_merge_blocks by done. intros Hx Hx' Hq Hq'.
    repeat case_decide; simplify_eq; try done; try (by eapply (t_disj _ _ _ T));
      exfalso; match goal with
      | H : bl !! ?y = Some (?i, ?b) |- _ => apply (Hoth y i b q); (done || lia)
      end.
Qed.

(** ** Canonicity *)

Lemma buddy_left p k a K : 0 ≤ k → in_area ar p (k + 1) a K →
  a + buddy_off (p - a) k = p + 2 ^ k ∧ a + buddy_off (p + 2 ^ k - a) k = p ∧ k < K.
Proof.
  intros Hk Hin. destruct (in_area_bounds _ (k + 1) _ _ ltac:(lia) Hin) as (_ & _ & _ & HK).
  destruct Hin as (Hin & Hp & Ha & He). pose proof (pow2_pos k Hk).
  assert (in_area ar p k a K) as Hpk.
  { repeat split; [done|done|by apply (aligned_le _ k (k + 1)); [lia|]|].
    rewrite pow2_S in He by lia. lia. }
  destruct (buddy_pos p k a K ltac:(lia) Hpk) as (_ & Hinv & [[E _]|[E (_ & _ & Hb & _)]]).
  - rewrite E in Hinv. repeat split; (done || lia).
  - exfalso. rewrite E in Hb. unfold aligned in Ha, Hb. rewrite pow2_S in * by lia.
    apply Z.mod_divide in Ha as [x Hx]; [|lia]. apply Z.mod_divide in Hb as [y Hy]; [|lia].
    assert (2 ^ k * (2 * (x - y) - 1) = 0) as Ez by lia. apply Z.mul_eq_0 in Ez. lia.
Qed.

Lemma canonical_use bl p k : canonical ar bl → canonical ar (<[p := (k, true)]> bl).
Proof.
  intros C q j a K. rewrite !lookup_insert. repeat case_decide; try done. by apply C.
Qed.

Lemma canonical_free bl p k a K : 0 ≤ k → canonical ar bl → in_area ar p k a K →
  (k < K → bl !! (a + buddy_off (p - a) k) ≠ Some (k, false)) →
  canonical ar (<[p := (k, false)]> bl).
Proof.
  intros Hk C Hp Hb q j a' K' Hq Hqa HK.
  assert (0 ≤ j → ∀ x, a' + buddy_off (q - a') j = x → q ≠ x ∧ in_area ar x j a' K'
            ∧ a' + buddy_off (x - a') j = q) as Hpos.
  { intros Hj x <-. destruct (buddy_pos q j a' K' ltac:(lia) Hqa) as (? & ? & Hor).
    pose proof (pow2_pos j Hj). repeat split; try done; [|apply H..]. lia. }
  rewrite lookup_insert in Hq |- *. case_decide; [subst q; simplify_eq|].
  - destruct (Hpos Hk _ eq_refl) as (Hne & _). rewrite decide_False by done.
    pose proof (pow2_pos j Hk).
    destruct (in_area_unique _ _ _ _ _ _ _ _ p Hk Hk Hp Hqa) as [-> ->]; [lia..|]. by apply Hb.
  - case_decide as E; [|by apply (C q j a' K')]. intros [= <-].
    destruct (Hpos Hk _ (eq_sym E)) as (Hne & Hpa & Hinv). pose proof (pow2_pos k Hk).
    destruct (in_area_unique _ _ _ _ _ _ _ _ p Hk Hk Hp Hpa) as [-> ->]; [lia..|].
    apply Hb; [done|]. by rewrite Hinv.
Qed.

Lemma canonical_split bl p k u a K : 0 ≤ k → tiling ar np bl → bl !! p = Some (k + 1, u) →
  in_area ar p (k + 1) a K → canonical ar bl → canonical ar (split_block p k true bl).
Proof.
  intros Hk T Hp Hpa C. destruct (buddy_left p k a K Hk Hpa) as (Hl & Hr & HK).
  unfold split_block.
  apply (canonical_free _ _ _ a K); [done|by apply canonical_use| |].
  - destruct Hpa as (? & ? & Ha & He). rewrite pow2_S in He by lia. pose proof (pow2_pos k Hk).
    repeat split; [done|lia| |lia]. replace (p + 2 ^ k - a) with (p - a + 2 ^ k) by lia.
    apply aligned_add; [lia|]. by apply (aligned_le _ k (k + 1)); [lia|].
  - intros _. rewrite Hr, lookup_insert_eq. done.
Qed.

Lemma canonical_merge bl c k : 0 ≤ k → canonical ar bl →
  canonical ar (merge_blocks c k true bl).
Proof.
  intros Hk C q j a K. rewrite !lookup_merge_blocks by done.
  repeat case_decide; try done. by apply C.
Qed.

(** ** Merging loses no memory *)

Lemma free_not_used bl x k q : tiling ar np bl → bl !! x = Some (k, false) →
  x ≤ q < x + 2 ^ k → ¬ page_used bl q.
Proof.
  intros T Hx Hq (p & j & Hp & Hpq).
  by destruct (tiling_same bl x k false p j true q T Hx Hp Hq Hpq) as (_ & _ & ?).
Qed.

(** An aligned run of unused pages lies inside one free block. *)
Lemma canonical_region bl m p a K : tiling ar np bl → canonical ar bl → 0 ≤ m →
  in_area ar p m a K → (∀ q, p ≤ q < p + 2 ^ m → ¬ page_used bl q) →
  ∃ x k, bl !! x = Some (k, false) ∧ m ≤ k ∧ x ≤ p ∧ p + 2 ^ m ≤ x + 2 ^ k.
Proof.
  intros T C Hm. revert p. revert m Hm.
  refine (natlike_ind _ _ _).
  - intros p Hp Hu. destruct (in_area_bounds p 0 a K ltac:(lia) Hp) as (? & ? & ? & _).
    change (2 ^ 0) with 1 in *.
    destruct (t_cover _ _ _ T p ltac:(lia)) as (x & k & u & Hx & Hq).
    destruct (t_area _ _ _ T _ _ _ Hx) as [Hk _].
    destruct u; [destruct (Hu p ltac:(lia)); by exists x, k|].
    exists x, k. repeat split; (done || lia).
  - intros m Hm IH p Hp Hu. change (Z.succ m) with (m + 1) in *.
    destruct (buddy_left p m a K Hm Hp) as (Hl & Hr & HK).
    pose proof (pow2_S m Hm) as E2. pose proof (pow2_pos m Hm). rewrite E2 in *.
    pose proof Hp as (Hin & Hap & Hal & He). rewrite E2 in He.
    assert (in_area ar p m a K) as Hp1.
    { repeat split; [done|done| |lia]. apply (aligned_le _ m (m + 1)); [lia|done]. }
    destruct (buddy_pos p m a K ltac:(lia) Hp1) as (Hp2 & _). rewrite Hl in Hp2.
    destruct (IH p Hp1) as (x & k & Hx & Hk & Hxp & Hxe); [intros; apply Hu; lia|].
    destruct (IH (p + 2 ^ m) Hp2) as (y & j & Hy & Hj & Hyp & Hye); [intros; apply Hu; lia|].
    destruct (t_area _ _ _ T _ _ _ Hx) as [Hk0 (a1 & K1 & Hxa)].
    destruct (t_area _ _ _ T _ _ _ Hy) as [Hj0 (a2 & K2 & Hya)].
    destruct (in_area_unique x k a1 K1 p m a K p Hk0 Hm Hxa Hp1) as [-> ->]; [lia..|].
    destruct (in_area_unique y j a2 K2 (p + 2 ^ m) m a K (p + 2 ^ m) Hj0 Hm Hya Hp2) as [-> ->]; [lia..|].
    destruct (Z.eq_dec k m) as [->|]; [destruct (Z.eq_dec j m) as [->|]|].
    + exfalso. assert (x = p ∧ y = p + 2 ^ m) as [-> ->] by lia.
      apply (C p m a K Hx Hp1 HK). by rewrite Hl.
    + exists y, j. destruct (in_area_nested p (m + 1) y j a K (p + 2 ^ m) ltac:(lia) Hp Hya); [lia..|].
      repeat split; (done || lia).
    + exists x, k. destruct (in_area_nested p (m + 1) x k a K p ltac:(lia) Hp Hxa); [lia..|].
      repeat split; (done || lia).
Qed.

Lemma page_used_ext bl bl' q : used bl = used bl' → page_used bl q → page_used bl' q.
Proof.
  intros E (p & k & Hp & Hq). apply lookup_used in Hp. rewrite E in Hp.
  apply lookup_used in Hp. by exists p, k.
Qed.

Lemma canonical_free_sub bl bl' x k : tiling ar np bl → canonical ar bl →
  tiling ar np bl' → canonical ar bl' → used bl = used bl' →
  bl !! x = Some (k, false) → bl' !! x = Some (k, false).
Proof.
  intros T C T' C' E Hx.
  destruct (t_area _ _ _ T _ _ _ Hx) as [Hk (a & K & Hxa)]. pose proof (pow2_pos k Hk).
  destruct (canonical_region bl' k x a K T' C' Hk Hxa) as (y & j & Hy & Hj & ? & ?).
  { intros q Hq Hu. apply (free_not_used bl x k q T Hx Hq). by apply (page_used_ext bl'). }
  destruct (t_area _ _ _ T' _ _ _ Hy) as [Hj0 (a' & K' & Hya)]. pose proof (pow2_pos j Hj0).
  destruct (canonical_region bl j y a' K' T C Hj0 Hya) as (z & i & Hz & Hi & ? & ?).
  { intros q Hq Hu. apply (free_not_used bl' y j q T' Hy Hq). by apply (page_used_ext bl). }
  destruct (tiling_same bl x k false z i false x T Hx Hz) as (-> & -> & _); [lia..|].
  assert (j = i) as -> by lia. by replace z with y by lia.
Qed.

(** A canonical tiling is determined by its used blocks. *)
Lemma canonical_unique bl bl' : tiling ar np bl → canonical ar bl →
  tiling ar np bl' → canonical ar bl' → used bl = used bl' → bl = bl'.
Proof.
  intros T C T' C' E. apply map_eq. intros x. apply option_eq. intros [k u].
  destruct u.
  - by rewrite <- !lookup_used, E.
  - split; apply canonical_free_sub; done.
Qed.
End tilings.

(** * Page counts *)

Definition pages_sum (f : Z * bool → Z) (bl : blocks) : Z :=
  map_fold (λ _ b acc, f b + acc) 0 bl.
Definition total_pages : blocks → Z := pages_sum (λ b, 2 ^ b.1).
Definition used_pages : blocks → Z := pages_sum (λ b, if b.2 then 2 ^ b.1 else 0).

Lemma pages_sum_insert f bl p b : bl !! p = None →
  pages_sum f (<[p := b]> bl) = f b + pages_sum f bl.
Proof. intros. unfold pages_sum. rewrite map_fold_insert_L; [done| |done]. intros; lia. Qed.

Lemma pages_sum_delete f bl p b : bl !! p = Some b →
  pages_sum f bl = f b + pages_sum f (delete p bl).
Proof.
  intros Hp. rewrite <- (insert_delete_id bl p b) at 1 by done.
  apply pages_sum_insert, lookup_delete_eq.
Qed.

Lemma pages_sum_update f bl p b b' : bl !! p = Some b →
  pages_sum f (<[p := b']> bl) = f b' - f b + pages_sum f bl.
Proof.
  intros Hp. rewrite (pages_sum_delete f bl p b Hp), <- insert_delete_eq.
  rewrite pages_sum_insert by apply lookup_delete_eq. lia.
Qed.

Lemma used_total bl : (∀ p k u, bl !! p = Some (k, u) → 0 ≤ k) →
  0 ≤ used_pages bl ≤ total_pages bl.
Proof.
  unfold used_pages, total_pages. induction bl as [|p [k u] bl Hp _ IH] using map_first_key_ind.
  - intros. unfold pages_sum. rewrite !map_fold_empty. lia.
  - intros Hk. rewrite !pages_sum_insert by done.
    assert (0 ≤ k) as Hk0 by (eapply Hk; apply lookup_insert_eq). pose proof (pow2_pos k Hk0).
    destruct IH; [intros q j v Hq; apply (Hk q j v); rewrite lookup_insert_ne; congruence|].
    simpl. destruct u; lia.
Qed.

Lemma used_pages_none bl : (∀ p k, bl !! p ≠ Some (k, true)) → used_pages bl = 0.
Proof.
  unfold used_pages. induction bl as [|p [k u] bl Hp _ IH] using map_first_key_ind; [done|].
  intros Hn. rewrite pages_sum_insert by done. rewrite IH.
  - destruct u; [|done]. destruct (Hn p k). apply lookup_insert_eq.
  - intros q j Hq. apply (Hn q j). rewrite lookup_insert_ne; [done|]. by intros ->; rewrite Hp in Hq.
Qed.
