(* ===== verification/Buddy.v ===== *)
(** The physical page allocator: [mm::BuddyAllocator].

    Models [kernel/mm/buddy_algorithmn/buddy_allocator.cc] and its header:
    the free lists threaded through the free pages themselves, the per-page
    info bytes, the area descriptors, allocation with splitting and release
    with merging.  The memory that holds list nodes is a finite map from
    pointers to nodes (the sentinels [_buddy_nodes[i]] are the pointers
    [PHead i], a node written at address [a] is [PNode a]); memory that was
    never written reads as zero, which is what [PhysicalMemoryManager]
    fills it with before it constructs the allocator. *)

From Stdlib Require Import ZArith Lia.
From stdpp Require Import base numbers gmap list.
From S2P Require Import Prelude Page Dll.

Set Default Goal Selector "!".
Open Scope Z_scope.

Module Allocator.

(** * Data *)

Inductive nptr : Type :=
| PHead (order : Z)
| PNode (addr : Z).

#[export] Instance nptr_eq_dec : EqDecision nptr.
Proof. solve_decision. Defined.
#[export] Instance nptr_countable : Countable nptr.
Proof.
  apply (inj_countable'
    (λ p, match p with PHead i => inl i | PNode a => inr a end)
    (λ s, match s with inl i => PHead i | inr a => PNode a end)).
  by intros [].
Defined.

Record BuddyNode : Type := mkNode {
  magic : Z;
  _area_size : Z;
  _prev : nptr;
  _next : nptr
}.

Definition nullptr : nptr := PNode 0.
Definition zero_buddy_node : BuddyNode := mkNode 0 0 nullptr nullptr.

#[export] Instance buddy_linked : Linked nptr BuddyNode.
Proof.
  refine {| nxt := _next; prv := _prev;
            set_nxt k n := mkNode (magic n) (_area_size n) (_prev n) k;
            set_prv k n := mkNode (magic n) (_area_size n) k (_next n);
            zero_node := zero_buddy_node |}; done.
Defined.

(** [BuddyInfo]: the bit fields of one info byte. *)
Record BuddyInfo : Type := mkInfo { order : Z; area_flag : Z; in_use : Z }.
Definition zero_info : BuddyInfo := mkInfo 0 0 0.

Definition buddy_order_level_cnt : Z := 33.
Definition buddy_node_magic : Z := 0xbd054a0ef9f5a2de.
Definition buddy_unused_magic : Z := 0x9edc5824b97d47b4.

Record BuddyAllocator : Type := mkBuddy {
  _lock : bool;                      (* held by this cpu *)
  _mem_addr : Z;
  _mem_size : Z;
  nodes : gmap nptr BuddyNode;       (* [_buddy_nodes] and the nodes in free memory *)
  _buddy_max_order : Z;
  _area_desc : list (Z * Z);         (* ([_head.addr], [_area_size]), [_area_desc_len] of them *)
  infos : gmap Z BuddyInfo;          (* [_alloc_infos[i]] *)
  _infos_size : Z;
  _alloc_size : Z
}.

Definition set_lock b s := mkBuddy b (_mem_addr s) (_mem_size s) (nodes s)
  (_buddy_max_order s) (_area_desc s) (infos s) (_infos_size s) (_alloc_size s).
Definition on_nodes f s := mkBuddy (_lock s) (_mem_addr s) (_mem_size s) (f (nodes s))
  (_buddy_max_order s) (_area_desc s) (infos s) (_infos_size s) (_alloc_size s).
Definition on_infos f s := mkBuddy (_lock s) (_mem_addr s) (_mem_size s) (nodes s)
  (_buddy_max_order s) (_area_desc s) (f (infos s)) (_infos_size s) (_alloc_size s).
Definition on_alloc_size f s := mkBuddy (_lock s) (_mem_addr s) (_mem_size s) (nodes s)
  (_buddy_max_order s) (_area_desc s) (infos s) (_infos_size s) (f (_alloc_size s)).
Definition add_area k d s := mkBuddy (_lock s) (_mem_addr s) (_mem_size s) (nodes s)
  k (_area_desc s ++ [d]) (infos s) (_infos_size s) (_alloc_size s).

Abbreviation B := (M BuddyAllocator).

Definition acquire : B unit :=
  s ← get; if _lock s then panic else put (set_lock true s).
Definition release : B unit :=
  s ← get; if _lock s then put (set_lock false s) else panic.

(** * List and info helpers (the header's private members) *)

Definition head_ptr (ord : Z) : B nptr :=
  if (0 <=? ord) && (ord <? buddy_order_level_cnt) then mret (PHead ord) else stuck.

Definition insert_node (node : Z) (ord : Z) : B unit :=
  h ← head_ptr ord;
  modify (on_nodes (link_after h (PNode node))).

Definition remove_node (node : nptr) : B unit :=
  modify (on_nodes (λ m,
    let m := unlink node m in
    let m := upd node (set_prv node) m in
    upd node (set_nxt node) m)).

Definition has_nodes (ord : Z) : B bool :=
  h ← head_ptr ord;
  s ← get;
  mret (negb (bool_decide (_next (node_at (nodes s) h) = h))).

(** [_count_nodes]: walk the ring; the fuel bounds the walk. *)
Fixpoint count_loop (fuel : nat) (h pn : nptr) (cnt : Z) : B Z :=
  match fuel with
  | O => spin
  | S f =>
      if decide (pn = h) then mret cnt
      else s ← get; count_loop f h (_next (node_at (nodes s) pn)) (cnt + 1)
  end.
Definition count_nodes (fuel : nat) (ord : Z) : B Z :=
  h ← head_ptr ord;
  s ← get;
  count_loop fuel h (_next (node_at (nodes s) h)) 0.

Fixpoint belong_area (ds : list (Z * Z)) (addr : Z) : option (Z * Z) :=
  match ds with
  | [] => None
  | (a, sz) :: ds' =>
      if addr <? a then belong_area ds' addr
      else if a ⊞ sz <=? addr then belong_area ds' addr
      else Some (a, sz)
  end.

Definition get_info_index (mem node : Z) : Z := (node ⊟ mem) / page_size.

Definition info_at (s : BuddyAllocator) (i : Z) : BuddyInfo := default zero_info (infos s !! i).

(** Access to [_alloc_infos[i]]: outside the info array it is undefined. *)
Definition read_info (i : Z) : B BuddyInfo :=
  s ← get;
  if (0 <=? i) && (i <? _infos_size s) then mret (info_at s i) else stuck.
Definition write_info (i : Z) (x : BuddyInfo) : B unit :=
  s ← get;
  if (0 <=? i) && (i <? _infos_size s) then modify (on_infos <[i := x]>) else stuck.

Definition record_info (node ord use is_area : Z) : B unit :=
  s ← get;
  write_info (get_info_index (_mem_addr s) node)
    (mkInfo (u8 ord mod 2 ^ 6) (is_area mod 2) (use mod 2)).

Definition is_in_use (node : Z) : B bool :=
  s ← get;
  i ← read_info (get_info_index (_mem_addr s) node);
  mret (in_use i =? 1).

Definition pop_node (ord : Z) : B nptr :=
  h ← head_ptr ord;
  s ← get;
  let node := _next (node_at (nodes s) h) in
  remove_node node;;
  mret node.

Definition get_buddy_node (bd : Z * Z) (node area_size : Z) : Z :=
  Z.lxor (node ⊟ bd.1) area_size ⊞ bd.1.

Definition node_of (node : Z) : B BuddyNode := gets (λ s, node_at (nodes s) (PNode node)).
Definition store_node (node : Z) (n : BuddyNode) : B unit :=
  modify (on_nodes (λ m, upd (PNode node) (λ _, n) m)).

(** [_split_node( nd, nd1 )]: both halves get the magic and half the size. *)
Definition split_two (nd nd1 : Z) : B unit :=
  n ← node_of nd;
  let to_sz := _area_size n ≫ 1 in
  let hdr n := mkNode buddy_node_magic (_area_size n) (_prev n) (_next n) in
  let siz n := mkNode (magic n) to_sz (_prev n) (_next n) in
  modify (on_nodes (upd (PNode nd) hdr));;
  modify (on_nodes (upd (PNode nd1) hdr));;
  modify (on_nodes (upd (PNode nd1) siz));;
  modify (on_nodes (upd (PNode nd) siz)).

Definition split_node (ord nd : Z) : B Z :=
  if ord <=? 0 then mret (-1)
  else
    n ← node_of nd;
    if negb (_area_size n =? page_size ⋘ ord) then mret (-2)
    else
      let inlist := nd ⊞ (_area_size n ≫ 1) in
      split_two nd inlist;;
      insert_node inlist (ord - 1);;
      record_info inlist (ord - 1) 0 1;;
      mret 0.

Definition combine_node (nd nd1 : Z) : B Z :=
  n ← node_of nd;
  n1 ← node_of nd1;
  if negb (_area_size n =? _area_size n1) then mret (-1)
  else
    let to_sz := _area_size n ⋘ 1 in
    store_node nd1 (mkNode buddy_unused_magic 0 nullptr nullptr);;
    store_node nd (mkNode buddy_node_magic to_sz nullptr nullptr);;
    mret 0.

#[global] Arguments get_info_index : simpl never.
#[global] Arguments info_at : simpl never.
#[global] Arguments get_buddy_node : simpl never.

(** * Public interface *)

(** [2^(order-1) < count <= 2^order]; a shift of [1U] by 32 or more is
    undefined. *)
Fixpoint order_loop (fuel : nat) (ord count : Z) : B Z :=
  match fuel with
  | O => stuck
  | S f => if count <=? u32 (1 ≪ ord) then mret ord else order_loop f (ord + 1) count
  end.
Definition order_of (count : Z) : B Z := order_loop 32 0 count.

Fixpoint find_loop (fuel : nat) (i maxo : Z) : B Z :=
  match fuel with
  | O => spin
  | S f =>
      if i <=? maxo then
        b ← has_nodes i;
        if (b : bool) then mret i else find_loop f (i + 1) maxo
      else mret i
  end.

(** The splitting loop.  The source tests
    [int ret = _split_node( i, *node ) < 0] and asserts [ret >= 0]: [ret] is the
    result of the comparison, so the assertion cannot fail. *)
Fixpoint split_loop (fuel : nat) (i ord node : Z) : B unit :=
  match fuel with
  | O => spin
  | S f =>
      if ord <? i then
        r ← split_node i node;
        let ret := if r <? 0 then 1 else 0 in
        when (ret =? 1) (assert (0 <=? ret));;
        split_loop f (i - 1) ord node
      else mret tt
  end.

Definition loop_fuel : nat := 66.

Definition addr_of (p : nptr) : B Z :=
  match p with PNode a => mret a | PHead _ => stuck end.

(** Returns the address, 0 for [nullptr]. *)
Definition alloc_pages (count : Z) : B Z :=
  if count =? 0 then mret 0
  else
    ord ← order_of count;
    acquire;;
    maxo ← gets _buddy_max_order;
    i ← find_loop loop_fuel ord maxo;
    if maxo <? i then release;; mret 0
    else
      p ← pop_node i;
      node ← addr_of p;
      n ← node_of node;
      if negb (magic n =? buddy_node_magic) then release;; mret 0
      else
        split_loop loop_fuel i ord node;;
        record_info node ord 1 1;;
        modify (on_alloc_size (λ a, a ⊞ u64 ((1 ⋘ ord) * page_size)));;
        release;;
        mret node.

(** The merging loop of [free_pages]: returns the final node and order. *)
Fixpoint merge_loop (fuel : nat) (bd : Z * Z) (node ord : Z) : B (Z * Z) :=
  match fuel with
  | O => spin
  | S f =>
      n ← node_of node;
      if _area_size n =? bd.2 then mret (node, ord)
      else
        let buddy := get_buddy_node bd node (_area_size n) in
        u ← is_in_use buddy;
        if (u : bool) then mret (node, ord)
        else
          b ← node_of buddy;
          if negb (_area_size n =? _area_size b) then mret (node, ord)
          else
            remove_node (PNode buddy);;
            let '(node, buddy) :=
              if buddy <? node then
                let node := Z.lxor node buddy in
                let buddy := Z.lxor node buddy in
                let node := Z.lxor node buddy in
                (node, buddy)
              else (node, buddy) in
            record_info buddy 0 0 0;;
            r ← combine_node node buddy;
            assert (0 <=? r);;
            merge_loop f bd node (ord + 1)
  end.

Definition free_pages (ptr : Z) : B Z :=
  if ptr =? 0 then mret (-1)
  else if negb (is_page_align ptr) then mret (-2)
  else
    acquire;;
    s ← get;
    let idx := get_info_index (_mem_addr s) ptr in
    assert (idx <? _infos_size s);;
    info ← read_info idx;
    if area_flag info =? 0 then release;; mret 0
    else if in_use info =? 0 then release;; mret (-3)
    else
      assert (order info <=? _buddy_max_order s);;
      write_info idx (mkInfo (order info) (area_flag info) 0);;
      let ord := order info in
      modify (on_alloc_size (λ a, a ⊟ u64 ((1 ⋘ ord) * page_size)));;
      let bd := belong_area (_area_desc s) ptr in
      store_node ptr (mkNode buddy_node_magic (page_size ⋘ ord) nullptr nullptr);;
      bd ← deref bd;
      '(node, ord) ← merge_loop loop_fuel bd ptr ord;
      insert_node node ord;;
      record_info node ord 0 1;;
      release;;
      mret 0.

Definition mem_desc (s : BuddyAllocator) : Z * Z :=
  (_alloc_size s, _mem_size s ⊟ _alloc_size s).

(** The constructor's loop over the bits of the page count. *)
Fixpoint init_loop (fuel : nat) (l k pg_cnt area_start : Z) : B unit :=
  match fuel with
  | O => spin
  | S f =>
      if l =? 0 then mret tt
      else if negb (Z.land l pg_cnt =? 0) then
        store_node area_start (mkNode buddy_node_magic (page_size ⋘ k) nullptr nullptr);;
        insert_node area_start k;;
        record_info area_start k 0 1;;
        modify (add_area k (area_start, page_size ⋘ k));;
        init_loop f (l ⋘ 1) (k + 1) pg_cnt (area_start ⊞ (page_size ⋘ k))
      else init_loop f (l ⋘ 1) (k + 1) pg_cnt area_start
  end.

Definition fresh_heads : gmap nptr BuddyNode :=
  list_to_map ((λ i, (PHead (Z.of_nat i),
    mkNode buddy_unused_magic 0 (PHead (Z.of_nat i)) (PHead (Z.of_nat i))))
      <$> seq 0 (Z.to_nat buddy_order_level_cnt)).

(** [BuddyAllocator( mem, size )]: [i64] is the cast of [size] to [long]. *)
Definition construct (mem size : Z) : outcome BuddyAllocator unit :=
  if negb ((mem mod page_size =? 0) && (64 * page_size <=? size)
             && (Z.land size (page_size - 1) =? 0)) then Panic
  else
    let infos_size := page_round_up (u64 (u64 (i64 size) / (page_size / 1))) in
    let mem_size := size ⊟ infos_size in
    let s := mkBuddy false mem mem_size fresh_heads 0 [] ∅ infos_size 0 in
    init_loop loop_fuel 1 0 (mem_size / page_size) mem s.

(** ** Evaluation on a small memory: 70 pages at 1 MiB, two areas of 4 + 1 pages
    removed for the infos *)

Definition demo : outcome BuddyAllocator unit := construct 0x100000 (70 * 4096).

Example demo_areas :
  match demo with Ret _ s => map snd (_area_desc s) | _ => [] end = [0x1000; 0x4000; 0x40000].
Proof. vm_compute. reflexivity. Qed.

Example demo_alloc :
  match demo with
  | Ret _ s =>
      match alloc_pages 3 s with
      | Ret p s1 => match free_pages p s1 with Ret r s2 => (p, r, mem_desc s1, mem_desc s2) | _ => (0,0,(0,0),(0,0)) end
      | _ => (0,0,(0,0),(0,0)) end
  | _ => (0,0,(0,0),(0,0)) end = (0x101000, 0, (4 * 4096, 65 * 4096), (0, 69 * 4096)).
Proof. vm_compute. reflexivity. Qed.

End Allocator.
