(* ===== verification/BuddyInv.v ===== *)
(** The invariant of the buddy allocator and how each step keeps it.

    [inv s ar np bl] relates an allocator state to a canonical tiling [bl] of
    its [np] pages ([Tiling.v]): the info byte of each page, the free list of
    each order, the node stored in each free block and the byte counter are
    those of [bl].  While an operation holds a block that is in no free list
    the relation holds for every other block ([conc] with an exception). *)

From Stdlib Require Import ZArith Lia.
From stdpp Require Import base numbers gmap list.
From S2P Require Import Prelude Page Dll Tiling Buddy.
Import Allocator.

Set Default Goal Selector "!".
Open Scope Z_scope.

Module Inv.

Definition pnode (mem p : Z) : nptr := PNode (mem + 4096 * p).

(** Static shape: set by the constructor, never changed. *)
Record geom (mem msize maxo : Z) (desc : list (Z * Z)) (isize : Z)
    (ar : list (Z * Z)) (np : Z) : Prop := {
  g_mem : 0 < mem ∧ mem mod 4096 = 0;
  g_top : mem + 4096 * np < 2 ^ 64;
  g_isize : np ≤ isize ∧ mem + 4096 * isize ≤ 2 ^ 64;
  g_ar : areas_from 0 ar np;
  g_desc : desc = (λ x : Z * Z, (mem + 4096 * x.1, 4096 * 2 ^ x.2)) <$> ar;
  g_max : ∀ a K, (a, K) ∈ ar → K ≤ maxo;
  g_maxo : 0 ≤ maxo < 33;
  g_size : msize = 4096 * np
}.

Abbreviation geom_of s ar np :=
  (geom (_mem_addr s) (_mem_size s) (_buddy_max_order s) (_area_desc s) (_infos_size s) ar np).

Definition info_of (inf : gmap Z BuddyInfo) (p : Z) : BuddyInfo := default zero_info (inf !! p).

Record conc (mem : Z) (nd : gmap nptr BuddyNode) (inf : gmap Z BuddyInfo)
    (bl : blocks) (ex : list Z) : Prop := {
  c_some : ∀ p k u, bl !! p = Some (k, u) → p ∉ ex →
    info_of inf p = mkInfo k 1 (Z.b2z u);
  c_none : ∀ p, bl !! p = None → area_flag (info_of inf p) = 0;
  c_list : ∀ k, 0 ≤ k < 33 → ∃ l, dll nd (PHead k) (pnode mem <$> l) ∧
    ∀ p, p ∈ l ↔ bl !! p = Some (k, false);
  c_node : ∀ p k, bl !! p = Some (k, false) →
    magic (node_at nd (pnode mem p)) = buddy_node_magic ∧
    _area_size (node_at nd (pnode mem p)) = 4096 * 2 ^ k
}.

Abbreviation conc_of s bl ex := (conc (_mem_addr s) (nodes s) (infos s) bl ex).

Record inv (s : BuddyAllocator) (ar : list (Z * Z)) (np : Z) (bl : blocks) : Prop := {
  i_geom : geom_of s ar np;
  i_conc : conc_of s bl [];
  i_tiling : tiling ar np bl;
  i_canon : canonical ar bl;
  i_total : total_pages bl = np;
  i_alloc : _alloc_size s = 4096 * used_pages bl;
  i_lock : _lock s = false
}.

#[export] Instance pnode_inj mem : Inj (=) (=) (pnode mem).
Proof. intros p q [=]. lia. Qed.

(** ** Geometry *)

Lemma belong_area_from mem np z ar p a K : 0 ≤ mem → mem + 4096 * np < 2 ^ 64 → 0 ≤ z →
  areas_from z ar np → (a, K) ∈ ar → a ≤ p < a + 2 ^ K →
  belong_area ((λ x : Z * Z, (mem + 4096 * x.1, 4096 * 2 ^ x.2)) <$> ar) (mem + 4096 * p)
    = Some (mem + 4096 * a, 4096 * 2 ^ K).
Proof.
  intros Hm Ht. revert z. induction ar as [|[b L] ar IH]; intros z Hz; simpl.
  { intros _ Hin. by apply elem_of_nil in Hin. }
  intros (-> & HL & Har) Hin Hp.
  pose proof (areas_from_le _ _ _ Har). pose proof (pow2_pos L HL).
  rewrite wrap64_small by lia. apply elem_of_cons in Hin as [[= -> ->]|Hin].
  - zbool; (lia || done).
  - pose proof (areas_from_in _ _ _ _ _ Har Hin).
    zbool; try lia. apply (IH (z + 2 ^ L)); (done || lia).
Qed.

Section geometry.
Context (mem msize maxo : Z) (desc : list (Z * Z)) (isize : Z) (ar : list (Z * Z)) (np : Z)
  (G : geom mem msize maxo desc isize ar np).

Lemma geom_order p k a K : 0 ≤ k → in_area ar p k a K → 0 ≤ k ≤ K ∧ K ≤ maxo ∧ k < 33.
Proof.
  intros Hk Hin. destruct (in_area_bounds ar np (g_ar _ _ _ _ _ _ _ G) p k a K Hk Hin) as (_ & _ & _ & ?).
  pose proof (g_max _ _ _ _ _ _ _ G a K (proj1 Hin)). pose proof (g_maxo _ _ _ _ _ _ _ G). lia.
Qed.

Lemma addr_range p : 0 ≤ p ≤ np → 0 ≤ mem + 4096 * p < 2 ^ 64.
Proof. pose proof (g_mem _ _ _ _ _ _ _ G). pose proof (g_top _ _ _ _ _ _ _ G). lia. Qed.

Lemma addr_index p : 0 ≤ p ≤ np → get_info_index mem (mem + 4096 * p) = p.
Proof.
  intros Hp. pose proof (addr_range p Hp). pose proof (g_mem _ _ _ _ _ _ _ G).
  unfold get_info_index, page_size. replace (mem + 4096 * p - mem) with (p * 4096) by lia.
  rewrite wrap64_small by lia. apply Z.div_mul. lia.
Qed.

(** An address of the managed memory is a page address exactly when aligned. *)
Lemma addr_aligned p : 0 ≤ p ≤ np → is_page_align (mem + 4096 * p) = true.
Proof.
  intros Hp. pose proof (addr_range p Hp). apply is_page_align_spec; [lia|].
  rewrite Z.mul_comm, Z.mod_add by lia. apply (g_mem _ _ _ _ _ _ _ G).
Qed.

Lemma page_bytes k : 0 ≤ k < 33 → page_size ⋘ k = 4096 * 2 ^ k.
Proof.
  intros Hk. unfold page_size. rewrite Z.shiftl_mul_pow2 by lia.
  pose proof (pow2_mono k 33 ltac:(lia)). pose proof (pow2_pos k ltac:(lia)).
  apply wrap64_small. lia.
Qed.

Lemma belong_area_spec p k a K : 0 ≤ k → in_area ar p k a K →
  belong_area desc (mem + 4096 * p) = Some (mem + 4096 * a, 4096 * 2 ^ K).
Proof.
  intros Hk Hin. rewrite (g_desc _ _ _ _ _ _ _ G). pose proof (pow2_pos k Hk).
  destruct Hin as (Hin & Hap & _ & He).
  eapply belong_area_from; [..|apply (g_ar _ _ _ _ _ _ _ G)|done|]; try lia.
  - pose proof (g_mem _ _ _ _ _ _ _ G). lia.
  - apply (g_top _ _ _ _ _ _ _ G).
Qed.
End geometry.

(** ** Steps on the relation *)

Section steps.
Context (mem : Z).
Implicit Types (nd : gmap nptr BuddyNode) (inf : gmap Z BuddyInfo) (bl : blocks).

Lemma conc_weaken nd inf bl ex ex' : ex ⊆ ex' → conc mem nd inf bl ex → conc mem nd inf bl ex'.
Proof. intros Hs [H1 H2 H3 H4]. split; try done. intros p k u Hp Hn. apply H1; [done|set_solver]. Qed.

(** Memory of blocks that are not free is not read. *)
Lemma conc_frame nd nd' inf bl ex :
  (∀ k, 0 ≤ k < 33 → node_at nd' (PHead k) = node_at nd (PHead k)) →
  (∀ p k, bl !! p = Some (k, false) → node_at nd' (pnode mem p) = node_at nd (pnode mem p)) →
  conc mem nd inf bl ex → conc mem nd' inf bl ex.
Proof.
  intros Hh Hn [H1 H2 H3 H4]. split; [done|done| |].
  - intros k Hk. destruct (H3 k Hk) as (l & Hl & Hin). exists l. split; [|done].
    eapply dll_frame; [|done]. intros x Hx. apply elem_of_cons in Hx as [->|Hx]; [by apply Hh|].
    apply list_elem_of_fmap in Hx as (p & -> & Hp). eapply Hn. by apply Hin.
  - intros p k Hp. rewrite (Hn p k Hp). by apply H4.
Qed.

Lemma conc_used nd inf bl ex p k : (∀ j, bl !! p ≠ Some (j, false)) →
  conc mem nd inf bl ex → conc mem nd inf (<[p := (k, true)]> bl) (p :: ex).
Proof.
  intros Hp [H1 H2 H3 H4]. split.
  - intros q j u Hq Hn. apply not_elem_of_cons in Hn as [Hne Hn].
    rewrite lookup_insert_ne in Hq by done. by apply H1.
  - intros q Hq. apply lookup_insert_None in Hq as [Hq _]. by apply H2.
  - intros j Hj. destruct (H3 j Hj) as (l & Hl & Hin). exists l. split; [done|].
    intros q. rewrite Hin, lookup_insert. case_decide; [subst|done]. naive_solver.
  - intros q j Hq. apply H4. rewrite lookup_insert in Hq. case_decide; simplify_eq. done.
Qed.

Lemma conc_info nd inf bl ex p k u : bl !! p = Some (k, u) → conc mem nd inf bl (p :: ex) →
  conc mem nd (<[p := mkInfo k 1 (Z.b2z u)]> inf) bl ex.
Proof.
  intros Hp [H1 H2 H3 H4]. split; [| |done|done].
  - intros q j v Hq Hn. unfold info_of. rewrite lookup_insert. case_decide; simplify_eq/=; [done|].
    apply H1; [done|]. apply not_elem_of_cons. done.
  - intros q Hq. unfold info_of. rewrite lookup_insert. case_decide; simplify_eq/=. by apply H2.
Qed.

(** A held block goes to the front of its free list. *)
Lemma conc_link nd inf bl ex p k : 0 ≤ k < 33 → bl !! p = Some (k, true) →
  magic (node_at nd (pnode mem p)) = buddy_node_magic →
  _area_size (node_at nd (pnode mem p)) = 4096 * 2 ^ k →
  conc mem nd inf bl ex →
  conc mem (link_after (PHead k) (pnode mem p) nd) inf (<[p := (k, false)]> bl) (p :: ex).
Proof.
  intros Hk Hp Hm Hs [H1 H2 H3 H4]. split.
  - intros q j u Hq Hn. apply not_elem_of_cons in Hn as [Hne Hn].
    rewrite lookup_insert_ne in Hq by done. by apply H1.
  - intros q Hq. apply lookup_insert_None in Hq as [Hq _]. by apply H2.
  - intros j Hj. destruct (H3 j Hj) as (l & Hl & Hin).
    destruct (decide (j = k)) as [->|Hjk].
    + exists (p :: l). split.
      * rewrite fmap_cons. apply dll_link_after; [done|]. apply not_elem_of_cons. split; [done|].
        rewrite list_elem_of_fmap. intros (q & Eq & Hq). apply (inj (pnode mem)) in Eq as ->.
        apply Hin in Hq. by rewrite Hp in Hq.
      * intros q. rewrite elem_of_cons, Hin, lookup_insert. case_decide; naive_solver.
    + destruct (H3 k Hk) as (lk & Hlk & Hink). exists l. split.
      * eapply dll_frame; [|done]. intros x Hx. eapply dll_link_after_frame; [done|].
        rewrite !not_elem_of_cons, list_elem_of_fmap.
        apply elem_of_cons in Hx as [->|Hx].
        -- repeat split; [done|congruence|]. intros (q & ? & _). done.
        -- apply list_elem_of_fmap in Hx as (q & -> & Hq). apply Hin in Hq.
           repeat split; [intros E; apply (inj (pnode mem)) in E; congruence|done|].
           intros (q' & E & Hq'). apply (inj (pnode mem)) in E as ->. apply Hink in Hq'. congruence.
      * intros q. rewrite Hin, lookup_insert. case_decide; [subst; naive_solver|done].
  - intros q j. rewrite lookup_insert. intros Hq.
    rewrite !(link_after_data magic), !(link_after_data _area_size) by done.
    case_decide; simplify_eq; [done|by apply H4].
Qed.

(** [remove_node] of a free block: it is held from now on. *)
Definition removed (q : nptr) nd : gmap nptr BuddyNode :=
  upd q (set_nxt q) (upd q (set_prv q) (unlink q nd)).

Lemma removed_data {T} (g : BuddyNode → T) nd p q :
  (∀ k n, g (set_nxt k n) = g n) → (∀ k n, g (set_prv k n) = g n) →
  g (node_at (removed p nd) q) = g (node_at nd q).
Proof. intros. unfold removed. rewrite !(upd_data g), (unlink_data g) by done. done. Qed.

Lemma conc_unlink nd inf bl ex p k : 0 ≤ k < 33 → bl !! p = Some (k, false) →
  conc mem nd inf bl ex →
  conc mem (removed (pnode mem p) nd) inf (<[p := (k, true)]> bl) (p :: ex).
Proof.
  intros Hk Hp [H1 H2 H3 H4]. split.
  - intros q j u Hq Hn. apply not_elem_of_cons in Hn as [Hne Hn].
    rewrite lookup_insert_ne in Hq by done. by apply H1.
  - intros q Hq. apply lookup_insert_None in Hq as [Hq _]. by apply H2.
  - intros j Hj. destruct (H3 j Hj) as (l & Hl & Hin). destruct (H3 k Hk) as (lk & Hlk & Hink).
    pose proof (proj2 (Hink p) Hp) as Hpl. apply list_elem_of_split in Hpl as (l1 & l2 & ->).
    rewrite fmap_app, fmap_cons in Hlk.
    assert (NoDup (l1 ++ p :: l2)) as Hnd.
    { destruct Hlk as [Hnd _]. apply NoDup_cons in Hnd as [_ Hnd].
      rewrite <- fmap_cons, <- fmap_app in Hnd. by apply NoDup_fmap_1 in Hnd. }
    assert (p ∉ l1 ++ l2) as Hpn.
    { apply NoDup_app in Hnd as (_ & Hd & Hnd). apply NoDup_cons in Hnd as [? _]. set_solver. }
    destruct (decide (j = k)) as [->|Hjk].
    + exists (l1 ++ l2). rewrite fmap_app. split.
      * apply (dll_frame (unlink (pnode mem p) nd)); [|by apply dll_unlink].
        intros x Hx. unfold removed. rewrite !node_at_upd_ne; [done|..];
          intros <-; rewrite <- fmap_app, elem_of_cons in Hx; destruct Hx as [?|Hx]; try done;
          apply list_elem_of_fmap in Hx as (q & E & ?); apply (inj (pnode mem)) in E; congruence.
      * intros q. rewrite lookup_insert. case_decide; [subst; naive_solver|].
        rewrite <- Hink. set_solver.
    + exists l. split.
      * eapply dll_frame; [|done]. intros x Hx. unfold removed.
        assert (x ≠ pnode mem p ∧ x ∉ PHead k :: (pnode mem <$> l1) ++ (pnode mem <$> l2)) as [Hxp Hxn].
        { rewrite <- fmap_app, not_elem_of_cons, list_elem_of_fmap.
          apply elem_of_cons in Hx as [->|Hx].
          - repeat split; [done|congruence|]. intros (q & ? & _). done.
          - apply list_elem_of_fmap in Hx as (q & -> & Hq). apply Hin in Hq.
            repeat split; [intros E; apply (inj (pnode mem)) in E; congruence|done|].
            intros (q' & E & Hq'). apply (inj (pnode mem)) in E as ->.
            assert (q' ∈ l1 ++ p :: l2) as Hq2 by set_solver. apply Hink in Hq2. congruence. }
        rewrite !node_at_upd_ne by done. by eapply unlink_frame.
      * intros q. rewrite Hin, lookup_insert. case_decide; [subst; naive_solver|done].
  - intros q j Hq. rewrite lookup_insert in Hq. case_decide; simplify_eq.
    rewrite (removed_data magic), (removed_data _area_size) by done. by apply H4.
Qed.
End steps.

End Inv.
