(* ===== verification/BuddyAlloc.v ===== *)
(** Allocation: [alloc_pages] against the abstract buddy system.

    The runs of the list and info helpers, the splitting loop, and what
    [alloc_pages] returns on every branch. *)

From Stdlib Require Import ZArith Lia.
From stdpp Require Import base numbers gmap list.
From S2P Require Import Prelude Page Dll Tiling Buddy BuddyInv.
Import Allocator Inv.

Set Default Goal Selector "!".
Open Scope Z_scope.

Module Alloc.

(** Only the nodes and the infos differ. *)
Record same (s s' : BuddyAllocator) : Prop := {
  s_lock : _lock s' = _lock s;
  s_mem : _mem_addr s' = _mem_addr s;
  s_msize : _mem_size s' = _mem_size s;
  s_maxo : _buddy_max_order s' = _buddy_max_order s;
  s_desc : _area_desc s' = _area_desc s;
  s_isize : _infos_size s' = _infos_size s;
  s_alloc : _alloc_size s' = _alloc_size s
}.

#[export] Instance same_preorder : PreOrder same.
Proof.
  split; [by split|]. intros s1 s2 s3 [] []. split; congruence.
Qed.

Lemma same_geom s s' ar np : same s s' → geom_of s ar np → geom_of s' ar np.
Proof. intros [] ?. congruence. Qed.

Lemma same_nodes f s : same s (on_nodes f s).
Proof. by split. Qed.
Lemma same_infos f s : same s (on_infos f s).
Proof. by split. Qed.

#[export] Hint Resolve same_nodes same_infos : mach.

(** ** Runs of the helpers *)

Lemma run_head k s : 0 ≤ k < 33 → head_ptr k s = Ret (PHead k) s.
Proof. intros Hk. unfold head_ptr, buddy_order_level_cnt. zbool; try lia. done. Qed.

Lemma run_insert a k s : 0 ≤ k < 33 →
  insert_node a k s = Ret tt (on_nodes (link_after (PHead k) (PNode a)) s).
Proof. intros Hk. unfold insert_node. by mstep (run_head k s Hk). Qed.

Lemma run_node_of a s : node_of a s = Ret (node_at (nodes s) (PNode a)) s.
Proof. done. Qed.

Lemma run_addr_of mem p s : addr_of (pnode mem p) s = Ret (mem + 4096 * p) s.
Proof. done. Qed.

Lemma run_remove q s : remove_node q s = Ret tt (on_nodes (removed q) s).
Proof. done. Qed.

Lemma run_record s ar np p k u w : geom_of s ar np → 0 ≤ p < np → 0 ≤ k < 33 →
  0 ≤ u < 2 → 0 ≤ w < 2 →
  record_info (_mem_addr s + 4096 * p) k u w s = Ret tt (on_infos <[p := mkInfo k w u]> s).
Proof.
  intros G Hp Hk Hu Hw. unfold record_info, write_info. mrun.
  rewrite (addr_index _ _ _ _ _ _ _ G) by lia. pose proof (g_isize _ _ _ _ _ _ _ G).
  unfold u8. rewrite (Z.mod_small k (2 ^ 8)), (Z.mod_small k (2 ^ 6)), !Z.mod_small by lia.
  by rewrite in_range by lia.
Qed.

Lemma run_in_use s ar np p : geom_of s ar np → 0 ≤ p < np →
  is_in_use (_mem_addr s + 4096 * p) s = Ret (in_use (info_of (infos s) p) =? 1) s.
Proof.
  intros G Hp. unfold is_in_use, read_info. mrun.
  rewrite (addr_index _ _ _ _ _ _ _ G) by lia. pose proof (g_isize _ _ _ _ _ _ _ G).
  by rewrite in_range by lia.
Qed.

Lemma run_has_nodes s bl ex k : conc_of s bl ex → 0 ≤ k < 33 →
  ∃ b, has_nodes k s = Ret b s ∧ (b = true ↔ ∃ p, bl !! p = Some (k, false)).
Proof.
  intros C Hk. destruct (c_list _ _ _ _ _ C k Hk) as (l & Hl & Hin). unfold has_nodes.
  mstep (run_head k s Hk). mrun. eexists. split; [done|].
  rewrite negb_true_iff, bool_decide_eq_false.
  pose proof (dll_has_nodes _ _ _ Hl) as Hd. cbn in Hd. rewrite Hd. destruct l as [|p l].
  - split; [done|]. intros [p Hp]. apply Hin in Hp. by apply elem_of_nil in Hp.
  - split; [|done]. intros _. exists p. apply Hin. by left.
Qed.

(** ** One split *)

Lemma size_half k : 0 ≤ k < 32 → (4096 * 2 ^ (k + 1)) ≫ 1 = 4096 * 2 ^ k.
Proof.
  intros. rewrite Z.shiftr_div_pow2, pow2_S by lia.
  replace (4096 * (2 * 2 ^ k)) with (4096 * 2 ^ k * 2 ^ 1) by lia. apply Z.div_mul. lia.
Qed.

Definition held (s : BuddyAllocator) (p k : Z) : Prop :=
  _area_size (node_at (nodes s) (pnode (_mem_addr s) p)) = 4096 * 2 ^ k.

Lemma split_second_None ar np bl p k u : tiling ar np bl → 0 ≤ k → bl !! p = Some (k + 1, u) →
  bl !! (p + 2 ^ k) = None.
Proof.
  intros T Hk Hp. pose proof (pow2_pos k Hk).
  destruct (bl !! (p + 2 ^ k)) as [[j v]|] eqn:E; [|done]. exfalso.
  destruct (t_area _ _ _ T _ _ _ E) as [Hj _]. pose proof (pow2_pos j Hj).
  destruct (tiling_same ar np bl p (k + 1) u (p + 2 ^ k) j v (p + 2 ^ k) T Hp E) as [? _];
    rewrite ?pow2_S by lia; lia.
Qed.

Lemma run_split_two nd nd1 s : nd ≠ nd1 →
  ∃ s', split_two nd nd1 s = Ret tt s' ∧ same s s' ∧ infos s' = infos s ∧
    (∀ q, q ≠ PNode nd → q ≠ PNode nd1 → node_at (nodes s') q = node_at (nodes s) q) ∧
    (∀ q, q = PNode nd ∨ q = PNode nd1 →
       magic (node_at (nodes s') q) = buddy_node_magic ∧
       _area_size (node_at (nodes s') q) = _area_size (node_at (nodes s) (PNode nd)) ≫ 1).
Proof.
  intros Hne. unfold split_two, node_of. mrun. eexists. split; [reflexivity|].
  split; [by split|]. split; [done|].
  cbn [nodes on_nodes]. split.
  - intros q Hq Hq1. by rewrite !node_at_upd_ne by congruence.
  - intros q [->| ->].
    + rewrite node_at_upd_eq, !node_at_upd_ne, node_at_upd_eq by congruence. done.
    + rewrite node_at_upd_ne, !node_at_upd_eq by congruence. done.
Qed.

Lemma split_step s ar np bl p k : geom_of s ar np → tiling ar np bl → 0 ≤ k →
  conc_of s bl [p] → bl !! p = Some (k + 1, true) → held s p (k + 1) →
  ∃ s', split_node (k + 1) (_mem_addr s + 4096 * p) s = Ret 0 s' ∧ same s s' ∧
    conc_of s' (split_block p k true bl) [p] ∧ held s' p k.
Proof.
  intros G T Hk C Hp Hh. destruct (t_area _ _ _ T _ _ _ Hp) as [_ (a & K & Hpa)].
  destruct (geom_order _ _ _ _ _ _ _ G p (k + 1) a K ltac:(lia) Hpa) as (_ & _ & Hk33).
  pose proof (in_area_bounds ar np (g_ar _ _ _ _ _ _ _ G) p (k + 1) a K ltac:(lia) Hpa) as (Ha & Hp0 & Hpn & _).
  rewrite pow2_S in Hpn by lia. pose proof (pow2_pos k Hk).
  pose proof (split_second_None _ _ _ _ _ _ T Hk Hp) as Hnone.
  unfold split_node. zbool; [lia|]. mstep (run_node_of (_mem_addr s + 4096 * p) s).
  fold (pnode (_mem_addr s) p). rewrite Hh, page_bytes, Z.eqb_refl, size_half by lia. cbn [negb].
  replace (_mem_addr s + 4096 * p + 4096 * 2 ^ k) with (_mem_addr s + 4096 * (p + 2 ^ k)) by lia.
  rewrite wrap64_small by (apply (addr_range _ _ _ _ _ _ _ G); lia).
  destruct (run_split_two (_mem_addr s + 4096 * p) (_mem_addr s + 4096 * (p + 2 ^ k)) s)
    as (s1 & R1 & S1 & I1 & F1 & D1); [lia|]. mstep R1.
  replace (k + 1 - 1) with k by lia. mstep (run_insert (_mem_addr s + 4096 * (p + 2 ^ k)) k s1 ltac:(lia)).
  set (s2 := on_nodes _ s1). assert (same s s2) as S2 by (etrans; [exact S1|by split]).
  rewrite <- (s_mem _ _ S2).
  mstep (run_record s2 ar np (p + 2 ^ k) k 0 1 (same_geom _ _ _ _ S2 G) ltac:(lia) ltac:(lia) ltac:(lia) ltac:(lia)).
  eexists. split; [done|]. split; [etrans; [exact S2|by split]|].
  assert (conc (_mem_addr s) (nodes s1) (infos s1) bl [p]) as C1.
  { rewrite I1. apply (conc_frame _ (nodes s)); [..|done].
    - intros j Hj. by apply F1.
    - intros q j Hq. apply F1; intros [=]; [replace q with p in Hq by lia|replace q with (p + 2 ^ k) in Hq by lia]; congruence. }
  split.
  - cbn [infos nodes _mem_addr on_infos]. rewrite (s_mem _ _ S2).
    apply (conc_used _ _ _ _ _ p k) in C1; [|intros; congruence].
    apply (conc_used _ _ _ _ _ (p + 2 ^ k) k) in C1; [|intros j; rewrite lookup_insert_ne by lia; congruence].
    apply (conc_link _ _ _ _ _ (p + 2 ^ k) k) in C1;
      [|lia|apply lookup_insert_eq|apply D1; by right|].
    2: { unfold pnode. rewrite (proj2 (D1 _ (or_intror eq_refl))). fold (pnode (_mem_addr s) p).
         rewrite Hh. apply size_half. lia. }
    rewrite insert_insert_eq in C1. change (infos s2) with (infos s1).
    apply (conc_info _ _ _ _ _ (p + 2 ^ k) k false); [apply lookup_insert_eq|].
    eapply conc_weaken; [|exact C1]. set_solver.
  - unfold held. cbn [nodes _mem_addr on_infos]. rewrite (s_mem _ _ S2). cbn [nodes on_nodes s2].
    rewrite (link_after_data _area_size) by done.
    unfold pnode. rewrite (proj2 (D1 _ (or_introl eq_refl))). fold (pnode (_mem_addr s) p).
    rewrite Hh. apply size_half. lia.
Qed.

(** ** The loops *)

Lemma used_split p k bl : 0 ≤ k → bl !! (p + 2 ^ k) = None →
  used (split_block p k true bl) = <[p := k]> (used bl).
Proof.
  intros Hk Hn. pose proof (pow2_pos k Hk). apply map_eq. intros x. unfold used.
  rewrite lookup_omap, lookup_split_block, lookup_insert, lookup_omap by done.
  repeat case_decide; simplify_eq/=; try done; try lia. by rewrite Hn.
Qed.

Lemma total_split p k u bl : 0 ≤ k → bl !! p = Some (k + 1, u) → bl !! (p + 2 ^ k) = None →
  total_pages (split_block p k true bl) = total_pages bl.
Proof.
  intros Hk Hp Hn. pose proof (pow2_pos k Hk). unfold total_pages, split_block.
  rewrite pages_sum_insert by (by rewrite lookup_insert_ne by lia).
  rewrite (pages_sum_update _ _ _ _ _ Hp). simpl. rewrite pow2_S by lia. lia.
Qed.

Lemma used_pages_split p k bl : 0 ≤ k → bl !! p = Some (k + 1, true) → bl !! (p + 2 ^ k) = None →
  used_pages (split_block p k true bl) = used_pages bl - 2 ^ (k + 1) + 2 ^ k.
Proof.
  intros Hk Hp Hn. pose proof (pow2_pos k Hk). unfold used_pages, split_block.
  rewrite pages_sum_insert by (by rewrite lookup_insert_ne by lia).
  rewrite (pages_sum_update _ _ _ _ _ Hp). simpl. lia.
Qed.

Lemma split_loop_spec fuel : ∀ s ar np bl p i ord, geom_of s ar np → tiling ar np bl →
  canonical ar bl → conc_of s bl [p] → bl !! p = Some (i, true) → held s p i →
  0 ≤ ord ≤ i → i - ord < Z.of_nat fuel →
  ∃ s' bl', split_loop fuel i ord (_mem_addr s + 4096 * p) s = Ret tt s' ∧ same s s' ∧
    tiling ar np bl' ∧ canonical ar bl' ∧ conc_of s' bl' [p] ∧ bl' !! p = Some (ord, true) ∧
    used bl' = <[p := ord]> (used bl) ∧ total_pages bl' = total_pages bl ∧
    used_pages bl' = used_pages bl - 2 ^ i + 2 ^ ord.
Proof.
  induction fuel as [|fuel IH]; intros s ar np bl p i ord G T Can C Hp Hh Ho Hf; [lia|].
  simpl. destruct (Z.ltb_spec ord i) as [Hlt|Hge].
  - replace i with (i - 1 + 1) in Hp, Hh by lia.
    destruct (split_step s ar np bl p (i - 1) G T ltac:(lia) C Hp Hh) as (s1 & R1 & S1 & C1 & H1).
    replace (i - 1 + 1) with i in R1, Hp by lia. mstep R1. cbn [Z.ltb Z.compare].
    change (when (0 =? 1) (assert (0 <=? 0))) with (mret (M := M BuddyAllocator) tt). rewrite bind_mret.
    assert (bl !! (p + 2 ^ (i - 1)) = None) as Hn.
    { apply (split_second_None ar np bl p (i - 1) true T); [lia|]. by rewrite Z.sub_add. }
    destruct (t_area _ _ _ T _ _ _ Hp) as [_ (a & K & Hpa)].
    assert (bl !! p = Some (i - 1 + 1, true)) as Hp' by (by rewrite Z.sub_add).
    destruct (IH s1 ar np (split_block p (i - 1) true bl) p (i - 1) ord) as
      (s2 & bl2 & R2 & S2 & T2 & Can2 & C2 & Hp2 & U2 & Tot2 & Up2); try done; try lia.
    + by eapply same_geom.
    + apply (tiling_split ar np bl p (i - 1) true true); (done || lia).
    + apply (canonical_split ar np (g_ar _ _ _ _ _ _ _ G) bl p (i - 1) true a K); try done; [lia|].
      by rewrite Z.sub_add.
    + rewrite lookup_split_block by lia. pose proof (pow2_pos (i - 1) ltac:(lia)).
      rewrite decide_False by lia. by rewrite decide_True.
    + rewrite (s_mem _ _ S1) in R2. exists s2, bl2. split_and!; try done.
      * by transitivity s1.
      * rewrite U2, used_split by (done || lia). apply insert_insert_eq.
      * rewrite Tot2. eapply total_split; (done || lia).
      * rewrite Up2, used_pages_split by (done || lia). rewrite Z.sub_add. lia.
  - assert (ord = i) as -> by lia. exists s, bl. split_and!; try done; [|lia].
    symmetry. apply insert_id. by apply lookup_used.
Qed.

Lemma order_loop_spec fuel s : ∀ ord count, 1 ≤ count ≤ 2 ^ 31 → 0 ≤ ord ≤ Z.log2_up count →
  Z.log2_up count < ord + Z.of_nat fuel → order_loop fuel ord count s = Ret (Z.log2_up count) s.
Proof.
  induction fuel as [|fuel IH]; intros ord count Hc Ho Hf; [lia|]. simpl.
  assert (Z.log2_up count ≤ 31) by (apply Z.log2_up_le_pow2; lia).
  rewrite Z.shiftl_mul_pow2, Z.mul_1_l by lia. pose proof (pow2_pos ord ltac:(lia)).
  assert (2 ^ ord ≤ 2 ^ 31) by (apply pow2_mono; lia).
  rewrite wrap32_small by lia. pose proof (Z.log2_up_le_pow2 count ord ltac:(lia)) as Hl.
  destruct (Z.leb_spec count (2 ^ ord)).
  - replace (Z.log2_up count) with ord by lia. done.
  - apply IH; lia.
Qed.

Lemma run_order count s : 1 ≤ count ≤ 2 ^ 31 → order_of count s = Ret (Z.log2_up count) s.
Proof.
  intros. assert (Z.log2_up count ≤ 31) by (apply Z.log2_up_le_pow2; lia).
  pose proof (Z.log2_up_nonneg count). apply order_loop_spec; lia.
Qed.

Lemma find_loop_spec fuel : ∀ s bl ex i maxo, conc_of s bl ex → 0 ≤ i → maxo < 33 →
  maxo + 1 - i < Z.of_nat fuel → (0 < fuel)%nat →
  ∃ r, find_loop fuel i maxo s = Ret r s ∧ i ≤ r ∧
    (∀ j p, i ≤ j < r → j ≤ maxo → bl !! p ≠ Some (j, false)) ∧
    (maxo < r ∨ ∃ p, bl !! p = Some (r, false)).
Proof.
  induction fuel as [|fuel IH]; intros s bl ex i maxo C Hi Hm Hf Hpos; [lia|]. simpl.
  destruct (Z.leb_spec i maxo) as [Hle|Hgt].
  - destruct (run_has_nodes s bl ex i C ltac:(lia)) as (b & R & Hb). mstep R.
    destruct b.
    + exists i. split; [done|]. split; [lia|]. split; [lia|]. right. by apply Hb.
    + destruct (IH s bl ex (i + 1) maxo C ltac:(lia) Hm ltac:(lia) ltac:(lia)) as (r & R' & Hr & Hno & Hor).
      exists r. split; [done|]. split; [lia|]. split; [|done].
      intros j p Hj Hj' Hp. destruct (decide (j = i)) as [->|].
      * assert (false = true) by (apply Hb; by exists p). done.
      * by apply (Hno j p); [lia|..].
  - exists i. split; [done|]. split; [lia|]. split; [lia|]. left. lia.
Qed.

(** ** [alloc_pages] *)

Lemma lock_unlock s : _lock s = false → set_lock false (set_lock true s) = s.
Proof. by destruct s; intros; simplify_eq/=. Qed.

Lemma inv_free_bounds s ar np bl p k u : inv s ar np bl → bl !! p = Some (k, u) →
  0 ≤ k < 33 ∧ 0 ≤ p ∧ p + 2 ^ k ≤ np ∧ k ≤ _buddy_max_order s.
Proof.
  intros I Hp. destruct (t_area _ _ _ (i_tiling _ _ _ _ I) _ _ _ Hp) as [Hk (a & K & Hpa)].
  destruct (geom_order _ _ _ _ _ _ _ (i_geom _ _ _ _ I) p k a K Hk Hpa) as (? & ? & ?).
  pose proof (in_area_bounds ar np (g_ar _ _ _ _ _ _ _ (i_geom _ _ _ _ I)) p k a K Hk Hpa).
  lia.
Qed.

Lemma run_pop s bl ex i p : conc_of s bl ex → 0 ≤ i < 33 → bl !! p = Some (i, false) →
  ∃ q, bl !! q = Some (i, false) ∧
    pop_node i s = Ret (pnode (_mem_addr s) q) (on_nodes (removed (pnode (_mem_addr s) q)) s).
Proof.
  intros C Hi Hp. destruct (c_list _ _ _ _ _ C i Hi) as (l & [Hnd Hs] & Hin).
  apply Hin in Hp. destruct l as [|q l]; [by apply elem_of_nil in Hp|].
  exists q. split; [apply Hin; by left|]. unfold pop_node. mstep (run_head i s Hi).
  unfold mbind at 1, M_bind at 1, get at 1. cbn beta iota zeta.
  apply seg_head in Hs. cbn in Hs. rewrite Hs. by mstep (run_remove (pnode (_mem_addr s) q) s).
Qed.

Lemma used_mark bl p k : used (<[p := (k, true)]> bl) = <[p := k]> (used bl).
Proof.
  apply map_eq. intros x. unfold used.
  rewrite lookup_omap, !lookup_insert, lookup_omap. by case_decide.
Qed.

Lemma alloc_found s ar np bl ord i p0 : inv s ar np bl → 0 ≤ ord ≤ i → 0 ≤ i < 33 →
  bl !! p0 = Some (i, false) →
  ∃ p s' bl', bl !! p = Some (i, false) ∧
    (p ← pop_node i; node ← addr_of p; n ← node_of node;
     if negb (magic n =? buddy_node_magic) then release;; mret 0
     else split_loop loop_fuel i ord node;; record_info node ord 1 1;;
       modify (on_alloc_size (λ a, a ⊞ u64 ((1 ⋘ ord) * page_size)));; release;; mret node)
      (set_lock true s) = Ret (_mem_addr s + 4096 * p) s' ∧
    inv s' ar np bl' ∧ used bl' = <[p := ord]> (used bl) ∧ _mem_addr s' = _mem_addr s.
Proof.
  intros I Ho Hi Hp0. pose proof I as [G C T Can Tot Al Lk]. set (s0 := set_lock true s).
  destruct (run_pop s0 bl [] i p0 C Hi Hp0) as (p & Hp & Rp). mstep Rp.
  destruct (inv_free_bounds _ _ _ _ _ _ _ I Hp) as (_ & Hp0' & Hpn & _). pose proof (pow2_pos i ltac:(lia)).
  destruct (c_node _ _ _ _ _ C p i Hp) as [Hmag Hsz].
  set (s1 := on_nodes _ s0). mstep (run_addr_of (_mem_addr s0) p s1). mstep (run_node_of (_mem_addr s0 + 4096 * p) s1).
  change (node_at (nodes s1) (PNode (_mem_addr s0 + 4096 * p)))
    with (node_at (removed (pnode (_mem_addr s) p) (nodes s)) (pnode (_mem_addr s) p)).
  rewrite (removed_data magic), Hmag, Z.eqb_refl by done. cbn [negb].
  assert (conc_of s1 (<[p := (i, true)]> bl) [p]) as C1 by (by apply conc_unlink).
  assert (held s1 p i) as H1. { unfold held. cbn. by rewrite (removed_data _area_size). }
  destruct (split_loop_spec loop_fuel s1 ar np (<[p := (i, true)]> bl) p i ord) as
    (s2 & bl2 & R2 & S2 & T2 & Can2 & C2 & Hp2 & U2 & Tot2 & Up2); try done.
  { by eapply tiling_mark. } { by apply canonical_use. } { apply lookup_insert_eq. }
  { unfold loop_fuel. lia. }
  mstep R2. assert (geom_of s2 ar np) as G2 by (by eapply same_geom).
  pose proof (pow2_pos ord ltac:(lia)). pose proof (pow2_mono ord 33 ltac:(lia)).
  change (_mem_addr s0) with (_mem_addr s1). rewrite <- (s_mem _ _ S2).
  mstep (run_record s2 ar np p ord 1 1 G2 ltac:(lia) ltac:(lia) ltac:(lia) ltac:(lia)).
  unfold release. mrun. cbn [_lock on_alloc_size on_infos]. rewrite (s_lock _ _ S2).
  cbn [_lock s1 s0 on_nodes set_lock]. eexists p, _, bl2.
  split; [done|]. split; [by rewrite (s_mem _ _ S2)|].
  assert (used_pages bl2 = used_pages bl + 2 ^ ord) as Eu.
  { rewrite Up2. unfold used_pages. rewrite (pages_sum_update _ _ _ _ _ Hp). simpl. lia. }
  assert (total_pages bl2 = np) as Et.
  { rewrite Tot2. unfold total_pages in *. rewrite (pages_sum_update _ _ _ _ _ Hp). simpl. lia. }
  split; [split; try done|split; [|exact (s_mem _ _ S2)]].
  - cbn. apply (conc_info _ _ _ _ [] p ord true); [done|]. done.
  - cbn. rewrite (s_alloc _ _ S2). cbn. rewrite Al, Eu.
    pose proof (g_top _ _ _ _ _ _ _ G). pose proof (g_mem _ _ _ _ _ _ _ G).
    pose proof (used_total bl2 (λ q k u Hq, proj1 (t_area _ _ _ T2 q k u Hq))).
    unfold page_size. rewrite Z.shiftl_mul_pow2, Z.mul_1_l by lia.
    pose proof (used_total bl (λ q k u Hq, proj1 (t_area _ _ _ T q k u Hq))).
    rewrite (wrap64_small (2 ^ ord)) by lia. rewrite (wrap64_small (2 ^ ord * 4096)) by lia.
    rewrite wrap64_small; lia.
  - rewrite U2, used_mark. apply insert_insert_eq.
Qed.

(** What a request returns: either a block of [2^ord] pages ([ord] the least
    order with [count <= 2^ord]) cut from a free block of the least order that
    can hold it, or null with nothing changed when every free block is smaller. *)
Lemma alloc_pages_run s ar np bl count : inv s ar np bl → 1 ≤ count ≤ 2 ^ 31 →
  (∃ p i s' bl', alloc_pages count s = Ret (_mem_addr s + 4096 * p) s' ∧
     inv s' ar np bl' ∧ used bl' = <[p := Z.log2_up count]> (used bl) ∧
     _mem_addr s' = _mem_addr s ∧ bl !! p = Some (i, false) ∧ Z.log2_up count ≤ i ∧
     (∀ j x, Z.log2_up count ≤ j < i → bl !! x ≠ Some (j, false))) ∨
  (alloc_pages count s = Ret 0 s ∧ ∀ j x, Z.log2_up count ≤ j → bl !! x ≠ Some (j, false)).
Proof.
  intros I Hc. pose proof (i_geom _ _ _ _ I) as G. pose proof (g_maxo _ _ _ _ _ _ _ G).
  pose proof (Z.log2_up_nonneg count).
  destruct (find_loop_spec loop_fuel (set_lock true s) bl [] (Z.log2_up count) (_buddy_max_order s))
    as (i & Rf & Hi & Hno & Hor); [apply I|lia|lia|unfold loop_fuel; lia|unfold loop_fuel; lia|].
  assert (acquire s = Ret tt (set_lock true s)) as Ra.
  { unfold acquire. mrun. by rewrite (i_lock _ _ _ _ I). }
  unfold alloc_pages. rewrite (proj2 (Z.eqb_neq count 0)) by lia.
  mstep (run_order count s Hc). mstep Ra.
  mstep (eq_refl : gets _buddy_max_order (set_lock true s) = Ret (_buddy_max_order s) (set_lock true s)).
  mstep Rf.
  destruct (Z.ltb_spec (_buddy_max_order s) i) as [Hgt|Hle].
  - right. split.
    { change (Ret 0 (set_lock false (set_lock true s)) = Ret (S := BuddyAllocator) 0 s).
      by rewrite lock_unlock by apply I. }
    intros j x Hj Hx. destruct (inv_free_bounds _ _ _ _ _ _ _ I Hx) as (_ & _ & _ & ?).
    by apply (Hno j x); [lia|..].
  - left. destruct Hor as [?|[p0 Hp0]]; [lia|].
    destruct (inv_free_bounds _ _ _ _ _ _ _ I Hp0) as (Hi33 & _).
    destruct (alloc_found s ar np bl (Z.log2_up count) i p0 I ltac:(lia) ltac:(lia) Hp0)
      as (p & s' & bl' & Hp & R & I' & U' & Em).
    exists p, i, s', bl'. split_and!; try done. intros j x Hj. apply Hno; lia.
Qed.

End Alloc.
