(* ===== verification/BuddyFree.v ===== *)
(** Release: [free_pages] against the abstract buddy system.

    The merging loop keeps the tiling and stops exactly when the held block's
    buddy is not a free block of the same order, so the tiling it leaves is
    canonical again. *)

From Stdlib Require Import ZArith Lia.
From stdpp Require Import base numbers gmap list.
From S2P Require Import Prelude Page Dll Tiling Buddy BuddyInv BuddyAlloc.
Import Allocator Inv Alloc.

Set Default Goal Selector "!".
Open Scope Z_scope.

Module Free.

Definition heldm (s : BuddyAllocator) (p k : Z) : Prop :=
  magic (node_at (nodes s) (pnode (_mem_addr s) p)) = buddy_node_magic ∧ held s p k.

(** The three exclusive-ors exchange the two pointers. *)
Lemma xor_swap x y :
  let n := Z.lxor x y in let b := Z.lxor n y in (Z.lxor n b, b) = (y, x).
Proof.
  cbn zeta. assert (∀ u v, Z.lxor (Z.lxor u v) v = u) as E.
  { intros. by rewrite Z.lxor_assoc, Z.lxor_nilpotent, Z.lxor_0_r. }
  by rewrite E, (Z.lxor_comm x y), E.
Qed.

Lemma buddy_addr mem msize maxo desc isize ar np p k a K :
  geom mem msize maxo desc isize ar np → 0 ≤ k < K → in_area ar p k a K →
  get_buddy_node (mem + 4096 * a, 4096 * 2 ^ K) (mem + 4096 * p) (4096 * 2 ^ k)
    = mem + 4096 * (a + buddy_off (p - a) k).
Proof.
  intros G Hk Hp. destruct (buddy_pos ar p k a K Hk Hp) as (Hb & _ & _).
  pose proof (in_area_bounds ar np (g_ar _ _ _ _ _ _ _ G) p k a K ltac:(lia) Hp) as (? & ? & ? & _).
  pose proof (in_area_bounds ar np (g_ar _ _ _ _ _ _ _ G) _ k a K ltac:(lia) Hb) as (_ & ? & ? & _).
  pose proof (g_mem _ _ _ _ _ _ _ G). pose proof (g_top _ _ _ _ _ _ _ G).
  pose proof (pow2_pos k ltac:(lia)). destruct Hp as (_ & Hap & _).
  unfold get_buddy_node. cbn [fst].
  replace (mem + 4096 * p - (mem + 4096 * a)) with ((p - a) * 2 ^ 12) by lia.
  rewrite (wrap64_small ((p - a) * 2 ^ 12)) by lia. rewrite (Z.mul_comm 4096 (2 ^ k)). change 4096 with (2 ^ 12) at 2.
  rewrite lxor_mul_pow2 by lia. fold (buddy_off (p - a) k). rewrite wrap64_small; lia.
Qed.

Lemma conc_info_ex mem nd inf bl ex p x : p ∈ ex → is_Some (bl !! p) →
  conc mem nd inf bl ex → conc mem nd (<[p := x]> inf) bl ex.
Proof.
  intros Hex [y Hy] [H1 H2 H3 H4]. split; [| |done|done].
  - intros q k u Hq Hn. unfold info_of. rewrite lookup_insert_ne by set_solver. by apply H1.
  - intros q Hq. unfold info_of. rewrite lookup_insert_ne by congruence. by apply H2.
Qed.

Lemma conc_merge mem nd inf bl ex c k : 0 ≤ k → bl !! c = Some (k, true) →
  bl !! (c + 2 ^ k) = Some (k, true) → ex ⊆ [c; c + 2 ^ k] → conc mem nd inf bl ex →
  conc mem nd (<[c + 2 ^ k := mkInfo 0 0 0]> inf) (merge_blocks c k true bl) [c].
Proof.
  intros Hk Hc Hd Hex [H1 H2 H3 H4]. pose proof (pow2_pos k Hk). split.
  - intros q j u. rewrite lookup_merge_blocks by done. intros Hq Hn. unfold info_of.
    repeat case_decide; simplify_eq; [set_solver|]. rewrite lookup_insert_ne by done.
    apply H1; [done|set_solver].
  - intros q. rewrite lookup_merge_blocks by done. intros Hq. unfold info_of.
    rewrite lookup_insert. repeat case_decide; simplify_eq; try done. by apply H2.
  - intros j Hj. destruct (H3 j Hj) as (l & Hl & Hin). exists l. split; [done|].
    intros q. rewrite Hin, lookup_merge_blocks by done. repeat case_decide; naive_solver.
  - intros q j Hq. apply H4. rewrite lookup_merge_blocks in Hq by done.
    by repeat case_decide; simplify_eq.
Qed.

Lemma merge_blocks_mark c k bl b : 0 ≤ k → b = c ∨ b = c + 2 ^ k →
  merge_blocks c k true (<[b := (k, true)]> bl) = merge_blocks c k true bl.
Proof.
  intros Hk Hb. apply map_eq. intros x. rewrite !lookup_merge_blocks by done.
  repeat case_decide; try done. rewrite lookup_insert_ne; [done|]. intros ->. naive_solver.
Qed.

(** Combining the two halves: the lower one becomes the held parent. *)
Lemma run_combine s c d k : c ≠ d → 0 ≤ k < 32 →
  _area_size (node_at (nodes s) (PNode c)) = 4096 * 2 ^ k →
  _area_size (node_at (nodes s) (PNode d)) = 4096 * 2 ^ k →
  ∃ s', combine_node c d s = Ret 0 s' ∧ same s s' ∧ infos s' = infos s ∧
    magic (node_at (nodes s') (PNode c)) = buddy_node_magic ∧
    _area_size (node_at (nodes s') (PNode c)) = 4096 * 2 ^ (k + 1) ∧
    ∀ q, q ≠ PNode c → q ≠ PNode d → node_at (nodes s') q = node_at (nodes s) q.
Proof.
  intros Hne Hk Hc Hd. unfold combine_node. mstep (run_node_of c s). mstep (run_node_of d s).
  rewrite Hc, Hd, Z.eqb_refl. cbn [negb]. unfold store_node. mrun.
  eexists. split; [reflexivity|]. split; [by split|]. split; [done|]. cbn [nodes on_nodes].
  rewrite node_at_upd_eq. split; [done|]. split.
  - cbn. rewrite Z.shiftl_mul_pow2, pow2_S by lia. pose proof (pow2_mono k 32 ltac:(lia)).
    pose proof (pow2_pos k ltac:(lia)). rewrite wrap64_small; lia.
  - intros q ??. by rewrite !node_at_upd_ne by congruence.
Qed.

(** One merge with the free buddy [b] of the held block [p]; [c] is the lower
    of the two. *)
Lemma merge_step s ar np bl p k a K b c :
  geom_of s ar np → tiling ar np bl → canonical ar bl → conc_of s bl [p] →
  bl !! p = Some (k, true) → heldm s p k → 0 ≤ k < 32 → 0 ≤ c → c + 2 * 2 ^ k ≤ np →
  in_area ar c (k + 1) a K → bl !! b = Some (k, false) →
  (c = p ∧ b = p + 2 ^ k) ∨ (c = b ∧ p = b + 2 ^ k) →
  ∃ s', (remove_node (PNode (_mem_addr s + 4096 * b));;
         record_info (_mem_addr s + 4096 * (c + 2 ^ k)) 0 0 0;;
         combine_node (_mem_addr s + 4096 * c) (_mem_addr s + 4096 * (c + 2 ^ k))) s = Ret 0 s' ∧
    same s s' ∧ conc_of s' (merge_blocks c k true bl) [c] ∧ heldm s' c (k + 1).
Proof.
  intros G T Can C Hp [Hm Hh] Hk Hc0 Hcn Hca Hb Hcb. pose proof (pow2_pos k ltac:(lia)) as Hpow.
  destruct (c_node _ _ _ _ _ C b k Hb) as [Hbm Hbs].
  mstep (run_remove (PNode (_mem_addr s + 4096 * b)) s).
  set (s1 := on_nodes _ s). change (_mem_addr s) with (_mem_addr s1).
  mstep (run_record s1 ar np (c + 2 ^ k) 0 0 0 (G : geom_of s1 ar np)
           ltac:(lia) ltac:(lia) ltac:(lia) ltac:(lia)).
  set (s2 := on_infos _ s1).
  assert (∀ x, x = p ∨ x = b → _area_size (node_at (nodes s2) (PNode (_mem_addr s1 + 4096 * x))) = 4096 * 2 ^ k) as Hsz.
  { intros x Hx. cbn. rewrite (removed_data _area_size) by done. destruct Hx as [->| ->]; done. }
  destruct (run_combine s2 (_mem_addr s1 + 4096 * c) (_mem_addr s1 + 4096 * (c + 2 ^ k)) k)
    as (s3 & R3 & S3 & I3 & M3 & Z3 & F3); [lia|lia|apply Hsz; naive_solver| |].
  { apply Hsz. destruct Hcb as [[-> ->]|[-> ->]]; auto. }
  exists s3. split; [done|]. split; [transitivity s2; [by split|done]|].
  assert (conc_of s2 (merge_blocks c k true bl) [c]) as C2.
  { cbn. rewrite <- (merge_blocks_mark c k bl b) by naive_solver.
    apply (conc_merge _ _ _ _ [b; p]); [lia|..|by apply conc_unlink; [lia|..]].
    - destruct Hcb as [[-> ->]|[-> ->]]; [by rewrite lookup_insert_ne by lia|apply lookup_insert_eq].
    - destruct Hcb as [[-> ->]|[-> ->]]; [apply lookup_insert_eq|by rewrite lookup_insert_ne by lia].
    - destruct Hcb as [[-> ->]|[-> ->]]; set_solver. }
  split.
  - rewrite (s_mem _ _ S3), I3. apply (conc_frame _ (nodes s2)); [..|done].
    + intros j Hj. by apply F3.
    + intros q j Hq. apply F3; intros [=].
      * replace q with c in Hq by lia. rewrite lookup_merge_blocks, decide_True in Hq by (done || lia). done.
      * replace q with (c + 2 ^ k) in Hq by lia.
        rewrite lookup_merge_blocks, decide_False, decide_True in Hq by (done || lia). done.
  - unfold heldm, held. rewrite (s_mem _ _ S3). by split.
Qed.

Lemma used_merge bl c k p b : 0 ≤ k → bl !! b = Some (k, false) → bl !! p = Some (k, true) →
  (c = p ∧ b = p + 2 ^ k) ∨ (c = b ∧ p = b + 2 ^ k) →
  delete c (used (merge_blocks c k true bl)) = delete p (used bl).
Proof.
  intros Hk Hb Hp Hcb. pose proof (pow2_pos k Hk). apply map_eq. intros x. unfold used.
  rewrite !lookup_delete, !lookup_omap, lookup_merge_blocks by done.
  destruct Hcb as [[-> ->]|[-> ->]]; repeat case_decide; simplify_eq; try done; try lia;
    by rewrite Hb.
Qed.

Lemma pages_merge f bl c k u v w : 0 ≤ k → bl !! c = Some (k, u) → bl !! (c + 2 ^ k) = Some (k, v) →
  pages_sum f (merge_blocks c k w bl) = pages_sum f bl - f (k, u) - f (k, v) + f (k + 1, w).
Proof.
  intros Hk Hc Hd. pose proof (pow2_pos k Hk). unfold merge_blocks.
  rewrite (pages_sum_update f _ _ (k, u)) by (by rewrite lookup_delete_ne by lia).
  rewrite (pages_sum_delete f bl _ _ Hd). lia.
Qed.

(** The state of the merging loop when it stops. *)
Record merged (s : BuddyAllocator) (ar : list (Z * Z)) (np : Z) (bl0 bl : blocks)
    (p0 k0 c k a K : Z) : Prop := {
  m_tiling : tiling ar np bl;
  m_canon : canonical ar bl;
  m_conc : conc_of s bl [c];
  m_block : bl !! c = Some (k, true);
  m_held : heldm s c k;
  m_used : delete c (used bl) = delete p0 (used bl0);
  m_total : total_pages bl = total_pages bl0;
  m_pages : used_pages bl - 2 ^ k = used_pages bl0 - 2 ^ k0;
  m_area : in_area ar c k a K;
  m_stop : k < K → bl !! (a + buddy_off (c - a) k) ≠ Some (k, false)
}.

Lemma merge_loop_spec fuel : ∀ s ar np bl p k a K, geom_of s ar np → tiling ar np bl →
  canonical ar bl → conc_of s bl [p] → bl !! p = Some (k, true) → heldm s p k →
  in_area ar p k a K → 0 ≤ k → K - k < Z.of_nat fuel →
  ∃ s' bl' c k', merge_loop fuel (_mem_addr s + 4096 * a, 4096 * 2 ^ K) (_mem_addr s + 4096 * p) k s
      = Ret (_mem_addr s + 4096 * c, k') s' ∧ same s s' ∧ merged s' ar np bl bl' p k c k' a K.
Proof.
  induction fuel as [|fuel IH]; intros s ar np bl p k a K G T Can C Hp Hh Hpa Hk Hf.
  { destruct (in_area_bounds ar np (g_ar _ _ _ _ _ _ _ G) p k a K Hk Hpa) as (_ & _ & _ & ?). lia. }
  destruct (geom_order _ _ _ _ _ _ _ G p k a K Hk Hpa) as (HkK & HK & _).
  pose proof (g_maxo _ _ _ _ _ _ _ G) as Hmx. pose proof (pow2_pos k Hk).
  assert (∀ s', same s s' → s' = s → (k < K → bl !! (a + buddy_off (p - a) k) ≠ Some (k, false)) →
    ∃ s'' bl' c k', Ret (_mem_addr s + 4096 * p, k) s' = Ret (_mem_addr s + 4096 * c, k') s'' ∧
      same s s'' ∧ merged s'' ar np bl bl' p k c k' a K) as Hret.
  { intros s' _ -> Hst. exists s, bl, p, k. split; [done|]. split; [done|]. by split. }
  cbn [merge_loop]. mstep (run_node_of (_mem_addr s + 4096 * p) s). cbn [snd].
  destruct Hh as [Hm Hh]. fold (pnode (_mem_addr s) p). rewrite Hh.
  destruct (Z.eqb_spec (4096 * 2 ^ k) (4096 * 2 ^ K)) as [Heq|Hne].
  { apply Hret; [done|done|]. intros. assert (2 ^ k < 2 ^ K) by (apply Z.pow_lt_mono_r; lia). lia. }
  assert (k < K) as HltK. { destruct (Z.eq_dec k K) as [->|]; [done|lia]. }
  rewrite (buddy_addr _ _ _ _ _ _ _ p k a K G) by done.
  destruct (buddy_pos ar p k a K ltac:(lia) Hpa) as (Hba & Hinv & Hpar).
  destruct (buddy_is_block ar np (g_ar _ _ _ _ _ _ _ G) bl p k true a K T Hp Hpa HltK) as (j & u & Hb & Hj).
  set (b := a + buddy_off (p - a) k) in *.
  pose proof (in_area_bounds ar np (g_ar _ _ _ _ _ _ _ G) b k a K Hk Hba) as (_ & Hb0 & Hbn & _).
  pose proof (in_area_bounds ar np (g_ar _ _ _ _ _ _ _ G) p k a K Hk Hpa) as (_ & Hp0 & Hpn & _).
  mstep (run_in_use s ar np b G ltac:(lia)).
  rewrite (c_some _ _ _ _ _ C b j u Hb) by (apply not_elem_of_cons; split; [lia|apply not_elem_of_nil]).
  destruct u; cbn [in_use Z.b2z Z.eqb Pos.eqb].
  { apply Hret; [done|done|]. intros _. rewrite Hb. congruence. }
  mstep (run_node_of (_mem_addr s + 4096 * b) s). fold (pnode (_mem_addr s) b).
  rewrite (proj2 (c_node _ _ _ _ _ C b j Hb)).
  destruct (Z.eqb_spec (4096 * 2 ^ k) (4096 * 2 ^ j)) as [Heq|Hne2]; cbn [negb].
  2: { apply Hret; [done|done|]. intros _. rewrite Hb. congruence. }
  assert (j = k) as ->. { apply (Z.pow_inj_r 2); lia. }
  assert (∃ c, in_area ar c (k + 1) a K ∧ ((c = p ∧ b = p + 2 ^ k) ∨ (c = b ∧ p = b + 2 ^ k)))
    as (c & Hca & Hcb).
  { destruct Hpar as [[? ?]|[? ?]]; [exists p|exists b]; (split; [done|lia]). }
  match goal with |- context [let '(n, b) := ?e in _] =>
    replace e with (_mem_addr s + 4096 * c, _mem_addr s + 4096 * (c + 2 ^ k)) end.
  2: { destruct (Z.ltb_spec (_mem_addr s + 4096 * b) (_mem_addr s + 4096 * p)).
       - rewrite xor_swap. f_equal; lia.
       - f_equal; lia. }
  pose proof (in_area_bounds ar np (g_ar _ _ _ _ _ _ _ G) c (k + 1) a K ltac:(lia) Hca) as (_ & Hc0 & Hcn & _).
  rewrite pow2_S in Hcn by lia.
  destruct (merge_step s ar np bl p k a K b c) as (s1 & R1 & S1 & C1 & H1); try done; try lia.
  fold (pnode (_mem_addr s) b) in R1. rewrite (seq3_ret _ _ _ _ _ _ _ R1).
  rewrite bind_assert by done. rewrite <- !(s_mem _ _ S1).
  assert (∃ u v, bl !! c = Some (k, u) ∧ bl !! (c + 2 ^ k) = Some (k, v) ∧ (u || v) = true ∧ (u && v) = false)
    as (u & v & Hc & Hd & Huv1 & Huv2).
  { destruct Hcb as [[Ec E]|[Ec E]]; [exists true, false|exists false, true]; by rewrite Ec, <- E. }
  destruct (IH s1 ar np (merge_blocks c k true bl) c (k + 1) a K) as (s2 & bl2 & c2 & k2 & R2 & S2 & M2);
    try done; try lia.
  { by eapply same_geom. } { eapply (tiling_merge ar np bl c k u v true a K); (done || lia). }
  { by apply canonical_merge. } { rewrite lookup_merge_blocks by done. by rewrite decide_True. }
  exists s2, bl2, c2, k2. split; [done|]. split; [by transitivity s1|].
  destruct M2 as [? ? ? ? ? Mu Mt Mp ? ?]. split; try done.
  - by rewrite Mu, (used_merge bl c k p b).
  - rewrite Mt. unfold total_pages. rewrite (pages_merge _ bl c k u v) by done.
    cbn [fst]. rewrite pow2_S by done. lia.
  - rewrite Mp. unfold used_pages. rewrite (pages_merge _ bl c k u v) by done. cbn [fst snd].
    destruct u, v; (done || lia).
Qed.

(** ** [free_pages] *)

Lemma run_acquire s : _lock s = false → acquire s = Ret tt (set_lock true s).
Proof. intros H. unfold acquire. mrun. by rewrite H. Qed.

Lemma run_read_info s i : 0 ≤ i < _infos_size s → read_info i s = Ret (info_of (infos s) i) s.
Proof. intros H. unfold read_info. mrun. by rewrite in_range by done. Qed.

Lemma run_write_info s i x : 0 ≤ i < _infos_size s →
  write_info i x s = Ret tt (on_infos <[i := x]> s).
Proof. intros H. unfold write_info. mrun. by rewrite in_range by done. Qed.

(** The common prefix: an aligned address inside the info range. *)
Lemma free_prefix s ar np bl p : inv s ar np bl → 0 ≤ p < np →
  free_pages (_mem_addr s + 4096 * p) s =
  (let info := info_of (infos s) p in
   if area_flag info =? 0 then release;; mret 0
   else if in_use info =? 0 then release;; mret (-3)
   else
     assert (order info <=? _buddy_max_order s);;
     write_info p (mkInfo (order info) (area_flag info) 0);;
     modify (on_alloc_size (λ a, a ⊟ u64 ((1 ⋘ order info) * page_size)));;
     store_node (_mem_addr s + 4096 * p)
       (mkNode buddy_node_magic (page_size ⋘ order info) nullptr nullptr);;
     bd ← deref (belong_area (_area_desc s) (_mem_addr s + 4096 * p));
     '(node, ord) ← merge_loop loop_fuel bd (_mem_addr s + 4096 * p) (order info);
     insert_node node ord;; record_info node ord 0 1;; release;; mret 0) (set_lock true s).
Proof.
  intros I Hp. pose proof (i_geom _ _ _ _ I) as G. pose proof (g_mem _ _ _ _ _ _ _ G).
  pose proof (g_isize _ _ _ _ _ _ _ G). unfold free_pages.
  rewrite (proj2 (Z.eqb_neq _ 0)) by lia. rewrite (addr_aligned _ _ _ _ _ _ _ G) by lia. cbn [negb].
  mstep (run_acquire s (i_lock _ _ _ _ I)).
  mstep (eq_refl : get (set_lock true s) = Ret (set_lock true s) (set_lock true s)).
  change (_mem_addr (set_lock true s)) with (_mem_addr s). rewrite (addr_index _ _ _ _ _ _ _ G) by lia.
  rewrite bind_assert by (apply Z.ltb_lt; cbn; lia).
  by mstep (run_read_info (set_lock true s) p ltac:(cbn; lia)).
Qed.

Lemma used_free bl c k : bl !! c = Some (k, true) → used (<[c := (k, false)]> bl) = delete c (used bl).
Proof.
  intros Hc. apply map_eq. intros x. unfold used.
  rewrite lookup_omap, lookup_insert, lookup_delete, lookup_omap. by case_decide.
Qed.

Lemma free_used s ar np bl p k : inv s ar np bl → bl !! p = Some (k, true) →
  ∃ s' bl', free_pages (_mem_addr s + 4096 * p) s = Ret 0 s' ∧ inv s' ar np bl' ∧
    used bl' = delete p (used bl) ∧ _mem_addr s' = _mem_addr s.
Proof.
  intros I Hp. pose proof I as [G C T Can Tot Al Lk].
  destruct (inv_free_bounds _ _ _ _ _ _ _ I Hp) as (Hk & Hp0 & Hpn & Hmx). pose proof (pow2_pos k ltac:(lia)).
  destruct (t_area _ _ _ T _ _ _ Hp) as [_ (a & K & Hpa)].
  pose proof (g_isize _ _ _ _ _ _ _ G) as Hisz.
  rewrite (free_prefix s ar np bl p I) by lia.
  rewrite (c_some _ _ _ _ _ C p k true Hp) by apply not_elem_of_nil. cbn [area_flag in_use order Z.b2z Z.eqb].
  set (s0 := set_lock true s). rewrite bind_assert by (by apply Z.leb_le).
  mstep (run_write_info s0 p (mkInfo k 1 0) ltac:(cbn; lia)). set (s1 := on_infos _ s0).
  unfold modify at 1. unfold mbind at 1, M_bind at 1. cbn beta iota. set (s2 := on_alloc_size _ s1).
  rewrite page_bytes by lia. unfold store_node, modify at 1. unfold mbind at 1, M_bind at 1. cbn beta iota.
  set (s3 := on_nodes _ s2).
  rewrite (belong_area_spec _ _ _ _ _ _ _ G p k a K) by (done || lia). cbn [deref]. rewrite bind_mret.
  assert (conc_of s3 bl [p]) as C3.
  { apply (conc_frame _ (nodes s)).
    - intros j Hj. cbn. by rewrite node_at_upd_ne.
    - intros q j Hq. cbn. rewrite node_at_upd_ne; [done|]. intros [=]. replace q with p in Hq by lia. congruence.
    - cbn. apply conc_info_ex; [set_solver|by eexists|]. eapply conc_weaken; [|done]. set_solver. }
  assert (heldm s3 p k) as H3.
  { unfold heldm, held. cbn. unfold pnode. rewrite node_at_upd_eq. done. }
  destruct (geom_order _ _ _ _ _ _ _ G p k a K ltac:(lia) Hpa) as (? & HK & _). pose proof (g_maxo _ _ _ _ _ _ _ G).
  destruct (merge_loop_spec loop_fuel s3 ar np bl p k a K G T Can C3 Hp H3 Hpa ltac:(lia))
    as (s4 & bl4 & c & k' & R4 & S4 & M4); [unfold loop_fuel; lia|].
  change (_mem_addr s) with (_mem_addr s3). mstep R4. destruct M4 as [T4 Can4 C4 Hc4 [Hm4 Hh4] U4 Tot4 Up4 Hca Hst].
  destruct (t_area _ _ _ T4 _ _ _ Hc4) as [Hk' _].
  destruct (geom_order _ _ _ _ _ _ _ G c k' a K Hk' Hca) as (_ & _ & Hk33).
  pose proof (in_area_bounds ar np (g_ar _ _ _ _ _ _ _ G) c k' a K Hk' Hca) as (_ & Hc0 & Hcn & _).
  pose proof (pow2_pos k' Hk'). rewrite <- (s_mem _ _ S4).
  mstep (run_insert (_mem_addr s4 + 4096 * c) k' s4 ltac:(lia)). set (s5 := on_nodes _ s4).
  change (_mem_addr s4) with (_mem_addr s5).
  mstep (run_record s5 ar np c k' 0 1 (same_geom _ _ _ _ S4 G : geom_of s5 ar np)
           ltac:(lia) ltac:(lia) ltac:(lia) ltac:(lia)). set (s6 := on_infos _ s5).
  unfold release. mrun. replace (_lock s6) with true by (symmetry; exact (s_lock _ _ S4)).
  eexists _, (<[c := (k', false)]> bl4). split; [done|].
  split; [split|split; [by rewrite used_free, U4|done]].
  - exact (same_geom _ _ _ _ S4 G).
  - cbn. apply (conc_info _ _ _ _ [] c k' false); [apply lookup_insert_eq|].
    eapply conc_weaken; [|exact (conc_link _ _ _ bl4 [c] c k' (conj Hk' Hk33) Hc4 Hm4 Hh4 C4)].
    intros x Hx. apply elem_of_cons in Hx as [->|Hx]; [apply list_elem_of_here|exact Hx].
  - by eapply tiling_mark.
  - exact (canonical_free ar np (g_ar _ _ _ _ _ _ _ G) bl4 c k' a K Hk' Can4 Hca Hst).
  - unfold total_pages in *. rewrite (pages_sum_update _ _ _ _ _ Hc4). cbn [fst]. lia.
  - cbn. rewrite (s_alloc _ _ S4). cbn. rewrite Al.
    assert (used_pages (<[c:=(k', false)]> bl4) = used_pages bl - 2 ^ k) as ->.
    { rewrite <- Up4. unfold used_pages. rewrite (pages_sum_update _ _ _ _ _ Hc4). cbn [fst snd]. lia. }
    pose proof (used_total bl (λ q j u Hq, proj1 (t_area _ _ _ T q j u Hq))).
    pose proof (used_total bl4 (λ q j u Hq, proj1 (t_area _ _ _ T4 q j u Hq))).
    pose proof (g_top _ _ _ _ _ _ _ G). pose proof (g_mem _ _ _ _ _ _ _ G).
    assert (2 ^ k ≤ used_pages bl).
    { unfold used_pages. rewrite (pages_sum_delete _ bl p _ Hp). cbn [fst snd].
      pose proof (used_total (delete p bl) (λ q j u Hq, proj1 (t_area _ _ _ T q j u (proj2 (proj1 (lookup_delete_Some _ _ _ _) Hq))))) as [? _].
      unfold used_pages in *. lia. }
    unfold page_size. rewrite Z.shiftl_mul_pow2, Z.mul_1_l by lia.
    rewrite (wrap64_small (2 ^ k)) by lia. rewrite (wrap64_small (2 ^ k * 4096)) by lia.
    rewrite wrap64_small; lia.
  - done.
Qed.

End Free.
