(* ===== verification/BuddyInit.v ===== *)
(** The constructor [BuddyAllocator( mem, size )] establishes the invariant:
    one free block per set bit of the page count, smallest area first. *)

From Stdlib Require Import ZArith Lia.
From stdpp Require Import base numbers gmap list.
From S2P Require Import Prelude Page Dll Tiling Buddy BuddyInv BuddyAlloc BuddyFree.
Import Allocator Inv Alloc Free.

Set Default Goal Selector "!".
Open Scope Z_scope.

Module Init.

(** Exactly the areas, all free. *)
Definition fresh (ar : list (Z * Z)) (bl : blocks) : Prop :=
  ∀ p k u, bl !! p = Some (k, u) ↔ (p, k) ∈ ar ∧ u = false.

Lemma fresh_in_area np ar bl p k u : areas_from 0 ar np → fresh ar bl → bl !! p = Some (k, u) →
  0 ≤ k ∧ in_area ar p k p k.
Proof.
  intros Har F Hp. apply F in Hp as [Hin _]. destruct (areas_from_in _ _ _ _ _ Har Hin) as (_ & _ & ?).
  split; [done|]. repeat split; [done|lia| |lia]. unfold aligned. by rewrite Z.sub_diag.
Qed.

Lemma fresh_tiling np ar bl : areas_from 0 ar np → fresh ar bl → tiling ar np bl.
Proof.
  intros Har F. split.
  - intros p k u Hp. destruct (fresh_in_area _ _ _ _ _ _ Har F Hp). split; [done|]. by exists p, k.
  - intros q Hq. destruct (areas_cover _ _ _ q Har Hq) as (a & K & Hin & ?).
    exists a, K, false. split; [|done]. by apply F.
  - intros p k u p' k' u' q Hp Hp' ? ?. apply F in Hp as [Hp _]. apply F in Hp' as [Hp' _].
    by destruct (areas_unique _ _ _ _ _ _ _ q Har Hp Hp').
Qed.

Lemma fresh_canonical np ar bl : areas_from 0 ar np → fresh ar bl → canonical ar bl.
Proof.
  intros Har F p k a K Hp Hpa HK. exfalso.
  destruct (fresh_in_area _ _ _ _ _ _ Har F Hp) as [Hk Hpk]. pose proof (pow2_pos k Hk).
  destruct (in_area_unique ar np Har p k a K p k p k p Hk Hk Hpa Hpk) as [-> ->]; lia.
Qed.

Lemma areas_from_snoc p ar n k : 0 ≤ k → areas_from p ar n → areas_from p (ar ++ [(n, k)]) (n + 2 ^ k).
Proof.
  intros Hk. revert p. induction ar as [|[a K] ar IH]; intros p; simpl.
  - by intros ->.
  - intros (? & ? & ?). split_and!; [done|done|]. by apply IH.
Qed.

Lemma mod_pow2_succ n k : 0 ≤ k → n mod 2 ^ (k + 1) = n mod 2 ^ k + (if Z.testbit n k then 2 ^ k else 0).
Proof.
  intros Hk. pose proof (pow2_pos k Hk). rewrite pow2_S, Z.mul_comm by done.
  rewrite Z.rem_mul_r by lia. f_equal. rewrite <- Z.testbit_spec' by done.
  destruct (Z.testbit n k); simpl; lia.
Qed.

Lemma land_pow2 n k : 0 ≤ k → (Z.land (2 ^ k) n =? 0) = negb (Z.testbit n k).
Proof.
  intros Hk. destruct (Z.testbit n k) eqn:E; simpl.
  - apply Z.eqb_neq. intros H. assert (Z.testbit (Z.land (2 ^ k) n) k = false) as Hb by (by rewrite H, Z.testbit_0_l).
    by rewrite Z.land_spec, E, Z.pow2_bits_true in Hb.
  - apply Z.eqb_eq. apply Z.bits_inj'. intros i Hi. rewrite Z.land_spec, Z.testbit_0_l.
    destruct (Z.eq_dec i k) as [->|]; [by rewrite E, andb_false_r|].
    by rewrite Z.pow2_bits_false by lia.
Qed.

(** The loop invariant after the bits below [k]. *)
Record part (s : BuddyAllocator) (mem np k : Z) (ar : list (Z * Z)) (bl : blocks) : Prop := {
  p_mem : _mem_addr s = mem;
  p_lock : _lock s = false;
  p_alloc : _alloc_size s = 0;
  p_ar : areas_from 0 ar (np mod 2 ^ k);
  p_desc : _area_desc s = (λ x : Z * Z, (mem + 4096 * x.1, 4096 * 2 ^ x.2)) <$> ar;
  p_max : ∀ a K, (a, K) ∈ ar → K ≤ _buddy_max_order s ∧ K < k;
  p_maxo : 0 ≤ _buddy_max_order s < 33;
  p_conc : conc_of s bl [];
  p_fresh : fresh ar bl;
  p_total : total_pages bl = np mod 2 ^ k
}.

Lemma part_step s mem np k ar bl : 0 < mem → 0 ≤ np < 2 ^ 33 → mem + 4096 * np < 2 ^ 64 →
  np ≤ _infos_size s → 0 ≤ k → Z.testbit np k = true → part s mem np k ar bl →
  ∃ s', (store_node (mem + 4096 * (np mod 2 ^ k)) (mkNode buddy_node_magic (page_size ⋘ k) nullptr nullptr);;
         insert_node (mem + 4096 * (np mod 2 ^ k)) k;;
         record_info (mem + 4096 * (np mod 2 ^ k)) k 0 1) s = Ret tt s' ∧ same s s' ∧
    let s'' := add_area k (mem + 4096 * (np mod 2 ^ k), page_size ⋘ k) s' in
    part s'' mem np (k + 1) (ar ++ [(np mod 2 ^ k, k)]) (<[np mod 2 ^ k := (k, false)]> bl).
Proof.
  intros Hmem Hnp Htop Hisz Hk Hbit [Pm Pl Pa Par Pd Pmax Pmo Pc Pf Pt].
  set (x := np mod 2 ^ k) in *. pose proof (pow2_pos k Hk).
  assert (k < 33) as Hk33.
  { destruct (Z.lt_ge_cases k 33); [done|]. rewrite (testbit_above np 33) in Hbit; (done || lia). }
  assert (np mod 2 ^ (k + 1) = x + 2 ^ k) as Hx by (rewrite mod_pow2_succ, Hbit; done).
  assert (0 ≤ x) as Hx0 by (apply Z.mod_pos_bound; lia).
  assert (x + 2 ^ k ≤ np) as Hxn. { rewrite <- Hx. apply Z.mod_le; [lia|]. apply pow2_pos; lia. }
  assert (bl !! x = None) as Hnone.
  { destruct (bl !! x) as [[j u]|] eqn:E; [|done]. apply Pf in E as [Hin _].
    destruct (areas_from_in _ _ _ _ _ Par Hin) as (_ & ? & Hj). pose proof (pow2_pos j Hj). lia. }
  rewrite page_bytes by lia. unfold store_node at 1, modify at 1. unfold mbind at 1, M_bind at 1. cbn beta iota.
  set (s1 := on_nodes _ s). mstep (run_insert (mem + 4096 * x) k s1 ltac:(lia)). set (s2 := on_nodes _ s1).
  assert (record_info (mem + 4096 * x) k 0 1 s2 = Ret tt (on_infos <[x := mkInfo k 1 0]> s2)) as ->.
  { unfold record_info, write_info. mrun. change (_mem_addr s2) with (_mem_addr s). rewrite Pm.
    assert (get_info_index mem (mem + 4096 * x) = x) as ->.
    { unfold get_info_index, page_size. replace (mem + 4096 * x - mem) with (x * 4096) by lia.
      rewrite wrap64_small by lia. apply Z.div_mul. lia. }
    unfold u8. rewrite (Z.mod_small k (2 ^ 8)), (Z.mod_small k (2 ^ 6)) by lia.
    rewrite in_range by (change (_infos_size s2) with (_infos_size s); lia). done. }
  eexists. split; [done|]. split; [by split|]. cbn zeta. split; cbn [add_area _mem_addr _lock _alloc_size _area_desc _buddy_max_order nodes infos on_infos]; try done.
  - rewrite Hx. by apply areas_from_snoc.
  - change (_area_desc s2) with (_area_desc s). by rewrite Pd, fmap_app.
  - intros a K Hin. apply elem_of_app in Hin as [Hin|Hin].
    + apply Pmax in Hin. lia.
    + apply list_elem_of_singleton in Hin as [= -> ->]. lia.
  - change (_mem_addr s2) with (_mem_addr s). rewrite Pm in *. unfold s2.
    apply (conc_info _ _ _ _ [] x k false); [apply lookup_insert_eq|].
    assert (conc mem (nodes s1) (infos s1) (<[x := (k, true)]> bl) [x]) as C1.
    { apply (conc_frame _ (nodes s)); cbn.
      - intros j Hj. by rewrite node_at_upd_ne.
      - intros q j Hq. rewrite node_at_upd_ne; [done|]. intros [=]. replace q with x in Hq by lia.
        by rewrite lookup_insert_eq in Hq.
      - apply (conc_used mem _ _ bl [] x k); [|done]. intros j. by rewrite Hnone. }
    rewrite <- (insert_insert_eq bl x (k, false) (k, true)).
    eapply conc_weaken; [|apply (conc_link _ _ _ _ [x] x k); [lia|apply lookup_insert_eq|..|exact C1]].
    + intros y Hy. apply elem_of_cons in Hy as [->|Hy]; [apply list_elem_of_here|exact Hy].
    + cbn. unfold pnode. by rewrite node_at_upd_eq.
    + cbn. unfold pnode. by rewrite node_at_upd_eq.
  - intros p j u. rewrite elem_of_app, list_elem_of_singleton, lookup_insert. case_decide as E.
    + subst p. split; [naive_solver|]. intros [[Hin|[= ->]] ->]; [|done].
      destruct (Pf x j false) as [_ Hf]. rewrite Hnone in Hf. by discriminate Hf.
    + rewrite (Pf p j u). split; [naive_solver|]. intros [[Hin|[= -> ->]] ->]; done.
  - unfold total_pages in *. rewrite pages_sum_insert by done. rewrite Pt, Hx. cbn [fst]. lia.
Qed.

Lemma init_loop_spec n : ∀ fuel s mem np k ar bl, 0 < mem → 0 ≤ np < 2 ^ 33 →
  mem + 4096 * np < 2 ^ 64 → np ≤ _infos_size s → 0 ≤ k → k + Z.of_nat n = 64 →
  (n < fuel)%nat → part s mem np k ar bl →
  ∃ s' ar' bl', init_loop fuel (if k =? 64 then 0 else 2 ^ k) k np (mem + 4096 * (np mod 2 ^ k)) s = Ret tt s' ∧
    part s' mem np 64 ar' bl' ∧ _infos_size s' = _infos_size s ∧ _mem_size s' = _mem_size s.
Proof.
  induction n as [|n IH]; intros fuel s mem np k ar bl Hmem Hnp Htop Hisz Hk Hn Hf P;
    (destruct fuel as [|fuel]; [lia|]); cbn [init_loop].
  { assert (k = 64) as -> by lia. exists s, ar, bl. cbn. done. }
  rewrite (proj2 (Z.eqb_neq k 64)) by lia. pose proof (pow2_pos k Hk).
  rewrite (proj2 (Z.eqb_neq (2 ^ k) 0)) by lia. rewrite land_pow2, negb_involutive by done.
  assert (2 ^ k ⋘ 1 = if k + 1 =? 64 then 0 else 2 ^ (k + 1)) as El.
  { rewrite Z.shiftl_mul_pow2 by lia. replace (2 ^ k * 2 ^ 1) with (2 ^ (k + 1)) by (rewrite pow2_S; lia).
    destruct (Z.eqb_spec (k + 1) 64) as [->|]; [done|]. apply wrap64_small.
    pose proof (pow2_pos (k + 1) ltac:(lia)).
    assert (2 ^ (k + 1) < 2 ^ 64) by (apply Z.pow_lt_mono_r; lia). lia. }
  rewrite El. pose proof (mod_pow2_succ np k Hk) as Hx.
  destruct (Z.testbit np k) eqn:Hbit.
  - assert (k < 33) as Hk33.
    { destruct (Z.lt_ge_cases k 33); [done|]. rewrite (testbit_above np 33) in Hbit; (done || lia). }
    destruct (part_step s mem np k ar bl) as (s1 & R1 & S1 & P1); try done.
    rewrite (seq3_ret _ _ _ _ _ _ _ R1). unfold modify at 1. unfold mbind at 1, M_bind at 1. cbn beta iota.
    assert (mem + 4096 * (np mod 2 ^ k) ⊞ (page_size ⋘ k) = mem + 4096 * (np mod 2 ^ (k + 1))) as ->.
    { rewrite page_bytes, Hx by lia. pose proof (Z.mod_pos_bound np (2 ^ k) ltac:(lia)).
      pose proof (Z.mod_le np (2 ^ (k + 1)) ltac:(lia) ltac:(apply pow2_pos; lia)).
      rewrite wrap64_small; lia. }
    cbn zeta in P1. set (s1' := add_area _ _ s1) in *.
    assert (np ≤ _infos_size s1') as Hisz' by (cbn; by rewrite (s_isize _ _ S1)).
    destruct (IH fuel s1' mem np (k + 1) _ _ Hmem Hnp Htop Hisz' ltac:(lia) ltac:(lia) ltac:(lia) P1)
      as (s2 & ar2 & bl2 & R2 & P2 & E1 & E2).
    exists s2, ar2, bl2. split; [done|]. split; [done|]. rewrite E1, E2. cbn.
    by rewrite (s_isize _ _ S1), (s_msize _ _ S1).
  - rewrite Z.add_0_r in Hx. rewrite <- Hx. apply (IH fuel s mem np (k + 1) ar bl); try done; try lia.
    destruct P as [? ? ? ? ? Pmax ? ? ? ?]. split; try done; [by rewrite Hx| |by rewrite Hx].
    intros a K Hin. apply Pmax in Hin. lia.
Qed.

Lemma fresh_heads_at k : 0 ≤ k < 33 →
  node_at fresh_heads (PHead k) = mkNode buddy_unused_magic 0 (PHead k) (PHead k).
Proof.
  intros Hk. rewrite <- (Z2Nat.id k) by lia. assert (Z.to_nat k < 33)%nat as Hn by lia.
  revert Hn. generalize (Z.to_nat k). intros n Hn.
  do 33 (destruct n as [|n]; [vm_compute; reflexivity|]). lia.
Qed.

Lemma fresh_conc mem : conc mem fresh_heads ∅ ∅ [].
Proof.
  split.
  - intros p k u H. by rewrite lookup_empty in H.
  - done.
  - intros k Hk. exists []. split.
    + apply dll_nil. by rewrite fresh_heads_at.
    + intros p. rewrite lookup_empty. split; [|done]. intros H. by apply elem_of_nil in H.
  - intros p k H. by rewrite lookup_empty in H.
Qed.

(** The number of pages left for allocation out of [n]: one info byte per page,
    rounded up to whole pages, is taken from the end. *)
Definition managed (n : Z) : Z := n - (n + 4095) / 4096.

Lemma construct_inv mem size : 0 < mem → mem mod 4096 = 0 → 64 * 4096 ≤ size < 2 ^ 45 →
  size mod 4096 = 0 → mem + size + 2 ^ 24 ≤ 2 ^ 64 →
  ∃ s ar bl, construct mem size = Ret tt s ∧ inv s ar (managed (size / 4096)) bl ∧
    used bl = ∅ ∧ _mem_addr s = mem.
Proof.
  intros Hmem Hma Hsz Hsa Htop. unfold construct.
  assert (Z.land size (page_size - 1) = 0) as Hland.
  { change (page_size - 1) with (Z.ones 12). by rewrite Z.land_ones by lia. }
  rewrite Hland. unfold page_size. rewrite Hma. zbool; try lia. cbn [negb andb Z.eqb].
  rewrite i64_small, (wrap64_small size), (wrap64_small (size / (4096 / 1))) by (change (4096 / 1) with 4096; Z.div_mod_to_equations; lia).
  change (4096 / 1) with 4096. set (n := size / 4096).
  assert (size = 4096 * n) as Hn by (unfold n; Z.div_mod_to_equations; lia).
  rewrite page_round_up_eq by lia. set (isz := (n + 4095) / 4096 * 4096).
  assert (n ≤ isz ≤ n + 4095) as Hisz by (unfold isz; Z.div_mod_to_equations; lia).
  assert (64 ≤ n < 2 ^ 33) as Hn33 by lia.
  assert (isz ≤ size) as Hle by lia. rewrite (wrap64_small (size - isz)) by lia.
  assert ((size - isz) / 4096 = managed n) as Enp.
  { unfold managed, isz. rewrite Hn. replace (4096 * n - (n + 4095) / 4096 * 4096) with ((n - (n + 4095) / 4096) * 4096) by lia.
    apply Z.div_mul. lia. }
  assert (0 ≤ managed n < 2 ^ 33 ∧ size - isz = 4096 * managed n) as [Hnp Hms].
  { unfold managed, isz in *. Z.div_mod_to_equations. lia. }
  rewrite Enp. set (s0 := mkBuddy _ _ _ _ _ _ _ _ _).
  assert (part s0 mem (managed n) 0 [] ∅) as P0.
  { split; cbn; try done.
    - by rewrite Z.mod_1_r.
    - intros a K Hin. by apply elem_of_nil in Hin.
    - apply fresh_conc.
    - intros p k u. rewrite lookup_empty. split; [done|]. intros [Hin _]. by apply elem_of_nil in Hin.
    - by rewrite Z.mod_1_r. }
  assert (managed n ≤ _infos_size s0) as Hi0 by (cbn [_infos_size s0]; unfold managed; Z.div_mod_to_equations; lia).
  assert (64 < loop_fuel)%nat as Hfuel by (unfold loop_fuel; lia).
  destruct (init_loop_spec 64 loop_fuel s0 mem (managed n) 0 [] ∅ Hmem Hnp ltac:(lia) Hi0
    ltac:(lia) ltac:(lia) Hfuel P0) as (s & ar & bl & R & P & E1 & E2).
  cbn [Z.eqb] in R. rewrite Z.mod_1_r, Z.mul_0_r, Z.add_0_r in R. change (2 ^ 0) with 1 in R.
  exists s, ar, bl. split; [done|]. destruct P as [Pm Pl Pa Par Pd Pmax Pmo Pc Pf Pt].
  rewrite Z.mod_small in Par, Pt by lia.
  assert (used bl = ∅) as Hu.
  { apply map_empty. intros p. destruct (used bl !! p) as [k|] eqn:E; [|done].
    apply lookup_used, Pf in E as [_ ?]. done. }
  assert (used_pages bl = 0) as Hup.
  { unfold used_pages. clear -Pf. assert (∀ p k u, bl !! p = Some (k, u) → u = false) as Hf by (intros; by apply (Pf p k u)).
    clear Pf. induction bl as [|p [k u] bl Hp _ IH] using map_first_key_ind; [done|].
    rewrite pages_sum_insert by done. rewrite (Hf p k u) by apply lookup_insert_eq. cbn [snd].
    rewrite IH; [done|]. intros q j v Hq. apply (Hf q j v). rewrite lookup_insert_ne; [done|congruence]. }
  split; [|done]. split; try done.
  - split; try done.
    + by rewrite Pm.
    + rewrite Pm. lia.
    + rewrite Pm, E1. cbn. lia.
    + by rewrite Pd, Pm.
    + intros a K Hin. apply Pmax in Hin as [? _]. done.
    + rewrite E2. cbn. done.
  - by eapply fresh_tiling.
  - by eapply fresh_canonical.
  - by rewrite Pa, Hup.
Qed.

End Init.
