(* ===== verification/BuddyThm.v ===== *)
(** What the buddy allocator guarantees its clients.

    Every state reached from the constructor by requests, releases of
    arbitrary pointers and writes of clients to the pages they own satisfies
    the invariant; requests and releases refine the abstract buddy system. *)

From Stdlib Require Import ZArith Lia.
From stdpp Require Import base numbers gmap list relations.
From S2P Require Import Prelude Page Dll Tiling Buddy BuddyInv BuddyAlloc BuddyFree BuddyInit.
Import Allocator Inv Alloc Free Init.

Set Default Goal Selector "!".
Open Scope Z_scope.

Module Thm.

(** ** Clients *)

(** Address [a] lies in the block at page [p], which is in use. *)
Definition owned (s : BuddyAllocator) (a : Z) : Prop :=
  ∃ p k, info_of (infos s) p = mkInfo k 1 1 ∧
    _mem_addr s + 4096 * p ≤ a < _mem_addr s + 4096 * (p + 2 ^ k).

Inductive step : BuddyAllocator → BuddyAllocator → Prop :=
| step_alloc s s' count r : 0 ≤ count ≤ 2 ^ 31 → alloc_pages count s = Ret r s' → step s s'
| step_free s s' ptr r : 0 ≤ ptr < 2 ^ 64 → free_pages ptr s = Ret r s' → step s s'
| step_write s a n : owned s a → step s (on_nodes <[PNode a := n]> s).

Definition reachable (mem size : Z) (s : BuddyAllocator) : Prop :=
  ∃ s0, construct mem size = Ret tt s0 ∧ rtc step s0 s.

(** The preconditions of the constructor's caller, [PhysicalMemoryManager]. *)
Definition good_memory (mem size : Z) : Prop :=
  0 < mem ∧ mem mod 4096 = 0 ∧ 64 * 4096 ≤ size < 2 ^ 45 ∧ size mod 4096 = 0 ∧
  mem + size + 2 ^ 24 ≤ 2 ^ 64.

Section facts.
Context (s : BuddyAllocator) (ar : list (Z * Z)) (np : Z) (bl : blocks) (I : inv s ar np bl).

Lemma used_info p k : info_of (infos s) p = mkInfo k 1 1 → bl !! p = Some (k, true).
Proof.
  intros Hp. destruct I as [G C T _ _ _ _]. destruct (bl !! p) as [[j u]|] eqn:E.
  - rewrite (c_some _ _ _ _ _ C p j u E) in Hp by apply not_elem_of_nil. destruct u; by simplify_eq/=.
  - apply (c_none _ _ _ _ _ C) in E. by rewrite Hp in E.
Qed.

Lemma inv_write a n : owned s a → inv (on_nodes <[PNode a := n]> s) ar np bl.
Proof.
  intros (p & k & Hp & Ha). apply used_info in Hp. destruct I as [G C T Can Tot Al Lk].
  split; try done. apply (conc_frame _ (nodes s)); [..|done]; cbn.
  - intros j Hj. unfold node_at. by rewrite lookup_insert_ne.
  - intros q j Hq. unfold node_at. rewrite lookup_insert_ne; [done|]. intros [=].
    destruct (t_area _ _ _ T _ _ _ Hq) as [Hj _]. pose proof (pow2_pos j Hj).
    destruct (tiling_same ar np bl p k true q j false q T Hp Hq) as (_ & _ & ?); [lia..|done].
Qed.

Lemma free_null : free_pages 0 s = Ret (-1) s.
Proof. done. Qed.

Lemma free_misaligned ptr : 0 < ptr → ptr mod 4096 ≠ 0 → free_pages ptr s = Ret (-2) s.
Proof.
  intros Hp Ha. unfold free_pages. rewrite (proj2 (Z.eqb_neq ptr 0)) by lia.
  destruct (is_page_align ptr) eqn:E; [|done]. apply is_page_align_spec in E; [done|lia].
Qed.

(** The prefix of [free_pages] at any aligned address of the info range. *)
Lemma free_lookup p : 0 ≤ p < _infos_size s → in_use (info_of (infos s) p) = 0 ∨ area_flag (info_of (infos s) p) = 0 →
  free_pages (_mem_addr s + 4096 * p) s =
    Ret (if area_flag (info_of (infos s) p) =? 0 then 0 else -3) s.
Proof.
  intros Hp Hi. pose proof (i_geom _ _ _ _ I) as G. pose proof (g_mem _ _ _ _ _ _ _ G) as Hm.
  pose proof (g_isize _ _ _ _ _ _ _ G). unfold free_pages.
  rewrite (proj2 (Z.eqb_neq _ 0)) by lia.
  rewrite (proj2 (is_page_align_spec (_mem_addr s + 4096 * p) ltac:(lia)))
    by (rewrite Z.mul_comm, Z.mod_add by lia; apply Hm).
  cbn [negb]. mstep (run_acquire s (i_lock _ _ _ _ I)).
  mstep (eq_refl : get (set_lock true s) = Ret (set_lock true s) (set_lock true s)).
  change (_mem_addr (set_lock true s)) with (_mem_addr s).
  assert (get_info_index (_mem_addr s) (_mem_addr s + 4096 * p) = p) as ->.
  { unfold get_info_index, page_size. replace (_mem_addr s + 4096 * p - _mem_addr s) with (p * 4096) by lia.
    rewrite wrap64_small by lia. apply Z.div_mul. lia. }
  rewrite bind_assert by (apply Z.ltb_lt; cbn; lia).
  mstep (run_read_info (set_lock true s) p ltac:(cbn; lia)). cbn [infos set_lock].
  assert (∀ v, (release;; mret v : B Z) (set_lock true s) = Ret v s) as Hrel.
  { intros v. rewrite <- (lock_unlock s) at 2 by apply I. done. }
  destruct (Z.eqb_spec (area_flag (info_of (infos s) p)) 0) as [E|E]; [apply Hrel|].
  destruct Hi as [Hi|Hi]; [|done]. rewrite Hi. apply Hrel.
Qed.

(** Aligned addresses outside the info range stop at the assertion. *)
Lemma free_outside ptr : 0 < ptr < 2 ^ 64 → ptr mod 4096 = 0 →
  (∀ p, 0 ≤ p < _infos_size s → ptr ≠ _mem_addr s + 4096 * p) → free_pages ptr s = Panic.
Proof.
  intros Hp Ha Ho. pose proof (i_geom _ _ _ _ I) as G. pose proof (g_mem _ _ _ _ _ _ _ G) as Hm.
  pose proof (g_isize _ _ _ _ _ _ _ G). unfold free_pages.
  rewrite (proj2 (Z.eqb_neq _ 0)) by lia.
  rewrite (proj2 (is_page_align_spec ptr ltac:(lia)) Ha). cbn [negb].
  mstep (run_acquire s (i_lock _ _ _ _ I)).
  mstep (eq_refl : get (set_lock true s) = Ret (set_lock true s) (set_lock true s)).
  cbn [_mem_addr set_lock _infos_size].
  assert (_infos_size s ≤ get_info_index (_mem_addr s) ptr) as Hge.
  { unfold get_info_index, page_size, u64. specialize (Ho ((ptr - _mem_addr s) / 4096)).
    destruct Hm as [Hm0 Hm1]. destruct (Z.le_gt_cases (_mem_addr s) ptr).
    - rewrite Z.mod_small by lia. destruct (Z.le_gt_cases (_infos_size s) ((ptr - _mem_addr s) / 4096)); [done|].
      exfalso. apply Ho; [split; [apply Z.div_pos|]; lia|].
      apply Z.mod_divide in Ha as [c ->]; [|lia]. apply Z.mod_divide in Hm1 as [d Hd]; [|lia].
      rewrite Hd. replace (c * 4096 - d * 4096) with ((c - d) * 4096) by lia. rewrite Z.div_mul; lia.
    - pose proof (areas_from_le _ _ _ (g_ar _ _ _ _ _ _ _ G)).
      rewrite <- (Z.mod_add _ 1), Z.mod_small by lia. apply Z.div_le_lower_bound; lia. }
  unfold mbind at 1, M_bind at 1, assert. by rewrite (proj2 (Z.ltb_ge _ _)) by lia.
Qed.

Lemma free_flagged p : area_flag (info_of (infos s) p) ≠ 0 →
  ∃ k u, bl !! p = Some (k, u) ∧ info_of (infos s) p = mkInfo k 1 (Z.b2z u).
Proof.
  intros Hf. pose proof (i_conc _ _ _ _ I) as C. destruct (bl !! p) as [[k u]|] eqn:E.
  - exists k, u. split; [done|]. apply (c_some _ _ _ _ _ C p k u E), not_elem_of_nil.
  - by apply (c_none _ _ _ _ _ C) in E.
Qed.

(** Every pointer is refused with the state unchanged, stops at the
    assertion, or is the first page of a used block. *)
Lemma free_cases ptr : 0 ≤ ptr < 2 ^ 64 →
  free_pages ptr s = Panic ∨ (∃ r, free_pages ptr s = Ret r s) ∨
  ∃ p k, ptr = _mem_addr s + 4096 * p ∧ bl !! p = Some (k, true).
Proof.
  intros Hp. destruct (Z.eq_dec ptr 0) as [->|Hz]; [right; left; eexists; apply free_null|].
  destruct (Z.eq_dec (ptr mod 4096) 0) as [Ha|Ha];
    [|right; left; exists (-2); apply free_misaligned; lia].
  set (p := (ptr - _mem_addr s) / 4096).
  destruct (decide (0 ≤ p < _infos_size s ∧ ptr = _mem_addr s + 4096 * p)) as [(Hr & Ep)|Hno].
  - clearbody p. subst ptr. destruct (Z.eq_dec (area_flag (info_of (infos s) p)) 0) as [Hf|Hf].
    { right; left. eexists. apply free_lookup; auto. }
    destruct (free_flagged p Hf) as (k & u & Hb & Hi). destruct u; [right; right; eauto|].
    right; left. eexists. apply free_lookup; [done|]. left. by rewrite Hi.
  - left. apply free_outside; [lia|done|]. intros q Hr E. apply Hno.
    assert (p = q) as ->; [|done]. unfold p. rewrite E. replace (_mem_addr s + 4096 * q - _mem_addr s) with (q * 4096) by lia.
    by apply Z.div_mul.
Qed.
End facts.

(** A block that can serve a request serves it: the sub-block at its start
    has the requested order and holds no used page. *)
Lemma free_block_fits ar np bl p i m : areas_from 0 ar np → tiling ar np bl →
  bl !! p = Some (i, false) → 0 ≤ m ≤ i →
  (∃ a K, in_area ar p m a K) ∧ ∀ q, p ≤ q < p + 2 ^ m → ¬ page_used bl q.
Proof.
  intros Har T Hp Hm. destruct (t_area _ _ _ T _ _ _ Hp) as [Hi (a & K & Hin & ? & Hal & ?)].
  pose proof (pow2_mono m i ltac:(lia)). split.
  - exists a, K. split_and!; [done|lia|by apply (aligned_le _ _ i)|lia].
  - intros q Hq. apply (free_not_used ar np bl p i); [done..|lia].
Qed.

(** ** The constructor and the reachable states *)

Lemma construct_good mem size : good_memory mem size → ∃ s ar bl,
  construct mem size = Ret tt s ∧ inv s ar (managed (size / 4096)) bl ∧
  used bl = ∅ ∧ _mem_addr s = mem.
Proof. intros (? & ? & ? & ? & ?). by apply construct_inv. Qed.

Lemma step_inv s s' ar np bl : inv s ar np bl → step s s' →
  ∃ bl', inv s' ar np bl' ∧ _mem_addr s' = _mem_addr s.
Proof.
  intros I Hst. revert I. destruct Hst as [s s' count r Hc R|s s' ptr r Hp R|s a n Ho]; intros I.
  - destruct (Z.eq_dec count 0) as [->|Hn]; [injection R as _ <-; by exists bl|].
    destruct (alloc_pages_run _ ar np bl count I ltac:(lia)) as [(p & i & s1 & bl' & R' & I' & _ & Hm & _)|[R' _]];
      rewrite R in R'; simplify_eq; eauto.
  - destruct (free_cases _ ar np bl I ptr Hp) as [R'|[[r' R']|(p & k & -> & Hb)]];
      [by rewrite R in R'|rewrite R in R'; simplify_eq; eauto|].
    destruct (free_used _ ar np bl p k I Hb) as (s1 & bl' & R' & I' & _ & Hm).
    rewrite R in R'. simplify_eq. eauto.
  - exists bl. split; [by apply inv_write|done].
Qed.

Lemma reachable_inv mem size s : good_memory mem size → reachable mem size s →
  ∃ ar bl, inv s ar (managed (size / 4096)) bl ∧ _mem_addr s = mem.
Proof.
  intros Hg (s0 & R & Hs). destruct (construct_good mem size Hg) as (s1 & ar & bl & R' & I & _ & Hm).
  rewrite R in R'. simplify_eq. exists ar. clear R Hg. revert bl I.
  induction Hs as [s|s s' s'' Hst _ IH]; intros bl I; [eauto|].
  destruct (step_inv _ _ _ _ _ I Hst) as (bl' & I' & Hm'). rewrite <- Hm'. by apply (IH bl').
Qed.

Lemma reachable_step mem size s s' : reachable mem size s → step s s' → reachable mem size s'.
Proof. intros (s0 & ? & ?) Hs. exists s0. split; [done|]. by eapply rtc_r. Qed.

(** * What the allocator guarantees *)

(** C1: in every state reached from the constructor by requests, releases of
    arbitrary pointers and arbitrary client writes to owned pages, the info
    bytes, the free lists and the counters describe one canonical tiling of the
    managed pages by buddy blocks. *)
Theorem buddy_reachable_invariant mem size s : good_memory mem size → reachable mem size s →
  ∃ ar bl, inv s ar (managed (size / 4096)) bl ∧ _mem_addr s = mem.
Proof. apply reachable_inv. Qed.

(** C8: two distinct blocks marked in use never share a page, lie inside the
    managed memory and the sizes reported by [mem_desc] add up to it. *)
Theorem buddy_blocks_disjoint mem size s p j q k : good_memory mem size → reachable mem size s →
  info_of (infos s) p = mkInfo j 1 1 → info_of (infos s) q = mkInfo k 1 1 → p ≠ q →
  (p + 2 ^ j ≤ q ∨ q + 2 ^ k ≤ p) ∧ 0 ≤ p ∧ p + 2 ^ j ≤ managed (size / 4096) ∧
  (mem_desc s).1 + (mem_desc s).2 = 4096 * managed (size / 4096).
Proof.
  intros Hg Hr Hp Hq Hne. destruct (reachable_inv mem size s Hg Hr) as (ar & bl & I & _).
  apply (used_info _ _ _ _ I) in Hp, Hq. pose proof (i_tiling _ _ _ _ I) as T.
  destruct (inv_free_bounds _ _ _ _ _ _ _ I Hp) as (Hj & Hp0 & Hpn & _).
  destruct (inv_free_bounds _ _ _ _ _ _ _ I Hq) as (Hk & _).
  pose proof (pow2_pos j ltac:(lia)). pose proof (pow2_pos k ltac:(lia)).
  split_and!; [|lia..|].
  - destruct (Z.le_gt_cases (p + 2 ^ j) q); [by left|]. destruct (Z.le_gt_cases (q + 2 ^ k) p); [by right|].
    destruct Hne. apply (t_disj _ _ _ T _ _ _ _ _ _ (Z.max p q) Hp Hq); lia.
  - destruct I as [G _ _ _ Tot Al _]. unfold mem_desc. cbn [fst snd].
    pose proof (g_size _ _ _ _ _ _ _ G). pose proof (g_top _ _ _ _ _ _ _ G). pose proof (g_mem _ _ _ _ _ _ _ G).
    pose proof (used_total bl (λ p k u H, proj1 (t_area _ _ _ T p k u H))).
    rewrite wrap64_small by lia. lia.
Qed.

(** C9: a request for [1 <= count <= 2^31] pages returns an aligned run of
    [2^ceil(log2 count)] pages none of which was in use and marks exactly that
    block used; it fails, leaving the state as it was, only when every aligned
    run of that length inside an area has a used page. *)
Theorem alloc_pages_correct s ar np bl count : inv s ar np bl → 1 ≤ count ≤ 2 ^ 31 →
  (∃ p s' bl', alloc_pages count s = Ret (_mem_addr s + 4096 * p) s' ∧
     inv s' ar np bl' ∧ used bl' = <[p := Z.log2_up count]> (used bl) ∧
     count ≤ 2 ^ Z.log2_up count ∧ (∃ a K, in_area ar p (Z.log2_up count) a K) ∧
     ∀ q, p ≤ q < p + 2 ^ Z.log2_up count → ¬ page_used bl q) ∨
  (alloc_pages count s = Ret 0 s ∧ ∀ p a K, in_area ar p (Z.log2_up count) a K →
     ¬ ∀ q, p ≤ q < p + 2 ^ Z.log2_up count → ¬ page_used bl q).
Proof.
  intros I Hc. pose proof (i_geom _ _ _ _ I) as G. pose proof (g_ar _ _ _ _ _ _ _ G) as Har.
  pose proof (i_tiling _ _ _ _ I) as T. pose proof (Z.log2_up_nonneg count).
  destruct (alloc_pages_run s ar np bl count I Hc)
    as [(p & i & s' & bl' & R & I' & U & _ & Hp & Hi & _)|[R Hno]].
  - left. exists p, s', bl'.
    destruct (free_block_fits ar np bl p i (Z.log2_up count) Har T Hp ltac:(lia)).
    split_and!; try done. destruct (Z.eq_dec count 1) as [->|]; [done|]. apply Z.log2_up_spec. lia.
  - right. split; [done|]. intros p a K Hin Hu.
    destruct (canonical_region ar np Har bl (Z.log2_up count) p a K T (i_canon _ _ _ _ I) ltac:(lia) Hin Hu)
      as (x & k & Hx & Hk & _). by apply (Hno k x).
Qed.

(** C10: releasing the first page of a used block returns 0 and makes exactly
    that block unused, whatever merging follows. *)
Theorem free_pages_correct s ar np bl p k : inv s ar np bl → used bl !! p = Some k →
  ∃ s' bl', free_pages (_mem_addr s + 4096 * p) s = Ret 0 s' ∧ inv s' ar np bl' ∧
    used bl' = delete p (used bl).
Proof.
  intros I Hp. apply lookup_used in Hp.
  destruct (free_used s ar np bl p k I Hp) as (s' & bl' & R & I' & U & _). eauto.
Qed.

(** C22: a request followed by the release of its result restores the tiling
    the allocator had: splitting and merging are inverse to each other. *)
Theorem alloc_free_roundtrip s ar np bl count ptr s1 : inv s ar np bl → 1 ≤ count ≤ 2 ^ 31 →
  alloc_pages count s = Ret ptr s1 → ptr ≠ 0 →
  ∃ s2, free_pages ptr s1 = Ret 0 s2 ∧ inv s2 ar np bl.
Proof.
  intros I Hc R Hz. destruct (alloc_pages_run s ar np bl count I Hc)
    as [(p & i & s' & bl' & R' & I' & U & Hm & Hp & Hi & _)|[R' _]]; rewrite R in R'; simplify_eq.
  pose proof (i_geom _ _ _ _ I) as G.
  destruct (free_used s' ar np bl' p (Z.log2_up count) I') as (s2 & bl2 & R2 & I2 & U2 & _).
  { apply lookup_used. by rewrite U, lookup_insert_eq. }
  exists s2. rewrite <- Hm. split; [done|].
  rewrite <- (canonical_unique ar np (g_ar _ _ _ _ _ _ _ G) bl2 bl); [done|apply I2|apply I2|apply I|apply I|].
  rewrite U2, U, delete_insert_id; [done|]. destruct (used bl !! p) eqn:E; [|done].
  apply lookup_used in E. by rewrite Hp in E.
Qed.

(** C34: the refusals of [free_pages]: a null pointer gives -1, a misaligned one
    -2, a block that is already free -3, a page inside a block (or never handed
    out) 0, each with the state unchanged; an aligned address outside the info
    array stops at the assertion. *)
Theorem free_pages_refusals s ar np bl : inv s ar np bl →
  free_pages 0 s = Ret (-1) s ∧
  (∀ ptr, 0 < ptr → ptr mod 4096 ≠ 0 → free_pages ptr s = Ret (-2) s) ∧
  (∀ p k, bl !! p = Some (k, false) → free_pages (_mem_addr s + 4096 * p) s = Ret (-3) s) ∧
  (∀ p, 0 ≤ p < _infos_size s → bl !! p = None → free_pages (_mem_addr s + 4096 * p) s = Ret 0 s) ∧
  (∀ ptr, 0 < ptr < 2 ^ 64 → ptr mod 4096 = 0 →
     (∀ p, 0 ≤ p < _infos_size s → ptr ≠ _mem_addr s + 4096 * p) → free_pages ptr s = Panic).
Proof.
  intros I. pose proof (i_conc _ _ _ _ I) as C. pose proof (i_geom _ _ _ _ I) as G. split_and!.
  - apply free_null.
  - intros ptr. apply free_misaligned.
  - intros p k Hp. pose proof (c_some _ _ _ _ _ C p k false Hp (not_elem_of_nil _)) as Hi.
    destruct (inv_free_bounds _ _ _ _ _ _ _ I Hp) as (Hk & ? & ? & _). pose proof (pow2_pos k ltac:(lia)).
    pose proof (g_isize _ _ _ _ _ _ _ G).
    rewrite (free_lookup s ar np bl I p); rewrite ?Hi; auto. lia.
  - intros p Hr Hp. pose proof (c_none _ _ _ _ _ C p Hp) as Hf.
    rewrite (free_lookup s ar np bl I p Hr) by auto. by rewrite Hf.
  - intros ptr. by apply (free_outside s ar np bl I).
Qed.

(** C35: the constructor, given a page-aligned region of at least 64 whole
    pages, succeeds with every managed page unused and the infos taken from the
    end of the region. *)
Theorem construct_correct mem size : good_memory mem size → ∃ s ar bl,
  construct mem size = Ret tt s ∧ inv s ar (managed (size / 4096)) bl ∧
  used bl = ∅ ∧ mem_desc s = (0, 4096 * managed (size / 4096)).
Proof.
  intros Hg. destruct (construct_good mem size Hg) as (s & ar & bl & R & I & U & Hm).
  exists s, ar, bl. split_and!; try done. destruct I as [G _ T _ _ Al _].
  assert (used_pages bl = 0) as Hu.
  { apply used_pages_none. intros p k Hp. apply lookup_used in Hp. by rewrite U in Hp. }
  pose proof (g_size _ _ _ _ _ _ _ G). pose proof (g_top _ _ _ _ _ _ _ G). pose proof (g_mem _ _ _ _ _ _ _ G).
  pose proof (areas_from_le _ _ _ (g_ar _ _ _ _ _ _ _ G)).
  unfold mem_desc. rewrite Al, Hu. f_equal. rewrite wrap64_small; lia.
Qed.

(** ** Witnesses: 70 pages at 1 MiB *)

Lemma demo_good : good_memory 0x100000 (70 * 4096).
Proof. unfold good_memory. split_and!; (reflexivity || lia). Qed.

Definition demo_state : BuddyAllocator :=
  match demo with Ret _ s => s | _ => mkBuddy false 0 0 ∅ 0 [] ∅ 0 0 end.
Definition after {A} (r : outcome BuddyAllocator A) : BuddyAllocator :=
  match r with Ret _ s => s | _ => demo_state end.
Definition demo_one : BuddyAllocator := after (alloc_pages 3 demo_state).
Definition demo_two : BuddyAllocator := after (alloc_pages 20 demo_one).

Lemma demo_construct : construct 0x100000 (70 * 4096) = Ret tt demo_state.
Proof. vm_compute. reflexivity. Qed.
Lemma demo_reach : reachable 0x100000 (70 * 4096) demo_state.
Proof. exists demo_state. split; [vm_compute; reflexivity|apply rtc_refl]. Qed.
Lemma demo_two_reach : reachable 0x100000 (70 * 4096) demo_two.
Proof.
  apply (reachable_step _ _ demo_one); [apply (reachable_step _ _ demo_state); [apply demo_reach|]|].
  - apply (step_alloc _ _ 3 0x101000); [lia|]. vm_compute. reflexivity.
  - apply (step_alloc _ _ 20 0x105000); [lia|]. vm_compute. reflexivity.
Qed.

Lemma demo_inv : ∃ ar bl, inv demo_state ar 69 bl.
Proof.
  destruct (reachable_inv _ _ _ demo_good demo_reach) as (ar & bl & I & _). by exists ar, bl.
Qed.

Lemma buddy_reachable_invariant_witness : ∃ ar bl, inv demo_two ar 69 bl ∧ _mem_addr demo_two = 0x100000.
Proof. apply (buddy_reachable_invariant 0x100000 (70 * 4096) demo_two demo_good demo_two_reach). Defined.

Lemma buddy_blocks_disjoint_witness :
  (1 + 2 ^ 2 ≤ 5 ∨ 5 + 2 ^ 5 ≤ 1) ∧ 0 ≤ 1 ∧ 1 + 2 ^ 2 ≤ 69 ∧
  (mem_desc demo_two).1 + (mem_desc demo_two).2 = 4096 * 69.
Proof.
  apply (buddy_blocks_disjoint 0x100000 (70 * 4096) demo_two 1 2 5 5 demo_good demo_two_reach);
    [vm_compute; reflexivity..|lia].
Defined.

Lemma alloc_pages_correct_witness : ∃ ar bl,
  (∃ p s' bl', alloc_pages 3 demo_state = Ret (_mem_addr demo_state + 4096 * p) s' ∧
     inv s' ar 69 bl' ∧ used bl' = <[p := 2]> (used bl) ∧ 3 ≤ 2 ^ 2 ∧ (∃ a K, in_area ar p 2 a K) ∧
     ∀ q, p ≤ q < p + 2 ^ 2 → ¬ page_used bl q) ∨
  (alloc_pages 3 demo_state = Ret 0 demo_state ∧ ∀ p a K, in_area ar p 2 a K →
     ¬ ∀ q, p ≤ q < p + 2 ^ 2 → ¬ page_used bl q).
Proof.
  destruct demo_inv as (ar & bl & I). exists ar, bl.
  apply (alloc_pages_correct demo_state ar 69 bl 3 I). lia.
Defined.

Lemma free_pages_correct_witness : ∃ ar bl, used bl !! 1 = Some 2 ∧
  ∃ s' bl', free_pages (_mem_addr demo_two + 4096 * 1) demo_two = Ret 0 s' ∧
    inv s' ar 69 bl' ∧ used bl' = delete 1 (used bl).
Proof.
  destruct (reachable_inv _ _ _ demo_good demo_two_reach) as (ar & bl & I & _).
  assert (used bl !! 1 = Some 2) as H1.
  { apply lookup_used, (used_info _ _ _ _ I). vm_compute. reflexivity. }
  exists ar, bl. split; [done|]. apply (free_pages_correct demo_two ar 69 bl 1 2 I H1).
Defined.

Lemma alloc_free_roundtrip_witness : ∃ ar bl, inv demo_state ar 69 bl ∧
  ∃ s2, free_pages 0x101000 demo_one = Ret 0 s2 ∧ inv s2 ar 69 bl.
Proof.
  destruct demo_inv as (ar & bl & I). exists ar, bl. split; [done|].
  apply (alloc_free_roundtrip demo_state ar 69 bl 3 0x101000 demo_one I);
    [lia|vm_compute; reflexivity|lia].
Defined.

Lemma free_pages_refusals_witness : free_pages 0x100010 demo_state = Ret (-2) demo_state.
Proof.
  destruct demo_inv as (ar & bl & I).
  apply (proj1 (proj2 (free_pages_refusals demo_state ar 69 bl I))); [lia|done].
Defined.

Lemma construct_correct_witness : ∃ s ar bl, construct 0x100000 (70 * 4096) = Ret tt s ∧
  inv s ar 69 bl ∧ used bl = ∅ ∧ mem_desc s = (0, 4096 * 69).
Proof. apply (construct_correct 0x100000 (70 * 4096) demo_good). Defined.

End Thm.
