(* ===== verification/Pmm.v ===== *)
(** The physical memory manager, [mm::PhysicalMemoryManager].

    [kernel/mm/physical_memory_manager.cc] on top of any
    [VirtualPageAllocator]: the allocator behind [_allocator] is the class
    [PageAllocator], what its clients rely on is [PageAllocatorLaws], and
    the buddy allocator is an instance of both.  The state is the allocator's
    and the contents of memory; the list nodes the buddy allocator keeps in
    free pages are part of its own state (client writes do not reach them:
    [Thm.inv_write]). *)

From Stdlib Require Import ZArith Lia.
From stdpp Require Import base numbers gmap list.
From S2P Require Import Prelude Page Mem Tiling Buddy BuddyInv BuddyAlloc BuddyFree BuddyInit BuddyThm.

Set Default Goal Selector "!".
Open Scope Z_scope.

(** * The interface [VirtualPageAllocator] *)

Class PageAllocator (A : Type) : Type := {
  pa_alloc_pages : Z → M A Z;
  pa_free_pages : Z → M A Z;
  pa_mem_desc : A → Z * Z
}.

(** [pa_rep a lo hi u]: the blocks in use are [u] (address to pages), all
    inside [lo .. hi). *)
Class PageAllocatorLaws (A : Type) `{PageAllocator A} : Type := {
  pa_rep : A → Z → Z → gmap Z Z → Prop;
  pa_range : ∀ a lo hi u p n, pa_rep a lo hi u → u !! p = Some n →
    0 < p ∧ p mod 4096 = 0 ∧ 1 ≤ n ∧ lo ≤ p ∧ p + 4096 * n ≤ hi ∧ hi < 2 ^ 64;
  pa_disjoint : ∀ a lo hi u p n q k, pa_rep a lo hi u → u !! p = Some n → u !! q = Some k → p ≠ q →
    p + 4096 * n ≤ q ∨ q + 4096 * k ≤ p;
  pa_alloc_spec : ∀ a lo hi u n, pa_rep a lo hi u → 1 ≤ n ≤ 2 ^ 31 →
    (∃ p k a', pa_alloc_pages n a = Ret p a' ∧ n ≤ k ∧ u !! p = None ∧ pa_rep a' lo hi (<[p := k]> u)) ∨
    pa_alloc_pages n a = Ret 0 a;
  pa_free_spec : ∀ a lo hi u p n, pa_rep a lo hi u → u !! p = Some n →
    ∃ a', pa_free_pages p a = Ret 0 a' ∧ pa_rep a' lo hi (delete p u)
}.

Module Pmm.

(** * The manager *)

Record PhysicalMemoryManager (A : Type) : Type := mkPmm { _allocator : A; ram : mem }.
Arguments mkPmm {A} _ _.
Arguments _allocator {A} _.
Arguments ram {A} _.

Definition freed_junk : Z := 0x0.
Definition alloc_junk : Z := 0x0.
Definition null_junk : Z := 0x0.

Section manager.
Context {A : Type} `{PageAllocator A}.
Abbreviation P := (M (PhysicalMemoryManager A)).

Definition on_ram (f : mem → mem) (s : PhysicalMemoryManager A) := mkPmm (_allocator s) (f (ram s)).
Definition call {B} (m : M A B) : P B := zoom _allocator (λ a s, mkPmm a (ram s)) m.

(** [_fill_junk]: the 512 words of one page. *)
Fixpoint fill_words (k : nat) (a mj : Z) (m : mem) : mem :=
  match k with
  | O => m
  | S k' => fill_words k' (a + 8) mj (store64 a mj m)
  end.
Definition fill_junk (pa mj : Z) : P unit :=
  modify (on_ram (fill_words (Z.to_nat (Z.shiftr (u32 page_size) 3)) pa mj)).

(** [_fill_pages]: up to the end computed from the 32-bit count. *)
Fixpoint fill_loop (fuel : nat) (unit end_unit mj : Z) : P () :=
  match fuel with
  | O => spin
  | S f =>
      if unit <? end_unit then
        modify (on_ram (store64 unit mj));; fill_loop f (unit + 8) end_unit mj
      else mret tt
  end.
Definition fill_pages (pages cnt mj : Z) : P unit :=
  let end_unit := pages ⊞ u64 (u32 cnt * page_size) in
  fill_loop (S (Z.to_nat (u32 cnt * 512))) pages end_unit mj.

Definition alloc_pages (cnt : Z) : P Z :=
  pgs ← call (pa_alloc_pages cnt);
  if pgs =? 0 then mret pgs
  else fill_pages pgs cnt alloc_junk;; mret pgs.

(** The result of the allocator's [free_pages] is passed on as the number of
    pages to fill. *)
Definition free_pages (pa : Z) : P Z :=
  if pa =? 0 then mret (-1)
  else
    free_cnt ← call (pa_free_pages pa);
    fill_pages pa free_cnt freed_junk;;
    mret 0.

Definition alloc_page : P Z :=
  pg ← call (pa_alloc_pages 1);
  if pg =? 0 then mret pg
  else fill_junk pg alloc_junk;; mret pg.

Definition clear_page (pa : Z) : P unit := fill_junk pa null_junk.

Fixpoint clear_loop (k : nat) (a : Z) : P unit :=
  match k with
  | O => mret tt
  | S k' => fill_junk a null_junk;; clear_loop k' (a ⊞ page_size)
  end.
Definition clear_pages (pa cnt : Z) : P unit := clear_loop (Z.to_nat cnt) pa.

Definition mem_desc : P (Z * Z) := gets (λ s, pa_mem_desc (_allocator s)).

End manager.

(** [_free_range] and the constructor, on the buddy allocator. *)
Fixpoint range_loop (fuel : nat) (p pa_end : Z) (m : mem) : mem :=
  match fuel with
  | O => m
  | S f =>
      if p + page_size <=? pa_end then
        range_loop f (p + page_size) pa_end (fill_words 512 p freed_junk m)
      else m
  end.
Definition free_range (pa_start pa_end : Z) (m : mem) : mem :=
  let p := page_round_up pa_start in
  range_loop (Z.to_nat ((pa_end - p) / page_size)) p pa_end m.

Definition construct (mem_start mem_size : Z) (m : mem)
  : outcome (PhysicalMemoryManager Allocator.BuddyAllocator) unit :=
  let ram_base := mem_start in
  let ram_end := ram_base ⊞ mem_size in
  let m := free_range ram_base ram_end m in
  match Allocator.construct ram_base (ram_end ⊟ ram_base) with
  | Ret _ a => Ret tt (mkPmm a m)
  | Panic => Panic
  | Stuck => Stuck
  | Spin => Spin
  end.

#[export] Instance buddy_allocator : PageAllocator Allocator.BuddyAllocator := {
  pa_alloc_pages := Allocator.alloc_pages;
  pa_free_pages := Allocator.free_pages;
  pa_mem_desc := Allocator.mem_desc
}.

End Pmm.
