(* ===== verification/PmmThm.v ===== *)
(** Correctness of the physical memory manager, and the buddy allocator as
    an implementation of its page allocator interface. *)

From Stdlib Require Import ZArith Lia.
From stdpp Require Import base numbers gmap list fin_maps.
From S2P Require Import Prelude Page Mem Tiling Buddy BuddyInv BuddyAlloc BuddyFree BuddyInit BuddyThm Pmm.
Import Pmm.

Set Default Goal Selector "!".
Open Scope Z_scope.

Module PmmThm.

(** ** The buddy allocator implements [VirtualPageAllocator] *)

Section buddy.
Import Allocator Inv Alloc Free Init Thm.

Definition block_addr (s : BuddyAllocator) (p : Z) : Z := _mem_addr s + 4096 * p.

#[local] Instance block_addr_inj s : Inj (=) (=) (block_addr s).
Proof. intros p q. unfold block_addr. lia. Qed.

(** The blocks in use, by address and in pages. *)
Definition buddy_blocks (s : BuddyAllocator) (bl : blocks) : gmap Z Z :=
  kmap (block_addr s) ((λ k, 2 ^ k) <$> used bl).

Definition buddy_rep (s : BuddyAllocator) (lo hi : Z) (u : gmap Z Z) : Prop :=
  ∃ ar np bl, inv s ar np bl ∧ lo = _mem_addr s ∧ hi = lo + 4096 * np ∧ u = buddy_blocks s bl.

Lemma buddy_blocks_lookup s bl a n : buddy_blocks s bl !! a = Some n ↔
  ∃ p k, a = block_addr s p ∧ n = 2 ^ k ∧ bl !! p = Some (k, true).
Proof.
  unfold buddy_blocks. rewrite lookup_kmap_Some by apply _. split.
  - intros (p & -> & Hp). rewrite lookup_fmap in Hp. apply fmap_Some in Hp as (k & Hk & ->).
    apply lookup_used in Hk. by exists p, k.
  - intros (p & k & -> & -> & Hp). exists p. split; [done|]. apply lookup_used in Hp.
    by rewrite lookup_fmap, Hp.
Qed.

Lemma buddy_blocks_insert s s' bl bl' p k : _mem_addr s' = _mem_addr s →
  used bl' = <[p := k]> (used bl) →
  buddy_blocks s' bl' = <[_mem_addr s + 4096 * p := 2 ^ k]> (buddy_blocks s bl).
Proof.
  intros Em E. unfold buddy_blocks. assert (block_addr s' = block_addr s) as ->.
  { unfold block_addr. by rewrite Em. }
  rewrite E, fmap_insert, kmap_insert by apply _. done.
Qed.

Lemma buddy_blocks_delete s s' bl bl' p : _mem_addr s' = _mem_addr s →
  used bl' = delete p (used bl) →
  buddy_blocks s' bl' = delete (_mem_addr s + 4096 * p) (buddy_blocks s bl).
Proof.
  intros Em E. unfold buddy_blocks. assert (block_addr s' = block_addr s) as ->.
  { unfold block_addr. by rewrite Em. }
  rewrite E, fmap_delete, kmap_delete by apply _. done.
Qed.

Lemma buddy_range s lo hi u p n : buddy_rep s lo hi u → u !! p = Some n →
  0 < p ∧ p mod 4096 = 0 ∧ 1 ≤ n ∧ lo ≤ p ∧ p + 4096 * n ≤ hi ∧ hi < 2 ^ 64.
Proof.
  intros (ar & np & bl & I & -> & -> & ->) Hp. apply buddy_blocks_lookup in Hp as (q & k & -> & -> & Hq).
  pose proof (i_geom _ _ _ _ I) as G. pose proof (g_mem _ _ _ _ _ _ _ G). pose proof (g_top _ _ _ _ _ _ _ G).
  destruct (inv_free_bounds _ _ _ _ _ _ _ I Hq) as (Hk & ? & ? & _). pose proof (pow2_pos k ltac:(lia)).
  unfold block_addr. split_and!; try lia. rewrite Z.mul_comm, Z.mod_add by lia. apply G.
Qed.

Lemma buddy_disjoint s lo hi u p n q k : buddy_rep s lo hi u → u !! p = Some n → u !! q = Some k → p ≠ q →
  p + 4096 * n ≤ q ∨ q + 4096 * k ≤ p.
Proof.
  intros (ar & np & bl & I & -> & -> & ->) Hp Hq Hne.
  apply buddy_blocks_lookup in Hp as (x & i & -> & -> & Hx).
  apply buddy_blocks_lookup in Hq as (y & j & -> & -> & Hy).
  assert (x ≠ y) as Hxy by (intros ->; done). unfold block_addr.
  destruct (Z.le_gt_cases (x + 2 ^ i) y); [left; lia|]. destruct (Z.le_gt_cases (y + 2 ^ j) x); [right; lia|].
  destruct (inv_free_bounds _ _ _ _ _ _ _ I Hx) as (? & _). destruct (inv_free_bounds _ _ _ _ _ _ _ I Hy) as (? & _).
  pose proof (pow2_pos i ltac:(lia)). pose proof (pow2_pos j ltac:(lia)).
  destruct Hxy. apply (t_disj _ _ _ (i_tiling _ _ _ _ I) _ _ _ _ _ _ (Z.max x y) Hx Hy); lia.
Qed.

Lemma buddy_alloc s lo hi u n : buddy_rep s lo hi u → 1 ≤ n ≤ 2 ^ 31 →
  (∃ p k s', alloc_pages n s = Ret p s' ∧ n ≤ k ∧ u !! p = None ∧ buddy_rep s' lo hi (<[p := k]> u)) ∨
  alloc_pages n s = Ret 0 s.
Proof.
  intros (ar & np & bl & I & -> & -> & ->) Hn.
  destruct (alloc_pages_run s ar np bl n I Hn) as [(p & i & s' & bl' & R & I' & U & Em & Hp & _)|[R _]]; [left|by right].
  exists (_mem_addr s + 4096 * p), (2 ^ Z.log2_up n), s'. split_and!; [done| | |].
  - destruct (Z.eq_dec n 1) as [->|]; [done|]. apply Z.log2_up_spec. lia.
  - apply eq_None_not_Some. intros [x E]. apply buddy_blocks_lookup in E as (q & k & Eq & _ & Hq).
    apply (block_addr_inj s p q) in Eq as ->. by rewrite Hp in Hq.
  - exists ar, np, bl'. split_and!; [done|congruence|congruence|]. symmetry. by apply buddy_blocks_insert.
Qed.

Lemma buddy_free s lo hi u p n : buddy_rep s lo hi u → u !! p = Some n →
  ∃ s', free_pages p s = Ret 0 s' ∧ buddy_rep s' lo hi (delete p u).
Proof.
  intros (ar & np & bl & I & -> & -> & ->) Hp. apply buddy_blocks_lookup in Hp as (q & k & -> & -> & Hq).
  destruct (free_used s ar np bl q k I Hq) as (s' & bl' & R & I' & U & Em).
  exists s'. split; [done|]. exists ar, np, bl'. split_and!; [done|congruence|congruence|].
  symmetry. by apply buddy_blocks_delete.
Qed.

#[export] Instance buddy_laws : PageAllocatorLaws BuddyAllocator := {
  pa_rep := buddy_rep;
  pa_range := buddy_range;
  pa_disjoint := buddy_disjoint;
  pa_alloc_spec := buddy_alloc;
  pa_free_spec := buddy_free
}.
End buddy.

(** ** Filling *)

Lemma fill_words_at k a m x : byte_at (fill_words k a 0 m) x =
  if decide (a ≤ x < a + 8 * Z.of_nat k) then 0 else byte_at m x.
Proof.
  revert a m. induction k as [|k IH]; intros a m; cbn [fill_words].
  { by rewrite decide_False by lia. }
  rewrite IH. destruct (decide (a + 8 ≤ x < a + 8 + 8 * Z.of_nat k)).
  { by rewrite decide_True by lia. }
  unfold store64. rewrite store_bytes_at, length_split. destruct (decide (a ≤ x < a + Z.of_nat 8)).
  - rewrite decide_True by lia. change (le_split 8 0) with (replicate 8 0).
    rewrite lookup_replicate_2 by lia. done.
  - by rewrite decide_False by lia.
Qed.

Lemma fill_words_ok k a m : mem_ok m → mem_ok (fill_words k a 0 m).
Proof. intros Hm x. rewrite fill_words_at. destruct (decide _); [lia|apply Hm]. Qed.

#[export] Hint Resolve fill_words_ok : mach.

Section manager.
Context {A : Type} `{PageAllocatorLaws A}.
Implicit Types σ : PhysicalMemoryManager A.

Definition pmm_rep σ lo hi u : Prop := pa_rep (_allocator σ) lo hi u ∧ mem_ok (ram σ).

Lemma on_ram_comp f g σ : on_ram f (on_ram g σ) = on_ram (λ m, f (g m)) σ.
Proof. done. Qed.

Lemma fill_loop_run k a σ : fill_loop (S k) a (a + 8 * Z.of_nat k) 0 σ = Ret tt (on_ram (fill_words k a 0) σ).
Proof.
  revert a σ. induction k as [|k IH]; intros a σ.
  - cbn [fill_loop]. zbool; [lia|]. by destruct σ.
  - remember (S k) as k' eqn:Ek. cbn [fill_loop]. zbool; [|lia]. unfold modify. unfold mbind, M_bind.
    subst k'. replace (a + 8 * Z.of_nat (S k)) with (a + 8 + 8 * Z.of_nat k) by lia. by rewrite IH.
Qed.

Lemma fill_pages_run pages cnt σ : 0 ≤ pages → pages + 4096 * u32 cnt < 2 ^ 64 →
  fill_pages pages cnt 0 σ = Ret tt (on_ram (fill_words (Z.to_nat (u32 cnt * 512)) pages 0) σ).
Proof.
  intros Hp Ht. pose proof (u32_bound cnt). unfold fill_pages, page_size.
  rewrite (wrap64_small (u32 cnt * 4096)), wrap64_small by lia.
  replace (pages + u32 cnt * 4096) with (pages + 8 * Z.of_nat (Z.to_nat (u32 cnt * 512))) by lia.
  apply fill_loop_run.
Qed.

Lemma fill_junk_run pa σ : fill_junk pa 0 σ = Ret tt (on_ram (fill_words 512 pa 0) σ).
Proof. done. Qed.

Lemma call_run {B} (m : M A B) σ b a' : m (_allocator σ) = Ret b a' → call m σ = Ret b (mkPmm a' (ram σ)).
Proof. intros R. unfold call, zoom. by rewrite R. Qed.

Lemma call_same {B} (m : M A B) σ b : m (_allocator σ) = Ret b (_allocator σ) → call m σ = Ret b σ.
Proof. intros R. unfold call, zoom. rewrite R. by destruct σ. Qed.

Lemma alloc_page_run σ lo hi u : pmm_rep σ lo hi u →
  (∃ p k σ', alloc_page σ = Ret p σ' ∧ 1 ≤ k ∧ p ≠ 0 ∧ u !! p = None ∧
     pmm_rep σ' lo hi (<[p := k]> u) ∧ ram σ' = fill_words 512 p 0 (ram σ)) ∨
  alloc_page σ = Ret 0 σ.
Proof.
  intros [Ha Hm]. destruct (pa_alloc_spec _ _ _ _ 1 Ha ltac:(lia)) as [(p & k & a' & R & Hk & Hp & Ha')|R].
  - left. destruct (pa_range _ _ _ _ p k Ha' (lookup_insert_eq _ _ _)) as (Hp0 & _).
    exists p, k, (mkPmm a' (fill_words 512 p 0 (ram σ))). split_and!; [|lia|lia|exact Hp| |reflexivity].
    + unfold alloc_page. mstep (call_run _ _ _ _ R). rewrite (proj2 (Z.eqb_neq p 0)) by lia. reflexivity.
    + split; [done|]. by apply fill_words_ok.
  - right. unfold alloc_page. by mstep (call_same _ _ _ R).
Qed.

(** Whether the allocator can serve [n] requests for one page in a row. *)
Fixpoint supply (n : nat) (a : A) : bool :=
  match n with
  | O => true
  | S n' => match pa_alloc_pages 1 a with Ret p a' => negb (p =? 0) && supply n' a' | _ => false end
  end.
(** A computation that takes at most [n] pages. *)
Definition spends (n : nat) σ σ' : Prop :=
  ∀ m, supply (n + m) (_allocator σ) = true → supply m (_allocator σ') = true.

Lemma supply_S n a : supply (S n) a = true → supply n a = true.
Proof.
  revert a. induction n as [|n IH]; intros a; [done|]. change (supply (S (S n)) a) with
    (match pa_alloc_pages 1 a with Ret p a' => negb (p =? 0) && supply (S n) a' | _ => false end).
  cbn [supply]. destruct (pa_alloc_pages 1 a) as [p a'| | |]; [|done..].
  rewrite !andb_true_iff. intros [Hp Hs]. split; [done|]. by apply IH.
Qed.
Lemma supply_le n m a : (n ≤ m)%nat → supply m a = true → supply n a = true.
Proof. induction 1 as [|m Hm IH]; [done|]. intros Hs. by apply IH, supply_S. Qed.
Lemma supply_false n m a : (n ≤ m)%nat → supply n a = false → supply m a = false.
Proof. intros Hle Hs. destruct (supply m a) eqn:E; [|done]. by rewrite (supply_le n m a Hle E) in Hs. Qed.

Lemma spends_refl n σ : spends n σ σ.
Proof. intros m. apply supply_le. lia. Qed.
Lemma spends_same n σ σ' : _allocator σ' = _allocator σ → spends n σ σ'.
Proof. intros E m. rewrite E. apply supply_le. lia. Qed.
Lemma spends_same_r n σ σ1 σ2 : spends n σ σ1 → _allocator σ2 = _allocator σ1 → spends n σ σ2.
Proof. intros Hs E m. rewrite E. apply Hs. Qed.
Lemma spends_trans n k σ σ1 σ2 : spends n σ σ1 → spends k σ1 σ2 → spends (n + k) σ σ2.
Proof. intros H1 H2 m Hm. apply H2, H1. by rewrite Nat.add_assoc. Qed.
Lemma spends_le n k σ σ' : (n ≤ k)%nat → spends n σ σ' → spends k σ σ'.
Proof. intros Hle Hs m Hm. apply Hs. revert Hm. apply supply_le. lia. Qed.
Lemma spends_short n k σ σ' : spends n σ σ' → supply k (_allocator σ') = false →
  supply (n + k) (_allocator σ) = false.
Proof. intros Hs Hk. destruct (supply (n + k) (_allocator σ)) eqn:E; [|done]. by rewrite (Hs k E) in Hk. Qed.

Lemma alloc_page_spends σ p σ' : alloc_page σ = Ret p σ' → p ≠ 0 → spends 1 σ σ'.
Proof.
  intros R Hp m. unfold alloc_page, call, zoom, mbind, M_bind in R. cbn [Nat.add supply].
  destruct (pa_alloc_pages 1 (_allocator σ)) as [q a'| | |]; [|done..].
  unfold fill_junk, modify, mret, M_ret in R.
  destruct (Z.eqb_spec q 0) as [->|Hq]; apply ret_inv in R as [<- <-]; [done|]. by intros [_ ?]%andb_true_iff.
Qed.
Lemma alloc_page_short σ σ' : alloc_page σ = Ret 0 σ' → supply 1 (_allocator σ) = false.
Proof.
  intros R. unfold alloc_page, call, zoom, mbind, M_bind in R. cbn [supply].
  destruct (pa_alloc_pages 1 (_allocator σ)) as [q a'| | |]; [|done..].
  unfold fill_junk, modify, mret, M_ret in R.
  destruct (Z.eqb_spec q 0) as [->|Hq]; [done|]. by apply ret_inv in R as [? _].
Qed.

Lemma alloc_pages_spec σ lo hi u n : pmm_rep σ lo hi u → 1 ≤ n ≤ 2 ^ 31 →
  (∃ p k σ', alloc_pages n σ = Ret p σ' ∧ n ≤ k ∧ p ≠ 0 ∧ u !! p = None ∧
     pmm_rep σ' lo hi (<[p := k]> u) ∧ ram σ' = fill_words (Z.to_nat (n * 512)) p 0 (ram σ)) ∨
  alloc_pages n σ = Ret 0 σ.
Proof.
  intros [Ha Hm] Hn. destruct (pa_alloc_spec _ _ _ _ n Ha Hn) as [(p & k & a' & R & Hk & Hp & Ha')|R].
  - left. destruct (pa_range _ _ _ _ p k Ha' (lookup_insert_eq _ _ _)) as (Hp0 & _ & _ & _ & Ht & Hhi).
    exists p, k, (mkPmm a' (fill_words (Z.to_nat (n * 512)) p 0 (ram σ))). split_and!; try done; try lia.
    + unfold alloc_pages. mstep (call_run _ _ _ _ R). rewrite (proj2 (Z.eqb_neq p 0)) by lia.
      unfold mbind, M_bind. rewrite fill_pages_run by (rewrite ?wrap32_small; lia).
      by rewrite wrap32_small by lia.
    + split; [done|]. cbn [ram]. auto with mach.
  - right. unfold alloc_pages. by mstep (call_same _ _ _ R).
Qed.

Lemma free_pages_run σ lo hi u p n : pmm_rep σ lo hi u → u !! p = Some n →
  ∃ σ', free_pages p σ = Ret 0 σ' ∧ pmm_rep σ' lo hi (delete p u) ∧ ram σ' = ram σ.
Proof.
  intros [Ha Hm] Hp. destruct (pa_range _ _ _ _ p n Ha Hp) as (Hp0 & _ & ? & _ & ? & ?).
  destruct (pa_free_spec _ _ _ _ p n Ha Hp) as (a' & R & Ha').
  exists (mkPmm a' (ram σ)). split_and!; [|done..].
  unfold free_pages. rewrite (proj2 (Z.eqb_neq p 0)) by lia. mstep (call_run _ _ _ _ R).
  unfold mbind, M_bind. by rewrite fill_pages_run by (rewrite ?wrap32_small; lia).
Qed.

(** * What the manager guarantees *)


(** When the allocator refuses with a negative code [e], the code, converted to
    the 32-bit page count of [_fill_pages], makes [free_pages] overwrite
    [2^32 + e] pages from the refused address on and still report success. *)
Theorem pmm_refused_free_wipes σ pa e : 0 < pa → pa + 4096 * (2 ^ 32 + e) < 2 ^ 64 →
  - 2 ^ 31 ≤ e < 0 → pa_free_pages pa (_allocator σ) = Ret e (_allocator σ) →
  ∃ σ', free_pages pa σ = Ret 0 σ' ∧
    ∀ x, pa ≤ x < pa + 4096 * (2 ^ 32 + e) → byte_at (ram σ') x = 0.
Proof.
  intros Hp Ht He R. assert (u32 e = 2 ^ 32 + e) as Ee.
  { unfold u32. rewrite <- (Z.mod_add e 1) by lia. rewrite Z.mod_small by lia. lia. }
  eexists. split.
  - unfold free_pages. rewrite (proj2 (Z.eqb_neq pa 0)) by lia. mstep (call_same _ _ _ R).
    unfold mbind, M_bind. rewrite fill_pages_run by (rewrite ?Ee; lia). done.
  - intros x Hx. cbn [on_ram ram]. rewrite fill_words_at, decide_True; [done|]. rewrite Ee. lia.
Qed.

End manager.

(** ** Witness: the manager over 70 pages at 1 MiB *)

Definition demo_pmm : PhysicalMemoryManager Allocator.BuddyAllocator :=
  mkPmm Thm.demo_state ∅.

Lemma demo_pmm_rep : pmm_rep demo_pmm 0x100000 (0x100000 + 4096 * 69) ∅.
Proof.
  split; [|by intros a]. destruct (Thm.construct_good _ _ Thm.demo_good) as (s & ar & bl & R & I & U & Em).
  assert (s = Thm.demo_state) as ->.
  { apply (ret_inj tt). by rewrite <- R, <- Thm.demo_construct. }
  exists ar, 69, bl. split_and!; [done|done|done|]. unfold buddy_blocks. rewrite U. by rewrite fmap_empty, kmap_empty.
Qed.


End PmmThm.
