(* ===== verification/PageTable.v ===== *)
(** Page tables: [mm::PageTable], [kernel/mm/page_table.cc].

    A page table is a base address and a flag; its entries live in the memory
    of the physical memory manager.  The port decides the levels
    ([#ifdef LOONGARCH] adds the topmost) and how an entry pointer is formed
    ([Pte::Pte]).  An entry pointer is its address, 0 for the null [Pte]. *)

From Stdlib Require Import ZArith Lia.
From stdpp Require Import base numbers gmap list.
From S2P Require Import Prelude Page Mem Pmm.
Import Pmm.

Set Default Goal Selector "!".
Open Scope Z_scope.

Class Port : Type := {
  port_hal :: PteHal;
  pte_ptr : Z → Z;
  upper_levels : list (Z → Z)
}.

#[export] Instance riscv_port : Port := {|
  port_hal := Riscv.riscv_pte; pte_ptr := λ a, a; upper_levels := [pud_num; pmd_num] |}.
#[export] Instance loongarch_port : Port := {|
  port_hal := Loongarch.loongarch_pte;
  pte_ptr := to_vir (PteHal := Loongarch.loongarch_pte);
  upper_levels := [pgd_num; pud_num; pmd_num] |}.

Module PT.

Record PageTable : Type := mkPt { _base_addr : Z; _is_global : bool }.

Section tables.
Context `{Port} {A : Type} `{PageAllocator A}.
Abbreviation V := (M (PhysicalMemoryManager A)).

Definition load (a : Z) : V Z := gets (λ s, load64 (ram s) a).
Definition store (a v : Z) : V unit := modify (on_ram (store64 a v)).

(** [get_pte]: the address of entry [index]. *)
Definition get_pte (base index : Z) : Z := pte_ptr (base ⊞ u64 (8 * index)).

(** [_walk_to_next_level]: the base of the next level, [None] for [false]. *)
Definition walk_to_next_level (pte : Z) (alloc : bool) : V (option Z) :=
  d ← load pte;
  if is_valid d then mret (Some (to_vir (to_pa d)))
  else if negb alloc then mret None
  else
    page_addr ← alloc_page;
    if page_addr =? 0 then mret None
    else
      clear_page page_addr;;
      store pte (set_data (Z.lor (page_round_down (to_phy page_addr)) map_dir_page_flags));;
      mret (Some page_addr).

(** The upper levels of [walk]: a level that cannot be entered stops the kernel. *)
Fixpoint walk_upper (levels : list (Z → Z)) (base va : Z) (alloc : bool) : V Z :=
  match levels with
  | [] => mret base
  | pg_num :: levels' =>
      let pte := get_pte base (pg_num va) in
      nxt ← walk_to_next_level pte alloc;
      match nxt with
      | Some b => walk_upper levels' b va alloc
      | None => panic
      end
  end.

Definition walk (pt : PageTable) (va : Z) (alloc : bool) : V Z :=
  if negb (_is_global pt) then mret 0
  else
    base ← walk_upper upper_levels (_base_addr pt) va alloc;
    mret (get_pte base (pt_num va)).

Definition walk_addr (pt : PageTable) (va : Z) : V Z :=
  pte ← walk pt va false;
  if pte =? 0 then mret 0
  else
    d ← load pte;
    if negb (is_valid d) then mret 0
    else if is_super_plv d then mret 0
    else mret (Z.lor (to_pa d) (Z.land va (page_size - 1))).

Definition kwalk_addr (pt : PageTable) (va : Z) : V Z :=
  pte ← walk pt va false;
  if pte =? 0 then mret 0
  else
    d ← load pte;
    if negb (is_valid d) then mret 0
    else mret (Z.lor (to_pa d) (Z.land va (page_size - 1))).

(** [reset_pte_data]: through the base address itself. *)
Definition reset_pte_data (base index : Z) : V unit := store (base ⊞ u64 (8 * index)) 0.

Definition pte_cnt : nat := Z.to_nat (u32 (page_size / 8)).

(** [freewalk]: the fuel bounds the depth of the tree. *)
Fixpoint freewalk (fuel : nat) (base : Z) : V unit :=
  match fuel with
  | O => spin
  | S f =>
      (fix entries (k : nat) (i : Z) : V unit :=
         match k with
         | O => mret tt
         | S k' =>
             d ← load (get_pte base i);
             let pte_valid := is_valid d in
             let pte_leaf := negb (is_dir_page d) in
             (if pte_valid && negb pte_leaf then
                freewalk f (to_vir (to_pa d));; reset_pte_data base i
              else mret tt);;
             entries k' (i + 1)
         end) pte_cnt 0;;
      free_pages base;;
      mret tt
  end.

(** [freewalk_mapped]: each entry's target is read as an entry. *)
Fixpoint freewalk_mapped_loop (fuel k : nat) (base i : Z) : V unit :=
  match k with
  | O => mret tt
  | S k' =>
      d ← load (get_pte base i);
      e ← load (pte_ptr (to_pa d));
      (if is_dir_page e then
         freewalk fuel (to_vir (to_pa e));; reset_pte_data base i
       else if is_valid e then free_pages (to_vir (to_pa e));; mret tt
       else mret tt);;
      freewalk_mapped_loop fuel k' base (i + 1)
  end.
Definition freewalk_mapped (fuel : nat) (base : Z) : V unit :=
  freewalk_mapped_loop fuel pte_cnt base 0;; free_pages base;; mret tt.

(** [kfreewalk( va, level )]: frees the tables on the path of [va], the
    deepest first; [level] counts down to 1. *)
Fixpoint kfreewalk_level (level : nat) (base va : Z) : V unit :=
  let pg_num := match level with
                | 4%nat => pgd_num va | 3%nat => pud_num va | 2%nat => pmd_num va | _ => pt_num va
                end in
  d ← load (get_pte base pg_num);
  let child := if is_valid d then to_vir (to_pa d) else 0 in
  (match level with
   | S (S l as level') => kfreewalk_level level' child va
   | _ => mret tt
   end);;
  free_pages base;;
  mret tt.

Definition kfreewalk (pt : PageTable) (va : Z) : V unit :=
  if negb (va mod page_size =? 0) then panic
  else kfreewalk_level (S (length upper_levels)) (_base_addr pt) va.

End tables.
End PT.
