(* ===== verification/Vmm.v ===== *)
(** The virtual memory manager: [mm::VirtualMemoryManager],
    [kernel/mm/virtual_memory_manager.cc] and its header, with
    [Pcb::map_kstack] of [kernel/pm/process.cc], which [init] calls. *)

From Stdlib Require Import ZArith Lia.
From stdpp Require Import base numbers gmap list.
From S2P Require Import Prelude Page Mem Klib Pmm PageTable.
Import Pmm PT.

Set Default Goal Selector "!".
Open Scope Z_scope.

Module Vmm.

(** [memlayout.hh] and [process.hh]. *)
Definition vm_user_end : Z := 0x0 + Z.shiftl page_size 24.
Definition vm_trap_frame : Z := vm_user_end - page_size.
Definition vm_kernel_start : Z := Z.shiftl 0x3 36.
Definition vm_kernel_end : Z := vm_kernel_start + Z.shiftl page_size 24.
Definition num_process : Z := 32.
Definition default_proc_kstack_pages : Z := 31.
Definition MAX_SHM_PGNUM : nat := 4.

Section vmm.
Context `{Port} {A : Type} `{PageAllocator A}.
Abbreviation V := (M (PhysicalMemoryManager A)).

Definition lib {B} (m : M mem B) : V B := zoom ram (λ r s, mkPmm (_allocator s) r) m.

(** [uint] arithmetic: [gid + 1] and the products wrap at 32 bits. *)
Definition kstack_vm_from_gid (gid : Z) : V Z :=
  if num_process <=? gid then panic
  else mret (vm_kernel_end ⊟ u32 (Z.shiftl (u32 (u32 (gid + 1) * (default_proc_kstack_pages + 1))) page_size_shift)).

(** * Mapping *)

Fixpoint map_loop (fuel : nat) (pt : PageTable) (a last pa flags : Z) : V bool :=
  match fuel with
  | O => spin
  | S f =>
      pte ← walk pt a true;
      if pte =? 0 then mret false
      else
        d ← load pte;
        if is_valid d then mret false
        else
          store pte (set_data (Z.lor (page_round_down (to_phy pa)) flags));;
          if a =? last then mret true
          else map_loop f pt (a ⊞ page_size) last (pa ⊞ page_size) flags
  end.
Definition map_pages (pt : PageTable) (va size pa flags : Z) : V bool :=
  if size =? 0 then panic
  else
    let a := page_round_down va in
    let last := page_round_down (va ⊞ size ⊟ 1) in
    map_loop (S (Z.to_nat ((last ⊟ a) / page_size))) pt a last pa flags.

Definition plv_flag (for_user : bool) : Z := if for_user then user_plv_flag else super_plv_flag.
Definition map_code_pages (pt : PageTable) (va size pa : Z) (for_user : bool) : V bool :=
  map_pages pt va size pa (Z.lor (Z.lor map_code_page_flags valid_flag) (plv_flag for_user)).
Definition map_data_code_pages (pt : PageTable) (va size pa : Z) (for_user : bool) : V bool :=
  map_pages pt va size pa
    (Z.lor (Z.lor (Z.lor map_data_page_flags map_code_page_flags) valid_flag) (plv_flag for_user)).
Definition map_data_pages (pt : PageTable) (va size pa : Z) (for_user : bool) : V bool :=
  map_pages pt va size pa (Z.lor (Z.lor map_data_page_flags valid_flag) (plv_flag for_user)).

Fixpoint unmap_loop (fuel : nat) (pt : PageTable) (a stop : Z) (do_free : bool) : V unit :=
  match fuel with
  | O => spin
  | S f =>
      if a <? stop then
        pte ← walk pt a false;
        if pte =? 0 then panic
        else
          d ← load pte;
          if negb (is_valid d) then panic
          else if is_dir_page d then panic
          else
            when do_free (free_pages (to_vir (to_pa d));; mret tt);;
            store pte 0;;
            unmap_loop f pt (a ⊞ page_size) stop do_free
      else mret tt
  end.
Definition vm_unmap (pt : PageTable) (va npages : Z) (do_free : bool) : V unit :=
  if negb (va mod page_size =? 0) then panic
  else unmap_loop (S (Z.to_nat npages)) pt va (va ⊞ u64 (npages * page_size)) do_free.

(** [int npages] is converted to the [uint64] parameter. *)
Definition vm_dealloc (pt : PageTable) (old_sz new_sz : Z) : V Z :=
  if old_sz <=? new_sz then mret old_sz
  else
    let na := page_round_up new_sz in
    let oa := page_round_up old_sz in
    when (na <? oa) (vm_unmap pt na (u64 (i32 ((oa ⊟ na) / page_size))) true);;
    mret new_sz.

(** The loop of [vm_alloc] over the bits of the page count; [None] when the
    function returned 0 from inside it. *)
Fixpoint alloc_loop (fuel : nat) (pt : PageTable) (l ls oa npg has_alloc : Z)
    (executable writeable for_user : bool) : V (option unit) :=
  match fuel with
  | O => spin
  | S f =>
      if l =? 0 then mret (Some tt)
      else if npg <? l then mret (Some tt)
      else if Z.land l npg =? 0 then
        alloc_loop f pt (l ⋘ 1) (ls ⋘ 1) oa npg has_alloc executable writeable for_user
      else
        m ← alloc_pages l;
        if m =? 0 then vm_dealloc pt (oa ⊞ has_alloc) oa;; mret None
        else
          clear_pages m l;;
          is_ok ← (if executable then
                     if writeable then map_data_code_pages pt (oa ⊞ has_alloc) ls m for_user
                     else map_code_pages pt (oa ⊞ has_alloc) ls m for_user
                   else map_data_pages pt (oa ⊞ has_alloc) ls m for_user);
          if negb is_ok then
            free_pages m;;
            vm_dealloc pt (oa ⊞ has_alloc) oa;;
            mret None
          else
            alloc_loop f pt (l ⋘ 1) (ls ⋘ 1) oa npg (has_alloc ⊞ ls) executable writeable for_user
  end.
Definition vm_alloc (pt : PageTable) (old_sz new_sz : Z) (executable writeable for_user : bool) : V Z :=
  if new_sz <? old_sz then mret old_sz
  else
    let oa := page_round_up old_sz in
    let na := page_round_up new_sz in
    let npg := (na ⊟ oa) / page_size in
    r ← alloc_loop 65 pt 1 page_size oa npg 0 executable writeable for_user;
    match r with Some _ => mret new_sz | None => mret 0 end.

Definition vm_create : V PageTable :=
  addr ← alloc_page;
  if addr =? 0 then panic
  else clear_page addr;; mret (mkPt addr true).

(** * User memory *)

Fixpoint set_loop (k : nat) (pt : PageTable) (vpa fill : Z) : V Z :=
  match k with
  | O => mret 0
  | S k' =>
      pa ← walk_addr pt vpa;
      let p := to_vir pa in
      if p =? 0 then mret (-2)
      else
        modify (on_ram (fill_words (Z.to_nat (page_size / 8)) p fill));;
        set_loop k' pt (vpa ⊞ page_size) fill
  end.
Definition vm_set (pt : PageTable) (va n page_cnt : Z) : V Z :=
  if negb (is_page_align va) then mret (-1)
  else if page_cnt <=? 0 then mret 0
  else
    let fill := u8 n in
    let fill := Z.lor fill (fill ⋘ 8) in
    let fill := Z.lor fill (fill ⋘ 16) in
    let fill := Z.lor fill (fill ⋘ 32) in
    set_loop (Z.to_nat page_cnt) pt va fill.

(** Each round copies at least one byte, so [len] rounds are enough. *)
Fixpoint copy_in_loop (fuel : nat) (pt : PageTable) (p_dst src_va len : Z) : V Z :=
  match fuel with
  | O => spin
  | S f =>
      if 0 <? len then
        let va := page_round_down src_va in
        pa ← walk_addr pt va;
        let pa := to_vir pa in
        if pa =? 0 then mret (-1)
        else
          let n := page_size ⊟ (src_va ⊟ va) in
          let n := if len <? n then len else n in
          lib (Klib.memmove p_dst (pa ⊞ (src_va ⊟ va)) n);;
          copy_in_loop f pt (p_dst ⊞ n) (va ⊞ page_size) (len ⊟ n)
      else mret 0
  end.
Definition copy_in (pt : PageTable) (dst src_va len : Z) : V Z :=
  copy_in_loop (S (Z.to_nat len)) pt dst src_va len.

Fixpoint copyout_loop (fuel : nat) (pt : PageTable) (va p len : Z) : V Z :=
  match fuel with
  | O => spin
  | S f =>
      if 0 <? len then
        let a := page_round_down va in
        pte ← walk pt a false;
        d ← (if pte =? 0 then stuck else load pte);
        let pa := to_vir (to_pa d) in
        if pa =? 0 then mret (-1)
        else
          let n := page_size ⊟ (va ⊟ a) in
          let n := if len <? n then len else n in
          lib (Klib.memmove (to_vir (pa ⊞ (va ⊟ a))) p n);;
          copyout_loop f pt (a ⊞ page_size) (p ⊞ n) (len ⊟ n)
      else mret 0
  end.
Definition copyout (pt : PageTable) (va p len : Z) : V Z :=
  copyout_loop (S (Z.to_nat len)) pt va p len.

(** One page of [copy_str_in( dst )]: whether the NUL was met, and the new
    [p_dst] and [max]. *)
Fixpoint str_page (k : nat) (p p_dst max : Z) : V (bool * Z * Z) :=
  match k with
  | O => mret (false, p_dst, max)
  | S k' =>
      c ← lib (Klib.rd p);
      if c =? 0 then lib (Klib.wr p_dst 0);; mret (true, p_dst, max)
      else lib (Klib.wr p_dst c);; str_page k' (p + 1) (p_dst + 1) (max - 1)
  end.
Fixpoint copy_str_loop (fuel : nat) (pt : PageTable) (p_dst src_va max : Z) : V Z :=
  match fuel with
  | O => spin
  | S f =>
      if 0 <? max then
        let va := page_round_down src_va in
        pa ← walk_addr pt va;
        let pa := to_vir pa in
        if pa =? 0 then mret (-1)
        else
          let n := page_size ⊟ (src_va ⊟ va) in
          let n := if max <? n then max else n in
          '(got_null, p_dst, max) ← str_page (Z.to_nat n) (pa ⊞ (src_va ⊟ va)) p_dst max;
          if (got_null : bool) then mret 0
          else copy_str_loop f pt p_dst (va ⊞ page_size) max
      else mret (-1)
  end.
Definition copy_str_in (pt : PageTable) (dst src_va max : Z) : V Z :=
  copy_str_loop (S (Z.to_nat max)) pt dst src_va max.

(** The overload that appends to an [eastl::string]: returns the code and the
    string. *)
Fixpoint string_page (k : nat) (p max : Z) (dst : list Z) : V (bool * Z * list Z) :=
  match k with
  | O => mret (false, max, dst)
  | S k' =>
      c ← lib (Klib.rd p);
      if c =? 0 then mret (true, max, dst)
      else string_page k' (p + 1) (max - 1) (dst ++ [c])
  end.
Fixpoint copy_string_loop (fuel : nat) (pt : PageTable) (dst : list Z) (src_va max : Z) : V (Z * list Z) :=
  match fuel with
  | O => spin
  | S f =>
      if 0 <? max then
        let va := page_round_down src_va in
        pa ← walk_addr pt va;
        let pa := to_vir pa in
        if pa =? 0 then mret (-1, dst)
        else
          let n := page_size ⊟ (src_va ⊟ va) in
          let n := if max <? n then max else n in
          '(got_null, max, dst) ← string_page (Z.to_nat n) (pa ⊞ (src_va ⊟ va)) max dst;
          if (got_null : bool) then mret (0, dst)
          else copy_string_loop f pt dst (va ⊞ page_size) max
      else mret (-1, dst)
  end.
Definition copy_string_in (pt : PageTable) (dst : list Z) (src_va max : Z) : V (Z * list Z) :=
  copy_string_loop (S (Z.to_nat max)) pt dst src_va max.

(** [cur] is the page table of the current process. *)
Definition either_copy_in (cur : PageTable) (dst : Z) (user_src : bool) (src len : Z) : V Z :=
  if user_src then copy_in cur dst src len
  else lib (Klib.memmove dst src len);; mret 0.

(** * Copying address spaces *)

Fixpoint vm_copy_loop (fuel : nat) (old_pt new_pt : PageTable) (start va va_end : Z) : V Z :=
  match fuel with
  | O => spin
  | S f =>
      if va <? va_end then
        pte ← walk old_pt va false;
        if pte =? 0 then panic
        else
          d ← load pte;
          if negb (is_present d) then panic
          else
            let pa := to_vir (to_pa d) in
            let flags := get_flags d in
            m ← alloc_page;
            if m =? 0 then
              vm_unmap new_pt start ((va ⊟ start) / page_size) true;; mret (-1)
            else
              lib (Klib.memmove m pa page_size);;
              ok ← map_pages new_pt va page_size m flags;
              if negb ok then
                free_pages m;;
                vm_unmap new_pt start ((va ⊟ start) / page_size) true;; mret (-1)
              else vm_copy_loop f old_pt new_pt start (va ⊞ page_size) va_end
      else mret 0
  end.
Definition vm_copy (old_pt new_pt : PageTable) (start size : Z) : V Z :=
  if negb (is_page_align start) then panic
  else if negb (is_page_align size) then panic
  else vm_copy_loop (S (Z.to_nat (size / page_size))) old_pt new_pt start start (start ⊞ size).

(** The overload that also maps each page, without user access, in a kernel
    page table. *)
Fixpoint vm_copy_kpt_loop (fuel : nat) (old_pt new_pt new_kpt : PageTable) (start va va_end : Z) : V Z :=
  match fuel with
  | O => spin
  | S f =>
      if va <? va_end then
        pte ← walk old_pt va false;
        if pte =? 0 then panic
        else
          d ← load pte;
          if negb (is_present d) then panic
          else
            let pa := to_vir (to_pa d) in
            let flags := get_flags d in
            m ← alloc_page;
            if m =? 0 then
              vm_unmap new_pt start ((va ⊟ start) / page_size) true;; mret (-1)
            else
              lib (Klib.memmove m pa page_size);;
              ok ← map_pages new_pt va page_size m flags;
              if negb ok then
                free_pages m;;
                vm_unmap new_pt start ((va ⊟ start) / page_size) true;; mret (-1)
              else
                ok ← map_pages new_kpt va page_size m (Z.land flags (not64 user_plv_flag));
                if negb ok then
                  free_pages m;;
                  vm_unmap new_pt start ((va ⊟ start) / page_size) true;;
                  vm_unmap new_kpt start ((va ⊟ start) / page_size) true;; mret (-1)
                else vm_copy_kpt_loop f old_pt new_pt new_kpt start (va ⊞ page_size) va_end
      else mret 0
  end.
Definition vm_copy_kpt (old_pt new_pt new_kpt : PageTable) (start size : Z) : V Z :=
  if negb (is_page_align start) then panic
  else if negb (is_page_align size) then panic
  else vm_copy_kpt_loop (S (Z.to_nat (size / page_size))) old_pt new_pt new_kpt start start (start ⊞ size).

Fixpoint super_loop (fuel : nat) (pt : PageTable) (a va_end : Z) : V Z :=
  match fuel with
  | O => spin
  | S f =>
      if a <? va_end then
        pte ← walk pt a false;
        if pte =? 0 then mret (-1)
        else
          d ← load pte;
          if negb (is_valid d) then mret (-1)
          else if is_dir_page d then mret (-1)
          else store pte (set_super_plv d);; super_loop f pt (a ⊞ page_size) va_end
      else mret 0
  end.
Definition vm_set_super (pt : PageTable) (va page_cnt : Z) : V Z :=
  if negb (is_page_align va) then mret (-1)
  else super_loop (S (Z.to_nat page_cnt)) pt va (va ⊞ u64 (page_cnt * page_size)).

(** * Shared memory segments *)

Definition bad_shm (oldshm newshm sz : Z) : bool :=
  negb (Z.land oldshm 0xfff =? 0) || negb (Z.land newshm 0xfff =? 0) || (newshm <? sz)
    || (vm_trap_frame - 64 * 2 * page_size <? oldshm).

(** [phyaddr[i]] is mapped before it receives the page just allocated. *)
Fixpoint allocshm_loop (fuel : nat) (pt : PageTable) (a oldshm newshm : Z) (i : nat)
    (phyaddr : list Z) : V (list Z) :=
  match fuel with
  | O => spin
  | S f =>
      if a <? oldshm then
        m ← alloc_page;
        if m =? 0 then panic
        else
          p ← deref (phyaddr !! i);
          map_data_pages pt a page_size p true;;
          allocshm_loop f pt (a ⊞ page_size) oldshm newshm (S i) (<[i := m]> phyaddr)
      else mret phyaddr
  end.
Definition allocshm (pt : PageTable) (oldshm newshm sz : Z) (phyaddr : list Z) : V (Z * list Z) :=
  if bad_shm oldshm newshm sz then panic
  else
    phyaddr ← allocshm_loop (S (Z.to_nat ((oldshm - newshm) / page_size + 1))) pt newshm oldshm newshm 0 phyaddr;
    mret (newshm, phyaddr).

Fixpoint mapshm_loop (fuel : nat) (pt : PageTable) (a oldshm : Z) (i : nat) (phyaddr : list Z) : V unit :=
  match fuel with
  | O => spin
  | S f =>
      if a <? oldshm then
        p ← deref (phyaddr !! i);
        map_data_pages pt a page_size p true;;
        mapshm_loop f pt (a ⊞ page_size) oldshm (S i) phyaddr
      else mret tt
  end.
Definition mapshm (pt : PageTable) (oldshm newshm sz : Z) (phyaddr : list Z) : V Z :=
  if bad_shm oldshm newshm sz then panic
  else mapshm_loop (S (Z.to_nat ((oldshm - newshm) / page_size + 1))) pt newshm oldshm 0 phyaddr;; mret newshm.

(** The division binds tighter than the subtraction. *)
Definition deallocshm (pt : PageTable) (oldshm newshm : Z) : V Z :=
  if newshm <=? oldshm then mret oldshm
  else
    when (page_round_up oldshm <? page_round_up newshm)
      (let npages := i32 (page_round_up newshm ⊟ page_round_up oldshm / page_size) in
       vm_unmap pt (page_round_up oldshm) (u64 npages) false);;
    mret oldshm.

(** * Initialisation *)

Definition map_kstack (pt : PageTable) (kstack : Z) : V unit :=
  if kstack =? 0 then panic
  else
    pa ← alloc_pages default_proc_kstack_pages;
    if pa =? 0 then panic
    else
      clear_page pa;;
      ok ← map_data_pages pt kstack (page_size * default_proc_kstack_pages) pa false;
      if negb ok then panic
      else pte ← walk pt kstack false; mret tt.

(** [kstacks]: the [_kstack] of each process of the pool. *)
Definition init (kstacks : list Z) : V PageTable :=
  addr ← alloc_page;
  if addr =? 0 then panic
  else
    clear_page addr;;
    let k_pagetable := mkPt addr true in
    (fix pool (l : list Z) : V unit :=
       match l with
       | [] => mret tt
       | k :: l' => map_kstack k_pagetable k;; pool l'
       end) kstacks;;
    mret k_pagetable.

End vmm.
End Vmm.
