(* ===== verification/PtInv.v ===== *)
(** The page-table invariant.

    [pt_ok m root t]: the tables are the tree [t], from index paths to table
    pages; an upper entry is the directory entry of the child in [t] or is
    invalid.  The address space such a tree represents is [leaf m t], the last
    level entry of each virtual address (0 where the table is missing). *)

From Stdlib Require Import ZArith Lia.
From stdpp Require Import base numbers gmap list.
From S2P Require Import Prelude Page Mem Tiling Pmm PmmThm PageTable.
Import Pmm PmmThm PT.

Set Default Goal Selector "!".
Open Scope Z_scope.

(** * What the page-table code relies on of a port *)

Class PortLaws `{Port} : Type := {
  port_pte_laws :: PteLaws;
  (** base of the window through which the kernel sees physical memory *)
  window : Z;
  window_range : 0 ≤ window ∧ window mod 4096 = 0 ∧ window + 2 ^ 57 < 2 ^ 64;
  vir_low : ∀ x, 0 ≤ x < 2 ^ 56 → to_vir x = window + x;
  vir_high : ∀ x, 0 ≤ x < 2 ^ 56 → to_vir (window + x) = window + x;
  phy_high : ∀ x, 0 ≤ x < 2 ^ 56 → to_phy (window + x) = x;
  ptr_high : ∀ x, 0 ≤ x < 2 ^ 56 → pte_ptr (window + x) = window + x;
  (** virtual addresses the levels distinguish *)
  va_bits : Z;
  va_bits_range : 12 ≤ va_bits ≤ 48;
  levels_range : ∀ f va, f ∈ upper_levels → 0 ≤ va → 0 ≤ f va < 512;
  levels_page : ∀ f va, f ∈ upper_levels → 0 ≤ va → f va = f (va / 4096 * 4096);
  levels_inj : ∀ va vb, 0 ≤ va < 2 ^ va_bits → 0 ≤ vb < 2 ^ va_bits →
    (λ f, f va) <$> upper_levels = (λ f, f vb) <$> upper_levels → pt_num va = pt_num vb →
    va / 4096 = vb / 4096;
  (** the flags the manager maps user pages with *)
  user_flags_ok : ∀ f, f ∈ [map_data_page_flags; map_code_page_flags; Z.lor map_data_page_flags map_code_page_flags] →
    let g := Z.lor (Z.lor f valid_flag) user_plv_flag in
    0 ≤ g < 2 ^ 64 ∧ get_flags g = g ∧ is_valid g = true ∧ is_dir_page g = false ∧ is_super_plv g = false;
  get_flags_ok : ∀ d, 0 ≤ d < 2 ^ 64 → 0 ≤ get_flags d < 2 ^ 64 ∧ get_flags (get_flags d) = get_flags d;
  (** withdrawing user access *)
  set_super_ok : ∀ d, 0 ≤ d < 2 ^ 64 → 0 ≤ set_super_plv d < 2 ^ 64 ∧ is_super_plv (set_super_plv d) = true ∧
    is_valid (set_super_plv d) = is_valid d ∧ to_pa (set_super_plv d) = to_pa d
}.

Lemma div_div_4096 x n : 12 ≤ n → x / 2 ^ n = x / 4096 / 2 ^ (n - 12).
Proof.
  intros Hn. change 4096 with (2 ^ 12).
  rewrite Z.div_div by (try apply Z.pow_nonzero; try apply Z.pow_pos_nonneg; lia).
  rewrite <- Z.pow_add_r by lia. do 2 f_equal. lia.
Qed.

Lemma page_field va n : 12 ≤ n → va / 2 ^ n mod 512 = va / 4096 * 4096 / 2 ^ n mod 512.
Proof. intros Hn. rewrite !(div_div_4096 _ n Hn). by rewrite (Z.div_mul (va / 4096)) by lia. Qed.

Lemma not64_bit k i : 0 ≤ k < 2 ^ 64 → 0 ≤ i → Z.testbit (not64 k) i = (i <? 64) && negb (Z.testbit k i).
Proof.
  intros Hk Hi. unfold not64. change U64_MAX with (Z.ones 64). rewrite Z.sub_nocarry_ldiff.
  - rewrite Z.ldiff_spec, Z.testbit_ones by lia. f_equal. zbool; (lia || done).
  - apply Z.bits_inj'. intros j Hj. rewrite Z.ldiff_spec, Z.testbit_ones, Z.testbit_0_l by lia.
    destruct (Z.lt_ge_cases j 64).
    + rewrite (proj2 (Z.leb_le 0 j)), (proj2 (Z.ltb_lt j 64)) by lia. by rewrite andb_false_r.
    + by rewrite (testbit_above k 64) by lia.
Qed.

(** Clearing bits outside a mask does not change the masked bits. *)
Lemma land_clear d k m : 0 ≤ d < 2 ^ 64 → 0 ≤ k < 2 ^ 64 → Z.land k m = 0 →
  Z.land (Z.land d (not64 k)) m = Z.land d m.
Proof.
  intros Hd Hk Hkm. apply Z.bits_inj'. intros i Hi. rewrite !Z.land_spec.
  destruct (Z.testbit d i) eqn:Ed; [|done]. destruct (Z.testbit m i) eqn:Em; [|by rewrite !andb_false_r].
  destruct (Z.lt_ge_cases i 64) as [Hi64|]; [|by rewrite (testbit_above d 64) in Ed by lia].
  assert (Z.testbit k i = false) as Ek.
  { apply (f_equal (λ z, Z.testbit z i)) in Hkm. rewrite Z.land_spec, Em, Z.testbit_0_l, andb_true_r in Hkm. done. }
  rewrite not64_bit, Ek by done. zbool; (lia || done).
Qed.

Lemma land_clear_self d k : 0 ≤ k < 2 ^ 64 → Z.land (Z.land d (not64 k)) k = 0.
Proof.
  intros Hk. apply Z.bits_inj'. intros i Hi. rewrite !Z.land_spec, Z.testbit_0_l, not64_bit by done.
  destruct (Z.testbit k i); [|by rewrite andb_false_r]. by rewrite !andb_false_r.
Qed.

Lemma land_not64_range d k : 0 ≤ d < 2 ^ 64 → 0 ≤ k < 2 ^ 64 → 0 ≤ Z.land d (not64 k) < 2 ^ 64.
Proof. intros Hd Hk. rewrite Z.land_comm. apply land_bound; [lia| |done]. unfold not64, U64_MAX. lia. Qed.

#[export] Instance riscv_port_laws : PortLaws (H := riscv_port).
Proof.
  refine (@Build_PortLaws riscv_port RiscvLaws.riscv_laws 0 _ _ _ _ _ 39 _ _ _ _ _ _ _).
  - split_and!; done.
  - intros x Hx. cbn [to_vir port_hal riscv_port Riscv.riscv_pte]. lia.
  - intros x Hx. cbn [to_vir port_hal riscv_port Riscv.riscv_pte]. lia.
  - intros x Hx. cbn [to_phy port_hal riscv_port Riscv.riscv_pte]. lia.
  - intros x Hx. cbn [pte_ptr riscv_port]. lia.
  - lia.
  - intros f va Hf Hva. cbn in Hf. rewrite !elem_of_cons in Hf.
    destruct Hf as [->|[->|Hf]]; [| |by apply elem_of_nil in Hf];
      rewrite ?pud_num_eq, ?pmd_num_eq by done; apply Z.mod_pos_bound; lia.
  - intros f va Hf Hva. cbn in Hf. rewrite !elem_of_cons in Hf.
    assert (0 ≤ va / 4096 * 4096) by (Z.div_mod_to_equations; lia).
    destruct Hf as [->|[->|Hf]]; [| |by apply elem_of_nil in Hf];
      rewrite ?pud_num_eq, ?pmd_num_eq by done; apply page_field; lia.
  - intros va vb Ha Hb E Ep. cbn in E.
    apply cons_inv in E as [E1 E]. apply cons_inv in E as [E2 _].
    rewrite !pud_num_eq in E1 by lia. rewrite !pmd_num_eq in E2 by lia. rewrite !pt_num_eq in Ep by lia.
    change (2 ^ 39) with 549755813888 in *. change (2 ^ 30) with 1073741824 in *.
    change (2 ^ 21) with 2097152 in *. change (2 ^ 12) with 4096 in *.
    Z.div_mod_to_equations. lia.
  - intros f Hf. cbn in Hf. rewrite !elem_of_cons in Hf.
    destruct Hf as [->|[->|[->|Hf]]]; [| | |by apply elem_of_nil in Hf]; vm_compute; split_and!; done.
  - intros d Hd. cbn [get_flags port_hal riscv_port Riscv.riscv_pte]. split; [|by rewrite <- Z.land_assoc, Z.land_diag].
    apply land_bound; [lia..|]. vm_compute. by split.
  - intros d Hd. cbn [set_super_plv is_super_plv is_valid to_pa port_hal riscv_port Riscv.riscv_pte].
    split_and!; [apply land_not64_range; [done|vm_compute; by split]..| | |].
    + apply Z.eqb_eq, land_clear_self. vm_compute. by split.
    + by rewrite land_clear by (done || vm_compute; by split).
    + enough (Z.shiftr (Z.land d (not64 Riscv.pte_user_m)) 10 = Z.shiftr d 10) as -> by done.
      apply Z.bits_inj'. intros i Hi. rewrite !Z.shiftr_spec, Z.land_spec, not64_bit by (lia || vm_compute; by split).
      destruct (Z.testbit d (i + 10)) eqn:Ed; [|done].
      assert (i + 10 < 64) by (destruct (Z.lt_ge_cases (i + 10) 64); [done|]; by rewrite (testbit_above d 64) in Ed by lia).
      change Riscv.pte_user_m with (2 ^ 4). rewrite Z.pow2_bits_false by lia. zbool; (lia || done).
Defined.

#[export] Instance loongarch_port_laws : PortLaws (H := loongarch_port).
Proof.
  assert (∀ x, 0 ≤ x < 2 ^ 56 → Z.land x (not64 Loongarch.dmwin_mask) = x) as Hlow.
  { intros x Hx. change (not64 Loongarch.dmwin_mask) with (Z.ones 60). rewrite Z.land_ones by lia.
    apply Z.mod_small. lia. }
  assert (∀ x, 0 ≤ x < 2 ^ 56 → Z.land (Loongarch.win_0 + x) (not64 Loongarch.dmwin_mask) = x) as Hhigh.
  { intros x Hx. change (not64 Loongarch.dmwin_mask) with (Z.ones 60). rewrite Z.land_ones by lia.
    change Loongarch.win_0 with (9 * 2 ^ 60). rewrite Z.add_comm, Z.mod_add by lia. apply Z.mod_small. lia. }
  assert (∀ x, 0 ≤ x < 2 ^ 56 → Z.lor x Loongarch.win_0 = Loongarch.win_0 + x) as Hor.
  { intros x Hx. rewrite Z.add_comm. apply lor_disjoint_add. rewrite Z.land_comm.
    apply (land_high_low _ _ 60); [lia|done|lia]. }
  refine (@Build_PortLaws loongarch_port LoongarchLaws.loongarch_laws Loongarch.win_0 _ _ _ _ _ 48 _ _ _ _ _ _ _).
  - vm_compute. split_and!; done.
  - intros x Hx. cbn. rewrite Hlow, Hor; done.
  - intros x Hx. cbn. rewrite Hhigh, Hor; done.
  - intros x Hx. cbn. by rewrite Hhigh.
  - intros x Hx. cbn. rewrite Hhigh, Hor; done.
  - lia.
  - intros f va Hf Hva. cbn in Hf. rewrite !elem_of_cons in Hf.
    destruct Hf as [->|[->|[->|Hf]]]; [| | |by apply elem_of_nil in Hf];
      rewrite ?pgd_num_eq, ?pud_num_eq, ?pmd_num_eq by done; apply Z.mod_pos_bound; lia.
  - intros f va Hf Hva. cbn in Hf. rewrite !elem_of_cons in Hf.
    assert (0 ≤ va / 4096 * 4096) by (Z.div_mod_to_equations; lia).
    destruct Hf as [->|[->|[->|Hf]]]; [| | |by apply elem_of_nil in Hf];
      rewrite ?pgd_num_eq, ?pud_num_eq, ?pmd_num_eq by done; apply page_field; lia.
  - intros va vb Ha Hb E Ep. cbn in E. apply cons_inv in E as [E0 E].
    apply cons_inv in E as [E1 E]. apply cons_inv in E as [E2 _]. rewrite !pgd_num_eq in E0 by lia.
    rewrite !pud_num_eq in E1 by lia. rewrite !pmd_num_eq in E2 by lia. rewrite !pt_num_eq in Ep by lia.
    change (2 ^ 48) with 281474976710656 in *. change (2 ^ 39) with 549755813888 in *.
    change (2 ^ 30) with 1073741824 in *. change (2 ^ 21) with 2097152 in *. change (2 ^ 12) with 4096 in *.
    Z.div_mod_to_equations. lia.
  - intros f Hf. cbn in Hf. rewrite !elem_of_cons in Hf.
    destruct Hf as [->|[->|[->|Hf]]]; [| | |by apply elem_of_nil in Hf]; vm_compute; split_and!; done.
  - intros d Hd. cbn [get_flags port_hal loongarch_port Loongarch.loongarch_pte]. split; [|by rewrite <- Z.land_assoc, Z.land_diag].
    apply land_bound; [lia..|]. vm_compute. by split.
  - intros d Hd. cbn [set_super_plv is_super_plv is_valid to_pa port_hal loongarch_port Loongarch.loongarch_pte].
    split_and!; [apply land_not64_range; [done|vm_compute; by split]..| | |].
    + apply Z.eqb_eq. apply land_clear_self. vm_compute. by split.
    + by rewrite land_clear by (done || vm_compute; by split).
    + by rewrite land_clear by (done || vm_compute; by split).
Defined.

Module PtInv.

Section inv.
Context `{PL : PortLaws}.

Lemma va_limit : 0 < 2 ^ va_bits ≤ 2 ^ 48.
Proof.
  pose proof va_bits_range. split; [apply pow2_pos|apply pow2_mono]; lia.
Qed.

(** ** Pages and entries *)

(** A page of memory as the kernel addresses it. *)
Definition kpage (b : Z) : Prop := 0 < b ∧ window ≤ b ∧ b + 4096 ≤ window + 2 ^ 56 ∧ b mod 4096 = 0.

Definition slot (b i : Z) : Z := b + 8 * i.

(** The entry that maps page [b] with flags [f]. *)
Definition entry (b f : Z) : Z := set_data (Z.lor (to_phy b) f).
Definition flags_ok (f : Z) : Prop := 0 ≤ f < 2 ^ 64 ∧ get_flags f = f.

Lemma kpage_frame b : kpage b → frame (to_phy b) ∧ to_vir (to_phy b) = b ∧ to_phy b = b - window.
Proof.
  intros (H0 & Hw & Ht & Ha). destruct window_range as (? & Hwa & ?).
  assert (to_phy b = b - window) as E.
  { rewrite <- (phy_high (b - window)) by lia. f_equal. lia. }
  rewrite E. split_and!; [split; [lia|]|rewrite vir_low; lia|done].
  apply Z.mod_divide in Ha as [x Hx]; [|lia]. apply Z.mod_divide in Hwa as [y Hy]; [|lia].
  rewrite Hx, Hy, <- Z.mul_sub_distr_r. by apply Z.mod_mul.
Qed.

Lemma round_frame b : kpage b → page_round_down (to_phy b) = to_phy b.
Proof.
  intros Hb. destruct (kpage_frame b Hb) as ([Hr Ha] & _). rewrite page_round_down_eq by lia.
  Z.div_mod_to_equations; lia.
Qed.

Lemma get_pte_slot b i : kpage b → 0 ≤ i < 512 → get_pte b i = slot b i.
Proof.
  intros (H0 & Hw & Ht & Ha) Hi. destruct window_range as (? & _ & ?). unfold get_pte, slot.
  rewrite (wrap64_small (8 * i)), wrap64_small by lia.
  replace (b + 8 * i) with (window + (b - window + 8 * i)) by lia. apply ptr_high. lia.
Qed.

Lemma slot_nonzero b i : kpage b → 0 ≤ i < 512 → slot b i ≠ 0.
Proof. unfold kpage, slot. lia. Qed.

(** Slots of distinct pages, or distinct slots of a page, do not overlap. *)
Lemma slot_disjoint b i c j : b mod 4096 = 0 → c mod 4096 = 0 → 0 ≤ i < 512 → 0 ≤ j < 512 →
  b ≠ c ∨ i ≠ j → slot b i + 8 ≤ slot c j ∨ slot c j + 8 ≤ slot b i.
Proof. unfold slot. intros Hb Hc Hi Hj Hne. Z.div_mod_to_equations. lia. Qed.

Lemma entry_range b f : kpage b → flags_ok f → 0 ≤ entry b f < 2 ^ 64.
Proof.
  intros Hb [Hf _]. destruct (kpage_frame b Hb) as ([Hr _] & _). apply pte_range.
  apply lor_bound; lia.
Qed.

Lemma entry_pa b f : kpage b → flags_ok f → to_vir (to_pa (entry b f)) = b.
Proof.
  intros Hb [Hf E]. destruct (kpage_frame b Hb) as (Hr & Hv & _). unfold entry. by rewrite pte_pa.
Qed.

Lemma entry_flags b f : kpage b → flags_ok f → get_flags (entry b f) = f.
Proof. intros Hb [Hf E]. destruct (kpage_frame b Hb) as (Hr & _). unfold entry. by rewrite pte_flags. Qed.

Lemma entry_valid b f : kpage b → flags_ok f → is_valid (entry b f) = is_valid f.
Proof.
  intros Hb Hf. pose proof (entry_range b f Hb Hf). rewrite pte_valid_flags by lia. by rewrite entry_flags.
Qed.

Lemma entry_dir b f : kpage b → flags_ok f → is_dir_page (entry b f) = is_dir_page f.
Proof.
  intros Hb Hf. pose proof (entry_range b f Hb Hf). rewrite pte_dir_flags by lia. by rewrite entry_flags.
Qed.

Lemma entry_super b f : kpage b → flags_ok f → is_super_plv (entry b f) = is_super_plv f.
Proof.
  intros Hb Hf. pose proof (entry_range b f Hb Hf). rewrite pte_super_flags by lia. by rewrite entry_flags.
Qed.

Lemma dir_flags_ok : flags_ok map_dir_page_flags.
Proof. destruct pte_dir_ok as (? & ? & _). by split. Qed.

Abbreviation dir_entry b := (entry b map_dir_page_flags).

Lemma dir_entry_valid b : kpage b → is_valid (dir_entry b) = true.
Proof. intros Hb. rewrite entry_valid by (auto using dir_flags_ok). apply pte_dir_ok. Qed.

(** ** Trees of tables *)

Definition depth : nat := length upper_levels.
Definition path (va : Z) : list Z := (λ f, f va) <$> upper_levels.

Record pt_ok (m : mem) (root : Z) (t : gmap (list Z) Z) : Prop := {
  pt_root : t !! [] = Some root;
  pt_page : ∀ p b, t !! p = Some b → kpage b;
  pt_inj : ∀ p q b, t !! p = Some b → t !! q = Some b → p = q;
  pt_len : ∀ p b, t !! p = Some b → (length p ≤ depth)%nat;
  pt_up : ∀ p i b, t !! (p ++ [i]) = Some b → 0 ≤ i < 512 ∧ is_Some (t !! p);
  pt_down : ∀ p b0 i, t !! p = Some b0 → (length p < depth)%nat → 0 ≤ i < 512 →
    match t !! (p ++ [i]) with
    | Some b => load64 m (slot b0 i) = dir_entry b
    | None => is_valid (load64 m (slot b0 i)) = false
    end
}.

(** The address space. *)
Definition leaf (m : mem) (t : gmap (list Z) Z) (va : Z) : Z :=
  match t !! path va with
  | Some b => load64 m (slot b (pt_num va))
  | None => 0
  end.

(** [x] is a byte of one of the tables. *)
Definition in_tables (t : gmap (list Z) Z) (x : Z) : Prop :=
  ∃ p b, t !! p = Some b ∧ b ≤ x < b + 4096.

Lemma pt_num_range va : 0 ≤ va → 0 ≤ pt_num va < 512.
Proof. intros. rewrite pt_num_eq by done. apply Z.mod_pos_bound. lia. Qed.

Lemma length_path va : length (path va) = depth.
Proof. apply length_fmap. Qed.

Lemma pt_ok_ext m m' root t : pt_ok m root t →
  (∀ p b i, t !! p = Some b → (length p < depth)%nat → 0 ≤ i < 512 →
     load64 m' (slot b i) = load64 m (slot b i)) → pt_ok m' root t.
Proof.
  intros [Hr Hp Hi Hl Hu Hd] E. split; try done. intros p b0 i Hb Hlen Hir.
  rewrite (E p b0 i) by done. by apply Hd.
Qed.

(** Memory outside the tables does not matter. *)
Lemma slot_frame m m' root t p b i : pt_ok m root t → (∀ x, in_tables t x → byte_at m' x = byte_at m x) →
  t !! p = Some b → 0 ≤ i < 512 → load64 m' (slot b i) = load64 m (slot b i).
Proof.
  intros _ E Hb Hi. apply load64_ext. intros x Hx. apply E. exists p, b. unfold slot in Hx. split; [done|lia].
Qed.

Lemma pt_ok_frame m m' root t : pt_ok m root t → (∀ x, in_tables t x → byte_at m' x = byte_at m x) →
  pt_ok m' root t.
Proof.
  intros Hok E. apply (pt_ok_ext m); [done|]. intros p b i Hb _ Hi. by apply (slot_frame m m' root t p b i Hok E).
Qed.

Lemma leaf_frame m m' root t va : pt_ok m root t → (∀ x, in_tables t x → byte_at m' x = byte_at m x) →
  0 ≤ va → leaf m' t va = leaf m t va.
Proof.
  intros Hok E Hva. unfold leaf. destruct (t !! path va) as [b|] eqn:Hb; [|done].
  apply (slot_frame m m' root t (path va)); [done..|]. by apply pt_num_range.
Qed.

(** Writing a last-level entry changes the address space at its page only. *)
Lemma pt_ok_store_leaf m root t va b v : pt_ok m root t → t !! path va = Some b → 0 ≤ va →
  pt_ok (store64 (slot b (pt_num va)) v m) root t.
Proof.
  intros Hok Hb Hva. apply (pt_ok_ext m); [done|]. intros p c i Hc Hlen Hi.
  apply load64_store64_ne, slot_disjoint; [apply (pt_page _ _ _ Hok _ _ Hc)|apply (pt_page _ _ _ Hok _ _ Hb)|done|by apply pt_num_range|].
  left. intros ->. assert (p = path va) as -> by (by apply (pt_inj _ _ _ Hok p (path va) b)).
  rewrite length_path in Hlen. lia.
Qed.

Lemma path_page va va' : 0 ≤ va → 0 ≤ va' → va' / 4096 = va / 4096 → path va' = path va.
Proof.
  intros Hva Hva' E. apply list_fmap_ext. intros i f Hf%list_elem_of_lookup_2.
  by rewrite (levels_page f va'), (levels_page f va), E.
Qed.

Lemma pt_num_page va va' : 0 ≤ va → 0 ≤ va' → va' / 4096 = va / 4096 → pt_num va' = pt_num va.
Proof. intros Hva Hva' E. rewrite !pt_num_eq by lia. change (2 ^ 12) with 4096. by rewrite E. Qed.

(** Addresses of one page share the entry. *)
Lemma leaf_page m t va va' : 0 ≤ va → 0 ≤ va' → va' / 4096 = va / 4096 → leaf m t va' = leaf m t va.
Proof. intros Hva Hva' E. unfold leaf. by rewrite (path_page va va'), (pt_num_page va va'). Qed.

Lemma leaf_store m root t va b v va' : pt_ok m root t → t !! path va = Some b →
  0 ≤ va < 2 ^ va_bits → 0 ≤ va' < 2 ^ va_bits → 0 ≤ v < 2 ^ 64 →
  leaf (store64 (slot b (pt_num va)) v m) t va' =
    if decide (va' / 4096 = va / 4096) then v else leaf m t va'.
Proof.
  intros Hok Hb Hva Hva' Hv. unfold leaf. destruct (decide (va' / 4096 = va / 4096)) as [E|E].
  - rewrite (path_page va va'), (pt_num_page va va') by (done || lia).
    by rewrite Hb, load64_store64.
  - destruct (t !! path va') as [c|] eqn:Hc; [|done]. apply load64_store64_ne, slot_disjoint;
      [apply (pt_page _ _ _ Hok _ _ Hc)|apply (pt_page _ _ _ Hok _ _ Hb)|apply pt_num_range; lia..|].
    destruct (Z.eq_dec c b) as [->|]; [|by left]. right. intros En. apply E, levels_inj; [done..| |done].
    by apply (pt_inj _ _ _ Hok _ _ b).
Qed.

End inv.
End PtInv.
