(* ===== verification/PtWalk.v ===== *)
(** Walking page tables: what [walk] finds and what it adds. *)

From Stdlib Require Import ZArith Lia.
From stdpp Require Import base numbers gmap list.
From S2P Require Import Prelude Page Mem Pmm PmmThm PageTable PtInv.
Import Pmm PmmThm PT PtInv.

Set Default Goal Selector "!".
Open Scope Z_scope.

#[local] Opaque fill_words store64 load64.

Module PtWalk.

Section walk.
Context `{PL : PortLaws} {A : Type} `{PA : PageAllocatorLaws A}.
Implicit Types (σ : PhysicalMemoryManager A) (t : gmap (list Z) Z) (u : gmap Z Z).

(** Every table page is a block in use. *)
Definition tables_owned t u : Prop := ∀ p b, t !! p = Some b → is_Some (u !! b).

Record space σ lo hi u root t : Prop := {
  sp_pmm : pmm_rep σ lo hi u;
  sp_window : window ≤ lo ∧ hi ≤ window + 2 ^ 56;
  sp_pt : pt_ok (ram σ) root t;
  sp_own : tables_owned t u
}.

(** What an operation that may only add tables does. *)
Record grows σ u t σ' u' t' : Prop := {
  gr_tables : t ⊆ t';
  gr_used : u ⊆ u';
  gr_new : ∀ p b, t' !! p = Some b → t !! p = Some b ∨ u !! b = None;
  gr_src : ∀ b, is_Some (u' !! b) → is_Some (u !! b) ∨ ∃ p, t' !! p = Some b;
  gr_leaf : ∀ va, 0 ≤ va → leaf (ram σ') t' va = leaf (ram σ) t va;
  gr_mem : ∀ x, ¬ in_tables t' x → byte_at (ram σ') x = byte_at (ram σ) x
}.

Lemma in_tables_mono t t' x : t ⊆ t' → in_tables t x → in_tables t' x.
Proof. intros Hs (p & b & Hb & Hx). exists p, b. split; [|done]. by apply (lookup_weaken t). Qed.

Lemma grows_refl σ u t : grows σ u t σ u t.
Proof. split; auto. Qed.

Lemma grows_trans σ u t σ1 u1 t1 σ2 u2 t2 :
  grows σ u t σ1 u1 t1 → grows σ1 u1 t1 σ2 u2 t2 → grows σ u t σ2 u2 t2.
Proof.
  intros [T1 U1 N1 F1 L1 M1] [T2 U2 N2 F2 L2 M2]. split; [by etrans..| | | |].
  - intros p b Hb. destruct (N2 p b Hb) as [Hb1|Hb1]; [auto|]. right. by apply (lookup_weaken_None u u1).
  - intros b Hb. destruct (F2 b Hb) as [Hb1|Hb1]; [|by right]. destruct (F1 b Hb1) as [?|[p Hp]]; [by left|].
    right. exists p. by apply (lookup_weaken t1).
  - intros va Hva. by rewrite L2, L1.
  - intros x Hx. rewrite M2 by done. apply M1. intros Hx1. apply Hx. by apply (in_tables_mono t1).
Qed.

Lemma block_kpage σ lo hi u p n : pmm_rep σ lo hi u → window ≤ lo ∧ hi ≤ window + 2 ^ 56 →
  u !! p = Some n → kpage p.
Proof.
  intros [Ha _] [Hlo Hhi] Hp. destruct (pa_range _ _ _ _ p n Ha Hp) as (? & ? & ? & ? & ? & _).
  unfold kpage. lia.
Qed.

(** A path is present only if its prefixes are. *)
Lemma pt_prefix m root t p q : pt_ok m root t → is_Some (t !! (p ++ q)) → is_Some (t !! p).
Proof.
  intros Hok. induction q as [|i q IH] using rev_ind; [by rewrite app_nil_r|].
  intros [b Hb]. rewrite app_assoc in Hb. apply IH. apply (pt_up _ _ _ Hok _ _ _ Hb).
Qed.

Lemma path_split pre f post va : upper_levels = pre ++ f :: post →
  path va = ((λ g : Z → Z, g va) <$> pre) ++ [f va] ++ ((λ g : Z → Z, g va) <$> post).
Proof. intros E. unfold path. by rewrite E, fmap_app. Qed.

Lemma level_in pre f post : upper_levels = pre ++ f :: post → f ∈ upper_levels.
Proof. intros ->. apply elem_of_app. right. by left. Qed.

(** ** Without allocation *)

Lemma walk_upper_find σ root t pre levels b va : pt_ok (ram σ) root t → 0 ≤ va →
  upper_levels = pre ++ levels → t !! ((λ g : Z → Z, g va) <$> pre) = Some b →
  walk_upper levels b va false σ = match t !! path va with Some b' => Ret b' σ | None => Panic end.
Proof.
  intros Hok Hva. revert pre b. induction levels as [|f levels IH]; intros pre b Hl Hb.
  - rewrite app_nil_r in Hl. unfold path. by rewrite Hl, Hb.
  - cbn [walk_upper]. set (p := (λ g : Z → Z, g va) <$> pre) in *.
    pose proof (levels_range f va (level_in _ _ _ Hl) Hva) as Hi.
    assert (length p < depth)%nat as Hlen.
    { unfold p, depth. rewrite length_fmap, Hl, length_app. simpl. lia. }
    pose proof (pt_down _ _ _ Hok p b (f va) Hb Hlen Hi) as Hd.
    rewrite get_pte_slot by (done || by apply (pt_page _ _ _ Hok p)).
    unfold walk_to_next_level, load. unfold mbind at 1, M_bind at 1. mrun.
    destruct (t !! (p ++ [f va])) as [c|] eqn:Hc.
    + pose proof (pt_page _ _ _ Hok _ _ Hc) as Hk. rewrite Hd, dir_entry_valid by done. cbn.
      rewrite entry_pa by (done || apply dir_flags_ok). apply (IH (pre ++ [f])).
      * by rewrite <- app_assoc.
      * by rewrite fmap_app.
    + rewrite Hd. cbn. destruct (t !! path va) eqn:E; [|done].
      rewrite (path_split pre f levels va Hl), app_assoc in E.
      destruct (pt_prefix _ _ _ (p ++ [f va]) _ Hok (mk_is_Some _ _ E)) as [c Hc']. by rewrite Hc in Hc'.
Qed.

(** [walk] without allocation finds the entry, or stops the kernel when a
    table is missing. *)
Lemma walk_find σ root t va : pt_ok (ram σ) root t → 0 ≤ va →
  walk (mkPt root true) va false σ =
    match t !! path va with Some b => Ret (slot b (pt_num va)) σ | None => Panic end.
Proof.
  intros Hok Hva. unfold walk. cbn [_is_global _base_addr negb].
  pose proof (walk_upper_find σ root t [] upper_levels root va Hok Hva eq_refl (pt_root _ _ _ Hok)) as R.
  unfold mbind, M_bind. rewrite R. destruct (t !! path va) as [b|] eqn:Hb; [|done].
  rewrite get_pte_slot; [done|by apply (pt_page _ _ _ Hok _ _ Hb)|by apply pt_num_range].
Qed.

(** ** With allocation *)

Lemma page_apart b c x : b mod 4096 = 0 → c mod 4096 = 0 → b ≠ c → b ≤ x < b + 4096 → ¬ c ≤ x < c + 4096.
Proof. intros Hb Hc Hne Hx Hx'. Z.div_mod_to_equations. lia. Qed.

Section step.
Context σ lo hi u root t (S : space σ lo hi u root t).
Context (p : list Z) (b i : Z) (Hb : t !! p = Some b) (Hlen : (length p < depth)%nat)
  (Hi : 0 ≤ i < 512) (Hnone : t !! (p ++ [i]) = None).
Context (c k : Z) (a' : A) (Hc : u !! c = None) (R' : pa_rep a' lo hi (<[c := k]> u)).

Let t' := <[p ++ [i] := c]> t.
Let m' := store64 (slot b i) (entry c map_dir_page_flags) (fill_words 512 c 0 (fill_words 512 c 0 (ram σ))).

Lemma step_kpage : kpage c.
Proof.
  apply (block_kpage (mkPmm a' (ram σ)) lo hi (<[c := k]> u) c k).
  - split; [done|]. apply (sp_pmm _ _ _ _ _ _ S).
  - apply (sp_window _ _ _ _ _ _ S).
  - apply lookup_insert_eq.
Qed.

Lemma step_fresh q d : t !! q = Some d → d ≠ c.
Proof. intros Hq ->. destruct (sp_own _ _ _ _ _ _ S q c Hq) as [n Hn]. congruence. Qed.

Lemma step_byte x : byte_at m' x =
  if decide (slot b i ≤ x < slot b i + 8) then byte_at m' x
  else if decide (c ≤ x < c + 4096) then 0 else byte_at (ram σ) x.
Proof.
  destruct (decide _) as [Hx|Hx]; [done|]. unfold m'. rewrite store64_out by done. rewrite !fill_words_at.
  change (8 * Z.of_nat 512) with 4096. by destruct (decide (c ≤ x < c + 4096)).
Qed.

Lemma step_load_new j : 0 ≤ j < 512 → load64 m' (slot c j) = 0.
Proof.
  intros Hj. pose proof step_kpage as Hk. pose proof (pt_page _ _ _ (sp_pt _ _ _ _ _ _ S) _ _ Hb) as Hkb.
  pose proof (step_fresh p b Hb) as Hne.
  destruct (slot_disjoint b i c j) as [Hd|Hd]; [apply Hkb|apply Hk|done..|by left| |];
    (unfold m'; rewrite load64_store64_ne by lia); apply load64_zero; intros x Hx;
    rewrite !fill_words_at, decide_True; (done || unfold slot in Hx; lia).
Qed.

Lemma step_load_old q d j : t !! q = Some d → 0 ≤ j < 512 → q ≠ p ∨ j ≠ i →
  load64 m' (slot d j) = load64 (ram σ) (slot d j).
Proof.
  intros Hq Hj Hne. pose proof (sp_pt _ _ _ _ _ _ S) as Hok. pose proof step_kpage as Hk.
  pose proof (pt_page _ _ _ Hok _ _ Hb) as Hkb. pose proof (pt_page _ _ _ Hok _ _ Hq) as Hkd.
  unfold m'. rewrite load64_store64_ne.
  - apply load64_ext. intros x Hx. rewrite !fill_words_at, !decide_False; [done|..];
      (apply (page_apart d c); [apply Hkd|apply Hk|by apply (step_fresh q)|unfold slot in Hx; lia]).
  - apply slot_disjoint; [apply Hkd|apply Hkb|done..|]. destruct (Z.eq_dec d b) as [->|]; [|by left].
    right. assert (q = p) as -> by (by apply (pt_inj _ _ _ Hok q p b)). by destruct Hne.
Qed.

Lemma step_down q d j : t' !! q = Some d → (length q < depth)%nat → 0 ≤ j < 512 →
  match t' !! (q ++ [j]) with
  | Some e => load64 m' (slot d j) = entry e map_dir_page_flags
  | None => is_valid (load64 m' (slot d j)) = false
  end.
Proof.
  intros Hq Hql Hj. pose proof (sp_pt _ _ _ _ _ _ S) as Hok. unfold t' in *.
  destruct (decide (q = p ++ [i])) as [->|Hqn].
  - rewrite lookup_insert_eq in Hq. injection Hq as <-.
    rewrite lookup_insert_ne by (intros E%(f_equal length); rewrite !length_app in E; simpl in E; lia).
    destruct (t !! ((p ++ [i]) ++ [j])) as [e|] eqn:E.
    { destruct (pt_up _ _ _ Hok _ _ _ E) as [_ [? ?]]. congruence. }
    rewrite step_load_new by done. apply pte_zero_invalid.
  - rewrite lookup_insert_ne in Hq by done. destruct (decide (q ++ [j] = p ++ [i])) as [E|E].
    + apply app_inj_tail in E as [-> ->]. rewrite lookup_insert_eq.
      assert (d = b) as -> by congruence. unfold m'. apply load64_store64.
      apply entry_range; [apply step_kpage|apply dir_flags_ok].
    + rewrite lookup_insert_ne by done. rewrite (step_load_old q d j Hq Hj).
      { by apply (pt_down _ _ _ Hok). }
      destruct (decide (q = p)) as [->|]; [|by left]. right. by intros ->.
Qed.

Lemma step_pt_ok : pt_ok m' root t'.
Proof.
  pose proof (sp_pt _ _ _ _ _ _ S) as Hok. unfold t'. split.
  - rewrite lookup_insert_ne; [apply Hok|]. by destruct p.
  - intros q d [[_ <-]|[_ Hq]]%lookup_insert_Some; [apply step_kpage|by apply (pt_page _ _ _ Hok q)].
  - intros q r d [[<- <-]|[_ Hq]]%lookup_insert_Some [[<- Hr]|[_ Hr]]%lookup_insert_Some; [done| | |].
    + by apply step_fresh in Hr.
    + subst d. by apply step_fresh in Hq.
    + by apply (pt_inj _ _ _ Hok q r d).
  - intros q d [[<- _]|[_ Hq]]%lookup_insert_Some; [rewrite length_app; simpl; lia|by apply (pt_len _ _ _ Hok q d)].
  - intros q j d [[E _]|[_ Hq]]%lookup_insert_Some.
    + apply app_inj_tail in E as [-> ->]. split; [done|]. rewrite lookup_insert_ne; [by eexists|].
      intros E%(f_equal length). rewrite length_app in E. simpl in E. lia.
    + destruct (pt_up _ _ _ Hok _ _ _ Hq) as [Hj Hs]. split; [done|]. rewrite lookup_insert_is_Some'. auto.
  - intros q d j. apply step_down.
Qed.

Lemma step_grows : grows σ u t (mkPmm a' m') (<[c := k]> u) t'.
Proof.
  pose proof (sp_pt _ _ _ _ _ _ S) as Hok. pose proof step_kpage as Hk. unfold t'. split.
  - by apply insert_subseteq.
  - by apply insert_subseteq.
  - intros q d [[_ <-]|[_ Hq]]%lookup_insert_Some; auto.
  - intros d [e Hd]. apply lookup_insert_Some in Hd as [[<- _]|[_ Hd]]; [|left; by exists e].
    right. exists (p ++ [i]). apply lookup_insert_eq.
  - intros va Hva. cbn [ram]. unfold leaf. destruct (decide (p ++ [i] = path va)) as [E|E].
    + rewrite <- E, lookup_insert_eq, Hnone. by apply step_load_new, pt_num_range.
    + rewrite lookup_insert_ne by done. destruct (t !! path va) as [d|] eqn:Hd; [|done].
      apply (step_load_old (path va)); [done|by apply pt_num_range|]. left. intros Ep.
      rewrite <- Ep, length_path in Hlen. lia.
  - intros x Hx. cbn [ram]. rewrite step_byte, !decide_False; [done|..]; intros Hin; apply Hx.
    + exists (p ++ [i]), c. by rewrite lookup_insert_eq.
    + exists p, b. split; [|unfold slot in Hin; lia]. rewrite lookup_insert_ne; [done|].
      intros E%(f_equal length). rewrite length_app in E. simpl in E. lia.
Qed.

Lemma step_space : space (mkPmm a' m') lo hi (<[c := k]> u) root t'.
Proof.
  split; [split; [done|]|apply (sp_window _ _ _ _ _ _ S)|apply step_pt_ok|].
  - cbn [ram]. unfold m'. apply mem_ok_store64, fill_words_ok, fill_words_ok, (sp_pmm _ _ _ _ _ _ S).
  - unfold t'. intros q d [[_ <-]|[_ Hq]]%lookup_insert_Some.
    + rewrite lookup_insert_eq. by eexists.
    + rewrite lookup_insert_is_Some'. right. by apply (sp_own _ _ _ _ _ _ S q).
Qed.
End step.

(** One level: an existing table is entered, a missing one is added. *)
Lemma walk_next σ lo hi u root t p b i : space σ lo hi u root t → t !! p = Some b →
  (length p < depth)%nat → 0 ≤ i < 512 →
  (walk_to_next_level (slot b i) true σ = Ret None σ ∧ supply 1 (_allocator σ) = false) ∨
  ∃ c σ' u' t', walk_to_next_level (slot b i) true σ = Ret (Some c) σ' ∧
    space σ' lo hi u' root t' ∧ grows σ u t σ' u' t' ∧ t' !! (p ++ [i]) = Some c ∧ spends 1 σ σ'.
Proof.
  intros S Hb Hlen Hi. pose proof (sp_pt _ _ _ _ _ _ S) as Hok.
  pose proof (pt_down _ _ _ Hok p b i Hb Hlen Hi) as Hd.
  unfold walk_to_next_level. mstep (eq_refl : load (slot b i) σ = Ret (load64 (ram σ) (slot b i)) σ).
  destruct (t !! (p ++ [i])) as [c|] eqn:Hc.
  - right. exists c, σ, u, t. rewrite Hd, dir_entry_valid by (by apply (pt_page _ _ _ Hok _ _ Hc)).
    rewrite entry_pa by (apply dir_flags_ok || by apply (pt_page _ _ _ Hok _ _ Hc)).
    split_and!; [done..|apply grows_refl|done|apply spends_refl].
  - rewrite Hd. cbn [negb].
    destruct (alloc_page_run σ lo hi u (sp_pmm _ _ _ _ _ _ S)) as [(c & k & σ1 & R & Hk & Hc0 & Hcu & Hr & Em)|R];
      [right|left; split; [by mstep R|by apply (alloc_page_short _ _ R)]].
    pose proof (alloc_page_spends _ _ _ R Hc0) as Hs. mstep R. rewrite (proj2 (Z.eqb_neq c 0)) by done.
    destruct σ1 as [a' m1]. cbn [ram] in Em. subst m1. destruct Hr as [Hr _]. cbn [_allocator] in Hr.
    pose proof (step_kpage σ lo hi u root t S c k a' Hr) as Hkc.
    eexists c, _, _, _. split_and!.
    + unfold clear_page. mstep (fill_junk_run c (mkPmm a' (fill_words 512 c 0 (ram σ)))).
      rewrite round_frame by done. reflexivity.
    + by apply (step_space σ lo hi u root t S p b i Hb Hlen Hi Hc c k a').
    + by apply (step_grows σ lo hi u root t S p b i Hb Hlen Hi Hc c k a').
    + apply lookup_insert_eq.
    + exact Hs.
Qed.

Lemma walk_upper_alloc levels pre b va σ lo hi u root t : space σ lo hi u root t → 0 ≤ va →
  upper_levels = pre ++ levels → t !! ((λ g : Z → Z, g va) <$> pre) = Some b →
  (walk_upper levels b va true σ = Panic ∧ supply (length levels) (_allocator σ) = false) ∨
  ∃ c σ' u' t', walk_upper levels b va true σ = Ret c σ' ∧
    space σ' lo hi u' root t' ∧ grows σ u t σ' u' t' ∧ t' !! path va = Some c ∧
    spends (length levels) σ σ'.
Proof.
  intros S Hva. revert pre b σ u t S. induction levels as [|f levels IH]; intros pre b σ u t S Hl Hb.
  - right. exists b, σ, u, t. rewrite app_nil_r in Hl.
    split_and!; [done..|apply grows_refl| |apply spends_refl]. unfold path. by rewrite Hl.
  - set (p := (λ g : Z → Z, g va) <$> pre) in *.
    pose proof (levels_range f va (level_in _ _ _ Hl) Hva) as Hi.
    assert (length p < depth)%nat as Hlen.
    { unfold p, depth. rewrite length_fmap, Hl, length_app. simpl. lia. }
    cbn [walk_upper]. rewrite get_pte_slot by (done || by apply (pt_page _ _ _ (sp_pt _ _ _ _ _ _ S) p)).
    destruct (walk_next σ lo hi u root t p b (f va) S Hb Hlen Hi) as [[R Hs]|(c & σ1 & u1 & t1 & R & S1 & G1 & Hc & Hs)];
      [left; split; [by mstep R|apply (supply_false 1); [cbn; lia|done]]|].
    mstep R. cbn [length].
    destruct (IH (pre ++ [f]) c σ1 u1 t1 S1) as [[R2 Hs2]|(d & σ2 & u2 & t2 & R2 & S2 & G2 & Hd & Hs2)].
    + by rewrite <- app_assoc.
    + by rewrite fmap_app.
    + left. split; [done|]. by apply (spends_short 1 _ σ σ1).
    + right. exists d, σ2, u2, t2. split_and!; [done..|by eapply grows_trans|done|].
      by apply (spends_trans 1 _ σ σ1).
Qed.

(** [walk] with allocation returns the entry of [va] in a tree that has grown
    at most by fresh empty tables, or stops because the allocator cannot serve
    one page for each level. *)
Lemma walk_alloc σ lo hi u root t va : space σ lo hi u root t → 0 ≤ va →
  (walk (mkPt root true) va true σ = Panic ∧ supply depth (_allocator σ) = false) ∨
  ∃ b σ' u' t', walk (mkPt root true) va true σ = Ret (slot b (pt_num va)) σ' ∧
    space σ' lo hi u' root t' ∧ grows σ u t σ' u' t' ∧ t' !! path va = Some b ∧ spends depth σ σ'.
Proof.
  intros S Hva. unfold walk. cbn [_is_global _base_addr negb].
  destruct (walk_upper_alloc upper_levels [] root va σ lo hi u root t S Hva eq_refl
    (pt_root _ _ _ (sp_pt _ _ _ _ _ _ S))) as [[R Hs]|(b & σ1 & u1 & t1 & R & S1 & G & Hb & Hs)].
  - left. split; [|done]. unfold mbind, M_bind. by rewrite R.
  - right. exists b, σ1, u1, t1. split_and!; [|done..]. mstep R. unfold mret, M_ret. f_equal.
    apply get_pte_slot; [by apply (pt_page _ _ _ (sp_pt _ _ _ _ _ _ S1) _ _ Hb)|by apply pt_num_range].
Qed.

(** The whole address space as [walk_addr] sees it. *)
Definition resolve (d va : Z) : Z :=
  if negb (is_valid d) then 0 else if is_super_plv d then 0
  else Z.lor (to_pa d) (Z.land va (page_size - 1)).

Lemma walk_addr_find σ root t va : pt_ok (ram σ) root t → 0 ≤ va → is_Some (t !! path va) →
  walk_addr (mkPt root true) va σ = Ret (resolve (leaf (ram σ) t va) va) σ.
Proof.
  intros Hok Hva [b Hb]. unfold walk_addr. pose proof (walk_find σ root t va Hok Hva) as R. rewrite Hb in R.
  mstep R. rewrite (proj2 (Z.eqb_neq _ 0)) by (apply slot_nonzero; [by apply (pt_page _ _ _ Hok _ _ Hb)|by apply pt_num_range]).
  mstep (eq_refl : load (slot b (pt_num va)) σ = Ret (load64 (ram σ) (slot b (pt_num va))) σ).
  unfold resolve, leaf. rewrite Hb. set (d := load64 _ _). by destruct (is_valid d), (is_super_plv d).
Qed.

(** Writing a last-level entry. *)
Lemma store_leaf σ lo hi u root t va b v : space σ lo hi u root t → t !! path va = Some b → 0 ≤ va →
  space (on_ram (store64 (slot b (pt_num va)) v) σ) lo hi u root t.
Proof.
  intros [[Ha Hm] Hw Hok Ho] Hb Hva. split; [split; [done|]|done| |done].
  - cbn. by apply mem_ok_store64.
  - cbn. by apply pt_ok_store_leaf.
Qed.

End walk.
End PtWalk.
