(* ===== verification/VmmMap.v ===== *)
(** Mapping and unmapping: what [map_pages], [vm_unmap] and [vm_create] do to
    an address space. *)

From Stdlib Require Import ZArith Lia.
From stdpp Require Import base numbers gmap list.
From S2P Require Import Prelude Page Mem Pmm PmmThm PageTable PtInv PtWalk Vmm.
Import Pmm PmmThm PT PtInv PtWalk Vmm.

Set Default Goal Selector "!".
Open Scope Z_scope.

#[local] Opaque fill_words store64 load64.

Module VmmMap.

(** A global page table. *)
Abbreviation pt_at root := (mkPt root true).

Section map.
Context `{PL : PortLaws} {A : Type} `{PA : PageAllocatorLaws A}.
Implicit Types (σ : PhysicalMemoryManager A) (t : gmap (list Z) Z) (u : gmap Z Z).

(** A user virtual address. *)
Definition uva (va : Z) : Prop := 0 ≤ va < 2 ^ va_bits.

(** Tables may be added, and only tables are written. *)
Record adds σ u t σ' u' t' : Prop := {
  ad_tables : t ⊆ t';
  ad_used : u ⊆ u';
  ad_new : ∀ p b, t' !! p = Some b → t !! p = Some b ∨ u !! b = None;
  ad_src : ∀ b, is_Some (u' !! b) → is_Some (u !! b) ∨ ∃ p, t' !! p = Some b;
  ad_mem : ∀ x, ¬ in_tables t' x → byte_at (ram σ') x = byte_at (ram σ) x
}.

Lemma adds_refl σ u t : adds σ u t σ u t.
Proof. split; auto. Qed.

Lemma grows_adds σ u t σ' u' t' : grows σ u t σ' u' t' → adds σ u t σ' u' t'.
Proof. by intros [? ? ? ? _ ?]. Qed.

Lemma adds_trans σ u t σ1 u1 t1 σ2 u2 t2 :
  adds σ u t σ1 u1 t1 → adds σ1 u1 t1 σ2 u2 t2 → adds σ u t σ2 u2 t2.
Proof.
  intros [T1 U1 N1 F1 M1] [T2 U2 N2 F2 M2]. split; [by etrans..| | |].
  - intros p b Hb. destruct (N2 p b Hb) as [Hb1|Hb1]; [auto|]. right. by apply (lookup_weaken_None u u1).
  - intros b Hb. destruct (F2 b Hb) as [Hb1|Hb1]; [|by right]. destruct (F1 b Hb1) as [?|[p Hp]]; [by left|].
    right. exists p. by apply (lookup_weaken t1).
  - intros x Hx. rewrite M2 by done. apply M1. intros Hx1. apply Hx. by apply (in_tables_mono t1).
Qed.

Lemma adds_leaf σ u t va b v : t !! path va = Some b → 0 ≤ va →
  adds σ u t (on_ram (store64 (slot b (pt_num va)) v) σ) u t.
Proof.
  intros Hb Hva. pose proof (pt_num_range va Hva). split; auto.
  intros x Hx. cbn. apply store64_out. intros Hin. apply Hx. exists (path va), b. split; [done|].
  unfold slot in Hin. lia.
Qed.

(** Another tree of tables is not affected. *)
Lemma adds_other σ u t σ' u' t' root2 t2 : adds σ u t σ' u' t' → pt_ok (ram σ) root2 t2 →
  (∀ p b, t' !! p = Some b → kpage b) → tables_owned t2 u →
  (∀ p q b c, t !! p = Some b → t2 !! q = Some c → b ≠ c) →
  ∀ x, in_tables t2 x → byte_at (ram σ') x = byte_at (ram σ) x.
Proof.
  intros Ad Hok2 Hk Ho2 Hdis x (q & c & Hc & Hx). apply (ad_mem _ _ _ _ _ _ Ad). intros (p & b & Hb & Hx').
  assert (b ≠ c) as Hne.
  { destruct (ad_new _ _ _ _ _ _ Ad p b Hb) as [Hb'|Hb']; [by apply (Hdis p q)|].
    intros ->. destruct (Ho2 q c Hc) as [n Hn]. congruence. }
  apply (page_apart b c x); [apply (Hk p b Hb)|apply (pt_page _ _ _ Hok2 q c Hc)|done..].
Qed.

(** The address space with [n] pages from [a] mapped to the pages from [pa]. *)
Definition mapped (L : Z → Z) (a n pa f va : Z) : Z :=
  if decide (a ≤ va < a + 4096 * n) then entry (pa + (va / 4096 * 4096 - a)) f else L va.

Definition same_space (L L' : Z → Z) : Prop := ∀ va, uva va → L' va = L va.

Lemma mapped_step L a n pa f va : a mod 4096 = 0 → 0 ≤ n →
  mapped (λ v, if decide (v / 4096 = a / 4096) then entry pa f else L v) (a + 4096) n (pa + 4096) f va =
  mapped L a (n + 1) pa f va.
Proof.
  intros Ha Hn. unfold mapped. destruct (decide (a + 4096 ≤ va < a + 4096 + 4096 * n)) as [H1|H1].
  - rewrite decide_True by lia. f_equal. lia.
  - destruct (decide (va / 4096 = a / 4096)) as [E|E].
    + rewrite decide_True by (Z.div_mod_to_equations; lia). f_equal. rewrite E. Z.div_mod_to_equations; lia.
    + rewrite decide_False; [done|]. Z.div_mod_to_equations; lia.
Qed.

Lemma mapped_ext L L' a n pa f va : L' va = L va → mapped L' a n pa f va = mapped L a n pa f va.
Proof. unfold mapped. by intros ->. Qed.

(** One page. *)
Lemma map_one σ lo hi u root t a pa f : space σ lo hi u root t → uva a → kpage pa → flags_ok f →
  (walk (pt_at root) a true σ = Panic ∧ supply depth (_allocator σ) = false) ∨
  ∃ pte σ1 u1 t1, walk (pt_at root) a true σ = Ret pte σ1 ∧ pte ≠ 0 ∧ space σ1 lo hi u1 root t1 ∧
    adds σ u t σ1 u1 t1 ∧ load64 (ram σ1) pte = leaf (ram σ) t a ∧
    (∀ va, uva va → leaf (ram σ1) t1 va = leaf (ram σ) t va) ∧ spends depth σ σ1 ∧
    let σ2 := on_ram (store64 pte (entry pa f)) σ1 in
    space σ2 lo hi u1 root t1 ∧ adds σ u t σ2 u1 t1 ∧
    ∀ va, uva va → leaf (ram σ2) t1 va =
      if decide (va / 4096 = a / 4096) then entry pa f else leaf (ram σ) t va.
Proof.
  intros S Ha Hp Hf. destruct (walk_alloc σ lo hi u root t a S (proj1 Ha)) as [R|(b & σ1 & u1 & t1 & R & S1 & G & Hb & Hs)];
    [by left|right].
  pose proof (sp_pt _ _ _ _ _ _ S1) as Hok. exists (slot b (pt_num a)), σ1, u1, t1.
  split_and!; [done| |done|by apply grows_adds| | |done|cbn zeta; split_and!].
  - apply slot_nonzero; [by apply (pt_page _ _ _ Hok _ _ Hb)|apply pt_num_range, Ha].
  - rewrite <- (gr_leaf _ _ _ _ _ _ G) by apply Ha. unfold leaf. by rewrite Hb.
  - intros va Hva. apply (gr_leaf _ _ _ _ _ _ G), Hva.
  - apply store_leaf; [done..|apply Ha].
  - eapply adds_trans; [by apply grows_adds|apply adds_leaf; [done|apply Ha]].
  - intros va Hva. cbn [on_ram ram]. rewrite (leaf_store _ root); [|done..|by apply entry_range].
    rewrite (gr_leaf _ _ _ _ _ _ G) by apply Hva. done.
Qed.

(** The mapping loop: it stops the kernel for want of tables, or maps [j]
    pages and returns whether these are all. *)
Lemma map_loop_run n σ lo hi u root t a pa f : space σ lo hi u root t →
  a mod 4096 = 0 → 0 ≤ a → a + 4096 * Z.of_nat (S n) ≤ 2 ^ va_bits → flags_ok f →
  (∀ i, 0 ≤ i ≤ Z.of_nat n → kpage (pa + 4096 * i)) →
  (map_loop (S n) (pt_at root) a (a + 4096 * Z.of_nat n) pa f σ = Panic ∧
     supply (S n * depth) (_allocator σ) = false) ∨
  ∃ j σ' u' t', 0 ≤ j ≤ Z.of_nat (S n) ∧
    map_loop (S n) (pt_at root) a (a + 4096 * Z.of_nat n) pa f σ = Ret (bool_decide (j = Z.of_nat (S n))) σ' ∧
    space σ' lo hi u' root t' ∧ adds σ u t σ' u' t' ∧
    (∀ va, uva va → leaf (ram σ') t' va = mapped (leaf (ram σ) t) a j pa f va) ∧
    (∀ i, 0 ≤ i < j → is_valid (leaf (ram σ) t (a + 4096 * i)) = false) ∧
    (j < Z.of_nat (S n) → is_valid (leaf (ram σ) t (a + 4096 * j)) = true) ∧
    spends (S n * depth) σ σ'.
Proof.
  revert σ u t a pa. induction n as [|n IH]; intros σ u t a pa Sp Ha Ha0 Htop Hf Hpa.
  all: assert (uva a) as Hua by (unfold uva; lia).
  all: assert (kpage pa) as Hk by (specialize (Hpa 0); rewrite Z.mul_0_r, Z.add_0_r in Hpa; apply Hpa; lia).
  all: destruct (map_one σ lo hi u root t a pa f Sp Hua Hk Hf)
    as [[R Hs]|(pte & σ1 & u1 & t1 & R & Hp0 & S1 & Ad1 & Hd & Hl1 & Hs & S2 & Ad2 & Hl2)];
    [left; split; [cbn [map_loop]; unfold mbind at 1, M_bind at 1; by rewrite R|apply (supply_false depth); [lia|done]]|].
  all: cbn [map_loop]; mstep R; rewrite (proj2 (Z.eqb_neq pte 0)) by done;
    mstep (eq_refl : load pte σ1 = Ret (load64 (ram σ1) pte) σ1); rewrite Hd;
    destruct (is_valid (leaf (ram σ) t a)) eqn:Hv;
    [right; exists 0, σ1, u1, t1; split_and!; try done; try lia;
      [intros va Hva; unfold mapped; rewrite decide_False by lia; by apply Hl1|by rewrite Z.mul_0_r, Z.add_0_r
      |apply (spends_le depth); [lia|done]]|].
  all: assert (page_round_down (to_phy pa) = to_phy pa) as -> by (by apply round_frame).
  - change (Z.of_nat 0) with 0. rewrite Z.mul_0_r, Z.add_0_r, Z.eqb_refl. right.
    exists 1, (on_ram (store64 pte (entry pa f)) σ1), u1, t1. split_and!; try done; try lia.
    + intros va Hva. rewrite Hl2 by done. unfold mapped.
      destruct (decide (va / 4096 = a / 4096)) as [E|E].
      * rewrite decide_True by (Z.div_mod_to_equations; lia). f_equal. rewrite E. Z.div_mod_to_equations; lia.
      * rewrite decide_False; [done|]. Z.div_mod_to_equations; lia.
    + intros i Hi. by replace (a + 4096 * i) with a by lia.
    + apply (spends_le depth); [lia|]. exact Hs.
  - rewrite (proj2 (Z.eqb_neq a (a + _))) by lia.
    set (σ2 := on_ram (store64 pte (entry pa f)) σ1) in *.
    mstep (eq_refl : store pte (set_data (Z.lor (to_phy pa) f)) σ1 = Ret tt σ2).
    pose proof (va_limit (PL := PL)).
    assert (kpage (pa + 4096)) as Hk1 by (specialize (Hpa 1); rewrite Z.mul_1_r in Hpa; apply Hpa; lia).
    pose proof (window_range (PortLaws := PL)). unfold page_size. rewrite (wrap64_small (a + 4096)), (wrap64_small (pa + 4096)) by (unfold kpage in *; lia).
    replace (a + 4096 * Z.of_nat (S n)) with (a + 4096 + 4096 * Z.of_nat n) by lia.
    destruct (IH σ2 u1 t1 (a + 4096) (pa + 4096) S2) as [[R2 Hs2]|(j & σ3 & u3 & t3 & Hj & R2 & S3 & Ad3 & Hl3 & Hiv & Hjv & Hs2)];
      [rewrite <- (Z.mul_1_l 4096) at 1; by rewrite Z.mod_add|lia|lia|done| |left; split; [exact R2|exact (spends_short depth (S n * depth) σ σ2 Hs Hs2)]|].
    { intros i Hi. replace (pa + 4096 + 4096 * i) with (pa + 4096 * (i + 1)) by lia. apply Hpa. lia. }
    right. exists (j + 1), σ3, u3, t3. split_and!; [lia|lia| |done|by eapply adds_trans| | | |exact (spends_trans depth (S n * depth) σ σ2 σ3 Hs Hs2)].
    + refine (eq_trans R2 _). f_equal. apply bool_decide_ext. lia.
    + intros va Hva. rewrite Hl3 by done. rewrite <- mapped_step by lia. apply mapped_ext. by apply Hl2.
    + intros i Hi. destruct (Z.eq_dec i 0) as [->|]; [by rewrite Z.mul_0_r, Z.add_0_r|].
      assert (uva (a + 4096 * i)) by (unfold uva; lia).
      specialize (Hiv (i - 1) ltac:(lia)). replace (a + 4096 + 4096 * (i - 1)) with (a + 4096 * i) in Hiv by lia.
      rewrite Hl2, decide_False in Hiv; [done| |done]. rewrite (Z.mul_comm 4096), Z.div_add; lia.
    + intros Hlt. specialize (Hjv ltac:(lia)). replace (a + 4096 + 4096 * j) with (a + 4096 * (j + 1)) in Hjv by lia.
      rewrite Hl2, decide_False in Hjv; [done| |unfold uva; lia]. rewrite (Z.mul_comm 4096), Z.div_add; lia.
Qed.

Lemma map_pages_run σ lo hi u root t va size pa f : space σ lo hi u root t →
  va mod 4096 = 0 → size mod 4096 = 0 → 0 ≤ va → 0 < size → va + size ≤ 2 ^ va_bits → flags_ok f →
  (∀ i, 0 ≤ i < size / 4096 → kpage (pa + 4096 * i)) →
  (map_pages (pt_at root) va size pa f σ = Panic ∧
     supply (Z.to_nat (size / 4096) * depth) (_allocator σ) = false) ∨
  ∃ j σ' u' t', 0 ≤ j ≤ size / 4096 ∧
    map_pages (pt_at root) va size pa f σ = Ret (bool_decide (j = size / 4096)) σ' ∧
    space σ' lo hi u' root t' ∧ adds σ u t σ' u' t' ∧
    (∀ x, uva x → leaf (ram σ') t' x = mapped (leaf (ram σ) t) va j pa f x) ∧
    (∀ i, 0 ≤ i < j → is_valid (leaf (ram σ) t (va + 4096 * i)) = false) ∧
    (j < size / 4096 → is_valid (leaf (ram σ) t (va + 4096 * j)) = true) ∧
    spends (Z.to_nat (size / 4096) * depth) σ σ'.
Proof.
  intros Sp Hva Hsz Hva0 Hs0 Htop Hf Hpa. unfold map_pages. rewrite (proj2 (Z.eqb_neq size 0)) by lia.
  pose proof (va_limit (PL := PL)).
  assert (size = 4096 * (size / 4096)) as Esz by (Z.div_mod_to_equations; lia).
  set (n := size / 4096) in *. assert (1 ≤ n) as Hn by lia.
  rewrite (wrap64_small (va + size)), (wrap64_small (va + size - 1)) by lia.
  rewrite !page_round_down_eq by lia.
  replace (va / 4096 * 4096) with va by (Z.div_mod_to_equations; lia).
  replace ((va + size - 1) / 4096 * 4096) with (va + 4096 * (n - 1)) by (Z.div_mod_to_equations; lia).
  rewrite wrap64_small by lia. unfold page_size.
  replace ((va + 4096 * (n - 1) - va) / 4096) with (n - 1) by (Z.div_mod_to_equations; lia).
  replace (va + 4096 * (n - 1)) with (va + 4096 * Z.of_nat (Z.to_nat (n - 1))) by lia.
  replace (Z.to_nat n) with (Datatypes.S (Z.to_nat (n - 1))) by lia.
  destruct (map_loop_run (Z.to_nat (n - 1)) σ lo hi u root t va pa f Sp) as [R|(j & Hr)]; try done; try lia.
  - intros i Hi. apply Hpa. lia.
  - by left.
  - right. exists j. replace (Z.of_nat (Datatypes.S (Z.to_nat (n - 1)))) with n in Hr by lia. done.
Qed.

(** ** Unmapping *)

Definition frame_of (d : Z) : Z := to_vir (to_pa d).

(** The pages mapped at [n] pages from [a]. *)
Definition frames (L : Z → Z) (a : Z) (n : nat) : list Z :=
  (λ i, frame_of (L (a + 4096 * Z.of_nat i))) <$> seq 0 n.

Definition without (u : gmap Z Z) (l : list Z) : gmap Z Z := filter (λ kv, kv.1 ∉ l) u.

Definition unmapped (L : Z → Z) (a n va : Z) : Z := if decide (a ≤ va < a + 4096 * n) then 0 else L va.

Lemma without_lookup u l q : without u l !! q = if decide (q ∈ l) then None else u !! q.
Proof.
  unfold without. destruct (decide (q ∈ l)) as [Hq|Hq].
  - apply map_lookup_filter_None. right. intros x _ Hx. done.
  - destruct (u !! q) as [x|] eqn:E.
    + by apply map_lookup_filter_Some.
    + apply map_lookup_filter_None. by left.
Qed.

Lemma without_cons u q l : without (delete q u) l = without u (q :: l).
Proof.
  apply map_eq. intros x. rewrite !without_lookup. destruct (decide (x = q)) as [->|Hx].
  - rewrite lookup_delete_eq, (decide_True (P := q ∈ q :: l)) by apply list_elem_of_here. by destruct (decide _).
  - rewrite lookup_delete_ne by done. apply decide_ext. rewrite elem_of_cons. naive_solver.
Qed.

Lemma without_nil u : without u [] = u.
Proof. apply map_eq. intros x. rewrite without_lookup. by rewrite decide_False by apply not_elem_of_nil. Qed.

Lemma frames_cons L a n : frames L a (S n) = frame_of (L a) :: frames L (a + 4096) n.
Proof.
  unfold frames. cbn [seq fmap list_fmap]. rewrite Z.mul_0_r, Z.add_0_r. f_equal.
  rewrite <- fmap_S_seq, <- list_fmap_compose. apply list_fmap_ext. intros i x _. simpl. do 2 f_equal. lia.
Qed.

Lemma frames_ext L L' a n : (∀ i, 0 ≤ i < Z.of_nat n → L' (a + 4096 * i) = L (a + 4096 * i)) →
  frames L' a n = frames L a n.
Proof.
  intros H1. apply list_fmap_ext. intros i x Hx%lookup_seq. rewrite H1 by lia. done.
Qed.

(** What [vm_unmap] may free. *)
Definition freeable u t (l : list Z) : Prop :=
  NoDup l ∧ ∀ q, q ∈ l → is_Some (u !! q) ∧ ∀ p, t !! p ≠ Some q.

Lemma space_free σ lo hi u root t q : space σ lo hi u root t → is_Some (u !! q) → (∀ p, t !! p ≠ Some q) →
  ∃ σ', free_pages q σ = Ret 0 σ' ∧ space σ' lo hi (delete q u) root t ∧ ram σ' = ram σ.
Proof.
  intros [Hr Hw Hok Ho] [n Hq] Ht. destruct (free_pages_run σ lo hi u q n Hr Hq) as (σ' & R & Hr' & Em).
  exists σ'. split_and!; [done| |done]. split; [done..|by rewrite Em|].
  intros p b Hb. destruct (Ho p b Hb) as [k Hk]. exists k. rewrite lookup_delete_ne; [done|].
  intros ->. by apply (Ht p).
Qed.

(** The release of one page, if asked for. *)
Lemma unmap_free σ lo hi u root t q do_free l : space σ lo hi u root t → (do_free = true → freeable u t (q :: l)) →
  ∃ σ' u', when do_free (free_pages q;; mret tt) σ = Ret tt σ' ∧ space σ' lo hi u' root t ∧ ram σ' = ram σ ∧
    u' = (if do_free then delete q u else u) ∧ (do_free = true → freeable u' t l).
Proof.
  intros Sp Hf. destruct do_free; [|exists σ, u; by split_and!].
  destruct (Hf eq_refl) as [[Hq Hnd]%NoDup_cons Hall].
  destruct (Hall q (list_elem_of_here _ _)) as [Hu Ht].
  destruct (space_free σ lo hi u root t q Sp Hu Ht) as (σ' & R & Sp' & Em).
  exists σ', (delete q u). split_and!; try done; [cbn [when]; by mstep R|]. intros _. split; [done|].
  intros r Hr. destruct (Hall r (list_elem_of_further _ _ _ Hr)) as [[k Hk] Ht']. split; [|done].
  exists k. rewrite lookup_delete_ne; [done|]. by intros ->.
Qed.

Lemma unmap_loop_run n σ lo hi u root t a do_free : space σ lo hi u root t →
  a mod 4096 = 0 → 0 ≤ a → a + 4096 * Z.of_nat n ≤ 2 ^ va_bits →
  (∀ i, 0 ≤ i < Z.of_nat n → is_valid (leaf (ram σ) t (a + 4096 * i)) = true ∧
     is_dir_page (leaf (ram σ) t (a + 4096 * i)) = false) →
  (do_free = true → freeable u t (frames (leaf (ram σ) t) a n)) →
  ∃ σ' u', unmap_loop (S n) (pt_at root) a (a + 4096 * Z.of_nat n) do_free σ = Ret tt σ' ∧
    space σ' lo hi u' root t ∧
    u' = (if do_free then without u (frames (leaf (ram σ) t) a n) else u) ∧
    (∀ va, uva va → leaf (ram σ') t va = unmapped (leaf (ram σ) t) a (Z.of_nat n) va) ∧
    (∀ x, ¬ in_tables t x → byte_at (ram σ') x = byte_at (ram σ) x).
Proof.
  revert σ u a. induction n as [|n IH]; intros σ u a Sp Ha Ha0 Htop Hv Hf.
  - exists σ, u. cbn [unmap_loop]. zbool; [lia|]. split_and!; try done.
    + destruct do_free; [|done]. symmetry. apply without_nil.
    + intros va Hva. unfold unmapped. by rewrite decide_False by lia.
  - assert (uva a) as Hua by (unfold uva; lia). pose proof (va_limit (PL := PL)).
    destruct (Hv 0 ltac:(lia)) as [Hv0 Hd0]. rewrite Z.mul_0_r, Z.add_0_r in Hv0, Hd0.
    pose proof (sp_pt _ _ _ _ _ _ Sp) as Hok. pose proof (walk_find σ root t a Hok Ha0) as R.
    assert (∃ b, t !! path a = Some b) as [b Hb].
    { unfold leaf in Hv0. destruct (t !! path a) as [b|]; [by exists b|]. by rewrite pte_zero_invalid in Hv0. }
    rewrite Hb in R. assert (load64 (ram σ) (slot b (pt_num a)) = leaf (ram σ) t a) as El by (unfold leaf; by rewrite Hb).
    set (d := leaf (ram σ) t a) in *.
    rewrite frames_cons in Hf |- *. change (leaf (ram σ) t a) with d in Hf |- *.
    destruct (unmap_free σ lo hi u root t (frame_of d) do_free (frames (leaf (ram σ) t) (a + 4096) n) Sp Hf)
      as (σ1 & u1 & R1 & Sp1 & Em1 & Eu1 & Hf1).
    set (σ2 := on_ram (store64 (slot b (pt_num a)) 0) σ1).
    assert (∀ va, uva va → leaf (ram σ2) t va = if decide (va / 4096 = a / 4096) then 0 else leaf (ram σ) t va) as Hl2.
    { intros va Hva. cbn [σ2 on_ram ram]. rewrite Em1. apply (leaf_store _ root); (done || lia). }
    assert (∀ i, 0 ≤ i < Z.of_nat n → leaf (ram σ2) t (a + 4096 + 4096 * i) = leaf (ram σ) t (a + 4096 + 4096 * i)) as Hl3.
    { intros i Hi. rewrite Hl2 by (unfold uva; lia). rewrite decide_False; [done|].
      replace (a + 4096 + 4096 * i) with (a + (i + 1) * 4096) by lia. rewrite Z.div_add; lia. }
    destruct (IH σ2 u1 (a + 4096)) as (σ3 & u3 & R3 & Sp3 & Eu3 & Hl4 & Hm3).
    + by apply store_leaf.
    + rewrite <- (Z.mul_1_l 4096) at 1. by rewrite Z.mod_add by lia.
    + lia.
    + lia.
    + intros i Hi. rewrite Hl3 by done. replace (a + 4096 + 4096 * i) with (a + 4096 * (i + 1)) by lia. apply Hv. lia.
    + intros Ht. rewrite (frames_ext (leaf (ram σ) t)) by done. by apply Hf1.
    + exists σ3, u3. split_and!; [|done| | |].
      * cbn [unmap_loop]. rewrite (proj2 (Z.ltb_lt a _)) by lia. mstep R.
        rewrite (proj2 (Z.eqb_neq _ 0)) by (apply slot_nonzero; [by apply (pt_page _ _ _ Hok _ _ Hb)|by apply pt_num_range]).
        mstep (eq_refl : load (slot b (pt_num a)) σ = Ret (load64 (ram σ) (slot b (pt_num a))) σ).
        rewrite El, Hv0, Hd0. cbn [negb]. mstep R1.
        mstep (eq_refl : store (slot b (pt_num a)) 0 σ1 = Ret tt σ2).
        unfold page_size. rewrite (wrap64_small (a + 4096)) by lia.
        replace (a + 4096 * Z.of_nat (S n)) with (a + 4096 + 4096 * Z.of_nat n) by lia. exact R3.
      * rewrite Eu3, Eu1. destruct do_free; [|done]. rewrite (frames_ext (leaf (ram σ) t)) by done. apply without_cons.
      * intros va Hva. rewrite Hl4 by done. unfold unmapped. destruct (decide (a + 4096 ≤ va < _)) as [Hin|Hin].
        -- by rewrite decide_True by lia.
        -- rewrite Hl2 by done. clear -Ha Hin. destruct (decide (va / 4096 = a / 4096)) as [E|E].
           ++ rewrite decide_True; [done|]. Z.div_mod_to_equations; lia.
           ++ rewrite decide_False; [done|]. Z.div_mod_to_equations; lia.
      * intros x Hx. rewrite Hm3 by done. cbn [σ2 on_ram ram]. rewrite Em1, store64_out; [done|].
        intros Hin. apply Hx. exists (path a), b. split; [done|]. pose proof (pt_num_range a Ha0). unfold slot in Hin. lia.
Qed.

End map.
End VmmMap.
