(* ===== verification/VmmCopy.v ===== *)
(** Moving data between the kernel and a user address space: [copyout] and
    [copy_in]. *)

From Stdlib Require Import ZArith Lia.
From stdpp Require Import base numbers gmap list.
From S2P Require Import Prelude Page Mem Klib KlibThm Pmm PmmThm PageTable PtInv PtWalk Vmm VmmMap.
Import Pmm PmmThm PT PtInv PtWalk Vmm VmmMap.

Set Default Goal Selector "!".
Open Scope Z_scope.

#[local] Opaque fill_words store64 load64.

Module VmmCopy.

Section copy.
Context `{PL : PortLaws} {A : Type} `{PA : PageAllocatorLaws A}.
Implicit Types (σ : PhysicalMemoryManager A) (t : gmap (list Z) Z) (u : gmap Z Z).

(** Where the kernel sees the user byte [va]. *)
Definition uaddr (L : Z → Z) (va : Z) : Z := frame_of (L va) + va mod 4096.

(** The pages of [va .. va+len) are mapped to pages of memory that are no
    tables. *)
Definition backed (L : Z → Z) t (va len : Z) : Prop := ∀ x, va ≤ x < va + len →
  is_valid (L x) = true ∧ kpage (frame_of (L x)) ∧ ∀ p, t !! p ≠ Some (frame_of (L x)).

(** A kernel buffer outside those pages. *)
Definition apart (L : Z → Z) (va p len : Z) : Prop := ∀ x, va ≤ x < va + len →
  frame_of (L x) + 4096 ≤ p ∨ p + len ≤ frame_of (L x).

(** Distinct pages of the range are distinct in memory. *)
Definition unshared (L : Z → Z) (va len : Z) : Prop := ∀ x y, va ≤ x < va + len → va ≤ y < va + len →
  frame_of (L x) = frame_of (L y) → x / 4096 = y / 4096.

Lemma lib_run {B} (m : M mem B) σ b r : m (ram σ) = Ret b r → lib m σ = Ret b (mkPmm (_allocator σ) r).
Proof. intros R. unfold lib, zoom. by rewrite R. Qed.

Lemma lib_allocator {B} (m : M mem B) σ b σ' : lib m σ = Ret b σ' → _allocator σ' = _allocator σ.
Proof. unfold lib, zoom. destruct (m (ram σ)); [|done..]. by intros [_ <-]%ret_inv. Qed.

Lemma space_write σ lo hi u root t r : space σ lo hi u root t → mem_ok r →
  (∀ x, in_tables t x → byte_at r x = byte_at (ram σ) x) →
  space (mkPmm (_allocator σ) r) lo hi u root t ∧ ∀ va, 0 ≤ va → leaf r t va = leaf (ram σ) t va.
Proof.
  intros [[Ha Hm] Hw Hok Ho] Hr E. split.
  - split; [by split|done|by apply (pt_ok_frame (ram σ))|done].
  - intros va Hva. by apply (leaf_frame (ram σ) r root).
Qed.

Lemma off_range va : 0 ≤ va < 2 ^ 48 → page_round_down va = va - va mod 4096 ∧
  u64 (va - page_round_down va) = va mod 4096 ∧ u64 (page_size - u64 (va - page_round_down va)) = 4096 - va mod 4096.
Proof.
  intros Hva. pose proof (Z.mod_pos_bound va 4096 ltac:(lia)).
  assert (page_round_down va = va - va mod 4096) as E.
  { rewrite page_round_down_eq by lia. Z.div_mod_to_equations; lia. }
  rewrite E. unfold page_size. replace (va - (va - va mod 4096)) with (va mod 4096) by lia.
  rewrite (wrap64_small (va mod 4096)) by lia. by rewrite wrap64_small by lia.
Qed.

(** The part of the range on the first page. *)
Definition chunk (va len : Z) : Z := if len <? 4096 - va mod 4096 then len else 4096 - va mod 4096.

Lemma chunk_range va len : 0 < len → 0 < chunk va len ≤ len ∧ va mod 4096 + chunk va len ≤ 4096 ∧
  (chunk va len < len → va - va mod 4096 + 4096 = va + chunk va len).
Proof. intros Hl. unfold chunk. pose proof (Z.mod_pos_bound va 4096 ltac:(lia)). zbool; lia. Qed.

Lemma same_page va x len : va ≤ x < va + chunk va len → 0 < len → x / 4096 = va / 4096 ∧ x mod 4096 = va mod 4096 + (x - va).
Proof.
  intros Hx Hl. destruct (chunk_range va len Hl) as (? & ? & _).
  assert (x / 4096 = va / 4096) as E by (Z.div_mod_to_equations; lia).
  split; [done|]. Z.div_mod_to_equations; lia.
Qed.

Section first_page.
Context σ lo hi u root t (Sp : space σ lo hi u root t).
Context (L : Z → Z) (HL : ∀ v, 0 ≤ v → leaf (ram σ) t v = L v).
Context (va len : Z) (Hva : 0 ≤ va) (Hlen : 0 < len) (Htop : va + len ≤ 2 ^ va_bits)
  (Hback : backed L t va len).
Let n := chunk va len.

Lemma L_page x y : 0 ≤ x → 0 ≤ y → y / 4096 = x / 4096 → L y = L x.
Proof. intros Hx Hy E. rewrite <- !HL by done. by apply leaf_page. Qed.

Lemma uaddr_chunk x : va ≤ x < va + n → uaddr L x = uaddr L va + (x - va).
Proof.
  intros Hx. destruct (same_page va x len Hx Hlen) as [E Em]. unfold uaddr.
  rewrite (L_page va x), Em by (done || lia). lia.
Qed.

Lemma round_leaf : 0 ≤ page_round_down va ∧ L (page_round_down va) = L va.
Proof.
  pose proof (va_limit (PL := PL)). destruct (off_range va ltac:(lia)) as (E & _).
  pose proof (Z.mod_pos_bound va 4096 ltac:(lia)).
  assert (0 ≤ page_round_down va) by (rewrite E; Z.div_mod_to_equations; lia). split; [done|].
  apply L_page; [lia|done|]. rewrite E. Z.div_mod_to_equations; lia.
Qed.

Lemma round_mapped : is_Some (t !! path (page_round_down va)) ∧
  Z.land (page_round_down va) (page_size - 1) = 0.
Proof.
  pose proof (va_limit (PL := PL)). destruct (off_range va ltac:(lia)) as (E & _).
  pose proof (Z.mod_pos_bound va 4096 ltac:(lia)). destruct round_leaf as [Hr El]. split.
  - destruct (Hback va ltac:(lia)) as [Hv _]. rewrite <- El, <- HL in Hv by done. unfold leaf in Hv.
    destruct (t !! path (page_round_down va)) as [b|]; [by eexists|]. by rewrite pte_zero_invalid in Hv.
  - change (page_size - 1) with (Z.ones 12). rewrite Z.land_ones by lia. rewrite E. change (2 ^ 12) with 4096.
    Z.div_mod_to_equations; lia.
Qed.

Lemma first_page_range : kpage (frame_of (L va)) ∧ frame_of (L va) ≤ uaddr L va ∧
  uaddr L va + n ≤ frame_of (L va) + 4096 ∧ 1 ≤ uaddr L va ∧ uaddr L va + n < 2 ^ 64 ∧
  to_vir (uaddr L va) = uaddr L va ∧ u64 (frame_of (L va) + va mod 4096) = uaddr L va.
Proof.
  destruct (Hback va ltac:(lia)) as (_ & Hk & _). destruct (chunk_range va len Hlen) as (Hn1 & Hn2 & _).
  fold n in Hn1, Hn2. pose proof (Z.mod_pos_bound va 4096 ltac:(lia)). destruct (window_range (PortLaws := PL)) as (? & ? & ?).
  pose proof Hk as (Hk1 & Hk2 & Hk3 & Hk4). unfold uaddr. split_and!; try done; try lia.
  - replace (frame_of (L va) + va mod 4096) with (window + (frame_of (L va) - window + va mod 4096)) by lia.
    rewrite vir_high; lia.
  - apply wrap64_small. lia.
Qed.

(** The bytes of the tables are not on the page. *)
Lemma page_no_table y : in_tables t y → ¬ frame_of (L va) ≤ y < frame_of (L va) + 4096.
Proof.
  intros (p & b & Hb & Hy). destruct (Hback va ltac:(lia)) as (_ & Hk & Hn).
  pose proof (pt_page _ _ _ (sp_pt _ _ _ _ _ _ Sp) p b Hb) as Hkb.
  apply (page_apart b (frame_of (L va))); [apply Hkb|apply Hk| |done]. intros ->. by apply (Hn p).
Qed.
End first_page.

(** Distinct user bytes of an unshared range are distinct in memory. *)
Lemma uaddr_inj (L : Z → Z) t va len x y : backed L t va len → unshared L va len →
  va ≤ x < va + len → va ≤ y < va + len → uaddr L x = uaddr L y → x = y.
Proof.
  intros Hb Hu Hx Hy E. destruct (Hb x Hx) as (_ & (_ & _ & _ & Hkx) & _). destruct (Hb y Hy) as (_ & (_ & _ & _ & Hky) & _).
  unfold uaddr in E. pose proof (Z.mod_pos_bound x 4096 ltac:(lia)). pose proof (Z.mod_pos_bound y 4096 ltac:(lia)).
  assert (frame_of (L x) = frame_of (L y)) as Ef by (Z.div_mod_to_equations; lia).
  pose proof (Hu x y Hx Hy Ef) as Ep. rewrite (Z.div_mod x 4096), (Z.div_mod y 4096) by lia. lia.
Qed.

Lemma backed_tail L t va len n : 0 ≤ n ≤ len → backed L t va len → backed L t (va + n) (len - n).
Proof. intros Hn Hb x Hx. apply Hb. lia. Qed.

Lemma apart_tail L va p len n : 0 ≤ n ≤ len → apart L va p len → apart L (va + n) (p + n) (len - n).
Proof. intros Hn Hb x Hx. specialize (Hb x ltac:(lia)). lia. Qed.

Lemma unshared_tail L va len n : 0 ≤ n ≤ len → unshared L va len → unshared L (va + n) (len - n).
Proof. intros Hn Hb x y Hx Hy. apply Hb; lia. Qed.

(** The result of copying [len] bytes from [p] out to [va]. *)
Definition copied_out (L : Z → Z) (m m' : mem) (va p len : Z) : Prop :=
  (∀ x, va ≤ x < va + len → byte_at m' (uaddr L x) = byte_at m (p + (x - va))) ∧
  (∀ y, (∀ x, va ≤ x < va + len → uaddr L x ≠ y) → byte_at m' y = byte_at m y).

(** One round of [copyout]. *)
Lemma copyout_chunk σ lo hi u root t L va p len : space σ lo hi u root t →
  (∀ v, 0 ≤ v → leaf (ram σ) t v = L v) → 0 ≤ va → 0 < len → va + len ≤ 2 ^ va_bits →
  backed L t va len → apart L va p len → 1 ≤ p → p + len < 2 ^ 64 →
  let n := chunk va len in
  let m1 := store_bytes (ram σ) (uaddr L va) (load_bytes (ram σ) p (Z.to_nat n)) in
  Klib.memmove (uaddr L va) p n (ram σ) = Ret (uaddr L va) m1 ∧
  copied_out L (ram σ) m1 va p n ∧
  space (mkPmm (_allocator σ) m1) lo hi u root t ∧ (∀ v, 0 ≤ v → leaf m1 t v = L v) ∧
  (∀ y, p ≤ y < p + len → byte_at m1 y = byte_at (ram σ) y).
Proof.
  intros Sp HL Hva Hlen Htop Hb Hap Hp Hpl n m1. destruct (chunk_range va len Hlen) as (Hn & Hoff & _). fold n in Hn, Hoff.
  destruct (first_page_range t L va len Hlen Hb) as (Hk & F1 & F2 & F3 & F4 & _). fold n in F2, F4.
  pose proof (Hap va ltac:(lia)) as Hd. assert (mem_ok (ram σ)) as Hm by apply (sp_pmm _ _ _ _ _ _ Sp).
  assert (∀ y, byte_at m1 y = if decide (uaddr L va ≤ y < uaddr L va + n) then byte_at (ram σ) (p + (y - uaddr L va)) else byte_at (ram σ) y) as Hm1.
  { intros y. unfold m1. rewrite store_bytes_at, length_load. destruct (decide _) as [Hy|Hy].
    - rewrite decide_True by lia. rewrite load_bytes_lookup by lia. cbn. f_equal. lia.
    - by rewrite decide_False by lia. }
  destruct (space_write σ lo hi u root t m1 Sp) as [Sp1 HL1].
  { unfold m1. apply mem_ok_bytes; [done|by apply bytes_load]. }
  { intros y Hy. rewrite Hm1, decide_False; [done|]. intros Hin. apply (page_no_table σ lo hi u root t Sp L va len Hlen Hb y Hy). lia. }
  split_and!; [|split| done | |].
  - apply KlibThm.memmove_run; [done|lia..].
  - intros x Hx. rewrite (uaddr_chunk σ t L HL va len Hva Hlen x) by done. fold n. rewrite Hm1, decide_True by lia. f_equal. lia.
  - intros y Hy. rewrite Hm1, decide_False; [done|]. intros Hin.
    apply (Hy (va + (y - uaddr L va))); [lia|].
    rewrite (uaddr_chunk σ t L HL va len Hva Hlen) by (fold n; lia). lia.
  - intros v Hv. rewrite HL1 by done. by apply HL.
  - intros y Hy. rewrite Hm1, decide_False; [done|]. lia.
Qed.

Lemma copied_out_app L t m m1 m2 va p len n : 0 ≤ n ≤ len → backed L t va len → unshared L va len →
  copied_out L m m1 va p n → (∀ y, p ≤ y < p + len → byte_at m1 y = byte_at m y) →
  copied_out L m1 m2 (va + n) (p + n) (len - n) → copied_out L m m2 va p len.
Proof.
  intros Hn Hb Hu [C1 K1] Hsrc [C2 K2]. split.
  - intros x Hx. destruct (Z.lt_ge_cases x (va + n)).
    + rewrite K2; [apply C1; lia|]. intros y Hy E. apply (uaddr_inj L t va len) in E; (done || lia).
    + rewrite C2 by lia. rewrite Hsrc by lia. f_equal. lia.
  - intros y Hy. rewrite K2 by (intros x Hx; apply Hy; lia). apply K1. intros x Hx. apply Hy. lia.
Qed.

Lemma copyout_round f σ lo hi u root t L va p len : space σ lo hi u root t →
  (∀ v, 0 ≤ v → leaf (ram σ) t v = L v) → 0 ≤ va → 0 < len → va + len ≤ 2 ^ va_bits →
  backed L t va len → apart L va p len → 1 ≤ p → p + len < 2 ^ 64 →
  let n := chunk va len in
  copyout_loop (S f) (pt_at root) va p len σ =
    copyout_loop f (pt_at root) (va - va mod 4096 + 4096) (p + n) (len - n)
      (mkPmm (_allocator σ) (store_bytes (ram σ) (uaddr L va) (load_bytes (ram σ) p (Z.to_nat n)))).
Proof.
  intros Sp HL Hva Hpos Htop Hb Hap Hp Hpl n. cbn [copyout_loop]. rewrite (proj2 (Z.ltb_lt 0 len)) by done.
  pose proof (va_limit (PL := PL)). destruct (off_range va ltac:(lia)) as (Er & E1 & E2).
  destruct (copyout_chunk σ lo hi u root t L va p len Sp HL Hva Hpos Htop Hb Hap Hp Hpl) as (Rm & _).
  destruct (chunk_range va len Hpos) as (Hn & _ & _). fold n in Hn, Rm.
  destruct (first_page_range t L va len Hpos Hb) as (Hk & F1 & F2 & F3 & F4 & F5 & F6).
  destruct (round_leaf σ t L HL va len Hva Hpos Htop) as [Hr El].
  destruct (round_mapped σ t L HL va len Hva Hpos Htop Hb) as [[b Hbt] _].
  pose proof (walk_find σ root t (page_round_down va) (sp_pt _ _ _ _ _ _ Sp) Hr) as Rw. rewrite Hbt in Rw. mstep Rw.
  rewrite (proj2 (Z.eqb_neq _ 0)) by (apply slot_nonzero; [by apply (pt_page _ _ _ (sp_pt _ _ _ _ _ _ Sp) _ _ Hbt)|by apply pt_num_range]).
  assert (load64 (ram σ) (slot b (pt_num (page_round_down va))) = L va) as Ed.
  { rewrite <- El, <- HL by done. unfold leaf. by rewrite Hbt. }
  mstep (eq_refl : load (slot b (pt_num (page_round_down va))) σ = Ret (load64 (ram σ) (slot b (pt_num (page_round_down va)))) σ).
  rewrite Ed. fold (frame_of (L va)). rewrite (proj2 (Z.eqb_neq (frame_of (L va)) 0)) by (unfold kpage in Hk; lia).
  rewrite E2, E1, F6, F5. fold (chunk va len). fold n.
  mstep (lib_run _ σ _ _ Rm).
  rewrite (wrap64_small (p + n)), (wrap64_small (len - n)) by lia.
  rewrite Er. unfold page_size. rewrite (wrap64_small (va - va mod 4096 + 4096)); [done|].
  pose proof (Z.mod_pos_bound va 4096 ltac:(lia)). lia.
Qed.

Lemma copyout_loop_run fuel σ lo hi u root t L va p len : space σ lo hi u root t →
  (∀ v, 0 ≤ v → leaf (ram σ) t v = L v) → 0 ≤ va → 0 ≤ len < Z.of_nat fuel → va + len ≤ 2 ^ va_bits →
  backed L t va len → apart L va p len → unshared L va len → 1 ≤ p → p + len < 2 ^ 64 →
  ∃ σ', copyout_loop fuel (pt_at root) va p len σ = Ret 0 σ' ∧ space σ' lo hi u root t ∧
    (∀ v, 0 ≤ v → leaf (ram σ') t v = L v) ∧ copied_out L (ram σ) (ram σ') va p len.
Proof.
  revert σ va p len. induction fuel as [|f IH]; intros σ va p len Sp HL Hva Hlen Htop Hb Hap Hu Hp Hpl; [lia|].
  destruct (Z.lt_ge_cases 0 len) as [Hpos|Hz].
  2: { exists σ. assert (len = 0) as -> by lia. split_and!; try done. split; [lia|done]. }
  destruct (copyout_chunk σ lo hi u root t L va p len Sp HL Hva Hpos Htop Hb Hap Hp Hpl) as (Rm & C1 & Sp1 & HL1 & Hsrc).
  rewrite (copyout_round f σ lo hi u root t L) by done.
  destruct (chunk_range va len Hpos) as (Hn & Hoff & Hnext). set (n := chunk va len) in *. set (m1 := store_bytes _ _ _) in *.
  destruct (Z.eq_dec n len) as [En|Hne].
  - exists (mkPmm (_allocator σ) m1). replace (len - n) with 0 by lia. destruct f as [|f']; [lia|].
    cbn [copyout_loop Z.ltb Z.compare]. split_and!; try done. by rewrite <- En.
  - rewrite Hnext by lia.
    destruct (IH (mkPmm (_allocator σ) m1) (va + n) (p + n) (len - n) Sp1 HL1) as (σ' & R & Sp' & HL' & C2);
      [lia|lia|lia|by apply backed_tail; [lia|]|by apply apart_tail; [lia|]|by apply unshared_tail; [lia|]|lia|lia|].
    exists σ'. split_and!; try done. by apply (copied_out_app L t (ram σ) m1 _ va p len n); [lia|..].
Qed.

(** ** copy_in *)

Definition copied_in (L : Z → Z) (m m' : mem) (dst va len : Z) : Prop :=
  (∀ i, 0 ≤ i < len → byte_at m' (dst + i) = byte_at m (uaddr L (va + i))) ∧
  (∀ y, ¬ dst ≤ y < dst + len → byte_at m' y = byte_at m y).

(** Readable by the user. *)
Definition user_range (L : Z → Z) (va len : Z) : Prop := ∀ x, va ≤ x < va + len → is_super_plv (L x) = false.

Definition no_tables t (dst len : Z) : Prop := ∀ y, dst ≤ y < dst + len → ¬ in_tables t y.

Lemma copy_in_chunk σ lo hi u root t L dst va len : space σ lo hi u root t →
  (∀ v, 0 ≤ v → leaf (ram σ) t v = L v) → 0 ≤ va → 0 < len → va + len ≤ 2 ^ va_bits →
  backed L t va len → apart L va dst len → no_tables t dst len → 0 ≤ dst → dst + len < 2 ^ 64 →
  let n := chunk va len in
  let m1 := store_bytes (ram σ) dst (load_bytes (ram σ) (uaddr L va) (Z.to_nat n)) in
  Klib.memmove dst (uaddr L va) n (ram σ) = Ret dst m1 ∧ copied_in L (ram σ) m1 dst va n ∧
  space (mkPmm (_allocator σ) m1) lo hi u root t ∧ (∀ v, 0 ≤ v → leaf m1 t v = L v) ∧
  (∀ x, va ≤ x < va + len → byte_at m1 (uaddr L x) = byte_at (ram σ) (uaddr L x)).
Proof.
  intros Sp HL Hva Hlen Htop Hb Hap Hnt Hd Hdl n m1.
  destruct (chunk_range va len Hlen) as (Hn & Hoff & _). fold n in Hn, Hoff.
  destruct (first_page_range t L va len Hlen Hb) as (Hk & F1 & F2 & F3 & F4 & _). fold n in F2, F4.
  pose proof (Hap va ltac:(lia)) as Hdis. assert (mem_ok (ram σ)) as Hm by apply (sp_pmm _ _ _ _ _ _ Sp).
  assert (∀ y, byte_at m1 y = if decide (dst ≤ y < dst + n) then byte_at (ram σ) (uaddr L va + (y - dst)) else byte_at (ram σ) y) as Hm1.
  { intros y. unfold m1. rewrite store_bytes_at, length_load. destruct (decide _) as [Hy|Hy].
    - rewrite decide_True by lia. rewrite load_bytes_lookup by lia. cbn. f_equal. lia.
    - by rewrite decide_False by lia. }
  destruct (space_write σ lo hi u root t m1 Sp) as [Sp1 HL1].
  { unfold m1. apply mem_ok_bytes; [done|by apply bytes_load]. }
  { intros y Hy. rewrite Hm1, decide_False; [done|]. intros Hin. by apply (Hnt y); [lia|]. }
  split_and!; [|split| done | |].
  - apply KlibThm.memmove_run; [done|lia..].
  - intros j Hj. rewrite (uaddr_chunk σ t L HL va len Hva Hlen (va + j)) by (fold n; lia).
    rewrite Hm1, decide_True by lia. f_equal. lia.
  - intros y Hy. by rewrite Hm1, decide_False.
  - intros v Hv. rewrite HL1 by done. by apply HL.
  - intros x Hx. rewrite Hm1, decide_False; [done|]. specialize (Hap x Hx).
    pose proof (Z.mod_pos_bound x 4096 ltac:(lia)). unfold uaddr. lia.
Qed.

Lemma copied_in_app L m m1 m2 dst va len n : 0 ≤ n ≤ len → copied_in L m m1 dst va n →
  (∀ x, va ≤ x < va + len → byte_at m1 (uaddr L x) = byte_at m (uaddr L x)) →
  copied_in L m1 m2 (dst + n) (va + n) (len - n) → copied_in L m m2 dst va len.
Proof.
  intros Hn [C1 K1] Hsrc [C2 K2]. split.
  - intros i Hi. destruct (Z.lt_ge_cases i n).
    + rewrite K2 by lia. apply C1. lia.
    + replace (dst + i) with (dst + n + (i - n)) by lia. rewrite C2 by lia.
      replace (va + n + (i - n)) with (va + i) by lia. apply Hsrc. lia.
  - intros y Hy. rewrite K2 by lia. apply K1. lia.
Qed.

Lemma copy_in_round f σ lo hi u root t L dst va len : space σ lo hi u root t →
  (∀ v, 0 ≤ v → leaf (ram σ) t v = L v) → 0 ≤ va → 0 < len → va + len ≤ 2 ^ va_bits →
  backed L t va len → user_range L va len → apart L va dst len → no_tables t dst len → 0 ≤ dst → dst + len < 2 ^ 64 →
  let n := chunk va len in
  copy_in_loop (S f) (pt_at root) dst va len σ =
    copy_in_loop f (pt_at root) (dst + n) (va - va mod 4096 + 4096) (len - n)
      (mkPmm (_allocator σ) (store_bytes (ram σ) dst (load_bytes (ram σ) (uaddr L va) (Z.to_nat n)))).
Proof.
  intros Sp HL Hva Hpos Htop Hb Hus Hap Hnt Hd Hdl n. cbn [copy_in_loop]. rewrite (proj2 (Z.ltb_lt 0 len)) by done.
  pose proof (va_limit (PL := PL)). destruct (off_range va ltac:(lia)) as (Er & E1 & E2).
  destruct (copy_in_chunk σ lo hi u root t L dst va len Sp HL Hva Hpos Htop Hb Hap Hnt Hd Hdl) as (Rm & _).
  destruct (chunk_range va len Hpos) as (Hn & _ & _). fold n in Hn, Rm.
  destruct (first_page_range t L va len Hpos Hb) as (Hk & F1 & F2 & F3 & F4 & F5 & F6).
  destruct (round_leaf σ t L HL va len Hva Hpos Htop) as [Hr El].
  destruct (round_mapped σ t L HL va len Hva Hpos Htop Hb) as [Hbt Hland].
  pose proof (walk_addr_find σ root t (page_round_down va) (sp_pt _ _ _ _ _ _ Sp) Hr Hbt) as Rw. mstep Rw.
  destruct (Hb va ltac:(lia)) as (Hv & _). rewrite HL, El by done. unfold resolve.
  rewrite Hv, (Hus va ltac:(lia)), Hland, Z.lor_0_r. cbn [negb].
  fold (frame_of (L va)). rewrite (proj2 (Z.eqb_neq (frame_of (L va)) 0)) by (unfold kpage in Hk; lia).
  rewrite E2, E1, F6. fold (chunk va len). fold n.
  mstep (lib_run _ σ _ _ Rm).
  rewrite (wrap64_small (dst + n)), (wrap64_small (len - n)) by lia.
  rewrite Er. unfold page_size. rewrite (wrap64_small (va - va mod 4096 + 4096)); [done|].
  pose proof (Z.mod_pos_bound va 4096 ltac:(lia)). lia.
Qed.

Lemma copy_in_loop_run fuel σ lo hi u root t L dst va len : space σ lo hi u root t →
  (∀ v, 0 ≤ v → leaf (ram σ) t v = L v) → 0 ≤ va → 0 ≤ len < Z.of_nat fuel → va + len ≤ 2 ^ va_bits →
  backed L t va len → user_range L va len → apart L va dst len → no_tables t dst len → 0 ≤ dst → dst + len < 2 ^ 64 →
  ∃ σ', copy_in_loop fuel (pt_at root) dst va len σ = Ret 0 σ' ∧ space σ' lo hi u root t ∧
    (∀ v, 0 ≤ v → leaf (ram σ') t v = L v) ∧ copied_in L (ram σ) (ram σ') dst va len.
Proof.
  revert σ dst va len. induction fuel as [|f IH]; intros σ dst va len Sp HL Hva Hlen Htop Hb Hus Hap Hnt Hd Hdl; [lia|].
  destruct (Z.lt_ge_cases 0 len) as [Hpos|Hz].
  2: { exists σ. assert (len = 0) as -> by lia. split_and!; try done. split; [lia|done]. }
  destruct (copy_in_chunk σ lo hi u root t L dst va len Sp HL Hva Hpos Htop Hb Hap Hnt Hd Hdl) as (Rm & C1 & Sp1 & HL1 & Hsrc).
  rewrite (copy_in_round f σ lo hi u root t L) by done.
  destruct (chunk_range va len Hpos) as (Hn & Hoff & Hnext). set (n := chunk va len) in *. set (m1 := store_bytes _ _ _) in *.
  destruct (Z.eq_dec n len) as [En|Hne].
  - exists (mkPmm (_allocator σ) m1). replace (len - n) with 0 by lia. destruct f as [|f']; [lia|].
    cbn [copy_in_loop Z.ltb Z.compare]. split_and!; try done. by rewrite <- En.
  - rewrite Hnext by lia.
    destruct (IH (mkPmm (_allocator σ) m1) (dst + n) (va + n) (len - n) Sp1 HL1) as (σ' & R & Sp' & HL' & C2);
      [lia|lia|lia|by apply backed_tail; [lia|]|intros x Hx; apply Hus; lia|by apply apart_tail; [lia|]|intros y Hy; apply Hnt; lia|lia|lia|].
    exists σ'. split_and!; try done. by apply (copied_in_app L (ram σ) m1 _ dst va len n); [lia|..].
Qed.

End copy.
End VmmCopy.
