(* ===== verification/VmmFork.v ===== *)
(** Copying an address space ([vm_copy], used by fork): the copy is complete
    or rolled back. *)

From Stdlib Require Import ZArith Lia.
From stdpp Require Import base numbers gmap list.
From S2P Require Import Prelude Page Mem Klib KlibThm Pmm PmmThm PageTable PtInv PtWalk Vmm VmmMap VmmCopy.
Import Pmm PmmThm PT PtInv PtWalk Vmm VmmMap VmmCopy.

Set Default Goal Selector "!".
Open Scope Z_scope.

#[local] Opaque fill_words store64 load64.

Module VmmFork.

Section fork.
Context `{PL : PortLaws} {A : Type} `{PA : PageAllocatorLaws A}.
Implicit Types (σ : PhysicalMemoryManager A) (t : gmap (list Z) Z) (u : gmap Z Z).

(** Byte [x] lies in a block in use. *)
Definition covered u (x : Z) : Prop := ∃ b n, u !! b = Some n ∧ b ≤ x < b + 4096 * n.

Lemma fresh_apart σ lo hi u c n x : pmm_rep σ lo hi (<[c := n]> u) → u !! c = None →
  covered u x → ¬ c ≤ x < c + 4096.
Proof.
  intros [Ha _] Hc (b & k & Hb & Hx) Hin. destruct (pa_range _ _ _ _ c n Ha (lookup_insert_eq _ _ _)) as (_ & _ & Hn & _).
  assert (c ≠ b) as Hne by (intros ->; congruence).
  destruct (pa_disjoint _ _ _ _ c n b k Ha (lookup_insert_eq _ _ _)); [by rewrite lookup_insert_ne|done|lia..].
Qed.

Lemma table_covered σ lo hi u root t x : space σ lo hi u root t → in_tables t x → covered u x.
Proof.
  intros Sp (p & b & Hb & Hx). destruct (sp_own _ _ _ _ _ _ Sp p b Hb) as [n Hn]. exists b, n. split; [done|].
  destruct (pa_range _ _ _ _ b n (proj1 (sp_pmm _ _ _ _ _ _ Sp)) Hn) as (_ & _ & ? & _). lia.
Qed.

(** A fresh page keeps an address space as it is. *)
Lemma space_alloc σ lo hi u root t c n σ1 : space σ lo hi u root t → u !! c = None →
  pmm_rep σ1 lo hi (<[c := n]> u) → (∀ x, ¬ c ≤ x < c + 4096 → byte_at (ram σ1) x = byte_at (ram σ) x) →
  space σ1 lo hi (<[c := n]> u) root t ∧ ∀ va, 0 ≤ va → leaf (ram σ1) t va = leaf (ram σ) t va.
Proof.
  intros Sp Hc Hr E.
  assert (∀ x, in_tables t x → byte_at (ram σ1) x = byte_at (ram σ) x) as Et.
  { intros x Hx. apply E. apply (fresh_apart σ1 lo hi u c n x Hr Hc). by apply (table_covered σ lo hi u root t). }
  split.
  - split; [done|apply (sp_window _ _ _ _ _ _ Sp)|by apply (pt_ok_frame (ram σ)), Et; apply (sp_pt _ _ _ _ _ _ Sp)|].
    intros p b Hb. rewrite lookup_insert_is_Some'. right. by apply (sp_own _ _ _ _ _ _ Sp p).
  - intros va Hva. by apply (leaf_frame (ram σ) (ram σ1) root); [apply (sp_pt _ _ _ _ _ _ Sp)|..].
Qed.

(** Another space over the same memory is kept by an operation on this one. *)
Lemma space_other σ lo hi u t σ' u' t' r2 t2 : space σ lo hi u r2 t2 → pmm_rep σ' lo hi u' → adds σ u t σ' u' t' →
  (∀ p b, t' !! p = Some b → kpage b) → (∀ p q b c, t !! p = Some b → t2 !! q = Some c → b ≠ c) →
  space σ' lo hi u' r2 t2 ∧ (∀ va, 0 ≤ va → leaf (ram σ') t2 va = leaf (ram σ) t2 va) ∧
  (∀ p q b c, t' !! p = Some b → t2 !! q = Some c → b ≠ c).
Proof.
  intros Sp Hr Ad Hk Hd. pose proof (sp_pt _ _ _ _ _ _ Sp) as Hok. pose proof (sp_own _ _ _ _ _ _ Sp) as Ho.
  pose proof (adds_other σ u t σ' u' t' r2 t2 Ad Hok Hk Ho Hd) as E. split_and!.
  - split; [done|apply (sp_window _ _ _ _ _ _ Sp)|by apply (pt_ok_frame (ram σ))|].
    intros p b Hb. destruct (Ho p b Hb) as [n Hn]. exists n. by apply (lookup_weaken u u' b n), (ad_used _ _ _ _ _ _ Ad).
  - intros va Hva. by apply (leaf_frame (ram σ) (ram σ') r2).
  - intros p q b c Hb Hc. destruct (ad_new _ _ _ _ _ _ Ad p b Hb) as [Hb'|Hb']; [by apply (Hd p q)|].
    intros ->. destruct (Ho q c Hc) as [n Hn]. congruence.
Qed.

(** ** The loop invariant *)

Section loop.
Context (lo hi r1 r2 start : Z) (t1 : gmap (list Z) Z).
Context (σ0 : PhysicalMemoryManager A) (u0 : gmap Z Z) (t20 : gmap (list Z) Z) (L1 L2 : Z → Z) (N : Z).
Context (Hstart : 0 ≤ start ∧ start mod 4096 = 0) (Htop : start + 4096 * N ≤ 2 ^ va_bits).

(** The pages to copy: mapped to pages in use that are no tables of the copy. *)
Context (Hold : ∀ i, 0 ≤ i < N → let d := L1 (start + 4096 * i) in
  0 ≤ d < 2 ^ 64 ∧ is_valid d = true ∧ is_dir_page d = false ∧ is_present d = true ∧ kpage (frame_of d) ∧
  ∀ x, frame_of d ≤ x < frame_of d + 4096 → covered u0 x ∧ ¬ in_tables t20 x).
(** The pages of the copy are unmapped. *)
Context (Hnew : ∀ i, 0 ≤ i < N → is_valid (L2 (start + 4096 * i)) = false).

Record copy_inv (k : Z) σ u t2 : Prop := {
  ci_s1 : space σ lo hi u r1 t1;
  ci_s2 : space σ lo hi u r2 t2;
  ci_dis : ∀ p q b c, t2 !! p = Some b → t1 !! q = Some c → b ≠ c;
  ci_l1 : ∀ va, uva va → leaf (ram σ) t1 va = L1 va;
  ci_l2 : ∀ va, uva va → ¬ start ≤ va < start + 4096 * k → leaf (ram σ) t2 va = L2 va;
  ci_new : ∀ i, 0 ≤ i < k → ∃ c,
    leaf (ram σ) t2 (start + 4096 * i) = entry c (get_flags (L1 (start + 4096 * i))) ∧ kpage c ∧
    is_Some (u !! c) ∧ u0 !! c = None ∧ (∀ p, t2 !! p ≠ Some c) ∧
    ∀ o, 0 ≤ o < 4096 → byte_at (ram σ) (c + o) = byte_at (ram σ0) (frame_of (L1 (start + 4096 * i)) + o);
  ci_inj : ∀ i j, 0 ≤ i < k → 0 ≤ j < k →
    frame_of (leaf (ram σ) t2 (start + 4096 * i)) = frame_of (leaf (ram σ) t2 (start + 4096 * j)) → i = j;
  ci_used : u0 ⊆ u;
  ci_tab : t20 ⊆ t2 ∧ ∀ p b, t2 !! p = Some b → t20 !! p = Some b ∨ u0 !! b = None;
  ci_src : ∀ b, is_Some (u !! b) → is_Some (u0 !! b) ∨ (∃ p, t2 !! p = Some b) ∨
    ∃ i, 0 ≤ i < k ∧ b = frame_of (leaf (ram σ) t2 (start + 4096 * i));
  ci_mem : ∀ x, covered u0 x → ¬ in_tables t20 x → byte_at (ram σ) x = byte_at (ram σ0) x
}.

Lemma flags_of d : 0 ≤ d < 2 ^ 64 → flags_ok (get_flags d).
Proof. intros Hd. by apply get_flags_ok. Qed.

Lemma page_uva i : 0 ≤ i < N → uva (start + 4096 * i) ∧ (start + 4096 * i) mod 4096 = 0.
Proof.
  intros Hi. split; [unfold uva; lia|]. rewrite (Z.mul_comm 4096), Z.mod_add by lia. apply Hstart.
Qed.

(** The invariant after one page, given what [map_pages] did. *)
Lemma copy_inv_step k σ u t2 c n σ2 σ3 u3 t3 : copy_inv k σ u t2 → 0 ≤ k < N →
  let va := start + 4096 * k in
  u !! c = None → kpage c →
  space σ2 lo hi (<[c := n]> u) r1 t1 → space σ2 lo hi (<[c := n]> u) r2 t2 →
  (∀ v, uva v → leaf (ram σ2) t1 v = leaf (ram σ) t1 v) →
  (∀ v, uva v → leaf (ram σ2) t2 v = leaf (ram σ) t2 v) →
  (∀ x, ¬ c ≤ x < c + 4096 → byte_at (ram σ2) x = byte_at (ram σ) x) →
  (∀ o, 0 ≤ o < 4096 → byte_at (ram σ2) (c + o) = byte_at (ram σ) (frame_of (L1 va) + o)) →
  space σ3 lo hi u3 r2 t3 → adds σ2 (<[c := n]> u) t2 σ3 u3 t3 →
  (∀ x, uva x → leaf (ram σ3) t3 x = mapped (leaf (ram σ2) t2) va 1 c (get_flags (L1 va)) x) →
  copy_inv (k + 1) σ3 u3 t3.
Proof.
  intros I Hk va Hc Hkc S1 S2 E1 E2 Em Ec S3 Ad Hl3.
  destruct (Hold k Hk) as (Hdr & Hdv & Hdd & Hdp & Hkf & Hfr). fold va in Hdr, Hdv, Hdd, Hdp, Hkf, Hfr.
  destruct (page_uva k Hk) as [Huva Hal]. fold va in Huva, Hal.
  destruct (space_other σ2 lo hi (<[c:=n]> u) t2 σ3 u3 t3 r1 t1 S1 (sp_pmm _ _ _ _ _ _ S3) Ad) as (S1' & E1' & Dis').
  { intros p b Hb. by apply (pt_page _ _ _ (sp_pt _ _ _ _ _ _ S3) p). }
  { apply I. }
  assert (u0 ⊆ u3) as Hu3.
  { etrans; [apply (ci_used _ _ _ _ I)|]. etrans; [by apply (insert_subseteq u c n)|apply (ad_used _ _ _ _ _ _ Ad)]. }
  assert (u0 !! c = None) as Hc0 by (by apply (lookup_weaken_None u0 u), (ci_used _ _ _ _ I)).
  assert (∀ p b, t3 !! p = Some b → t20 !! p = Some b ∨ u0 !! b = None) as Htab.
  { intros p b Hb. destruct (ad_new _ _ _ _ _ _ Ad p b Hb) as [Hb'|Hb']; [by apply (ci_tab _ _ _ _ I)|].
    right. apply lookup_insert_None in Hb' as [Hb' _]. by apply (lookup_weaken_None u0 u), (ci_used _ _ _ _ I). }
  assert (∀ p, t3 !! p ≠ Some c) as Hct.
  { intros p Hp. destruct (ad_new _ _ _ _ _ _ Ad p c Hp) as [Hb'|Hb'].
    - destruct (sp_own _ _ _ _ _ _ (ci_s2 _ _ _ _ I) p c Hb'). congruence.
    - by rewrite lookup_insert_eq in Hb'. }
  (* bytes of a page in use that is no table of the copy are unchanged *)
  assert (∀ q x, is_Some (u !! q) → kpage q → (∀ p, t2 !! p ≠ Some q) → q ≤ x < q + 4096 →
    byte_at (ram σ3) x = byte_at (ram σ) x) as Hkeep.
  { intros q x [nq Hq] Hkq Hqt Hx. rewrite (ad_mem _ _ _ _ _ _ Ad).
    - apply Em. apply (page_apart q c); [apply Hkq|apply Hkc|intros ->; congruence|done].
    - intros (p & b & Hb & Hxb). pose proof (pt_page _ _ _ (sp_pt _ _ _ _ _ _ S3) p b Hb) as Hkb.
      apply (page_apart q b x); [apply Hkq|apply Hkb| |done|done]. intros <-.
      destruct (ad_new _ _ _ _ _ _ Ad p q Hb) as [Hb'|Hb']; [by apply (Hqt p)|].
      apply lookup_insert_None in Hb' as [Hb' _]. congruence. }
  assert (∀ x, covered u0 x → ¬ in_tables t20 x → byte_at (ram σ3) x = byte_at (ram σ0) x) as Hmem.
  { intros x Hcov Hnt. rewrite <- (ci_mem _ _ _ _ I x Hcov Hnt). rewrite (ad_mem _ _ _ _ _ _ Ad).
    - apply Em, (fresh_apart σ2 lo hi u c n x (sp_pmm _ _ _ _ _ _ S2) Hc).
      destruct Hcov as (b & nb & Hb & Hx). exists b, nb. split; [|done]. by apply (lookup_weaken u0 u), (ci_used _ _ _ _ I).
    - intros (p & b & Hb & Hx). destruct (Htab p b Hb) as [Hb'|Hb']; [apply Hnt; by exists p, b|].
      destruct (sp_own _ _ _ _ _ _ S3 p b Hb) as [nb Hnb]. destruct Hcov as (b0 & n0 & Hb0 & Hx0).
      pose proof (lookup_weaken _ _ _ _ Hb0 Hu3) as Hb03. assert (b ≠ b0) as Hne by (intros ->; congruence).
      pose proof (proj1 (sp_pmm _ _ _ _ _ _ S3)) as Hrep.
      destruct (pa_range _ _ _ _ b nb Hrep Hnb) as (_ & _ & ? & _).
      destruct (pa_disjoint _ _ _ _ b nb b0 n0 Hrep Hnb Hb03 Hne); lia. }
  assert (∀ x, uva x → leaf (ram σ3) t3 x = if decide (x / 4096 = va / 4096) then entry c (get_flags (L1 va)) else leaf (ram σ) t2 x) as Hl3'.
  { intros x Hx. rewrite Hl3 by done. unfold mapped. destruct (decide (x / 4096 = va / 4096)) as [E|E].
    - rewrite decide_True by (Z.div_mod_to_equations; lia). rewrite E. f_equal. Z.div_mod_to_equations; lia.
    - rewrite decide_False by (Z.div_mod_to_equations; lia). by apply E2. }
  assert (∀ i, 0 ≤ i < k + 1 → leaf (ram σ3) t3 (start + 4096 * i) =
    if decide (i = k) then entry c (get_flags (L1 va)) else leaf (ram σ) t2 (start + 4096 * i)) as Hli.
  { intros i Hi. rewrite Hl3' by (apply page_uva; lia). apply decide_ext. unfold va.
    rewrite !(Z.mul_comm 4096), !Z.div_add by lia. lia. }
  pose proof (entry_pa c _ Hkc (flags_of _ Hdr)) as Epa.
  split; try done.
  - intros v Hv. rewrite E1' by apply Hv. rewrite E1 by done. by apply I.
  - intros v Hv Hout. rewrite Hl3' by done. rewrite decide_False by (Z.div_mod_to_equations; lia).
    apply (ci_l2 _ _ _ _ I); [done|lia].
  - intros i Hi. rewrite Hli by done. destruct (decide (i = k)) as [->|Hik].
    + exists c. split_and!; try done.
      * exists n. apply (lookup_weaken (<[c:=n]> u)); [apply lookup_insert_eq|apply (ad_used _ _ _ _ _ _ Ad)].
      * intros o Ho. assert (frame_of (L1 va) ≤ frame_of (L1 va) + o < frame_of (L1 va) + 4096) as Hin by lia.
        destruct (Hfr _ Hin) as [Hcov Hnt].
        rewrite (ad_mem _ _ _ _ _ _ Ad).
        -- rewrite Ec by done. apply (ci_mem _ _ _ _ I); done.
        -- intros (p & b & Hb & Hx). pose proof (pt_page _ _ _ (sp_pt _ _ _ _ _ _ S3) p b Hb) as Hkb.
           apply (page_apart c b (c + o)); [apply Hkc|apply Hkb| |lia|done]. intros <-. by apply (Hct p).
    + destruct (ci_new _ _ _ _ I i ltac:(lia)) as (d & Hd & Hkd & Hud & Hd0 & Hdt & Hcont).
      exists d. split_and!; try done.
      * destruct Hud as [nd Hnd]. exists nd. apply (lookup_weaken (<[c:=n]> u)); [|apply (ad_used _ _ _ _ _ _ Ad)].
        rewrite lookup_insert_ne; [done|]. intros ->. congruence.
      * intros p Hp. destruct (ad_new _ _ _ _ _ _ Ad p d Hp) as [Hb'|Hb']; [by apply (Hdt p)|].
        apply lookup_insert_None in Hb' as [Hb' _]. destruct Hud. congruence.
      * intros o Ho. rewrite <- Hcont by done. apply (Hkeep d); [done..|lia].
  - intros i j Hi Hj. rewrite !Hli by done.
    assert (∀ i, 0 ≤ i < k → frame_of (leaf (ram σ) t2 (start + 4096 * i)) ≠ c) as Hnc.
    { intros l Hl E. destruct (ci_new _ _ _ _ I l Hl) as (d & Hd & Hkd & [nd Hnd] & _).
      destruct (Hold l ltac:(lia)) as (Hlr & _). rewrite Hd in E. unfold frame_of in E.
      rewrite entry_pa in E by (done || by apply flags_of). congruence. }
    destruct (decide (i = k)) as [->|Hik], (decide (j = k)) as [->|Hjk]; try done.
    + intros E. unfold frame_of at 1 in E. rewrite Epa in E. by destruct (Hnc j ltac:(lia)).
    + intros E. unfold frame_of at 2 in E. rewrite Epa in E. by destruct (Hnc i ltac:(lia)).
    + apply (ci_inj _ _ _ _ I); lia.
  - split; [|done]. etrans; [apply (ci_tab _ _ _ _ I)|apply (ad_tables _ _ _ _ _ _ Ad)].
  - intros b Hb. destruct (ad_src _ _ _ _ _ _ Ad b Hb) as [[nb Hnb]|Hp]; [|by right; left].
    apply lookup_insert_Some in Hnb as [[<- _]|[_ Hnb]].
    + right; right. exists k. split; [lia|]. rewrite Hli, decide_True by lia. unfold frame_of. by rewrite Epa.
    + destruct (ci_src _ _ _ _ I b (mk_is_Some _ _ Hnb)) as [?|[[p Hp]|(i & Hi & ->)]]; [by left|right; left|right; right].
      * exists p. by apply (lookup_weaken t2 t3 p b Hp), (ad_tables _ _ _ _ _ _ Ad).
      * exists i. split; [lia|]. by rewrite Hli, decide_False by lia.
Qed.

(** ** The pages copied so far, as [vm_unmap] sees them *)

Lemma copied_valid k σ u t2 i : copy_inv k σ u t2 → k ≤ N → 0 ≤ i < k →
  is_valid (leaf (ram σ) t2 (start + 4096 * i)) = true ∧ is_dir_page (leaf (ram σ) t2 (start + 4096 * i)) = false.
Proof.
  intros I Hk Hi. destruct (ci_new _ _ _ _ I i Hi) as (c & -> & Hkc & _).
  destruct (Hold i ltac:(lia)) as (Hdr & Hdv & Hdd & _). pose proof (flags_of _ Hdr) as Hf.
  rewrite entry_valid, entry_dir by done. rewrite <- pte_valid_flags, <- pte_dir_flags by lia. done.
Qed.

Lemma copied_freeable k σ u t2 : copy_inv k σ u t2 → 0 ≤ k ≤ N →
  freeable u t2 (frames (leaf (ram σ) t2) start (Z.to_nat k)).
Proof.
  intros I Hk. split.
  - apply NoDup_fmap_2_strong; [|apply NoDup_seq]. intros i j Hi%elem_of_seq Hj%elem_of_seq E.
    apply (ci_inj _ _ _ _ I) in E; lia.
  - intros q Hq. apply list_elem_of_fmap in Hq as (i & -> & Hi%elem_of_seq).
    destruct (ci_new _ _ _ _ I (Z.of_nat i) ltac:(lia)) as (c & -> & Hkc & Hu & _ & Ht & _).
    destruct (Hold (Z.of_nat i) ltac:(lia)) as (Hdr & _). unfold frame_of. rewrite entry_pa by (done || by apply flags_of).
    done.
Qed.

(** ** Rolling back *)

Context (HL2 : ∀ va, uva va → L2 va = L2 (va / 4096 * 4096)) (Ho1 : tables_owned t1 u0).

Record rolled_back σ u t2 : Prop := {
  rb_s1 : space σ lo hi u r1 t1;
  rb_s2 : space σ lo hi u r2 t2;
  rb_l1 : ∀ va, uva va → leaf (ram σ) t1 va = L1 va;
  rb_l2 : ∀ va, uva va → is_valid (leaf (ram σ) t2 va) = is_valid (L2 va) ∧
    (is_valid (L2 va) = true → leaf (ram σ) t2 va = L2 va);
  rb_used : u0 ⊆ u;
  rb_src : ∀ b, is_Some (u !! b) → is_Some (u0 !! b) ∨ ∃ p, t2 !! p = Some b;
  rb_mem : ∀ x, covered u0 x → ¬ in_tables t20 x → byte_at (ram σ) x = byte_at (ram σ0) x
}.

Lemma frame_new k σ u t2 q : copy_inv k σ u t2 → 0 ≤ k ≤ N →
  q ∈ frames (leaf (ram σ) t2) start (Z.to_nat k) → u0 !! q = None.
Proof.
  intros I Hk Hq. apply list_elem_of_fmap in Hq as (i & -> & Hi%elem_of_seq).
  destruct (ci_new _ _ _ _ I (Z.of_nat i) ltac:(lia)) as (c & -> & Hkc & _ & Hc0 & _).
  destruct (Hold (Z.of_nat i) ltac:(lia)) as (Hdr & _). unfold frame_of. by rewrite entry_pa by (done || by apply flags_of).
Qed.

Lemma rollback k σ u t2 : copy_inv k σ u t2 → 0 ≤ k ≤ N →
  ∃ σ' u', vm_unmap (pt_at r2) start k true σ = Ret tt σ' ∧ rolled_back σ' u' t2.
Proof.
  intros I Hk. pose proof (va_limit (PL := PL)). destruct Hstart as [Hs0 Hsa].
  destruct (unmap_loop_run (Z.to_nat k) σ lo hi u r2 t2 start true (ci_s2 _ _ _ _ I) Hsa Hs0)
    as (σ' & u' & R & S2 & Eu & Hl & Hm).
  { lia. }
  { intros i Hi. apply (copied_valid k σ u); [done|lia..]. }
  { intros _. by apply copied_freeable. }
  rewrite Z2Nat.id in * by lia. exists σ', u'. split.
  { unfold vm_unmap, page_size. rewrite Hsa. cbn [Z.eqb negb].
    rewrite (wrap64_small (k * 4096)), (wrap64_small (start + k * 4096)) by lia.
    by replace (start + k * 4096) with (start + 4096 * k) by lia. }
  assert (∀ b, u' !! b = if decide (b ∈ frames (leaf (ram σ) t2) start (Z.to_nat k)) then None else u !! b) as Hu'.
  { intros b. rewrite Eu. apply without_lookup. }
  assert (u0 ⊆ u') as Hsub.
  { apply map_subseteq_spec. intros b n Hb. rewrite Hu', decide_False.
    - by apply (lookup_weaken u0 u), (ci_used _ _ _ _ I).
    - intros Hin. by rewrite (frame_new k σ u t2 b I Hk Hin) in Hb. }
  assert (∀ x, in_tables t1 x → byte_at (ram σ') x = byte_at (ram σ) x) as Et1.
  { intros x (p & b & Hb & Hx). apply Hm. intros (q & c & Hc & Hx').
    apply (page_apart b c x); [apply (pt_page _ _ _ (sp_pt _ _ _ _ _ _ (ci_s1 _ _ _ _ I)) p b Hb)
      |apply (pt_page _ _ _ (sp_pt _ _ _ _ _ _ S2) q c Hc)| |done|done].
    intros ->. by apply (ci_dis _ _ _ _ I q p c c). }
  split; try done.
  - split; [apply S2|apply S2|by apply (pt_ok_frame (ram σ)), Et1; apply (ci_s1 _ _ _ _ I)|].
    intros p b Hb. destruct (Ho1 p b Hb) as [n Hn]. exists n. by apply (lookup_weaken u0 u').
  - intros va Hva. rewrite (leaf_frame (ram σ) (ram σ') r1 t1 va) by (done || apply Hva || apply (ci_s1 _ _ _ _ I)). by apply I.
  - intros va Hva. rewrite Hl by done. unfold unmapped. destruct (decide (start ≤ va < start + 4096 * k)) as [Hin|Hin].
    + assert (is_valid (L2 va) = false) as Hv.
      { rewrite HL2 by done. specialize (Hnew (va / 4096 - start / 4096)).
        replace (start + 4096 * (va / 4096 - start / 4096)) with (va / 4096 * 4096) in Hnew by (Z.div_mod_to_equations; lia).
        apply Hnew. Z.div_mod_to_equations; lia. }
      rewrite Hv, pte_zero_invalid. done.
    + by rewrite (ci_l2 _ _ _ _ I).
  - intros b [n Hb]. rewrite Hu' in Hb. destruct (decide _) as [|Hin]; [done|].
    destruct (ci_src _ _ _ _ I b (mk_is_Some _ _ Hb)) as [?|[?|(i & Hi & ->)]]; [by left|by right|].
    destruct Hin. apply list_elem_of_fmap. exists (Z.to_nat i). rewrite Z2Nat.id by lia. split; [done|].
    apply elem_of_seq. lia.
  - intros x Hcov Hnt. rewrite <- (ci_mem _ _ _ _ I x Hcov Hnt). apply Hm. intros (p & b & Hb & Hx).
    destruct (proj2 (ci_tab _ _ _ _ I) p b Hb) as [Hb'|Hb']; [apply Hnt; by exists p, b|].
    destruct (sp_own _ _ _ _ _ _ (ci_s2 _ _ _ _ I) p b Hb) as [nb Hnb]. destruct Hcov as (b0 & n0 & Hb0 & Hx0).
    pose proof (lookup_weaken _ _ _ _ Hb0 (ci_used _ _ _ _ I)) as Hb03. assert (b ≠ b0) as Hne by (intros ->; congruence).
    pose proof (proj1 (sp_pmm _ _ _ _ _ _ (ci_s2 _ _ _ _ I))) as Hrep.
    destruct (pa_range _ _ _ _ b nb Hrep Hnb) as (_ & _ & ? & _).
    destruct (pa_disjoint _ _ _ _ b nb b0 n0 Hrep Hnb Hb03 Hne); lia.
Qed.

(** ** One page *)

(** The state after the page's memory is allocated and filled. *)
Lemma copy_fill k σ u t2 c n σ1 : copy_inv k σ u t2 → 0 ≤ k < N → u !! c = None → c ≠ 0 →
  pmm_rep σ1 lo hi (<[c := n]> u) → ram σ1 = fill_words 512 c 0 (ram σ) →
  let q := frame_of (L1 (start + 4096 * k)) in
  kpage c ∧ ∃ σ2, lib (Klib.memmove c q page_size) σ1 = Ret c σ2 ∧
    space σ2 lo hi (<[c := n]> u) r1 t1 ∧ space σ2 lo hi (<[c := n]> u) r2 t2 ∧
    (∀ v, uva v → leaf (ram σ2) t1 v = leaf (ram σ) t1 v) ∧
    (∀ v, uva v → leaf (ram σ2) t2 v = leaf (ram σ) t2 v) ∧
    (∀ x, ¬ c ≤ x < c + 4096 → byte_at (ram σ2) x = byte_at (ram σ) x) ∧
    (∀ o, 0 ≤ o < 4096 → byte_at (ram σ2) (c + o) = byte_at (ram σ) (q + o)).
Proof.
  intros I Hk Hc Hc0 Hr Em q. destruct (Hold k Hk) as (_ & _ & _ & _ & Hkq & Hfr). fold q in Hkq, Hfr.
  pose proof (block_kpage σ1 lo hi _ c n Hr (sp_window _ _ _ _ _ _ (ci_s1 _ _ _ _ I)) (lookup_insert_eq _ _ _)) as Hkc.
  assert (c ≠ q) as Hcq.
  { intros E. apply (fresh_apart σ1 lo hi u c n q Hr Hc); [|lia]. assert (q ≤ q < q + 4096) as Hin by lia.
    destruct (Hfr q Hin) as [(b & nb & Hb & Hx) _]. exists b, nb. split; [|done]. by apply (lookup_weaken u0 u), (ci_used _ _ _ _ I). }
  assert (q + 4096 ≤ c ∨ c + 4096 ≤ q) as Hdis.
  { destruct Hkc as (_ & _ & _ & Hac), Hkq as (_ & _ & _ & Haq). Z.div_mod_to_equations. lia. }
  pose proof (window_range (PortLaws := PL)). pose proof Hkc as (? & ? & ? & _). pose proof Hkq as (? & ? & ? & _).
  split; [done|]. set (m2 := store_bytes (ram σ1) c (load_bytes (ram σ1) q 4096)).
  assert (∀ x, byte_at (ram σ1) x = if decide (c ≤ x < c + 4096) then 0 else byte_at (ram σ) x) as Hm1.
  { intros x. rewrite Em. apply fill_words_at. }
  assert (∀ x, byte_at m2 x = if decide (c ≤ x < c + 4096) then byte_at (ram σ1) (q + (x - c)) else byte_at (ram σ1) x) as Hm2.
  { intros x. unfold m2. rewrite store_bytes_at, length_load. change (Z.of_nat 4096) with 4096.
    destruct (decide (c ≤ x < c + 4096)); [|done]. rewrite load_bytes_lookup by lia. cbn [default]. unfold default, id. f_equal. lia. }
  assert (∀ x, ¬ c ≤ x < c + 4096 → byte_at m2 x = byte_at (ram σ) x) as Hout.
  { intros x Hx. rewrite Hm2, decide_False, Hm1, decide_False by done. done. }
  exists (mkPmm (_allocator σ1) m2).
  assert (pmm_rep (mkPmm (_allocator σ1) m2) lo hi (<[c := n]> u)) as Hr2.
  { split; [apply Hr|]. apply mem_ok_bytes; [apply Hr|apply bytes_load, Hr]. }
  destruct (space_alloc σ lo hi u r1 t1 c n (mkPmm (_allocator σ1) m2) (ci_s1 _ _ _ _ I) Hc Hr2 Hout) as [S1 E1].
  destruct (space_alloc σ lo hi u r2 t2 c n (mkPmm (_allocator σ1) m2) (ci_s2 _ _ _ _ I) Hc Hr2 Hout) as [S2 E2].
  split_and!; [|exact S1|exact S2| | |exact Hout|].
  - apply lib_run. unfold page_size. apply KlibThm.memmove_run; [apply Hr|lia..].
  - intros v Hv. apply E1, Hv.
  - intros v Hv. apply E2, Hv.
  - intros o Ho. cbn [ram]. rewrite Hm2, decide_True by lia. replace (q + (c + o - c)) with (q + o) by lia.
    rewrite Hm1, decide_False by lia. done.
Qed.

Lemma copy_loop_run fuel k σ u t2 : copy_inv k σ u t2 → 0 ≤ k ≤ N → N - k < Z.of_nat fuel →
  let run := vm_copy_loop fuel (pt_at r1) (pt_at r2) start (start + 4096 * k) (start + 4096 * N) σ in
  (∃ σ' u' t', run = Ret 0 σ' ∧ copy_inv N σ' u' t') ∨
  (supply (Z.to_nat (N - k) * S depth) (_allocator σ) = false ∧
   (run = Panic ∨ ∃ σ' u' t', run = Ret (-1) σ' ∧ rolled_back σ' u' t')).
Proof.
  revert k σ u t2. induction fuel as [|f IH]; intros k σ u t2 I Hk Hf; [lia|]. cbn zeta. cbn [vm_copy_loop].
  pose proof (va_limit (PL := PL)).
  destruct (Z.ltb_spec (start + 4096 * k) (start + 4096 * N)) as [Hlt|Hge].
  2: { left. exists σ, u, t2. split; [done|]. by replace N with k by lia. }
  assert (0 ≤ k < N) as Hk' by lia.
  replace (Z.to_nat (N - k)) with (S (Z.to_nat (N - (k + 1)))) by lia. destruct (page_uva k Hk') as [Huva Hal].
  destruct (Hold k Hk') as (Hdr & Hdv & Hdd & Hdp & Hkf & _). set (va := start + 4096 * k) in *.
  pose proof (ci_s1 _ _ _ _ I) as S1. pose proof (walk_find σ r1 t1 va (sp_pt _ _ _ _ _ _ S1) (proj1 Huva)) as Rw.
  assert (∃ b, t1 !! path va = Some b ∧ load64 (ram σ) (slot b (pt_num va)) = L1 va) as (b & Hb & Ed).
  { pose proof (ci_l1 _ _ _ _ I va Huva) as El. unfold leaf in El. destruct (t1 !! path va) as [b|]; [by exists b|].
    rewrite <- El, pte_zero_invalid in Hdv. done. }
  rewrite Hb in Rw. mstep Rw.
  rewrite (proj2 (Z.eqb_neq _ 0)) by (apply slot_nonzero; [by apply (pt_page _ _ _ (sp_pt _ _ _ _ _ _ S1) _ _ Hb)|apply pt_num_range, Huva]).
  mstep (eq_refl : load (slot b (pt_num va)) σ = Ret (load64 (ram σ) (slot b (pt_num va))) σ).
  rewrite Ed, Hdp. cbn [negb]. fold (frame_of (L1 va)).
  destruct (alloc_page_run σ lo hi u (sp_pmm _ _ _ _ _ _ S1)) as [(c & n & σ1 & R1 & _ & Hc0 & Hc & Hr & Em)|R1].
  2: { right. split; [apply (supply_false 1); [apply (Nat.le_add_r 1)|by apply (alloc_page_short _ _ R1)]|].
       mstep R1. cbn [Z.eqb]. right.
       rewrite (wrap64_small (va - start)) by (unfold va; lia). unfold page_size.
       replace ((va - start) / 4096) with k by (unfold va; Z.div_mod_to_equations; lia).
       destruct (rollback k σ u t2 I ltac:(lia)) as (σ' & u' & R & Rb). exists σ', u', t2. split; [by mstep R|done]. }
  pose proof (alloc_page_spends _ _ _ R1 Hc0) as Hsp1. mstep R1. rewrite (proj2 (Z.eqb_neq c 0)) by done.
  destruct (copy_fill k σ u t2 c n σ1 I Hk' Hc Hc0 Hr Em) as (Hkc & σ2 & R2 & S21 & S22 & E1 & E2 & Eout & Ein).
  assert (spends 1 σ σ2) as Hsp2 by exact (spends_same_r _ _ _ _ Hsp1 (lib_allocator _ _ _ _ R2)).
  mstep R2.
  destruct (map_pages_run σ2 lo hi _ r2 t2 va page_size c (get_flags (L1 va)) S22) as [[R3 Hs3]|(j & σ3 & u3 & t3 & Hj & R3 & S3 & Ad & Hl & _ & Hbad & Hs3)];
    [done|done|apply Huva|done|unfold page_size, va; lia|by apply flags_of| | |].
  { change (page_size / 4096) with 1. intros i Hi. by replace (c + 4096 * i) with c by lia. }
  { right. split; [|left; unfold mbind at 1, M_bind at 1; by rewrite R3].
    apply (supply_false (1 + depth)); [apply (Nat.le_add_r (S depth))|]. apply (spends_short _ _ σ σ2); [done|].
    by rewrite Nat.mul_1_l in Hs3. }
  assert (spends (S depth) σ σ3) as Hs by (rewrite Nat.mul_1_l in Hs3; exact (spends_trans 1 depth σ σ2 σ3 Hsp2 Hs3)).
  change (page_size / 4096) with 1 in *.
  assert (j = 1) as ->.
  { destruct (Z.eq_dec j 1) as [|]; [done|]. assert (j = 0) as -> by lia. specialize (Hbad ltac:(lia)).
    rewrite Z.mul_0_r, Z.add_0_r, (E2 va Huva) in Hbad. rewrite (ci_l2 _ _ _ _ I va Huva) in Hbad by (unfold va; lia).
    pose proof (Hnew k Hk') as Hn. fold va in Hn. congruence. }
  mstep R3. cbn [bool_decide negb decide]. rewrite bool_decide_eq_true_2 by done. cbn [negb].
  pose proof (copy_inv_step k σ u t2 c n σ2 σ3 u3 t3 I Hk' Hc Hkc S21 S22 E1 E2 Eout Ein S3 Ad Hl) as I'.
  unfold page_size. rewrite wrap64_small by (unfold va; lia).
  replace (va + 4096) with (start + 4096 * (k + 1)) by (unfold va; lia).
  destruct (IH (k + 1) σ3 u3 t3 I' ltac:(lia) ltac:(lia)) as [HI|[Hs4 HI]]; [by left|right].
  split; [by apply (spends_short (S depth) _ σ σ3)|done].
Qed.

End loop.
End fork.
End VmmFork.
