(* ===== verification/VmmThm.v ===== *)
(** What the virtual memory manager guarantees. *)

From Stdlib Require Import ZArith Lia.
From stdpp Require Import base numbers gmap list.
From S2P Require Import Prelude Page Mem Klib Buddy BuddyThm Pmm PmmThm PageTable PtInv PtWalk Vmm VmmMap VmmCopy VmmFork.
Import Pmm PmmThm PT PtInv PtWalk Vmm VmmMap VmmCopy VmmFork.

Set Default Goal Selector "!".
Open Scope Z_scope.

Module VmmThm.

Section vmm.
#[local] Opaque fill_words store64 load64 load_bytes.
Context `{PL : PortLaws} {A : Type} `{PA : PageAllocatorLaws A}.
Implicit Types (σ : PhysicalMemoryManager A) (t : gmap (list Z) Z) (u : gmap Z Z).

(** A fresh zeroed root is an empty address space. *)
Lemma fresh_space σ lo hi u c n σ1 : pmm_rep σ lo hi u → window ≤ lo ∧ hi ≤ window + 2 ^ 56 →
  u !! c = None → pmm_rep σ1 lo hi (<[c := n]> u) →
  ram σ1 = fill_words 512 c 0 (fill_words 512 c 0 (ram σ)) →
  space σ1 lo hi (<[c := n]> u) c {[ [] := c ]} ∧ ∀ va, uva va → is_valid (leaf (ram σ1) {[ [] := c ]} va) = false.
Proof.
  intros Hr Hw Hc Hr1 Em. pose proof (block_kpage σ1 lo hi _ c n Hr1 Hw (lookup_insert_eq _ _ _)) as Hk.
  assert (∀ i, 0 ≤ i < 512 → load64 (ram σ1) (slot c i) = 0) as Hz.
  { intros i Hi. apply load64_zero. intros x Hx. rewrite Em, !fill_words_at, decide_True; [done|]. unfold slot in Hx. lia. }
  split; [split; [done..| |]|].
  - split.
    + apply lookup_singleton_eq.
    + intros p b [_ <-]%lookup_singleton_Some. done.
    + intros p q b [<- _]%lookup_singleton_Some [<- _]%lookup_singleton_Some. done.
    + intros p b [<- _]%lookup_singleton_Some. simpl. lia.
    + intros p i b [E _]%lookup_singleton_Some. by destruct p.
    + intros p b i [<- <-]%lookup_singleton_Some _ Hi. rewrite lookup_singleton_ne by done.
      rewrite Hz by done. apply pte_zero_invalid.
  - intros p b [<- <-]%lookup_singleton_Some. rewrite lookup_insert_eq. by eexists.
  - intros va [Hva _]. unfold leaf. destruct (({[ [] := c ]} : gmap (list Z) Z) !! path va) as [b|] eqn:Hb; [|apply pte_zero_invalid].
    apply lookup_singleton_Some in Hb as [_ <-]. rewrite Hz by (by apply pt_num_range). apply pte_zero_invalid.
Qed.

Lemma vm_create_spends σ pt σ' : vm_create σ = Ret pt σ' → spends 1 σ σ'.
Proof.
  unfold vm_create. intros R. apply bind_inv in R as (p & σ1 & R1 & R).
  destruct (Z.eqb_spec p 0) as [|Hp]; [done|]. pose proof (alloc_page_spends _ _ _ R1 Hp) as Hs.
  apply (spends_same_r _ _ _ _ Hs). unfold clear_page, fill_junk, modify, mret, M_ret, mbind, M_bind in R.
  by apply ret_inv in R as [_ <-].
Qed.

Lemma vm_create_run σ lo hi u : pmm_rep σ lo hi u → window ≤ lo ∧ hi ≤ window + 2 ^ 56 →
  (vm_create σ = Panic ∧ alloc_page σ = Ret 0 σ) ∨
  ∃ root σ' n, vm_create σ = Ret (pt_at root) σ' ∧ u !! root = None ∧
    space σ' lo hi (<[root := n]> u) root {[ [] := root ]} ∧
    (∀ va, uva va → is_valid (leaf (ram σ') {[ [] := root ]} va) = false) ∧
    ∀ x, ¬ root ≤ x < root + 4096 → byte_at (ram σ') x = byte_at (ram σ) x.
Proof.
  intros Hr Hw. destruct (alloc_page_run σ lo hi u Hr) as [(c & n & σ1 & R & _ & Hc0 & Hc & Hr1 & Em)|R].
  - right. exists c, (on_ram (fill_words 512 c 0) σ1), n.
    destruct (fresh_space σ lo hi u c n (on_ram (fill_words 512 c 0) σ1) Hr Hw Hc) as [Sp Hl].
    { destruct Hr1 as [Ha Hm]. split; [done|]. by apply fill_words_ok. }
    { cbn [on_ram ram]. by rewrite Em. }
    split_and!; [|done..|].
    + unfold vm_create. mstep R. rewrite (proj2 (Z.eqb_neq c 0)) by done.
      unfold clear_page. by mstep (fill_junk_run c σ1).
    + intros x Hx. cbn [on_ram ram]. rewrite Em, !fill_words_at, !decide_False by done. done.
  - left. split; [|done]. unfold vm_create. by mstep R.
Qed.

Lemma leaf_range σ lo hi u root t va : space σ lo hi u root t → 0 ≤ leaf (ram σ) t va < 2 ^ 64.
Proof. intros Sp. unfold leaf. destruct (t !! path va); [|lia]. apply load64_bound, (sp_pmm _ _ _ _ _ _ Sp). Qed.

(** C29: [vm_create] returns a page table whose root is a fresh page and in
    which every user address is unmapped, and changes no other byte; it stops
    the kernel only when the page allocator has no page. *)
Theorem vm_create_correct σ lo hi u : pmm_rep σ lo hi u → window ≤ lo ∧ hi ≤ window + 2 ^ 56 →
  (vm_create σ = Panic ∧ alloc_page σ = Ret 0 σ) ∨
  ∃ root σ' n, vm_create σ = Ret (pt_at root) σ' ∧ u !! root = None ∧
    space σ' lo hi (<[root := n]> u) root {[ [] := root ]} ∧
    (∀ va, uva va → is_valid (leaf (ram σ') {[ [] := root ]} va) = false) ∧
    ∀ x, ¬ root ≤ x < root + 4096 → byte_at (ram σ') x = byte_at (ram σ) x.
Proof. apply vm_create_run. Qed.

(** C27: [walk] without allocation returns the address of the last-level entry
    of [va], or stops the kernel when an intermediate table is missing; with
    allocation it adds at most empty tables on fresh pages, so that every
    translation is kept, and writes nothing but tables.  With allocation it
    stops the kernel only if the allocator cannot serve a page for each of the
    [depth] intermediate levels. *)
Theorem walk_correct σ lo hi u root t va : space σ lo hi u root t → 0 ≤ va →
  walk (pt_at root) va false σ =
    match t !! path va with Some b => Ret (slot b (pt_num va)) σ | None => Panic end ∧
  ((walk (pt_at root) va true σ = Panic ∧ supply depth (_allocator σ) = false) ∨
   ∃ b σ' u' t', walk (pt_at root) va true σ = Ret (slot b (pt_num va)) σ' ∧
     space σ' lo hi u' root t' ∧ t' !! path va = Some b ∧ t ⊆ t' ∧ u ⊆ u' ∧
     (∀ x, 0 ≤ x → leaf (ram σ') t' x = leaf (ram σ) t x) ∧
     (∀ x, ¬ in_tables t' x → byte_at (ram σ') x = byte_at (ram σ) x)).
Proof.
  intros Sp Hva. split; [apply walk_find; [apply Sp|done]|].
  destruct (walk_alloc σ lo hi u root t va Sp Hva) as [R|(b & σ' & u' & t' & R & Sp' & [? ? ? ? ? ?] & Hb & _)]; [by left|right].
  by exists b, σ', u', t'.
Qed.

(** C14: [map_pages] over [size / 4096] pages maps them in order up to the first
    page that is already mapped and returns whether it mapped them all; every
    other translation, the pages in use and all memory but the tables are
    kept.  It stops the kernel only if the allocator cannot serve [depth] pages
    for the tables of each page mapped. *)
Theorem map_pages_correct σ lo hi u root t va size pa f : space σ lo hi u root t →
  va mod 4096 = 0 → size mod 4096 = 0 → 0 ≤ va → 0 < size → va + size ≤ 2 ^ va_bits → flags_ok f →
  (∀ i, 0 ≤ i < size / 4096 → kpage (pa + 4096 * i)) →
  (map_pages (pt_at root) va size pa f σ = Panic ∧
     supply (Z.to_nat (size / 4096) * depth) (_allocator σ) = false) ∨
  ∃ j σ' u' t', 0 ≤ j ≤ size / 4096 ∧
    map_pages (pt_at root) va size pa f σ = Ret (bool_decide (j = size / 4096)) σ' ∧
    space σ' lo hi u' root t' ∧ u ⊆ u' ∧
    (∀ x, ¬ in_tables t' x → byte_at (ram σ') x = byte_at (ram σ) x) ∧
    (∀ x, uva x → leaf (ram σ') t' x = mapped (leaf (ram σ) t) va j pa f x) ∧
    (∀ i, 0 ≤ i < j → is_valid (leaf (ram σ) t (va + 4096 * i)) = false) ∧
    (j < size / 4096 → is_valid (leaf (ram σ) t (va + 4096 * j)) = true).
Proof.
  intros Sp Hva Hsz Hva0 Hs0 Htop Hf Hpa.
  destruct (map_pages_run σ lo hi u root t va size pa f Sp Hva Hsz Hva0 Hs0 Htop Hf Hpa)
    as [R|(j & σ' & u' & t' & Hj & R & Sp' & [? ? ? ? ?] & Hl & Hiv & Hjv & _)]; [by left|right].
  by exists j, σ', u', t'.
Qed.

(** C28: after a page is mapped for the user, [walk_addr] translates every
    address of it to the page's physical address plus the offset; the mapping
    is made whenever the allocator can serve a page for each level. *)
Theorem map_then_walk_addr σ lo hi u root t va pa x : space σ lo hi u root t →
  va mod 4096 = 0 → 0 ≤ va → va + 4096 ≤ 2 ^ va_bits → kpage pa → va ≤ x < va + 4096 →
  is_valid (leaf (ram σ) t va) = false →
  (map_data_pages (pt_at root) va page_size pa true σ = Panic ∧ supply depth (_allocator σ) = false) ∨
  ∃ σ', map_data_pages (pt_at root) va page_size pa true σ = Ret true σ' ∧
    walk_addr (pt_at root) x σ' = Ret (Z.lor (to_phy pa) (Z.land x (page_size - 1))) σ'.
Proof.
  intros Sp Hva Hva0 Htop Hk Hx Hinv. set (f := Z.lor (Z.lor map_data_page_flags valid_flag) user_plv_flag).
  destruct (user_flags_ok map_data_page_flags (list_elem_of_here _ _)) as (Hf1 & Hf2 & Hf3 & _ & Hf5). fold f in Hf1, Hf2, Hf3, Hf5.
  assert (flags_ok f) as Hf by done.
  change (map_data_pages (pt_at root) va page_size pa true) with (map_pages (A := A) (pt_at root) va page_size pa f).
  destruct (map_pages_run σ lo hi u root t va page_size pa f Sp Hva)
    as [[R Hs]|(j & σ' & u' & t' & Hj & R & Sp' & Ad & Hl & _ & Hbad & _)];
    [done|done|done|done|done| |left; split; [done|by rewrite Nat.mul_1_l in Hs]|right].
  { change (page_size / 4096) with 1. intros i Hi. by replace (pa + 4096 * i) with pa by lia. }
  change (page_size / 4096) with 1 in *. assert (j = 1) as ->.
  { destruct (Z.eq_dec j 1); [done|]. assert (j = 0) as -> by lia. specialize (Hbad ltac:(lia)).
    rewrite Z.mul_0_r, Z.add_0_r in Hbad. congruence. }
  exists σ'. split; [exact R|]. assert (uva x) as Hux by (unfold uva; lia). pose proof (Hl x Hux) as El.
  unfold mapped in El. rewrite decide_True in El by lia.
  replace (pa + (x / 4096 * 4096 - va)) with pa in El by (Z.div_mod_to_equations; lia).
  rewrite (walk_addr_find σ' root t' x (sp_pt _ _ _ _ _ _ Sp') (proj1 Hux)).
  - rewrite El. unfold resolve. rewrite entry_valid, entry_super, Hf3, Hf5 by done. cbn [negb].
    destruct (kpage_frame pa Hk) as (Hfr & _). unfold entry. by rewrite pte_pa.
  - unfold leaf in El. destruct (t' !! path x) as [b|]; [by eexists|]. exfalso.
    pose proof (entry_valid pa f Hk Hf) as Hv. rewrite <- El, pte_zero_invalid, Hf3 in Hv. done.
Qed.

(** C26: [vm_unmap] over mapped leaf pages clears exactly their entries; when it
    is asked to free them it returns each page's block to the allocator and
    keeps every other block. *)
Theorem vm_unmap_correct σ lo hi u root t va npages do_free : space σ lo hi u root t →
  va mod 4096 = 0 → 0 ≤ va → 0 ≤ npages → va + 4096 * npages ≤ 2 ^ va_bits →
  (∀ i, 0 ≤ i < npages → is_valid (leaf (ram σ) t (va + 4096 * i)) = true ∧
     is_dir_page (leaf (ram σ) t (va + 4096 * i)) = false) →
  (do_free = true → freeable u t (frames (leaf (ram σ) t) va (Z.to_nat npages))) →
  ∃ σ' u', vm_unmap (pt_at root) va npages do_free σ = Ret tt σ' ∧ space σ' lo hi u' root t ∧
    u' = (if do_free then without u (frames (leaf (ram σ) t) va (Z.to_nat npages)) else u) ∧
    (∀ x, uva x → leaf (ram σ') t x = unmapped (leaf (ram σ) t) va npages x) ∧
    (∀ x, ¬ in_tables t x → byte_at (ram σ') x = byte_at (ram σ) x).
Proof.
  intros Sp Hva Hva0 Hn Htop Hv Hf. pose proof (va_limit (PL := PL)).
  destruct (unmap_loop_run (Z.to_nat npages) σ lo hi u root t va do_free Sp Hva Hva0) as (σ' & u' & R & Hr);
    [lia|intros i Hi; apply Hv; lia|done|].
  rewrite Z2Nat.id in Hr, R by done. exists σ', u'. split; [|done].
  unfold vm_unmap, page_size. rewrite Hva. cbn [Z.eqb negb].
  rewrite (wrap64_small (npages * 4096)), (wrap64_small (va + npages * 4096)) by lia.
  by replace (va + npages * 4096) with (va + 4096 * npages) by lia.
Qed.

(** C23: [copyout] returns 0 with each user byte of the range equal to the byte
    of the kernel buffer and every other byte of memory unchanged. *)
Theorem copyout_correct σ lo hi u root t va p len : space σ lo hi u root t →
  0 ≤ va → 0 ≤ len → va + len ≤ 2 ^ va_bits → let L := leaf (ram σ) t in
  backed L t va len → unshared L va len → apart L va p len → 1 ≤ p → p + len < 2 ^ 64 →
  ∃ σ', copyout (pt_at root) va p len σ = Ret 0 σ' ∧ space σ' lo hi u root t ∧
    (∀ x, 0 ≤ x → leaf (ram σ') t x = L x) ∧
    (∀ x, va ≤ x < va + len → byte_at (ram σ') (uaddr L x) = byte_at (ram σ) (p + (x - va))) ∧
    (∀ y, (∀ x, va ≤ x < va + len → uaddr L x ≠ y) → byte_at (ram σ') y = byte_at (ram σ) y).
Proof.
  intros Sp Hva Hlen Htop L Hb Hu Hap Hp Hpl.
  destruct (copyout_loop_run (S (Z.to_nat len)) σ lo hi u root t L va p len Sp) as (σ' & R & Sp' & HL' & C1 & C2);
    [done|done|lia|done..|]. exists σ'. split_and!; done.
Qed.

(** C24: [copy_in] over pages the user may access returns 0 with the kernel
    buffer equal to the user's bytes and every other byte unchanged. *)
Theorem copy_in_correct σ lo hi u root t dst va len : space σ lo hi u root t →
  0 ≤ va → 0 ≤ len → va + len ≤ 2 ^ va_bits → let L := leaf (ram σ) t in
  backed L t va len → user_range L va len → apart L va dst len → no_tables t dst len →
  0 ≤ dst → dst + len < 2 ^ 64 →
  ∃ σ', copy_in (pt_at root) dst va len σ = Ret 0 σ' ∧ space σ' lo hi u root t ∧
    (∀ i, 0 ≤ i < len → byte_at (ram σ') (dst + i) = byte_at (ram σ) (uaddr L (va + i))) ∧
    (∀ y, ¬ dst ≤ y < dst + len → byte_at (ram σ') y = byte_at (ram σ) y).
Proof.
  intros Sp Hva Hlen Htop L Hb Hus Hap Hnt Hd Hdl.
  destruct (copy_in_loop_run (S (Z.to_nat len)) σ lo hi u root t L dst va len Sp) as (σ' & R & Sp' & HL' & C1 & C2);
    [done|done|lia|done..|]. exists σ'. split_and!; done.
Qed.

(** C2: [vm_copy] of mapped, present pages into unmapped pages of another page
    table copies: each page is mapped in the new table with the same flags to a
    fresh page of its own with the same contents, and every other translation of
    both tables is kept.  Only if the allocator cannot serve a page and the
    tables for each page copied, it either returns -1 with every page it had
    mapped unmapped and given back ([rolled_back]), or stops the kernel.
    Bytes in use that are no tables of the new space never change. *)
Theorem vm_copy_correct σ lo hi u r1 r2 t1 t2 start size :
  space σ lo hi u r1 t1 → space σ lo hi u r2 t2 →
  (∀ p q b c, t2 !! p = Some b → t1 !! q = Some c → b ≠ c) →
  0 ≤ start → 0 ≤ size → start mod 4096 = 0 → size mod 4096 = 0 → start + size ≤ 2 ^ va_bits →
  let L1 := leaf (ram σ) t1 in let L2 := leaf (ram σ) t2 in
  (∀ i, 0 ≤ i < size / 4096 → let d := L1 (start + 4096 * i) in
     is_valid d = true ∧ is_dir_page d = false ∧ is_present d = true ∧ kpage (frame_of d) ∧
     ∀ x, frame_of d ≤ x < frame_of d + 4096 → covered u x ∧ ¬ in_tables t2 x) →
  (∀ i, 0 ≤ i < size / 4096 → is_valid (L2 (start + 4096 * i)) = false) →
  let run := vm_copy (pt_at r1) (pt_at r2) start size σ in
  (∃ σ' u' t', run = Ret 0 σ' ∧ space σ' lo hi u' r1 t1 ∧ space σ' lo hi u' r2 t' ∧ u ⊆ u' ∧
     (∀ va, uva va → leaf (ram σ') t1 va = L1 va) ∧
     (∀ va, uva va → ¬ start ≤ va < start + size → leaf (ram σ') t' va = L2 va) ∧
     (∀ i, 0 ≤ i < size / 4096 → ∃ c, leaf (ram σ') t' (start + 4096 * i) = entry c (get_flags (L1 (start + 4096 * i))) ∧
        u !! c = None ∧ ∀ o, 0 ≤ o < 4096 →
          byte_at (ram σ') (c + o) = byte_at (ram σ) (frame_of (L1 (start + 4096 * i)) + o)) ∧
     (∀ x, covered u x → ¬ in_tables t2 x → byte_at (ram σ') x = byte_at (ram σ) x)) ∨
  (supply (Z.to_nat (size / 4096) * S depth) (_allocator σ) = false ∧
   (run = Panic ∨ ∃ σ' u' t', run = Ret (-1) σ' ∧ rolled_back lo hi r1 r2 t1 σ u t2 L1 L2 σ' u' t')).
Proof.
  intros S1 S2 Hdis Hs0 Hz0 Hsa Hza Htop L1 L2 Hold Hnew run. set (N := size / 4096) in *.
  pose proof (va_limit (PL := PL)). assert (size = 4096 * N) as Esz by (unfold N; Z.div_mod_to_equations; lia).
  assert (copy_inv lo hi r1 r2 start t1 σ u t2 L1 L2 0 σ u t2) as I0.
  { split; try done; try (intros; lia); auto. }
  assert (run = vm_copy_loop (S (Z.to_nat N)) (pt_at r1) (pt_at r2) start (start + 4096 * 0) (start + 4096 * N) σ) as Er.
  { unfold run, vm_copy. rewrite (proj2 (is_page_align_spec start Hs0) Hsa), (proj2 (is_page_align_spec size Hz0) Hza).
    cbn [negb]. rewrite wrap64_small, Z.mul_0_r, Z.add_0_r by lia. by replace (start + 4096 * N) with (start + size) by lia. }
  destruct (copy_loop_run lo hi r1 r2 start t1 σ u t2 L1 L2 N (conj Hs0 Hsa)) with (fuel := S (Z.to_nat N)) (k := 0) (σ := σ) (u := u) (t2 := t2)
    as [(σ' & u' & t' & R & I)|[Hs [R|(σ' & u' & t' & R & Rb)]]]; try done; try lia.
  - intros i Hi. destruct (Hold i Hi) as (? & ? & ? & ? & ?). pose proof (leaf_range σ lo hi u r1 t1 (start + 4096 * i) S1).
    unfold L1 in *. split_and!; (done || lia).
  - intros va Hva. apply leaf_page; [|apply Hva|].
    + destruct Hva. apply Z.mul_nonneg_nonneg; [apply Z.div_pos; lia|lia].
    + by rewrite Z.div_mul.
  - apply (sp_own _ _ _ _ _ _ S1).
  - left. exists σ', u', t'. rewrite Er. split_and!; try apply I; try done.
    + intros va Hva Hout. apply I; [done|lia].
    + intros i Hi. destruct (ci_new _ _ _ _ _ _ _ _ _ _ _ _ _ _ _ I i Hi) as (c & Hl & _ & _ & Hc & _ & Hb). by exists c.
  - right. rewrite Z.sub_0_r in Hs. split; [done|]. left. by rewrite Er.
  - right. rewrite Z.sub_0_r in Hs. split; [done|]. right. exists σ', u', t'. by rewrite Er.
Qed.

(** A user address below a missing table stops the kernel: [copy_in] does not
    return its error. *)
Theorem copy_in_missing_table σ root t dst va len : pt_ok (ram σ) root t → 0 < len → 0 ≤ va < 2 ^ va_bits →
  t !! path (page_round_down va) = None → copy_in (pt_at root) dst va len σ = Panic.
Proof.
  intros Hok Hlen Hva Hn. pose proof (va_limit (PL := PL)). destruct (off_range va ltac:(lia)) as (E & _).
  assert (0 ≤ page_round_down va) as Hr by (rewrite E; Z.div_mod_to_equations; lia).
  unfold copy_in. cbn [copy_in_loop]. rewrite (proj2 (Z.ltb_lt 0 len)) by done.
  pose proof (walk_find σ root t (page_round_down va) Hok Hr) as Rw. rewrite Hn in Rw.
  unfold mbind at 1, M_bind at 1, walk_addr. unfold mbind at 1, M_bind at 1. by rewrite Rw.
Qed.

End vmm.
End VmmThm.
