(* ===== verification/VmmDemo.v ===== *)
(** Witnesses for the virtual memory theorems: on the RISC-V port, over the
    buddy allocator with 70 pages at 1 MiB, two page tables, one page mapped at
    [0x10000] in the first. *)

From Stdlib Require Import ZArith Lia.
From stdpp Require Import base numbers gmap list.
From S2P Require Import Prelude Page Mem Klib Buddy BuddyThm Pmm PmmThm PageTable PtInv PtWalk Vmm VmmMap VmmCopy VmmFork VmmThm.
Import Pmm PmmThm PT PtInv PtWalk Vmm VmmMap VmmCopy VmmFork VmmThm.

Set Default Goal Selector "!".
Open Scope Z_scope.

Module VmmDemo.

#[local] Existing Instance riscv_port | 0.
#[local] Existing Instance riscv_port_laws | 0.

Definition st : Type := PhysicalMemoryManager Allocator.BuddyAllocator.
Definition after {B} (r : outcome st B) : st := match r with Ret _ s => s | _ => demo_pmm end.

Definition lo : Z := 0x100000.
Definition hi : Z := 0x100000 + 4096 * 69.
Definition r1 : Z := 0x100000.
Definition r2 : Z := 0x101000.
Definition pg : Z := 0x102000.
Definition va : Z := 0x10000.

Definition s1 : st := after (vm_create demo_pmm).
Definition s2 : st := after (vm_create s1).
Definition s3 : st := after (alloc_page s2).
Definition s4 : st := after (map_data_pages (H := riscv_port) (pt_at r1) va page_size pg true s3).

(** A run's result is found by evaluating its value only. *)
Lemma ran {B} (r : outcome st B) (ok : B → bool) (v : B) : (∀ b, ok b = true → b = v) →
  match r with Ret b _ => ok b | _ => false end = true → r = Ret v (after r).
Proof. intros Hok. destruct r as [b s| | |]; [|done..]. intros Hb. by rewrite (Hok b Hb). Qed.

Definition is_pt (root : Z) (p : PageTable) : bool := (_base_addr p =? root) && _is_global p.
Lemma is_pt_eq root p : is_pt root p = true → p = pt_at root.
Proof. destruct p as [b g]. unfold is_pt. intros [E1%Z.eqb_eq E2]%andb_true_iff. cbn in *. by subst. Qed.

Lemma run1 : vm_create demo_pmm = Ret (pt_at r1) s1.
Proof. apply (ran _ (is_pt r1)); [apply is_pt_eq|]. vm_compute. reflexivity. Qed.
Lemma run2 : vm_create s1 = Ret (pt_at r2) s2.
Proof. apply (ran _ (is_pt r2)); [apply is_pt_eq|]. vm_compute. reflexivity. Qed.
Lemma run3 : alloc_page s2 = Ret pg s3.
Proof. apply (ran _ (Z.eqb pg)); [by intros b ->%Z.eqb_eq|]. vm_compute. reflexivity. Qed.
Lemma run4 : map_data_pages (H := riscv_port) (pt_at r1) va page_size pg true s3 = Ret true s4.
Proof. unfold s4. refine (ran _ (λ b, b) true (λ b E, E) _). vm_compute. reflexivity. Qed.

#[local] Opaque s1 s2 s3 s4 fill_words load_bytes.

(** ** The state after the four calls *)

Definition fl : Z := Z.lor (Z.lor map_data_page_flags valid_flag) user_plv_flag.

Lemma in_window : window ≤ lo ∧ hi ≤ window + 2 ^ 56.
Proof. vm_compute. by split. Qed.

Lemma pg_page : kpage pg.
Proof. vm_compute. by repeat split. Qed.

Lemma fl_ok : flags_ok fl ∧ is_valid fl = true ∧ is_dir_page fl = false ∧ is_super_plv fl = false.
Proof.
  destruct (user_flags_ok map_data_page_flags (list_elem_of_here _ _)) as (H1 & H2 & H3 & H4 & H5). by repeat split.
Qed.

Lemma same_va x : va ≤ x < va + 4096 → pg + (x / 4096 * 4096 - va) = pg.
Proof. intros Hx. unfold va in *. assert (x / 4096 = 16) as -> by (Z.div_mod_to_equations; lia). lia. Qed.

Lemma demo_spaces : ∃ u n t1 t2,
  space s4 lo hi u r1 t1 ∧ space s4 lo hi u r2 t2 ∧
  (∀ p q b c, t2 !! p = Some b → t1 !! q = Some c → b ≠ c) ∧
  (∀ x, va ≤ x < va + 4096 → leaf (ram s4) t1 x = entry pg fl) ∧
  (∀ x, uva x → is_valid (leaf (ram s4) t2 x) = false) ∧
  u !! pg = Some n ∧ 1 ≤ n ∧ (∀ p, t1 !! p ≠ Some pg) ∧ (∀ p, t2 !! p ≠ Some pg).
Proof.
  pose proof in_window as Hw.
  destruct (vm_create_run demo_pmm lo hi ∅ demo_pmm_rep Hw) as [[R _]|(q1 & σ1 & n1 & R & _ & Sp1 & Hi1 & _)];
    rewrite run1 in R; [done|]. apply ret_inv in R as [E <-]. assert (q1 = r1) as -> by congruence.
  destruct (vm_create_run s1 lo hi _ (sp_pmm _ _ _ _ _ _ Sp1) Hw) as [[R _]|(q2 & σ2 & n2 & R & Hf2 & Sp2 & Hi2 & Hm2)];
    rewrite run2 in R; [done|]. apply ret_inv in R as [E' <-]. assert (q2 = r2) as -> by congruence. clear E E'.
  destruct (space_alloc s1 lo hi _ r1 _ r2 n2 s2 Sp1 Hf2 (sp_pmm _ _ _ _ _ _ Sp2) Hm2) as [Sp12 El12].
  destruct (alloc_page_run s2 lo hi _ (sp_pmm _ _ _ _ _ _ Sp2)) as [(c & n & σ3 & R & Hn & Hc0 & Hf3 & Hr3 & Em3)|R];
    rewrite run3 in R; [|by apply ret_inv in R as [E _]]. apply ret_inv in R as [<- <-].
  assert (∀ x, ¬ pg ≤ x < pg + 4096 → byte_at (ram s3) x = byte_at (ram s2) x) as Hm3.
  { intros x Hx. rewrite Em3, fill_words_at. rewrite decide_False by exact Hx. reflexivity. }
  destruct (space_alloc s2 lo hi _ r1 _ pg n s3 Sp12 Hf3 Hr3 Hm3) as [Sp13 El13].
  destruct (space_alloc s2 lo hi _ r2 _ pg n s3 Sp2 Hf3 Hr3 Hm3) as [Sp23 El23].
  set (u := <[pg:=n]> _) in *. destruct fl_ok as (Hfl & _).
  pose proof run4 as R4. change (map_data_pages (pt_at r1) va page_size pg true s3) with (map_pages (pt_at r1) va page_size pg fl s3) in R4.
  destruct (map_pages_run s3 lo hi u r1 {[ [] := r1 ]} va page_size pg fl Sp13)
    as [[R _]|(j & σ4 & u4 & t4 & Hj & R & Sp4 & Ad & Hl & _)];
    [done|done|done|done|done|done| |by rewrite R4 in R|].
  { change (page_size / 4096) with 1. intros i Hi. replace (pg + 4096 * i) with pg by lia. apply pg_page. }
  rewrite R4 in R. apply ret_inv in R as [Ej <-]. symmetry in Ej. apply bool_decide_eq_true in Ej.
  change (page_size / 4096) with 1 in *. subst j.
  destruct (space_other s3 lo hi u {[ [] := r1 ]} s4 u4 t4 r2 {[ [] := r2 ]} Sp23 (sp_pmm _ _ _ _ _ _ Sp4) Ad)
    as (Sp24 & El24 & Dis).
  { intros p b Hb. by apply (pt_page _ _ _ (sp_pt _ _ _ _ _ _ Sp4) p). }
  { intros p q b c [_ <-]%lookup_singleton_Some [_ <-]%lookup_singleton_Some. done. }
  exists u4, n, t4, {[ [] := r2 ]}. split_and!; [exact Sp4|exact Sp24| | | | |exact Hn| |].
  - intros p q b c Hb Hc E. by apply (Dis q p c b).
  - intros x Hx. rewrite Hl by (unfold uva, va in *; cbn; lia). unfold mapped. rewrite decide_True by lia.
    f_equal. by apply same_va.
  - intros x Hx. rewrite El24, El23 by apply Hx. by apply Hi2.
  - apply (lookup_weaken u); [apply lookup_insert_eq|apply (ad_used _ _ _ _ _ _ Ad)].
  - intros p Hp. destruct (ad_new _ _ _ _ _ _ Ad p pg Hp) as [Hb|Hb].
    + by apply lookup_singleton_Some in Hb as [_ ?].
    + unfold u in Hb. by rewrite lookup_insert_eq in Hb.
  - intros p [_ Hp]%lookup_singleton_Some. done.
Qed.

(** ** Witnesses *)

Lemma entry_facts : is_valid (entry pg fl) = true ∧ is_dir_page (entry pg fl) = false ∧
  is_super_plv (entry pg fl) = false ∧ is_present (entry pg fl) = true ∧ frame_of (entry pg fl) = pg.
Proof. vm_compute. by repeat split. Qed.

(** The user range of the witnesses: 16 bytes on the mapped page. *)
Lemma demo_backed t1 : (∀ x, va ≤ x < va + 4096 → leaf (ram s4) t1 x = entry pg fl) → (∀ p, t1 !! p ≠ Some pg) →
  ∀ p, p + 16 ≤ pg → let L := leaf (ram s4) t1 in
  backed L t1 (va + 16) 16 ∧ unshared L (va + 16) 16 ∧ apart L (va + 16) p 16 ∧ user_range L (va + 16) 16.
Proof.
  intros Hl Ht p Hp L. destruct entry_facts as (E1 & E2 & E3 & E4 & E5).
  assert (∀ x, va + 16 ≤ x < va + 16 + 16 → L x = entry pg fl) as HL by (intros x Hx; apply Hl; lia).
  split_and!.
  - intros x Hx. rewrite HL, E5 by done. split_and!; [done|apply pg_page|done].
  - intros x y Hx Hy _. unfold va in *. Z.div_mod_to_equations; lia.
  - intros x Hx. rewrite HL, E5 by done. lia.
  - intros x Hx. by rewrite HL.
Qed.

Lemma vm_create_correct_witness : ∃ root σ' n, vm_create demo_pmm = Ret (pt_at root) σ' ∧
  space σ' lo hi (<[root := n]> ∅) root {[ [] := root ]}.
Proof.
  destruct (vm_create_correct demo_pmm lo hi ∅ demo_pmm_rep in_window) as [[R _]|(root & σ' & n & R & _ & Sp & _)].
  - rewrite run1 in R. discriminate.
  - exists root, σ', n. split; [exact R|exact Sp].
Defined.

Lemma walk_correct_witness : ∃ b (t1 : gmap (list Z) Z), walk (pt_at r1) va false s4 = Ret (slot b (pt_num va)) s4 ∧ t1 !! path va = Some b.
Proof.
  destruct demo_spaces as (u & n & t1 & t2 & Sp1 & _ & _ & Hl & _).
  destruct (walk_correct s4 lo hi u r1 t1 va Sp1 ltac:(done)) as [R _].
  specialize (Hl va ltac:(lia)). unfold leaf in Hl. destruct (t1 !! path va) as [b|] eqn:Hb.
  - exists b, t1. split; [exact R|exact Hb].
  - destruct entry_facts as (E & _). rewrite <- Hl in E. discriminate.
Defined.

Lemma map_pages_correct_witness : ∃ u' t' j σ',
  map_pages (pt_at r1) va 4096 pg fl s4 = Ret (bool_decide (j = 1)) σ' ∧ space σ' lo hi u' r1 t'.
Proof.
  destruct demo_spaces as (u & n & t1 & t2 & Sp1 & _). destruct fl_ok as (Hf & _).
  destruct (map_pages_correct s4 lo hi u r1 t1 va 4096 pg fl Sp1) as [[_ Hs]|(j & σ' & u' & t' & _ & R & Sp' & _)];
    [done|done|done|done|done|exact Hf| | |].
  - change (4096 / 4096) with 1. intros i Hi. replace (pg + 4096 * i) with pg by lia. apply pg_page.
  - exfalso. vm_compute in Hs. discriminate.
  - exists u', t', j, σ'. split; [exact R|exact Sp'].
Defined.

Lemma map_then_walk_addr_witness : ∃ t2, is_valid (leaf (ram s4) t2 va) = false ∧
  ∃ σ', map_data_pages (pt_at r2) va page_size pg true s4 = Ret true σ' ∧
    walk_addr (pt_at r2) (va + 5) σ' = Ret (Z.lor (to_phy pg) (Z.land (va + 5) (page_size - 1))) σ'.
Proof.
  destruct demo_spaces as (u & n & t1 & t2 & _ & Sp2 & _ & _ & Hi & _). exists t2.
  assert (is_valid (leaf (ram s4) t2 va) = false) as Hv by (apply Hi; vm_compute; by split).
  split; [exact Hv|]. destruct (map_then_walk_addr s4 lo hi u r2 t2 va pg (va + 5) Sp2) as [[_ Hs]|R];
    [done|done|done|apply pg_page|lia|exact Hv| |exact R].
  exfalso. vm_compute in Hs. discriminate.
Defined.

Lemma vm_unmap_correct_witness : ∃ σ' u t1, vm_unmap (pt_at r1) va 1 true s4 = Ret tt σ' ∧
  space σ' lo hi (without u [pg]) r1 t1.
Proof.
  destruct demo_spaces as (u & n & t1 & t2 & Sp1 & _ & _ & Hl & _ & Hu & _ & Ht & _).
  destruct entry_facts as (E1 & E2 & E3 & E4 & E5).
  assert (frames (leaf (ram s4) t1) va (Z.to_nat 1) = [pg]) as Ef.
  { change (Z.to_nat 1) with 1%nat. rewrite frames_cons, Hl, E5 by lia. done. }
  destruct (vm_unmap_correct s4 lo hi u r1 t1 va 1 true Sp1) as (σ' & u' & R & Sp' & Eu & _); [done|done|done|done| | |].
  - intros i Hi. replace (va + 4096 * i) with va by lia. rewrite Hl by lia. split; [exact E1|exact E2].
  - intros _. rewrite Ef. split; [apply NoDup_singleton|]. intros q ->%list_elem_of_singleton. split; [by exists n|exact Ht].
  - exists σ', u, t1. split; [exact R|]. rewrite Ef in Eu. subst u'. exact Sp'.
Defined.

Lemma copyout_correct_witness : ∃ σ' t1, copyout (pt_at r1) (va + 16) 0x80000 16 s4 = Ret 0 σ' ∧
  byte_at (ram σ') (uaddr (leaf (ram s4) t1) (va + 20)) = byte_at (ram s4) (0x80000 + (va + 20 - (va + 16))).
Proof.
  destruct demo_spaces as (u & n & t1 & t2 & Sp1 & _ & _ & Hl & _ & _ & _ & Ht & _).
  destruct (demo_backed t1 Hl Ht 0x80000 ltac:(vm_compute; done)) as (Hb & Hu & Ha & _).
  destruct (copyout_correct s4 lo hi u r1 t1 (va + 16) 0x80000 16 Sp1) as (σ' & R & _ & _ & Hc & _);
    [done|done|done|exact Hb|exact Hu|exact Ha|done|done|].
  exists σ', t1. split; [exact R|]. apply Hc. lia.
Defined.

Lemma low_no_tables t1 u : space s4 lo hi u r1 t1 → no_tables t1 0x80000 16.
Proof.
  intros Sp y Hy Hin. destruct (table_covered s4 lo hi u r1 t1 y Sp Hin) as (b & k & Hb & Hx).
  destruct (pa_range _ _ _ _ b k (proj1 (sp_pmm _ _ _ _ _ _ Sp)) Hb) as (_ & _ & _ & Hlo & _). unfold lo in Hlo. lia.
Qed.

Lemma copy_in_correct_witness : ∃ σ' t1, copy_in (pt_at r1) 0x80000 (va + 16) 16 s4 = Ret 0 σ' ∧
  byte_at (ram σ') (0x80000 + 3) = byte_at (ram s4) (uaddr (leaf (ram s4) t1) (va + 16 + 3)).
Proof.
  destruct demo_spaces as (u & n & t1 & t2 & Sp1 & _ & _ & Hl & _ & _ & _ & Ht & _).
  destruct (demo_backed t1 Hl Ht 0x80000 ltac:(vm_compute; done)) as (Hb & _ & Ha & Hus).
  destruct (copy_in_correct s4 lo hi u r1 t1 0x80000 (va + 16) 16 Sp1) as (σ' & R & _ & Hc & _);
    [done|done|done|exact Hb|exact Hus|exact Ha|by apply (low_no_tables t1 u)|done|done|].
  exists σ', t1. split; [exact R|]. apply Hc. lia.
Defined.

Lemma vm_copy_correct_witness : ∃ σ' u' t', vm_copy (pt_at r1) (pt_at r2) va 4096 s4 = Ret 0 σ' ∧
  space σ' lo hi u' r2 t'.
Proof.
  destruct demo_spaces as (u & n & t1 & t2 & Sp1 & Sp2 & Hd & Hl & Hi & Hu & Hn & Ht1 & Ht2).
  destruct entry_facts as (E1 & E2 & E3 & E4 & E5).
  destruct (vm_copy_correct s4 lo hi u r1 r2 t1 t2 va 4096 Sp1 Sp2 Hd)
    as [(σ' & u' & t' & R & _ & Sp' & _)|[Hs _]]; [done|done|done|done|done| | |..].
  - change (4096 / 4096) with 1. intros i Hr. replace (va + 4096 * i) with va by lia. cbn zeta. rewrite Hl, E5 by lia.
    split_and!; [exact E1|exact E2|exact E4|apply pg_page|].
    intros x Hx. split; [exists pg, n; split; [exact Hu|lia]|]. intros (p & b & Hb & Hxb).
    apply (page_apart b pg x); [apply (pt_page _ _ _ (sp_pt _ _ _ _ _ _ Sp2) p b Hb)|done| |done|done].
    intros ->. by apply (Ht2 p).
  - change (4096 / 4096) with 1. intros i Hr. replace (va + 4096 * i) with va by lia. apply Hi. vm_compute. by split.
  - exists σ', u', t'. split; [exact R|exact Sp'].
  - exfalso. vm_compute in Hs. discriminate.
Defined.

End VmmDemo.
