(* ===== verification/UStream.v ===== *)
(** Streams over user memory: [mm::UserspaceStream],
    [kernel/mm/userspace_stream.cc] and its header.  A stream keeps a pointer
    into the user's range and the kernel address of the page it is on; reading
    and writing through it move the bytes that [copy_in] and [copyout] move. *)

From Stdlib Require Import ZArith Lia.
From stdpp Require Import base numbers gmap list.
From S2P Require Import Prelude Page Mem Klib KlibThm Pmm PmmThm PageTable PtInv PtWalk Vmm VmmMap VmmCopy VmmThm VmmDemo.
Import Pmm PmmThm PT PtInv PtWalk Vmm VmmMap VmmCopy.

Set Default Goal Selector "!".
Open Scope Z_scope.

#[local] Opaque fill_words store64 load64.

Module UStream.

Inductive RetCode : Type := rc_ok | rc_fail | rc_not_open.

Record UserspaceStream : Type := mkUs {
  _start_addr : Z; _end_addr : Z; us_pt : PageTable; _ptr : Z;
  _cache_ptr : Z; _cache_end : Z; _errno : RetCode }.

Section stream.
Context `{Port} {A : Type} `{PageAllocator A}.
Abbreviation V := (M (PhysicalMemoryManager A)).

(** The constructor. *)
Definition us_new (u_addr_start u_size : Z) (pt : PageTable) : UserspaceStream :=
  mkUs u_addr_start (u_addr_start ⊞ u_size) pt 0 0 0 rc_ok.

Definition _update_cache (a : Z) (us : UserspaceStream) : V UserspaceStream :=
  pa ← walk_addr (us_pt us) a;
  let c := to_vir pa in
  let e := if is_page_align a then c ⊞ page_size else page_round_up c in
  mret (mkUs (_start_addr us) (_end_addr us) (us_pt us) (_ptr us) c e (_errno us)).

Definition us_open (us : UserspaceStream) : V UserspaceStream :=
  let us := mkUs (_start_addr us) (_end_addr us) (us_pt us) (_start_addr us) (_cache_ptr us) (_cache_end us) (_errno us) in
  _update_cache (_ptr us) us.
Definition us_close (us : UserspaceStream) : UserspaceStream :=
  mkUs (_start_addr us) (_end_addr us) (us_pt us) 0 (_cache_ptr us) (_cache_end us) (_errno us).
Definition rest_space (us : UserspaceStream) : Z := _end_addr us ⊟ _ptr us.

Definition set_errno (e : RetCode) (us : UserspaceStream) : UserspaceStream :=
  mkUs (_start_addr us) (_end_addr us) (us_pt us) (_ptr us) (_cache_ptr us) (_cache_end us) e.
(** Both pointers move by [l] bytes. *)
Definition forward (l : Z) (us : UserspaceStream) : UserspaceStream :=
  mkUs (_start_addr us) (_end_addr us) (us_pt us) (_ptr us ⊞ l) (_cache_ptr us ⊞ l) (_cache_end us) (_errno us).

(** The loop the two operators share: [move us buf n] copies [n] bytes between
    the cached page and the buffer.  A round that finds the page used up and
    cannot get the next one copies nothing. *)
Fixpoint us_loop (fuel : nat) (move : UserspaceStream → Z → Z → V unit) (buf len : Z) (us : UserspaceStream)
  : V UserspaceStream :=
  match fuel with
  | O => spin
  | S f =>
      if 0 <? len then
        if _cache_ptr us ⊞ len <=? _cache_end us then
          move us buf len;; mret (forward len us)
        else
          let l := _cache_end us ⊟ _cache_ptr us in
          move us buf l;;
          let us := forward l us in
          us ← _update_cache (_ptr us) us;
          us_loop f move (buf ⊞ l) (len ⊟ l) us
      else mret us
  end.
(** The bytes a transfer of [len] moves: at most the rest of the range. *)
Definition clip (us : UserspaceStream) (len : Z) : Z :=
  if _end_addr us <? _ptr us ⊞ len then _end_addr us ⊟ _ptr us else len.

(** [operator>>]: from the stream to the buffer. *)
Definition move_get (us : UserspaceStream) (buf n : Z) : V unit :=
  lib (Klib.memcpy buf (_cache_ptr us) n);; mret tt.
Definition us_get (buf len : Z) (us : UserspaceStream) : V UserspaceStream :=
  if _ptr us =? 0 then mret (set_errno rc_not_open us)
  else us_loop (S (Z.to_nat (clip us len))) move_get buf (clip us len) us.

(** [operator<<]: from the buffer to the stream. *)
Definition move_put (us : UserspaceStream) (buf n : Z) : V unit :=
  lib (Klib.memcpy (_cache_ptr us) buf n);; mret tt.
Definition us_put (buf len : Z) (us : UserspaceStream) : V UserspaceStream :=
  if _ptr us =? 0 then mret (set_errno rc_not_open us)
  else
    us ← us_loop (S (Z.to_nat (clip us len))) move_put buf (clip us len) us;
    mret (set_errno rc_ok us).

(** [<<] of a NUL-terminated string, byte by byte. *)
Fixpoint us_put_cstr (fuel : nat) (str : Z) (us : UserspaceStream) : V UserspaceStream :=
  match fuel with
  | O => spin
  | S f =>
      us ← us_put str 1 us;
      c ← lib (Klib.rd str);
      if c =? 0 then mret us else us_put_cstr f (str ⊞ 1) us
  end.
Fixpoint us_get_cstr (fuel : nat) (str : Z) (us : UserspaceStream) : V UserspaceStream :=
  match fuel with
  | O => spin
  | S f =>
      us ← us_get str 1 us;
      c ← lib (Klib.rd str);
      if c =? 0 then mret us else us_get_cstr f (str ⊞ 1) us
  end.
(** [>>] of an [eastl::string]: the characters up to a NUL, through the local at
    [stk]. *)
Fixpoint us_get_string (fuel : nat) (stk : Z) (str : list Z) (us : UserspaceStream) : V (UserspaceStream * list Z) :=
  match fuel with
  | O => spin
  | S f =>
      us ← us_get stk 1 us;
      c ← lib (Klib.rd stk);
      if c =? 0 then mret (us, str) else us_get_string f stk (str ++ [c]) us
  end.
(** [<<] of an [eastl::string]: its characters, then a NUL; [stk] is the address
    of the local character. *)
Fixpoint us_put_string (stk : Z) (str : list Z) (us : UserspaceStream) : V UserspaceStream :=
  match str with
  | [] => lib (Klib.wr stk 0);; us_put stk 1 us
  | c :: str' => lib (Klib.wr stk c);; us ← us_put stk 1 us; us_put_string stk str' us
  end.

End stream.

Section laws.
Context `{PL : PortLaws} {A : Type} `{PA : PageAllocatorLaws A}.
Implicit Types (σ : PhysicalMemoryManager A) (t : gmap (list Z) Z) (u : gmap Z Z).

(** The pages of the range are mapped for the user, by entries as [map_pages]
    writes them, to pages that are no tables. *)
Definition user_mapped (L : Z → Z) t (va len : Z) : Prop := ∀ x, va ≤ x < va + len →
  ∃ b f, L x = entry b f ∧ kpage b ∧ flags_ok f ∧ is_valid f = true ∧ is_super_plv f = false ∧ ∀ p, t !! p ≠ Some b.

Lemma user_mapped_backed L t va len : user_mapped L t va len → backed L t va len ∧ user_range L va len.
Proof.
  intros Hm. split; intros x Hx; destruct (Hm x Hx) as (b & f & E & Hk & Hf & Hv & Hs & Ht); rewrite E.
  - unfold frame_of. rewrite entry_valid, entry_pa by done. done.
  - by rewrite entry_super.
Qed.

Lemma user_mapped_tail L t va len n : 0 ≤ n ≤ len → user_mapped L t va len → user_mapped L t (va + n) (len - n).
Proof. intros Hn Hm x Hx. apply Hm. lia. Qed.

(** The kernel sees byte [va] of such a page where [walk_addr] says. *)
Lemma user_byte σ lo hi u root t L va len : space σ lo hi u root t →
  (∀ v, 0 ≤ v → leaf (ram σ) t v = L v) → 0 ≤ va < 2 ^ va_bits → 0 < len → user_mapped L t va len →
  ∃ pa, walk_addr (pt_at root) va σ = Ret pa σ ∧ to_vir pa = uaddr L va.
Proof.
  intros Sp HL Hva Hlen Hm. destruct (Hm va ltac:(lia)) as (b & f & E & Hk & Hf & Hv & Hs & _).
  exists (resolve (L va) va). split.
  - rewrite <- HL by lia. apply (walk_addr_find σ root t va (sp_pt _ _ _ _ _ _ Sp)); [lia|].
    pose proof (HL va ltac:(lia)) as El. unfold leaf in El. destruct (t !! path va) as [r|]; [by eexists|].
    exfalso. pose proof (entry_valid b f Hk Hf) as Hev. rewrite <- E, <- El, pte_zero_invalid, Hv in Hev. done.
  - unfold resolve, uaddr, frame_of. rewrite E, entry_valid, entry_super, Hv, Hs, entry_pa by done. cbn [negb].
    destruct (kpage_frame b Hk) as (Hfr & _). unfold entry. rewrite pte_pa by apply Hf || done.
    destruct Hk as (Hk1 & Hk2 & Hk3 & Hk4). destruct (window_range (PortLaws := PL)) as (? & ? & ?).
    set (o := b - window). assert (b = window + o) as Eb by (unfold o; lia). rewrite Eb, phy_high by lia.
    change (page_size - 1) with (Z.ones 12). rewrite Z.land_ones by lia. change (2 ^ 12) with 4096.
    pose proof (Z.mod_pos_bound va 4096 ltac:(lia)).
    rewrite lor_disjoint_add.
    2: { apply Z.bits_inj'. intros i Hi. rewrite Z.land_spec, Z.bits_0. destruct (Z.lt_ge_cases i 12).
         - replace o with (o / 2 ^ 12 * 2 ^ 12) by (change (2 ^ 12) with 4096; Z.div_mod_to_equations; lia).
           by rewrite Z.mul_pow2_bits_low.
         - change 4096 with (2 ^ 12). rewrite Z.mod_pow2_bits_high by lia. apply andb_false_r. }
    rewrite vir_low by (Z.div_mod_to_equations; lia). lia.
Qed.

(** The cache of a stream at [va]. *)
Definition at_byte (L : Z → Z) root e va (us : UserspaceStream) : Prop :=
  us_pt us = pt_at root ∧ _end_addr us = e ∧ _ptr us = va ∧ _cache_ptr us = uaddr L va ∧
  _cache_end us = uaddr L va + (4096 - va mod 4096).

Lemma update_cache_run σ lo hi u root t L va len us : space σ lo hi u root t →
  (∀ v, 0 ≤ v → leaf (ram σ) t v = L v) → 0 ≤ va → 0 < len → va + len ≤ 2 ^ va_bits → user_mapped L t va len →
  us_pt us = pt_at root → _ptr us = va →
  ∃ us', _update_cache va us σ = Ret us' σ ∧ at_byte L root (_end_addr us) va us' ∧ _errno us' = _errno us.
Proof.
  intros Sp HL Hva Hlen Htop Hm Hpt Hp.
  destruct (user_byte σ lo hi u root t L va len Sp HL ltac:(lia) Hlen Hm) as (pa & R & Epa).
  unfold _update_cache. rewrite Hpt. mstep R. rewrite Epa. eexists. split; [reflexivity|].
  destruct (user_mapped_backed L t va len Hm) as [Hb _].
  destruct (first_page_range t L va len Hlen Hb) as (Hk & F1 & F2 & F3 & F4 & _).
  pose proof Hk as (Hk1 & Hk2 & Hk3 & Hk4). destruct (window_range (PortLaws := PL)) as (? & ? & ?).
  pose proof (Z.mod_pos_bound va 4096 ltac:(lia)) as Hmod.
  split; [|done]. repeat split; [done..|]. cbn. unfold uaddr, page_size in *.
  assert (frame_of (L va) + va mod 4096 + 4096 < 2 ^ 64) by (Z.div_mod_to_equations; lia).
  destruct (is_page_align va) eqn:Ea.
  - apply is_page_align_spec in Ea; [|done]. rewrite Ea, wrap64_small by lia. lia.
  - assert (va mod 4096 ≠ 0) by (intros E0%is_page_align_spec; [congruence|done]).
    rewrite page_round_up_eq by lia. Z.div_mod_to_equations; lia.
Qed.

(** One round of the loop. *)
Lemma us_round f move σ σ1 lo hi u root t L e va len buf us : space σ1 lo hi u root t →
  (∀ v, 0 ≤ v → leaf (ram σ1) t v = L v) → 0 ≤ va → 0 < len → va + len ≤ 2 ^ va_bits → user_mapped L t va len →
  0 ≤ buf → buf + len < 2 ^ 64 → at_byte L root e va us →
  let n := chunk va len in
  move us buf n σ = Ret tt σ1 →
  (n = len ∧ us_loop (S f) move buf len us σ = Ret (forward len us) σ1) ∨
  (n < len ∧ ∃ us', at_byte L root e (va + n) us' ∧
     us_loop (S f) move buf len us σ = us_loop f move (buf + n) (len - n) us' σ1).
Proof.
  intros Sp HL Hva Hpos Htop Hm Hbuf Hbl (Hpt & He & Hp & Hc & Hce) n R.
  destruct (user_mapped_backed L t va len Hm) as [Hb _]. pose proof (va_limit (PL := PL)).
  destruct (first_page_range t L va len Hpos Hb) as (Hk & F1 & F2 & F3 & F4 & _). fold n in F2, F4.
  destruct (chunk_range va len Hpos) as (Hn & Hoff & Hnext). fold n in Hn, Hoff, Hnext.
  pose proof (Z.mod_pos_bound va 4096 ltac:(lia)). destruct (window_range (PortLaws := PL)) as (? & ? & ?).
  destruct Hk as (Hk1 & Hk2 & Hk3 & Hk4). assert (uaddr L va < window + 2 ^ 56) by (unfold uaddr; lia).
  cbn [us_loop]. rewrite (proj2 (Z.ltb_lt 0 len)), Hc, Hce, (wrap64_small (uaddr L va + len)) by lia.
  destruct (Z.leb_spec (uaddr L va + len) (uaddr L va + (4096 - va mod 4096))) as [Hfit|Hmore].
  - left. assert (n = len) as En by (unfold n, chunk; zbool; lia). split; [done|]. rewrite <- En at 1. by mstep R.
  - right. assert (n = 4096 - va mod 4096) as En by (unfold n, chunk; zbool; lia). split; [lia|].
    replace (uaddr L va + (4096 - va mod 4096) - uaddr L va) with n by lia. rewrite (wrap64_small n) by lia. mstep R.
    assert (_ptr (forward n us) = va + n) as Ep by (cbn; rewrite Hp, wrap64_small by lia; done).
    destruct (update_cache_run σ1 lo hi u root t L (va + n) (len - n) (forward n us) Sp HL) as (us' & R' & Ha & _);
      [lia|lia|lia|by apply user_mapped_tail; [lia|]|exact Hpt|exact Ep|].
    rewrite Ep. mstep R'. exists us'. cbn in Ha. rewrite He in Ha. split; [exact Ha|].
    by rewrite (wrap64_small (buf + n)), (wrap64_small (len - n)) by lia.
Qed.

Lemma memcpy_same dst src n m : mem_ok m → 0 ≤ n → dst ≤ src ∨ src + n ≤ dst →
  Klib.memcpy dst src n m = Ret dst (store_bytes m dst (load_bytes m src (Z.to_nat n))).
Proof. intros Hm Hn Ho. unfold Klib.memcpy. by mstep (KlibThm.memcpy_loop_run (Z.to_nat n) src dst m Hm ltac:(lia)). Qed.

(** Where a stream stands after [len] bytes. *)
Definition moved (us us' : UserspaceStream) (len : Z) : Prop :=
  us_pt us' = us_pt us ∧ _end_addr us' = _end_addr us ∧ _ptr us' = _ptr us + len.

Lemma us_get_loop_run fuel : ∀ σ lo hi u root t L e va len buf us, space σ lo hi u root t →
  (∀ v, 0 ≤ v → leaf (ram σ) t v = L v) → 0 ≤ va → 0 ≤ len < Z.of_nat fuel → va + len ≤ 2 ^ va_bits →
  user_mapped L t va len → apart L va buf len → no_tables t buf len → 0 ≤ buf → buf + len < 2 ^ 64 →
  at_byte L root e va us →
  ∃ us' σ', us_loop fuel move_get buf len us σ = Ret us' σ' ∧ copy_in_loop fuel (pt_at root) buf va len σ = Ret 0 σ' ∧
    moved us us' len.
Proof.
  induction fuel as [|f IH]; intros σ lo hi u root t L e va len buf us Sp HL Hva Hlen Htop Hm Hap Hnt Hbuf Hbl Hat; [lia|].
  destruct (Z.lt_ge_cases 0 len) as [Hpos|Hz].
  2: { exists us, σ. assert (len = 0) as -> by lia. split_and!; try done. unfold moved. split_and!; [done..|lia]. }
  destruct (user_mapped_backed L t va len Hm) as [Hb Hus].
  rewrite (copy_in_round f σ lo hi u root t L) by done.
  destruct (copy_in_chunk σ lo hi u root t L buf va len Sp HL Hva Hpos Htop Hb Hap Hnt Hbuf Hbl) as (_ & _ & Sp1 & HL1 & _).
  destruct (chunk_range va len Hpos) as (Hn & Hoff & Hnext). set (n := chunk va len) in *. set (m1 := store_bytes _ _ _) in *.
  destruct (first_page_range t L va len Hpos Hb) as (_ & F1 & F2 & _). fold n in F2.
  assert (R : move_get us buf n σ = Ret tt (mkPmm (_allocator σ) m1)).
  { unfold move_get. destruct Hat as (_ & _ & _ & -> & _). specialize (Hap va ltac:(lia)).
    assert (buf ≤ uaddr L va ∨ uaddr L va + n ≤ buf) as Ho by lia.
    by mstep (lib_run _ σ _ _ (memcpy_same buf (uaddr L va) n (ram σ) (proj2 (sp_pmm _ _ _ _ _ _ Sp)) (Z.lt_le_incl _ _ (proj1 Hn)) Ho)). }
  destruct (us_round f move_get σ _ lo hi u root t L e va len buf us Sp1 HL1 Hva Hpos Htop Hm Hbuf Hbl Hat R)
    as [[En ->]|(Hlt & us1 & Hat1 & ->)]; fold n in En || fold n in Hlt, Hat1.
  - eexists _, _. split; [reflexivity|]. replace (len - n) with 0 by lia. destruct f as [|f']; [lia|].
    split; [reflexivity|]. pose proof (va_limit (PL := PL)). destruct Hat as (? & ? & Hp & _). unfold moved. cbn.
    rewrite Hp, wrap64_small by lia. done.
  - rewrite Hnext by lia.
    destruct (IH (mkPmm (_allocator σ) m1) lo hi u root t L e (va + n) (len - n) (buf + n) us1 Sp1 HL1) as (us' & σ' & R1 & R2 & (Hm1 & Hm2 & Hm3));
      [lia|lia|lia|by apply user_mapped_tail; [lia|]|by apply apart_tail; [lia|]|intros y Hy; apply Hnt; lia|lia|lia|exact Hat1|].
    exists us', σ'. split_and!; [exact R1|exact R2|]. destruct Hat as (? & ? & ? & _), Hat1 as (? & ? & ? & _).
    unfold moved. split_and!; [congruence|congruence|lia].
Qed.

Lemma us_put_loop_run fuel : ∀ σ lo hi u root t L e va len buf us, space σ lo hi u root t →
  (∀ v, 0 ≤ v → leaf (ram σ) t v = L v) → 0 ≤ va → 0 ≤ len < Z.of_nat fuel → va + len ≤ 2 ^ va_bits →
  user_mapped L t va len → apart L va buf len → 1 ≤ buf → buf + len < 2 ^ 64 →
  at_byte L root e va us →
  ∃ us' σ', us_loop fuel move_put buf len us σ = Ret us' σ' ∧ copyout_loop fuel (pt_at root) va buf len σ = Ret 0 σ' ∧
    moved us us' len.
Proof.
  induction fuel as [|f IH]; intros σ lo hi u root t L e va len buf us Sp HL Hva Hlen Htop Hm Hap Hbuf Hbl Hat; [lia|].
  destruct (Z.lt_ge_cases 0 len) as [Hpos|Hz].
  2: { exists us, σ. assert (len = 0) as -> by lia. split_and!; try done. unfold moved. split_and!; [done..|lia]. }
  destruct (user_mapped_backed L t va len Hm) as [Hb Hus].
  rewrite (copyout_round f σ lo hi u root t L) by done.
  destruct (copyout_chunk σ lo hi u root t L va buf len Sp HL Hva Hpos Htop Hb Hap Hbuf Hbl) as (_ & _ & Sp1 & HL1 & _).
  destruct (chunk_range va len Hpos) as (Hn & Hoff & Hnext). set (n := chunk va len) in *. set (m1 := store_bytes _ _ _) in *.
  destruct (first_page_range t L va len Hpos Hb) as (_ & F1 & F2 & _). fold n in F2.
  assert (R : move_put us buf n σ = Ret tt (mkPmm (_allocator σ) m1)).
  { unfold move_put. destruct Hat as (_ & _ & _ & -> & _). specialize (Hap va ltac:(lia)).
    assert (uaddr L va ≤ buf ∨ buf + n ≤ uaddr L va) as Ho by lia.
    by mstep (lib_run _ σ _ _ (memcpy_same (uaddr L va) buf n (ram σ) (proj2 (sp_pmm _ _ _ _ _ _ Sp)) (Z.lt_le_incl _ _ (proj1 Hn)) Ho)). }
  destruct (us_round f move_put σ _ lo hi u root t L e va len buf us Sp1 HL1 Hva Hpos Htop Hm ltac:(lia) Hbl Hat R)
    as [[En ->]|(Hlt & us1 & Hat1 & ->)]; fold n in En || fold n in Hlt, Hat1.
  - eexists _, _. split; [reflexivity|]. replace (len - n) with 0 by lia. destruct f as [|f']; [lia|].
    split; [reflexivity|]. pose proof (va_limit (PL := PL)). destruct Hat as (? & ? & Hp & _). unfold moved. cbn.
    rewrite Hp, wrap64_small by lia. done.
  - rewrite Hnext by lia.
    destruct (IH (mkPmm (_allocator σ) m1) lo hi u root t L e (va + n) (len - n) (buf + n) us1 Sp1 HL1) as (us' & σ' & R1 & R2 & (Hm1 & Hm2 & Hm3));
      [lia|lia|lia|by apply user_mapped_tail; [lia|]|by apply apart_tail; [lia|]|lia|lia|exact Hat1|].
    exists us', σ'. split_and!; [exact R1|exact R2|]. destruct Hat as (? & ? & ? & _), Hat1 as (? & ? & ? & _).
    unfold moved. split_and!; [congruence|congruence|lia].
Qed.

Lemma us_open_run σ lo hi u root t va size : space σ lo hi u root t → 0 ≤ va → 0 < size → va + size ≤ 2 ^ va_bits →
  user_mapped (leaf (ram σ) t) t va size →
  ∃ us, us_open (us_new va size (pt_at root)) σ = Ret us σ ∧ at_byte (leaf (ram σ) t) root (va + size) va us.
Proof.
  intros Sp Hva Hs Htop Hm. pose proof (va_limit (PL := PL)). unfold us_open, us_new.
  edestruct (update_cache_run σ lo hi u root t (leaf (ram σ) t) va size) as (us & R & Ha & _);
    [done|done|done|done|done|done| | |exists us; split; [exact R|]]; [done|done|].
  cbn in Ha. by rewrite wrap64_small in Ha by lia.
Qed.

Lemma clip_min L root va size len us : at_byte L root (va + size) va us → 0 ≤ va → 0 ≤ size → 0 ≤ len →
  va + size < 2 ^ 64 → va + len < 2 ^ 64 → clip us len = Z.min len size.
Proof.
  intros (_ & He & Hp & _) Hva Hs Hl H1 H2. unfold clip. rewrite He, Hp, (wrap64_small (va + len)) by lia.
  zbool; [rewrite wrap64_small by lia|]; lia.
Qed.

Lemma rest_moved L root va size n us us' : at_byte L root (va + size) va us → moved us us' n →
  0 ≤ n ≤ size → size < 2 ^ 64 → rest_space us' = size - n.
Proof.
  intros (_ & He & Hp & _) (_ & He' & Hp') Hn Hs. unfold rest_space. rewrite He', Hp', He, Hp.
  rewrite wrap64_small by lia. lia.
Qed.

(** C25: a stream over mapped user memory moves the bytes [copy_in] and
    [copyout] move.  Opened on [size] bytes at [va], a transfer of [len] bytes is
    cut to the rest of the range and leaves the memory in the very state that
    [copy_in] (for [>>]) or [copyout] (for [<<]) of that many bytes leaves, with
    the stream that many bytes further. *)
Theorem stream_equiv_copy σ lo hi u root t va size len buf : space σ lo hi u root t →
  0 < va → 0 < size → va + size ≤ 2 ^ va_bits → user_mapped (leaf (ram σ) t) t va size →
  0 ≤ len → va + len < 2 ^ 64 → let n := Z.min len size in
  apart (leaf (ram σ) t) va buf n → 1 ≤ buf → buf + n < 2 ^ 64 →
  ∃ us, us_open (us_new va size (pt_at root)) σ = Ret us σ ∧ rest_space us = size ∧
    (no_tables t buf n → ∃ us' σ', us_get buf len us σ = Ret us' σ' ∧
       copy_in (pt_at root) buf va n σ = Ret 0 σ' ∧ rest_space us' = size - n) ∧
    (∃ us' σ', us_put buf len us σ = Ret us' σ' ∧
       copyout (pt_at root) va buf n σ = Ret 0 σ' ∧ rest_space us' = size - n ∧ _errno us' = rc_ok).
Proof.
  intros Sp Hva Hs Htop Hm Hl Hvl n Hap Hb Hbl. pose proof (va_limit (PL := PL)).
  destruct (us_open_run σ lo hi u root t va size Sp ltac:(lia) Hs Htop Hm) as (us & R & Hat).
  assert (user_mapped (leaf (ram σ) t) t va n) as Hmn by (intros x Hx; apply Hm; lia).
  pose proof (clip_min _ _ _ _ len us Hat ltac:(lia) ltac:(lia) Hl ltac:(lia) Hvl) as Ec. fold n in Ec.
  exists us. split; [exact R|]. split; [|split].
  - rewrite (rest_moved _ _ _ _ 0 us us Hat) by (unfold moved; split_and! || lia; try done; lia). lia.
  - intros Hnt. unfold us_get. rewrite (proj2 (Z.eqb_neq (_ptr us) 0)) by (destruct Hat as (_ & _ & -> & _); lia).
    rewrite Ec.
    destruct (us_get_loop_run (S (Z.to_nat n)) σ lo hi u root t _ (va + size) va n buf us Sp (λ _ _, eq_refl)) as (us' & σ' & R1 & R2 & Hmv);
      [lia|lia|lia|done|done|done|lia|done|exact Hat|].
    exists us', σ'. split_and!; [exact R1|exact R2|]. by apply (rest_moved _ _ _ _ n us us' Hat); [|lia..].
  - unfold us_put. rewrite (proj2 (Z.eqb_neq (_ptr us) 0)) by (destruct Hat as (_ & _ & -> & _); lia).
    rewrite Ec.
    destruct (us_put_loop_run (S (Z.to_nat n)) σ lo hi u root t _ (va + size) va n buf us Sp (λ _ _, eq_refl)) as (us' & σ' & R1 & R2 & Hmv);
      [lia|lia|lia|done|done|done|done|exact Hat|].
    mstep R1. eexists _, σ'. split; [reflexivity|]. split_and!; [exact R2| |reflexivity].
    change (rest_space us' = size - n). by apply (rest_moved _ _ _ _ n us us' Hat); [|lia..].
Qed.

(** A stream whose address is not mapped and not at the start of a page never
    ends: the cached page is empty, so no round copies a byte. *)
Theorem stream_unmapped_spins σ root t va buf len : pt_ok (ram σ) root t → 0 < va < 2 ^ va_bits →
  va mod 4096 ≠ 0 → is_Some (t !! path va) → is_valid (leaf (ram σ) t va) = false → 0 < len < 2 ^ 48 → 0 ≤ buf < 2 ^ 64 →
  ∃ us, us_open (us_new va len (pt_at root)) σ = Ret us σ ∧ ∀ fuel, us_loop fuel move_get buf len us σ = Spin.
Proof.
  intros Hok Hva Hmod Ht Hinv Hl Hbuf. pose proof (va_limit (PL := PL)). destruct (window_range (PortLaws := PL)) as (W0 & W1 & W2).
  assert (Hup : ∀ us, us_pt us = pt_at root → _update_cache va us σ =
    Ret (mkUs (_start_addr us) (_end_addr us) (pt_at root) (_ptr us) window window (_errno us)) σ).
  { intros us Hpt. unfold _update_cache. rewrite Hpt. mstep (walk_addr_find σ root t va Hok ltac:(lia) Ht).
    unfold resolve. rewrite Hinv. cbn [negb]. rewrite vir_low, Z.add_0_r by lia.
    destruct (is_page_align va) eqn:Ea; [apply is_page_align_spec in Ea; [done|lia]|].
    assert (page_round_up window = window) as -> by (rewrite page_round_up_eq by lia; Z.div_mod_to_equations; lia). done. }
  unfold us_open, us_new. rewrite Hup by done. eexists. split; [reflexivity|]. cbn [_start_addr _end_addr _ptr _errno].
  intros fuel. induction fuel as [|f IH]; [done|]. cbn [us_loop _cache_ptr _cache_end].
  rewrite (proj2 (Z.ltb_lt 0 len)), (wrap64_small (window + len)) by lia.
  rewrite (proj2 (Z.leb_gt _ _)) by lia. rewrite Z.sub_diag. change (u64 0) with 0.
  set (us0 := mkUs _ _ _ _ _ _ _) in *.
  assert (move_get us0 buf 0 σ = Ret tt σ) as Rm by (by destruct σ).
  mstep Rm. unfold us0, forward. cbn [_start_addr _end_addr _ptr _errno _cache_ptr _cache_end us_pt].
  rewrite !Z.add_0_r, Z.sub_0_r, (wrap64_small va), (wrap64_small window), (wrap64_small buf), (wrap64_small len) by lia.
  fold us0. mstep (Hup us0 eq_refl). exact IH.
Qed.

End laws.

Import VmmDemo.
#[local] Existing Instance riscv_port | 0.
#[local] Existing Instance riscv_port_laws | 0.

(** A request for 20 bytes of a stream of 16. *)
Lemma stream_equiv_copy_witness : ∃ us us' σ',
  us_open (us_new (va + 16) 16 (pt_at r1)) s4 = Ret us s4 ∧ us_get 0x80000 20 us s4 = Ret us' σ' ∧
  copy_in (pt_at r1) 0x80000 (va + 16) 16 s4 = Ret 0 σ' ∧ rest_space us' = 0.
Proof.
  destruct demo_spaces as (u & n & t1 & t2 & Sp1 & _ & _ & Hl & _ & _ & _ & Ht & _).
  destruct (demo_backed t1 Hl Ht 0x80000 ltac:(vm_compute; done)) as (_ & _ & Ha & _).
  destruct fl_ok as (Hf & Hv & _ & Hs).
  destruct (stream_equiv_copy s4 lo hi u r1 t1 (va + 16) 16 20 0x80000 Sp1) as (us & R & _ & Hg & _);
    [done|done|done| |done|done|exact Ha|done|done|].
  - intros x Hx. exists pg, fl. rewrite Hl by lia. split_and!; [done|apply pg_page|done..].
  - destruct (Hg (low_no_tables t1 u Sp1)) as (us' & σ' & R1 & R2 & Hr). exists us, us', σ'. by split_and!.
Defined.

End UStream.
