(* ===== verification/Kbase.v ===== *)
(** Record update and a program logic for the kernel monad, used by the files
    that model the process manager.

    [r <| f := v |>] is the record [r] with field [f] set to [v]; a record that
    uses it declares its expansion once ([Eta]).  [wlp m Q s] says that if [m]
    returns from [s], its result and final state satisfy [Q]; [wp m Q s] says
    that it returns and they do.  [keeps I m] says [m] preserves [I]. *)

From Stdlib Require Import ZArith Lia.
From stdpp Require Import base numbers gmap list.
From S2P Require Import Prelude.

Set Default Goal Selector "!".
Open Scope Z_scope.

(** * Record update *)

Class Eta (R : Type) : Type := eta : R → R.
Class Setter {R T : Type} (f : R → T) : Type := upd : (T → T) → R → R.
#[global] Arguments upd {R T} f {_} g r : simpl never.

Ltac solve_setter :=
  match goal with
  | |- @Setter ?R ?T ?f =>
      let g := fresh "g" in let r := fresh "r" in
      unfold Setter; intros g r;
      let e := constr:(_ : Eta R) in
      let e := eval hnf in e in
      let t := eval cbv beta in (e r) in
      match eval pattern (f r) in t with
      | ?h _ => let u := eval cbv beta in (h (g (f r))) in exact u
      end
  end.
#[export] Hint Extern 1 (Setter _) => solve_setter : typeclass_instances.

Notation "r <| f := v |>" := (upd f (λ _, v) r)
  (at level 12, f at next level, left associativity, format "r  <| f  :=  v |>").

(** Reads of updated records. *)
Ltac rsimpl1 :=
  match goal with
  | |- context [?f (@upd ?R ?T ?g ?i ?h ?r)] =>
      first
        [ change (f (@upd R T g i h r)) with (f r)
        | let v := eval cbv beta in (h (g r)) in change (f (@upd R T g i h r)) with v ]
  end.
Ltac rsimpl := repeat rsimpl1.
Tactic Notation "rsimpl" "in" hyp(H) :=
  repeat match type of H with
  | context [?f (@upd ?R ?T ?g ?i ?h ?r)] =>
      first
        [ change (f (@upd R T g i h r)) with (f r) in H
        | let v := eval cbv beta in (h (g r)) in change (f (@upd R T g i h r)) with v in H ]
  end.

(** Run the administrative operations, reading updated records. *)
Ltac krun := unfold when, assert, deref; mrun; rsimpl.

(** * Preconditions *)

Definition wlp {S A} (m : M S A) (Q : A → S → Prop) (s : S) : Prop :=
  match m s with Ret a s' => Q a s' | _ => True end.
Definition wp {S A} (m : M S A) (Q : A → S → Prop) (s : S) : Prop :=
  match m s with Ret a s' => Q a s' | _ => False end.

Section logic.
Context {S : Type}.

Lemma wp_run {A} (m : M S A) Q s : wp m Q s → ∃ a s', m s = Ret a s' ∧ Q a s'.
Proof. unfold wp. destruct (m s); naive_solver. Qed.

Lemma wlp_run {A} (m : M S A) Q s a s' : wlp m Q s → m s = Ret a s' → Q a s'.
Proof. unfold wlp. intros W E. by rewrite E in W. Qed.

Lemma wlp_bind {A B} (m : M S A) (f : A → M S B) Q s :
  wlp m (λ a, wlp (f a) Q) s → wlp (m ≫= f) Q s.
Proof. unfold wlp, mbind, M_bind. destruct (m s); done. Qed.

Lemma wp_bind {A B} (m : M S A) (f : A → M S B) Q s :
  wp m (λ a, wp (f a) Q) s → wp (m ≫= f) Q s.
Proof. unfold wp, mbind, M_bind. destruct (m s); done. Qed.

Lemma wlp_mono {A} (m : M S A) (P Q : A → S → Prop) s :
  wlp m P s → (∀ a s', P a s' → Q a s') → wlp m Q s.
Proof. unfold wlp. destruct (m s); auto. Qed.

Lemma wp_mono {A} (m : M S A) (P Q : A → S → Prop) s :
  wp m P s → (∀ a s', P a s' → Q a s') → wp m Q s.
Proof. unfold wp. destruct (m s); auto. Qed.

Lemma wlp_and {A} (m : M S A) (P Q : A → S → Prop) s :
  wlp m P s → wlp m Q s → wlp m (λ a s', P a s' ∧ Q a s') s.
Proof. unfold wlp. destruct (m s); auto. Qed.

End logic.

(** * Preservation *)

Definition keeps {S} (I : S → Prop) {A} (m : M S A) : Prop :=
  ∀ s, I s → wlp m (λ _, I) s.

Section keeps.
Context {S : Type} (I : S → Prop).

Lemma keeps_mret {A} (a : A) : keeps I (mret a).
Proof. by intros s Hs. Qed.
Lemma keeps_panic {A} : keeps I (@panic S A).
Proof. by intros s Hs. Qed.
Lemma keeps_stuck {A} : keeps I (@stuck S A).
Proof. by intros s Hs. Qed.
Lemma keeps_spin {A} : keeps I (@spin S A).
Proof. by intros s Hs. Qed.
Lemma keeps_get : keeps I (@get S).
Proof. by intros s Hs. Qed.
Lemma keeps_gets {A} (f : S → A) : keeps I (gets f).
Proof. by intros s Hs. Qed.
Lemma keeps_deref {A} (o : option A) : keeps I (deref o).
Proof. by destruct o; intros s Hs. Qed.
Lemma keeps_assert b : keeps I (assert b).
Proof. by destruct b; intros s Hs. Qed.
Lemma keeps_modify f : (∀ s, I s → I (f s)) → keeps I (modify f).
Proof. intros Hf s Hs. by apply Hf. Qed.
Lemma keeps_when b m : keeps I m → keeps I (when b m).
Proof. by destruct b; intros H s Hs; [apply H|]. Qed.
Lemma keeps_if {A} (b : bool) (m n : M S A) : keeps I m → keeps I n → keeps I (if b then m else n).
Proof. by destruct b. Qed.
Lemma keeps_bind {A B} (m : M S A) (f : A → M S B) :
  keeps I m → (∀ a, keeps I (f a)) → keeps I (m ≫= f).
Proof.
  intros Hm Hf s Hs. apply wlp_bind. apply (wlp_mono _ _ _ _ (Hm s Hs)).
  intros a s' Hs'. by apply Hf.
Qed.
Lemma keeps_run {A} (m : M S A) s a s' : keeps I m → I s → m s = Ret a s' → I s'.
Proof. intros Hm Hs Hr. by apply (wlp_run _ _ _ _ _ (Hm s Hs) Hr). Qed.

End keeps.

Create HintDb keeps discriminated.
#[export] Hint Constants Opaque : keeps.
#[export] Hint Variables Opaque : keeps.
#[export] Hint Resolve keeps_mret keeps_panic keeps_stuck keeps_spin keeps_get keeps_gets
  keeps_deref keeps_assert : keeps.

(** Split a computation into its calls. *)
Ltac keep1 :=
  match goal with
  | |- keeps _ (_ ≫= _) => apply keeps_bind; [|intros ?]
  | |- keeps _ (when _ _) => apply keeps_when
  | |- keeps _ (if _ then _ else _) => apply keeps_if
  | |- keeps _ (match ?x with _ => _ end) => destruct x
  | |- keeps _ (let _ := _ in _) => cbv zeta
  end.
Ltac keep := repeat (first [solve [eauto with keeps] | keep1]).
