(* ===== verification/Kernel.v ===== *)
(** The state of the process manager and what it stands on: process control
    blocks ([kernel/include/pm/process.hh]), spin locks and the interrupt
    nesting of the CPU ([hsai/smp/spin_lock.cc], [hsai/virtual_cpu.cc]),
    sleeping and waking, pipes ([kernel/pm/ipc/pipe.cc]), open files and the
    reference counts of directory entries ([kernel/fs]).

    The kernel is built for one CPU ([CONF_CPU_NUM = 1]), so a lock is free or
    held by that CPU: [held] is the set of the locks whose [_locked] is the CPU.
    Pointers to process control blocks are indices of [k_proc_pool]; pointers to
    files, pipes and directory entries are keys of their maps, a deleted object
    is no longer in its map. *)

From Stdlib Require Import ZArith Lia.
From stdpp Require Import base numbers gmap list.
From S2P Require Import Prelude Page Mem Klib Pmm PageTable Vmm Kbase.
Import Pmm PT.

Set Default Goal Selector "!".
Open Scope Z_scope.

Module Kernel.

(** * Data *)

Inductive ProcState : Type := unused | used | sleeping | runnable | running | zombie.
#[export] Instance ProcState_eq : EqDecision ProcState.
Proof. solve_decision. Defined.

(** The addresses processes sleep on: a process control block, the two
    [uint8] fields of a pipe, the tick counter, a user address ([futex]). *)
Inductive chan : Type :=
| AtProc (g : nat)
| AtReadSleep (pipe : Z)
| AtWriteSleep (pipe : Z)
| AtTicks
| AtUser (uaddr : Z).
#[export] Instance chan_eq : EqDecision chan.
Proof. solve_decision. Defined.

Inductive lock : Type :=
| PidLock | WaitLock | ProcLock (g : nat) | PipeLock (pipe : Z) | DcacheLock | ScheLock | TimerLock
| ShmLock (key : Z).
#[export] Instance lock_eq : EqDecision lock.
Proof. solve_decision. Defined.
#[export] Instance lock_countable : Countable lock.
Proof.
  refine (inj_countable'
    (λ l, match l with
          | PidLock => inl 0 | WaitLock => inl 1 | DcacheLock => inl 2 | ScheLock => inl 3
          | TimerLock => inl 4
          | ProcLock g => inr (inl g) | PipeLock p => inr (inr (inl p)) | ShmLock k => inr (inr (inr k))
          end)
    (λ x, match x with
          | inl 0 => PidLock | inl 1 => WaitLock | inl 2 => DcacheLock | inl 3 => ScheLock
          | inl _ => TimerLock
          | inr (inl g) => ProcLock g | inr (inr (inl p)) => PipeLock p
          | inr (inr (inr k)) => ShmLock k
          end) _).
  by intros [].
Defined.

Record program_section_desc : Type := mkSec { _sec_start : Z; _sec_size : Z }.

Record vma : Type := mkVma {
  is_used : bool; address : Z; vlength : Z; prot : Z; vflags : Z; vfile : option Z }.
#[export] Instance eta_vma : Eta vma := λ r,
  mkVma (is_used r) (address r) (vlength r) (prot r) (vflags r) (vfile r).

(** The registers [swtch] restores; [set_context_entry] and [set_context_sp]
    write the first two. *)
Record Context : Type := mkContext { ra : Z; sp : Z; callee_saved : list Z }.
Record rlimit64 : Type := mkRlimit { rlim_cur : Z; rlim_max : Z }.
Record sigaction : Type := mkSigaction { sa_handler : Z; sa_flags : Z; sa_mask : Z }.

Definition max_open_files : Z := 1024.
Definition max_vma_num : nat := 64.
Definition max_program_section_num : nat := 16.
Definition default_proc_prio : Z := 10.
Definition lowest_proc_prio : Z := 19.
Definition default_proc_slot : Z := 4.
Definition default_proc_ustack_pages : Z := 32.
Definition RLIM_NLIMITS : nat := 16.
Definition RLIMIT_STACK : nat := 3.

(** [class Pcb], without its lock (see [held]), [_shmva] and the fields
    nothing modelled here reads. *)
Record Pcb : Type := mkPcb {
  _gid : Z;
  _prog_sections : list program_section_desc; _prog_section_cnt : Z;
  _cwd : option Z; _cwd_name : list Z; exe : list Z;
  _state : ProcState; _chan : option chan; _killed : Z; _xstate : Z; _pid : Z;
  parent : option nat;
  _kstack : Z; _sz : Z; _pt : PageTable; _trapframe : Z; _context : Context;
  _ofile : gmap Z Z; _name : list Z;
  _slot : Z; _priority : Z;
  _shm : Z; _shmkeymask : Z; _mqmask : Z;
  _start_tick : Z; _user_ticks : Z;
  _heap_start : Z; _heap_ptr : Z;
  vm : list vma;
  _clear_child_tid : Z; _robust_list : Z;
  _rlim_vec : list rlimit64; _sigactions : list sigaction; sigmask : Z;
  uid : Z; gid : Z; tid : Z; tgid : Z }.
#[export] Instance eta_Pcb : Eta Pcb := λ r,
  mkPcb (_gid r) (_prog_sections r) (_prog_section_cnt r) (_cwd r) (_cwd_name r) (exe r)
    (_state r) (_chan r) (_killed r) (_xstate r) (_pid r) (parent r)
    (_kstack r) (_sz r) (_pt r) (_trapframe r) (_context r) (_ofile r) (_name r)
    (_slot r) (_priority r) (_shm r) (_shmkeymask r) (_mqmask r) (_start_tick r) (_user_ticks r)
    (_heap_start r) (_heap_ptr r) (vm r) (_clear_child_tid r) (_robust_list r)
    (_rlim_vec r) (_sigactions r) (sigmask r) (uid r) (gid r) (tid r) (tgid r).

Inductive FileTypes : Type := FT_NONE | FT_PIPE | FT_DEVICE | FT_DIRECT | FT_NORMAL | FT_SYMLINK.
#[export] Instance FileTypes_eq : EqDecision FileTypes.
Proof. solve_decision. Defined.
Record FileAttrs : Type := mkAttrs { filetype : FileTypes; attr_value : Z }.

(** The subclasses of [fs::file]: [device_file] and [normal_file] hold a
    directory entry, [pipe_file] an end of a pipe. *)
Inductive file_kind : Type :=
| device_file (den : option Z)
| normal_file (den : option Z)
| pipe_file (pipe : Z) (is_write : bool).
Record file : Type := mkFile {
  _attrs : FileAttrs; refcnt : Z; _stat_size : Z; _fl_cloexec : bool; _file_ptr : Z;
  always_on : bool; kind : file_kind }.
#[export] Instance eta_file : Eta file := λ r,
  mkFile (_attrs r) (refcnt r) (_stat_size r) (_fl_cloexec r) (_file_ptr r) (always_on r) (kind r).

(** [class dentry]; the last two fields are what [isRoot] and [isMntPoint]
    answer. *)
Record dentry : Type := mkDentry {
  d_name : list Z; children : gmap (list Z) Z; d_parent : option Z; d_refcnt : Z;
  isRoot : bool; isMntPoint : bool }.
#[export] Instance eta_dentry : Eta dentry := λ r,
  mkDentry (d_name r) (children r) (d_parent r) (d_refcnt r) (isRoot r) (isMntPoint r).

(** [class PipeBuffer] and [class Pipe]. *)
Record PipeBuffer : Type := mkBuf { buf : list Z; head : Z; tail : Z; _size : Z }.
Record Pipe : Type := mkPipe { _data : PipeBuffer; _read_is_open : bool; _write_is_open : bool }.
#[export] Instance eta_Pipe : Eta Pipe := λ r, mkPipe (_data r) (_read_is_open r) (_write_is_open r).

Record VirtualCpu : Type := mkCpu {
  _num_off : Z; _int_ena : bool; interruptible : bool; _cur_proc : option nat }.
#[export] Instance eta_Cpu : Eta VirtualCpu := λ r,
  mkCpu (_num_off r) (_int_ena r) (interruptible r) (_cur_proc r).

(** [next_obj] is the address of the next object of the kernel heap, [k_fs] the
    state of the file systems. *)
Record kernel (A F : Type) : Type := mkKernel {
  cpu : VirtualCpu; held : gset lock;
  k_proc_pool : list Pcb; _cur_pid : Z; _init_proc : option nat; _last_alloc_proc_gid : Z;
  files : gmap Z file; pipes : gmap Z Pipe;
  dentries : gmap Z dentry; freeList_ : list Z;
  next_obj : Z; _ticks : Z;
  k_mm : PhysicalMemoryManager A;
  k_fs : F }.
Arguments mkKernel {A F}. Arguments cpu {A F}. Arguments held {A F}. Arguments k_proc_pool {A F}.
Arguments _cur_pid {A F}. Arguments _init_proc {A F}. Arguments _last_alloc_proc_gid {A F}.
Arguments files {A F}. Arguments pipes {A F}. Arguments dentries {A F}. Arguments freeList_ {A F}.
Arguments next_obj {A F}. Arguments _ticks {A F}. Arguments k_mm {A F}. Arguments k_fs {A F}.
#[export] Instance eta_kernel A F : Eta (kernel A F) := λ r,
  mkKernel (cpu r) (held r) (k_proc_pool r) (_cur_pid r) (_init_proc r) (_last_alloc_proc_gid r)
    (files r) (pipes r) (dentries r) (freeList_ r) (next_obj r) (_ticks r) (k_mm r) (k_fs r).

Section kernel.
Context {A F : Type}.
Abbreviation K := (M (kernel A F)).

(** * The CPU and the spin locks *)

Definition on_cpu (f : VirtualCpu → VirtualCpu) : K unit := modify (λ s, s <| cpu := f (cpu s) |>).

Definition push_interrupt_off : K unit :=
  c ← gets cpu;
  let old := interruptible c in
  on_cpu (λ c, c <| interruptible := false |>);;
  when (_num_off c =? 0) (on_cpu (λ c, c <| _int_ena := old |>));;
  on_cpu (λ c, c <| _num_off := _num_off c + 1 |>).

Definition pop_intterupt_off : K unit :=
  c ← gets cpu;
  if interruptible c then panic
  else if _num_off c <? 1 then panic
  else
    on_cpu (λ c, c <| _num_off := _num_off c - 1 |>);;
    c ← gets cpu;
    when ((_num_off c =? 0) && _int_ena c) (on_cpu (λ c, c <| interruptible := true |>)).

Definition is_held (l : lock) : K bool := gets (λ s, bool_decide (l ∈ held s)).

Definition acquire (l : lock) : K unit :=
  push_interrupt_off;;
  b ← is_held l;
  if (b : bool) then panic
  else modify (λ s, s <| held := {[l]} ∪ held s |>).

Definition release (l : lock) : K unit :=
  b ← is_held l;
  if negb b then panic
  else
    modify (λ s, s <| held := held s ∖ {[l]} |>);;
    pop_intterupt_off.

(** * Processes *)

(** Access to an element of [k_proc_pool] through a pointer. *)
Definition pcb (g : nat) : K Pcb := s ← get; deref (k_proc_pool s !! g).
Definition on_pcb (g : nat) (f : Pcb → Pcb) : K unit :=
  p ← pcb g;
  modify (λ s, s <| k_proc_pool := <[g := f p]> (k_proc_pool s) |>).

(** [get_cur_pcb], then a use of the pointer. *)
Definition get_cur_pcb : K nat := s ← get; deref (_cur_proc (cpu s)).
Definition set_cur_proc (g : option nat) : K unit := on_cpu (λ c, c <| _cur_proc := g |>).

(** [call_sched] up to the switch to the scheduler, and after the switch back:
    the saved [intena] is a local of the process. *)
Definition call_sched_out : K bool :=
  g ← get_cur_pcb;
  h ← is_held (ProcLock g);
  assert h;;
  c ← gets cpu;
  assert (_num_off c =? 1);;
  p ← pcb g;
  assert (negb (bool_decide (_state p = running)));;
  assert (negb (interruptible c));;
  mret (_int_ena c).
Definition call_sched_in (intena : bool) : K unit := on_cpu (λ c, c <| _int_ena := intena |>).

(** [ProcessManager::sleep] up to the switch, and after it. *)
Definition sleep_out (ch : chan) (l : lock) : K bool :=
  g ← get_cur_pcb;
  when (negb (bool_decide (ProcLock g = l))) (acquire (ProcLock g);; release l);;
  on_pcb g (λ p, p <| _chan := Some ch |>);;
  on_pcb g (λ p, p <| _state := sleeping |>);;
  call_sched_out.
Definition sleep_in (intena : bool) (l : lock) : K unit :=
  call_sched_in intena;;
  g ← get_cur_pcb;
  on_pcb g (λ p, p <| _chan := None |>);;
  when (negb (bool_decide (ProcLock g = l))) (release (ProcLock g);; acquire l).

Definition num_proc : nat := 32.

Definition wakeup_one (ch : chan) (g : nat) : K unit :=
  acquire (ProcLock g);;
  p ← pcb g;
  when (bool_decide (_state p = sleeping) && bool_decide (_chan p = Some ch))
    (on_pcb g (λ p, p <| _state := runnable |>));;
  release (ProcLock g).
Fixpoint for_each {X} (l : list X) (body : X → K unit) : K unit :=
  match l with
  | [] => mret tt
  | x :: l' => body x;; for_each l' body
  end.
Definition wakeup (ch : chan) : K unit := for_each (seq 0 num_proc) (wakeup_one ch).

End kernel.
End Kernel.
