(* ===== verification/KFile.v ===== *)
(** Pipes, directory entries and open files: [kernel/include/pm/ipc/PipeBuffer.hh],
    [kernel/pm/ipc/pipe.cc], [kernel/fs/dentry.cc] and [dentrycache.cc] (the
    reference counts), [kernel/include/fs/file] and [kernel/fs/file/normal.cc].

    A blocking call is modelled up to the switch to the scheduler; its result
    then says where it goes on ([progress]). *)

From Stdlib Require Import ZArith Lia.
From stdpp Require Import base numbers gmap list.
From S2P Require Import Prelude Page Mem Klib Pmm PageTable Vmm Kbase Kernel.
Import Pmm PT Kernel.

Set Default Goal Selector "!".
Open Scope Z_scope.

(** [class Inode]: what the file systems offer to open files.  An inode is
    named by the key of its directory entry; the calls change the contents of
    memory and the state [F] of the file systems. *)
Class Inode (A F : Type) : Type := {
  nodeRead : Z → Z → Z → Z → M (PhysicalMemoryManager A * F) Z;
  nodeWrite : Z → Z → Z → Z → M (PhysicalMemoryManager A * F) Z;
  nodeTruncate : Z → Z → M (PhysicalMemoryManager A * F) Z;
  rFileSize : F → Z → Z
}.

Module PipeBuf.

Definition PIPE_BUF_SIZE : Z := 4096.
(** The bytes of a new buffer are not initialised: none is read before it has
    been pushed. *)
Definition new : PipeBuffer := mkBuf (replicate (Z.to_nat PIPE_BUF_SIZE) 0) 0 0 0.
Definition full (b : PipeBuffer) : bool := _size b =? PIPE_BUF_SIZE.
Definition empty (b : PipeBuffer) : bool := _size b =? 0.
Definition push (byte : Z) (b : PipeBuffer) : bool * PipeBuffer :=
  if full b then (false, b)
  else
    (true, mkBuf (<[Z.to_nat (tail b) := u8 byte]> (buf b)) (head b)
             (Z.rem (tail b + 1) PIPE_BUF_SIZE) (_size b + 1)).
Definition pop (b : PipeBuffer) : bool * PipeBuffer :=
  if empty b then (false, b)
  else (true, mkBuf (buf b) (Z.rem (head b + 1) PIPE_BUF_SIZE) (tail b) (_size b - 1)).
Definition peek (b : PipeBuffer) : Z :=
  if empty b then 0 else default 0 (buf b !! Z.to_nat (head b)).

End PipeBuf.

Module KFile.

(** How far a blocking call got: it returned, or the process sleeps and goes on
    with [i]. *)
Inductive progress : Type := Done (r : Z) | Asleep (i : Z) (intena : bool).

Section files.
Context `{Port} {A F : Type} `{PageAllocator A} `{Inode A F}.
Abbreviation K := (M (kernel A F)).

(** Calls of the memory managers and of the file systems. *)
Definition mm {B} (m : M (PhysicalMemoryManager A) B) : K B :=
  zoom k_mm (λ m s, s <| k_mm := m |>) m.
Definition vfs {B} (m : M (PhysicalMemoryManager A * F) B) : K B :=
  zoom (λ s, (k_mm s, k_fs s)) (λ '(m, f) s, s <| k_mm := m |> <| k_fs := f |>) m.
Definition klib {B} (m : M mem B) : K B := mm (Vmm.lib m).

(** [operator new] on the kernel heap: the address of a new object. *)
Definition new_object : K Z :=
  a ← gets next_obj;
  modify (λ s, s <| next_obj := a + 1 |>);;
  mret a.

(** * Pipes *)

Definition pipe (q : Z) : K Pipe := s ← get; deref (pipes s !! q).
Definition on_pipe (q : Z) (f : Pipe → Pipe) : K unit :=
  p ← pipe q;
  modify (λ s, s <| pipes := <[q := f p]> (pipes s) |>).

Definition is_killed (p : Pcb) : bool := negb (_killed p =? 0).

(** The end of [Pipe::write]. *)
Definition write_end (q i : Z) : K progress :=
  wakeup (AtReadSleep q);;
  release (PipeLock q);;
  mret (Done i).

(** The loop of [write] and [write_in_kernel], which differ in how a byte is
    fetched: [None] breaks out of the loop. *)
Fixpoint write_loop (fuel : nat) (fetch : Z → K (option Z)) (q i n : Z) : K progress :=
  match fuel with
  | O => spin
  | S f =>
      if i <? n then
        p ← pipe q;
        g ← get_cur_pcb;
        pr ← pcb g;
        if negb (_read_is_open p) || is_killed pr then release (PipeLock q);; mret (Done (-1))
        else if PipeBuf.full (_data p) then
          wakeup (AtReadSleep q);;
          e ← sleep_out (AtWriteSleep q) (PipeLock q);
          mret (Asleep i e)
        else
          ch ← fetch i;
          match ch with
          | None => write_end q i
          | Some ch =>
              on_pipe q (λ p, p <| _data := (PipeBuf.push ch (_data p)).2 |>);;
              write_loop f fetch q (i + 1) n
          end
      else write_end q i
  end.

(** [stk]: the address of the local the byte is copied to. *)
Definition fetch_user (stk addr i : Z) : K (option Z) :=
  g ← get_cur_pcb;
  pr ← pcb g;
  r ← mm (Vmm.copy_in (_pt pr) stk (addr ⊞ i) 1);
  if r =? -1 then mret None
  else ch ← klib (Klib.rd stk); mret (Some ch).
Definition fetch_kernel (addr i : Z) : K (option Z) :=
  ch ← klib (Klib.rd (addr ⊞ i)); mret (Some ch).

Definition pipe_write (fetch : Z → K (option Z)) (q n : Z) : K progress :=
  acquire (PipeLock q);;
  write_loop (S (Z.to_nat n)) fetch q 0 n.
(** The call after the sleep at [Asleep i e]. *)
Definition pipe_write_resume (fetch : Z → K (option Z)) (q n i : Z) (e : bool) : K progress :=
  sleep_in e (PipeLock q);;
  write_loop (S (Z.to_nat (n - i))) fetch q i n.
Definition write (stk q addr n : Z) : K progress := pipe_write (fetch_user stk addr) q n.
Definition write_in_kernel (q addr n : Z) : K progress := pipe_write (fetch_kernel addr) q n.

Fixpoint read_loop (k : nat) (q addr i : Z) : K Z :=
  match k with
  | O => mret i
  | S k' =>
      p ← pipe q;
      if PipeBuf.empty (_data p) then mret i
      else
        let ch := PipeBuf.peek (_data p) in
        on_pipe q (λ p, p <| _data := (PipeBuf.pop (_data p)).2 |>);;
        klib (Klib.wr (addr ⊞ i) ch);;
        read_loop k' q addr (i + 1)
  end.
(** [Pipe::read] from the test of its first loop on. *)
Definition read_run (q addr n : Z) : K progress :=
  p ← pipe q;
  if PipeBuf.empty (_data p) && _write_is_open p then
    g ← get_cur_pcb;
    pr ← pcb g;
    if is_killed pr then release (PipeLock q);; mret (Done (-1))
    else e ← sleep_out (AtReadSleep q) (PipeLock q); mret (Asleep 0 e)
  else
    i ← read_loop (Z.to_nat n) q addr 0;
    wakeup (AtWriteSleep q);;
    release (PipeLock q);;
    mret (Done i).
Definition read (q addr n : Z) : K progress :=
  acquire (PipeLock q);; read_run q addr n.
Definition read_resume (q addr n : Z) (e : bool) : K progress :=
  sleep_in e (PipeLock q);; read_run q addr n.

(** [Pipe::close]; [delete this] takes the pipe out of the map. *)
Definition pipe_close (q : Z) (is_write : bool) : K unit :=
  acquire (PipeLock q);;
  (if is_write then
     on_pipe q (λ p, p <| _write_is_open := false |>);; wakeup (AtReadSleep q)
   else
     on_pipe q (λ p, p <| _read_is_open := false |>);; wakeup (AtWriteSleep q));;
  p ← pipe q;
  if negb (_read_is_open p) && negb (_write_is_open p) then
    release (PipeLock q);; modify (λ s, s <| pipes := delete q (pipes s) |>)
  else release (PipeLock q).

(** * Directory entries *)

Definition den (d : Z) : K dentry := s ← get; deref (dentries s !! d).
Definition on_den (d : Z) (f : dentry → dentry) : K unit :=
  x ← den d;
  modify (λ s, s <| dentries := <[d := f x]> (dentries s) |>).

Definition dentry_dup (d : Z) : K unit := on_den d (λ x, x <| d_refcnt := d_refcnt x + 1 |>).

(** The recursion follows the parents. *)
Fixpoint releaseDentryCache (fuel : nat) (d : Z) : K unit :=
  match fuel with
  | O => spin
  | S f =>
      x ← den d;
      if isRoot x || isMntPoint x then mret tt
      else
        (match d_parent x with
         | Some q =>
             on_den q (λ y, y <| children := delete (d_name x) (children y) |>);;
             y ← den q;
             when (bool_decide (children y = ∅) && (d_refcnt y <=? 0)) (releaseDentryCache f q)
         | None => mret tt
         end);;
        acquire DcacheLock;;
        modify (λ s, s <| freeList_ := freeList_ s ++ [d] |>);;
        release DcacheLock
  end.
Definition dentry_release (d : Z) : K unit :=
  on_den d (λ x, x <| d_refcnt := d_refcnt x - 1 |>);;
  x ← den d;
  s ← get;
  when (d_refcnt x <=? 0) (releaseDentryCache (S (size (dentries s))) d).

(** * Open files *)

Definition ofile (f : Z) : K file := s ← get; deref (files s !! f).
Definition on_file (f : Z) (g : file → file) : K unit :=
  x ← ofile f;
  modify (λ s, s <| files := <[f := g x]> (files s) |>).

Definition with_den (k : file_kind) (act : Z → K unit) : K unit :=
  match k with
  | device_file (Some d) | normal_file (Some d) => act d
  | _ => mret tt
  end.

(** [dup], of each subclass. *)
Definition file_dup (f : Z) : K unit :=
  on_file f (λ x, x <| refcnt := u32 (refcnt x + 1) |>);;
  x ← ofile f;
  with_den (kind x) dentry_dup.

(** [free_file], of each subclass; the destructor of a [pipe_file] closes its
    end of the pipe. *)
Definition free_file (f : Z) : K unit :=
  on_file f (λ x, x <| refcnt := u32 (refcnt x - 1) |>);;
  x ← ofile f;
  with_den (kind x) dentry_release;;
  when (refcnt x =? 0)
    (modify (λ s, s <| files := delete f (files s) |>);;
     match kind x with
     | pipe_file q w => pipe_close q w
     | _ => mret tt
     end).

(** The constructors: [refcnt] 0, then [dup]. *)
Definition new_file (attrs : FileAttrs) (size : Z) (k : file_kind) : K Z :=
  f ← new_object;
  modify (λ s, s <| files := <[f := mkFile attrs 0 size false 0 false k]> (files s) |>);;
  file_dup f;;
  mret f.

(** [new ipc::Pipe()] and [Pipe::alloc], with the modes 0771 and 0772. *)
Definition new_pipe : K Z :=
  q ← new_object;
  modify (λ s, s <| pipes := <[q := mkPipe PipeBuf.new false false]> (pipes s) |>);;
  mret q.
Definition pipe_alloc (q : Z) : K (Z * Z) :=
  on_pipe q (λ p, p <| _read_is_open := true |>);;
  on_pipe q (λ p, p <| _write_is_open := true |>);;
  f0 ← new_file (mkAttrs FT_PIPE 0x1F9) 0 (pipe_file q false);
  f1 ← new_file (mkAttrs FT_PIPE 0x1FA) 0 (pipe_file q true);
  mret (f0, f1).

(** ** Regular files: [kernel/fs/file/normal.cc] *)

Definition u_read (a : FileAttrs) : bool := Z.testbit (attr_value a) 8.
Definition u_write (a : FileAttrs) : bool := Z.testbit (attr_value a) 7.

Definition normal_read (f : Z) (buf len off : Z) (upgrade : bool) : K Z :=
  x ← ofile f;
  if negb (u_read (_attrs x)) then mret (-1)
  else
    match kind x with
    | normal_file (Some d) =>
        let off := if off <? 0 then _file_ptr x else off in
        ret ← vfs (nodeRead d buf off len);
        when ((0 <=? i64 ret) && upgrade)
          (on_file f (λ x, x <| _file_ptr := i64 (_file_ptr x + ret) |>));;
        mret (i64 ret)
    | _ => stuck
    end.

Definition normal_write (f : Z) (buf len off : Z) (upgrade : bool) : K Z :=
  x ← ofile f;
  if negb (u_write (_attrs x)) then mret (-1)
  else if bool_decide (filetype (_attrs x) = FT_DIRECT) then mret (-1)
  else if bool_decide (filetype (_attrs x) = FT_NONE) then mret (-1)
  else
    match kind x with
    | normal_file (Some d) =>
        let off := if off <? 0 then _file_ptr x else off in
        ret ← vfs (nodeWrite d buf off len);
        when ((0 <=? i64 ret) && upgrade)
          (on_file f (λ x, x <| _file_ptr := i64 (_file_ptr x + ret) |>));;
        s ← get;
        on_file f (λ x, x <| _stat_size := rFileSize (k_fs s) d |>);;
        mret (i64 ret)
    | _ => stuck
    end.

Definition SEEK_SET : Z := 0.
Definition SEEK_CUR : Z := 1.
Definition SEEK_END : Z := 2.
Definition EINVAL : Z := 22.
Definition normal_lseek (f : Z) (offset whence : Z) : K Z :=
  x ← ofile f;
  let size := i64 (_stat_size x) in
  let seek new_off := on_file f (λ x, x <| _file_ptr := new_off |>);; mret new_off in
  if whence =? SEEK_SET then
    if offset <? 0 then mret (- EINVAL) else seek offset
  else if whence =? SEEK_CUR then
    let new_off := i64 (_file_ptr x + offset) in
    if new_off <? 0 then mret (- EINVAL) else seek new_off
  else if whence =? SEEK_END then
    let new_off := i64 (_stat_size x + offset) in
    if (new_off <? 0) || (size <? new_off) then mret (- EINVAL) else seek new_off
  else mret (- EINVAL).

Definition setAppend (f : Z) : K unit :=
  on_file f (λ x, x <| _file_ptr := i64 (_stat_size x) |>).

Definition ftruncate (f : Z) (len : Z) : K Z :=
  x ← ofile f;
  match kind x with
  | normal_file (Some d) =>
      cur_len ← vfs (nodeTruncate d len);
      on_file f (λ x, x <| _stat_size := cur_len |>);;
      mret cur_len
  | _ => stuck
  end.

End files.
End KFile.
