(* ===== verification/KLock.v ===== *)
(** Laws of the spin locks and of waking, and the lock invariant: the nesting
    count of the CPU is the number of locks held, and interrupts are off while
    it is not 0. *)

From Stdlib Require Import ZArith Lia.
From stdpp Require Import base numbers gmap list.
From S2P Require Import Prelude Page Mem Klib Pmm PageTable Vmm Kbase Kernel KFile.
Import Pmm PT Kernel KFile.

Set Default Goal Selector "!".
Open Scope Z_scope.

Section locks.
Context {A F : Type}.
Implicit Types s : kernel A F.

Definition locks_ok s : Prop :=
  _num_off (cpu s) = Z.of_nat (size (held s)) ∧
  (0 < _num_off (cpu s) → interruptible (cpu s) = false).

(** The CPU holds a lock. *)
Definition nested s : Prop := 0 < _num_off (cpu s) ∧ interruptible (cpu s) = false.
(** The CPU holds none. *)
Definition unlocked s : Prop := _num_off (cpu s) = 0 ∧ held s = ∅.

Lemma unlocked_ok s : unlocked s → locks_ok s.
Proof. intros [Hn Hh]. split; [by rewrite Hn, Hh, size_empty|lia]. Qed.

Lemma kernel_eta s : s <| cpu := cpu s |> <| held := held s |> = s.
Proof. by destruct s. Qed.
Lemma pool_eta s : s <| k_proc_pool := k_proc_pool s |> = s.
Proof. by destruct s. Qed.

(** ** Access to the pool *)

Lemma pcb_run g p s : k_proc_pool s !! g = Some p → pcb g s = Ret p s.
Proof. intros E. unfold pcb. krun. by rewrite E. Qed.

Lemma on_pcb_run g p f s : k_proc_pool s !! g = Some p →
  on_pcb g f s = Ret tt (s <| k_proc_pool := <[g := f p]> (k_proc_pool s) |>).
Proof. intros E. unfold on_pcb. by rewrite (bind_ret _ _ _ _ _ (pcb_run _ _ _ E)). Qed.

Lemma cur_run g s : _cur_proc (cpu s) = Some g → get_cur_pcb s = Ret g s.
Proof. intros E. unfold get_cur_pcb. krun. by rewrite E. Qed.

(** ** Acquiring and releasing *)

Definition acquired (l : lock) s : kernel A F :=
  s <| cpu := (cpu s) <| interruptible := false |>
                <| _int_ena := if _num_off (cpu s) =? 0 then interruptible (cpu s) else _int_ena (cpu s) |>
                <| _num_off := _num_off (cpu s) + 1 |> |>
    <| held := {[l]} ∪ held s |>.

Lemma acquire_run l s : l ∉ held s → acquire l s = Ret tt (acquired l s).
Proof.
  intros Hl. unfold acquire, push_interrupt_off, on_cpu, is_held. krun.
  destruct (_num_off (cpu s) =? 0) eqn:E; cbn beta iota; rsimpl;
    rewrite bool_decide_eq_false_2 by done; f_equal; unfold acquired;
    rewrite E; by destruct s as [[] ?].
Qed.

Definition released (l : lock) s : kernel A F :=
  s <| cpu := (cpu s) <| _num_off := _num_off (cpu s) - 1 |>
                <| interruptible := (_num_off (cpu s) - 1 =? 0) && _int_ena (cpu s) |> |>
    <| held := held s ∖ {[l]} |>.

Lemma release_run l s : l ∈ held s → nested s → release l s = Ret tt (released l s).
Proof.
  intros Hl [Hn Hi]. unfold release, pop_intterupt_off, on_cpu, is_held. krun.
  rewrite bool_decide_eq_true_2 by done. cbn [negb]. rsimpl.
  rewrite Hi. rewrite (proj2 (Z.ltb_ge _ 1)) by lia. cbn beta iota. rsimpl.
  unfold released. destruct s as [[n e b c] h]. cbn in Hi, Hn |- *. subst b.
  destruct ((n - 1 =? 0) && e) eqn:E; reflexivity.
Qed.

Lemma acquired_nested l s : locks_ok s → nested (acquired l s).
Proof. intros [Hn _]. split; unfold acquired; rsimpl; [lia|done]. Qed.

(** A lock taken and given back while another is held leaves no trace. *)
Lemma acquire_release l s : nested s → l ∉ held s → released l (acquired l s) = s.
Proof.
  intros [Hn Hi] Hl. unfold released, acquired. rsimpl.
  rewrite (proj2 (Z.eqb_neq (_num_off (cpu s)) 0)) by lia.
  rewrite (proj2 (Z.eqb_neq (_num_off (cpu s) + 1 - 1) 0)) by lia. cbn [andb].
  replace (({[l]} ∪ held s) ∖ {[l]}) with (held s) by set_solver.
  destruct s as [[n e b c] h]. cbn in *. subst b. unfold upd. cbn.
  repeat f_equal. lia.
Qed.

Lemma acquired_held l l' s : l' ∈ held (acquired l s) ↔ l' = l ∨ l' ∈ held s.
Proof. unfold acquired. rsimpl. set_solver. Qed.

Lemma keeps_acquire l : keeps (S := kernel A F) locks_ok (acquire l).
Proof.
  intros s [Hn Hi]. unfold wlp. destruct (decide (l ∈ held s)) as [Hl|Hl].
  - unfold acquire, push_interrupt_off, on_cpu, is_held. krun.
    destruct (_num_off (cpu s) =? 0); cbn beta iota; rsimpl;
      by rewrite bool_decide_eq_true_2.
  - rewrite acquire_run by done. unfold locks_ok, acquired. rsimpl. split; [|done].
    rewrite size_union, size_singleton by set_solver. lia.
Qed.

Lemma keeps_release l : keeps (S := kernel A F) locks_ok (release l).
Proof.
  intros s [Hn Hi]. unfold wlp. destruct (decide (l ∈ held s)) as [Hl|Hl].
  - assert (1 ≤ size (held s))%nat.
    { rewrite <- (size_singleton (C := gset lock) l). apply subseteq_size. set_solver. }
    rewrite release_run by (by split; [lia|apply Hi; lia] || done).
    unfold locks_ok, released. rsimpl. split.
    + rewrite size_difference, size_singleton by set_solver. lia.
    + intros. rewrite (proj2 (Z.eqb_neq _ 0)) by lia. done.
  - unfold release, is_held. krun. by rewrite bool_decide_eq_false_2.
Qed.

(** ** Waking *)

Definition wake (ch : chan) (p : Pcb) : Pcb :=
  if bool_decide (_state p = sleeping) && bool_decide (_chan p = Some ch)
  then p <| _state := runnable |> else p.

Lemma wakeup_one_run ch g p s :
  nested s → ProcLock g ∉ held s → k_proc_pool s !! g = Some p →
  wakeup_one ch g s = Ret tt (s <| k_proc_pool := <[g := wake ch p]> (k_proc_pool s) |>).
Proof.
  intros Hn Hl Hp. unfold wakeup_one. rewrite (bind_ret _ _ _ _ _ (acquire_run _ _ Hl)).
  unfold pcb, on_pcb. krun.
  assert (Hp' : k_proc_pool (acquired (ProcLock g) s) !! g = Some p) by exact Hp.
  rewrite Hp'. cbn beta iota. unfold wake.
  destruct (bool_decide (_state p = sleeping) && bool_decide (_chan p = Some ch)); cbn beta iota.
  - unfold pcb. krun. rewrite Hp'. cbn beta iota.
    rewrite release_run; [|unfold acquired; rsimpl; set_solver|].
    2:{ destruct Hn. split; unfold acquired; rsimpl; [lia|done]. }
    f_equal. transitivity ((released (ProcLock g) (acquired (ProcLock g) s))
      <| k_proc_pool := <[g := p <| _state := runnable |>]> (k_proc_pool s) |>); [done|].
    by rewrite acquire_release.
  - rewrite release_run; [|unfold acquired; rsimpl; set_solver|].
    2:{ destruct Hn. split; unfold acquired; rsimpl; [lia|done]. }
    rewrite acquire_release by done. f_equal.
    rewrite list_insert_id by done. by rewrite pool_eta.
Qed.

(** A pass over the slots [h x] of the pool that changes each process on its
    own. *)
Lemma pool_each_run {X} (h : X → nat) (body : X → M (kernel A F) unit) f l s :
  NoDup (h <$> l) → (∀ x, x ∈ l → is_Some (k_proc_pool s !! h x)) →
  (∀ x p pool, x ∈ l → pool !! h x = Some p →
     body x (s <| k_proc_pool := pool |>) = Ret tt (s <| k_proc_pool := <[h x := f p]> pool |>)) →
  ∃ pool, for_each l body s = Ret tt (s <| k_proc_pool := pool |>) ∧
    ∀ g, pool !! g = if bool_decide (g ∈ h <$> l) then f <$> k_proc_pool s !! g else k_proc_pool s !! g.
Proof.
  revert s. induction l as [|x l IH]; intros s Hd Hl Hb.
  - exists (k_proc_pool s). split; [by rewrite pool_eta|].
    intros g. by rewrite bool_decide_eq_false_2 by apply not_elem_of_nil.
  - cbn [fmap list_fmap] in *. apply NoDup_cons in Hd as [Hg Hd]. destruct (Hl x) as [p Hp]; [by left|].
    pose proof (Hb x p (k_proc_pool s) ltac:(by left) Hp) as R. rewrite pool_eta in R.
    cbn [for_each]. rewrite (bind_ret _ _ _ _ _ R). cbn beta.
    destruct (IH (s <| k_proc_pool := <[h x := f p]> (k_proc_pool s) |>) Hd) as (pool & R1 & Hpool).
    { intros y Hy. rsimpl. apply lookup_lt_is_Some. rewrite length_insert.
      apply lookup_lt_is_Some, Hl. by right. }
    { intros y p' pool' Hy Hp'. exact (Hb y p' pool' ltac:(by right) Hp'). }
    exists pool. split; [exact R1|]. intros g. rewrite Hpool. rsimpl.
    destruct (decide (g = h x)) as [->|Hne].
    + rewrite bool_decide_eq_false_2 by done. rewrite bool_decide_eq_true_2 by by left.
      rewrite list_lookup_insert_eq by (apply lookup_lt_is_Some; eauto). by rewrite Hp.
    + rewrite list_lookup_insert_ne by done. apply symmetry, (f_equal (λ b : bool, if b then _ else _)).
      apply bool_decide_ext. rewrite elem_of_cons. naive_solver.
Qed.

(** A pass over the whole pool. *)
Lemma pool_map_run {X} (h : X → nat) (body : X → M (kernel A F) unit) f l s :
  NoDup (h <$> l) → length (k_proc_pool s) = num_proc → (∀ g, g ∈ h <$> l ↔ (g < num_proc)%nat) →
  (∀ x p pool, pool !! h x = Some p →
     body x (s <| k_proc_pool := pool |>) = Ret tt (s <| k_proc_pool := <[h x := f p]> pool |>)) →
  for_each l body s = Ret tt (s <| k_proc_pool := f <$> k_proc_pool s |>).
Proof.
  intros Hd Hlen Hl Hb. destruct (pool_each_run h body f l s Hd) as (pool & R & Hpool).
  { intros x Hx. apply lookup_lt_is_Some. rewrite Hlen. apply Hl, list_elem_of_fmap. eauto. }
  { intros x p pool _. apply Hb. }
  rewrite R. enough (pool = f <$> k_proc_pool s) as -> by done.
  apply list_eq. intros g. rewrite Hpool, list_lookup_fmap.
  destruct (decide (g < num_proc)%nat).
  - by rewrite bool_decide_eq_true_2 by by apply Hl.
  - rewrite bool_decide_eq_false_2 by by rewrite Hl. by rewrite lookup_ge_None_2 by lia.
Qed.

(** The pool has its 32 elements, none of them locked. *)
Definition procs_free s : Prop :=
  length (k_proc_pool s) = num_proc ∧ ∀ g, ProcLock g ∉ held s.

Lemma wakeup_run ch s :
  nested s → procs_free s →
  wakeup ch s = Ret tt (s <| k_proc_pool := wake ch <$> k_proc_pool s |>).
Proof.
  intros Hn [Hlen Hfree]. unfold wakeup. apply (pool_map_run id); rewrite ?list_fmap_id; [apply NoDup_seq|done| |].
  - intros g. rewrite elem_of_seq. lia.
  - intros g p pool Hp. by rewrite (wakeup_one_run ch g p) by (exact Hn || apply Hfree || exact Hp).
Qed.

End locks.

#[export] Hint Resolve keeps_acquire keeps_release : keeps.
