(* ===== verification/PipeThm.v ===== *)
(** Pipes are bounded first-in first-out queues of bytes: the ring buffer
    refines a list, and the calls on a pipe move bytes between memory and that
    list, put the caller to sleep when they must, and wake the other side. *)

From Stdlib Require Import ZArith Lia.
From stdpp Require Import base numbers gmap list.
From S2P Require Import Prelude Page Mem Klib Pmm PageTable Vmm Kbase Kernel KFile KLock.
Import Pmm PT Kernel KFile.

Set Default Goal Selector "!".
Open Scope Z_scope.

(** * The ring buffer *)

Section buffer.
Implicit Types b : PipeBuffer.
Import PipeBuf.

Definition ring_ok b : Prop :=
  length (buf b) = 4096%nat ∧ 0 ≤ head b < 4096 ∧ 0 ≤ _size b ≤ 4096 ∧
  tail b = (head b + _size b) mod 4096.

Definition ring_at b (i : Z) : Z := default 0 (buf b !! Z.to_nat ((head b + i) mod 4096)).
(** The bytes in the buffer, the oldest first. *)
Definition contents b : list Z := ring_at b <$> seqZ 0 (_size b).

Lemma contents_length b : ring_ok b → length (contents b) = Z.to_nat (_size b).
Proof. intros H. unfold contents. by rewrite length_fmap, length_seqZ. Qed.

Lemma seqZ_snoc n : 0 ≤ n → seqZ 0 (n + 1) = seqZ 0 n ++ [n].
Proof.
  intros. rewrite seqZ_app by lia. f_equal.
Qed.

Lemma new_ok : ring_ok new.
Proof. split_and!; [exact (length_replicate (Z.to_nat 4096) 0)|done..]. Qed.

Lemma new_contents : contents new = [].
Proof. reflexivity. Qed.

Lemma mod_slot_ne h i n : 0 ≤ h < 4096 → 0 ≤ i < n → n < 4096 →
  Z.to_nat ((h + i) mod 4096) ≠ Z.to_nat ((h + n) mod 4096).
Proof. intros. apply not_eq_sym. intros E. apply Z2Nat.inj in E; Z.div_mod_to_equations; lia. Qed.

Lemma push_spec b x : ring_ok b → _size b < 4096 →
  (push x b).1 = true ∧ ring_ok (push x b).2 ∧ contents (push x b).2 = contents b ++ [u8 x].
Proof.
  intros (Hl & Hh & Hs & Ht) Hr. unfold push, full, PIPE_BUF_SIZE.
  rewrite (proj2 (Z.eqb_neq _ 4096)) by lia. cbn [fst snd].
  assert (Htail : 0 ≤ tail b < 4096) by (rewrite Ht; apply Z.mod_pos_bound; lia).
  split_and!; [done| |].
  - unfold ring_ok. cbn. rewrite length_insert. split_and!; [done|lia|lia|lia|lia|].
    rewrite Z.rem_mod_nonneg by lia. rewrite Ht, Z.add_mod_idemp_l by lia. f_equal. lia.
  - unfold contents. cbn [_size]. rewrite seqZ_snoc, fmap_app by lia. f_equal.
    + apply list_fmap_ext. intros k i Hi%lookup_seqZ. unfold ring_at. cbn.
      rewrite list_lookup_insert_ne; [done|]. rewrite Ht. apply not_eq_sym, mod_slot_ne; lia.
    + cbn. unfold ring_at. cbn. rewrite <- Ht, list_lookup_insert_eq by (rewrite Hl; lia). done.
Qed.

Lemma push_full b x : ring_ok b → _size b = 4096 → push x b = (false, b).
Proof. intros _ E. unfold push, full, PIPE_BUF_SIZE. by rewrite E. Qed.

Lemma pop_spec b : ring_ok b → 0 < _size b →
  (pop b).1 = true ∧ ring_ok (pop b).2 ∧ contents b = peek b :: contents (pop b).2.
Proof.
  intros (Hl & Hh & Hs & Ht) Hr. unfold pop, peek, empty, PIPE_BUF_SIZE.
  rewrite (proj2 (Z.eqb_neq _ 0)) by lia. cbn [fst snd].
  split_and!; [done| |].
  - unfold ring_ok. cbn. rewrite Z.rem_mod_nonneg by lia.
    split_and!; [done|apply Z.mod_pos_bound; lia|apply Z.mod_pos_bound; lia|lia|lia|].
    rewrite Ht, Z.add_mod_idemp_l by lia. f_equal. lia.
  - unfold contents. cbn [_size]. rewrite seqZ_cons by lia. cbn [fmap list_fmap]. f_equal.
    + unfold ring_at. rewrite Z.add_0_r, Z.mod_small by lia. done.
    + replace (Z.succ 0) with (0 + 1) by lia.
      replace (Z.pred (_size b)) with (_size b - 1) by lia.
      rewrite <- (fmap_add_seqZ 1 0), <- list_fmap_compose.
      apply list_fmap_ext. intros k i Hi%lookup_seqZ. unfold ring_at, compose. cbn.
      rewrite Z.rem_mod_nonneg, Z.add_mod_idemp_l by lia.
      do 4 f_equal. lia.
Qed.

Lemma pop_empty b : ring_ok b → _size b = 0 → pop b = (false, b) ∧ peek b = 0.
Proof. intros _ E. unfold pop, peek, empty. by rewrite E. Qed.

Definition push_all (l : list Z) b : PipeBuffer := foldl (λ b x, (push x b).2) b l.

Lemma push_all_spec l : ∀ b, ring_ok b → (length l + Z.to_nat (_size b) ≤ 4096)%nat →
  ring_ok (push_all l b) ∧ contents (push_all l b) = contents b ++ (u8 <$> l).
Proof.
  induction l as [|x l IH]; intros b Hb Hl.
  { cbn. by rewrite app_nil_r. }
  cbn in Hl. change (push_all (x :: l) b) with (push_all l (push x b).2).
  assert (Hs : _size b < 4096) by (destruct Hb as (_ & _ & ? & _); lia).
  destruct (push_spec b x Hb Hs) as (_ & Hok & Hc).
  assert (E : _size (push x b).2 = _size b + 1).
  { unfold push, full, PIPE_BUF_SIZE. rewrite (proj2 (Z.eqb_neq _ 4096)) by lia. done. }
  destruct (IH (push x b).2 Hok) as [Hok' Hc'].
  { rewrite E. destruct Hb as (_ & _ & ? & _). lia. }
  split; [exact Hok'|]. rewrite Hc', Hc, <- app_assoc. done.
Qed.

Lemma push_all_size l : ∀ b, ring_ok b → (length l + Z.to_nat (_size b) ≤ 4096)%nat →
  _size (push_all l b) = _size b + Z.of_nat (length l).
Proof.
  intros b Hb Hl. destruct (push_all_spec l b Hb Hl) as [Hok Hc].
  pose proof (contents_length _ Hok) as E. rewrite Hc, length_app, length_fmap, (contents_length b Hb) in E.
  destruct Hok as (_ & _ & ? & _). destruct Hb as (_ & _ & ? & _). lia.
Qed.

(** Dropping [k] bytes from the front. *)
Fixpoint pop_n (k : nat) b : PipeBuffer :=
  match k with O => b | S k' => pop_n k' (pop b).2 end.

Lemma pop_n_spec k : ∀ b, ring_ok b → Z.of_nat k ≤ _size b →
  ring_ok (pop_n k b) ∧ contents (pop_n k b) = drop k (contents b).
Proof.
  induction k as [|k IH]; intros b Hb Hk; [done|].
  destruct (pop_spec b Hb) as (_ & Hok & Hc); [lia|].
  assert (E : _size (pop b).2 = _size b - 1).
  { unfold pop, empty. rewrite (proj2 (Z.eqb_neq _ 0)) by lia. done. }
  destruct (IH (pop b).2 Hok) as [Hok' Hc']; [lia|].
  cbn [pop_n]. rewrite Hc', Hc. done.
Qed.

End buffer.

(** The buffer as its users see it: a queue of at most 4096 bytes. *)
Definition queue_push (x : Z) (q : list Z) : bool * list Z :=
  if decide (length q < 4096)%nat then (true, q ++ [u8 x]) else (false, q).
Definition queue_pop (q : list Z) : bool * list Z :=
  match q with [] => (false, []) | _ :: q' => (true, q') end.
Definition queue_peek (q : list Z) : Z := default 0 (hd_error q).

(** C17: the ring buffer of a pipe refines a queue of at most 4096 bytes: from a
    new buffer on, [push], [pop], [peek], [full] and [empty] answer and act as
    the queue of the buffer's bytes does, and every buffer stays well formed. *)
Theorem pipe_buffer_refines_queue (b : PipeBuffer) (x : Z) :
  (ring_ok PipeBuf.new ∧ contents PipeBuf.new = []) ∧
  (ring_ok b →
   (let '(ok, b') := PipeBuf.push x b in
    ring_ok b' ∧ (ok, contents b') = queue_push x (contents b)) ∧
   (let '(ok, b') := PipeBuf.pop b in
    ring_ok b' ∧ (ok, contents b') = queue_pop (contents b)) ∧
   PipeBuf.peek b = queue_peek (contents b) ∧
   PipeBuf.full b = bool_decide (length (contents b) = 4096%nat) ∧
   PipeBuf.empty b = bool_decide (contents b = [])).
Proof.
  split; [split; [exact new_ok|exact new_contents]|]. intros Hb.
  pose proof (contents_length b Hb) as Hlen. pose proof Hb as (_ & _ & Hs & _).
  split_and!.
  - destruct (decide (_size b = 4096)) as [E|E].
    + rewrite (push_full b x Hb E). split; [done|]. unfold queue_push.
      rewrite decide_False by lia. done.
    + destruct (push_spec b x Hb) as (H1 & H2 & H3); [lia|].
      destruct (PipeBuf.push x b) as [ok b']; cbn in *. subst ok. split; [done|].
      unfold queue_push. rewrite decide_True by lia. by rewrite H3.
  - destruct (decide (_size b = 0)) as [E|E].
    + destruct (pop_empty b Hb E) as [-> _]. split; [done|].
      destruct (contents b); [done|cbn in Hlen; lia].
    + destruct (pop_spec b Hb) as (H1 & H2 & H3); [lia|].
      destruct (PipeBuf.pop b) as [ok b']; cbn in *. subst ok. split; [done|]. by rewrite H3.
  - destruct (decide (_size b = 0)) as [E|E].
    + destruct (pop_empty b Hb E) as [_ ->]. destruct (contents b); [done|cbn in Hlen; lia].
    + destruct (pop_spec b Hb) as (_ & _ & H3); [lia|]. by rewrite H3.
  - unfold PipeBuf.full, PipeBuf.PIPE_BUF_SIZE. rewrite Hlen.
    destruct (Z.eqb_spec (_size b) 4096); [rewrite bool_decide_eq_true_2|rewrite bool_decide_eq_false_2]; lia.
  - unfold PipeBuf.empty. destruct (Z.eqb_spec (_size b) 0) as [E|E].
    + rewrite bool_decide_eq_true_2; [done|]. destruct (contents b); [done|cbn in Hlen; lia].
    + rewrite bool_decide_eq_false_2; [done|]. intros E0. rewrite E0 in Hlen. cbn in Hlen. lia.
Qed.

Lemma pipe_buffer_refines_queue_witness :
  ring_ok PipeBuf.new ∧
  ∃ b', PipeBuf.push 7 PipeBuf.new = (true, b') ∧ contents b' = [7].
Proof.
  pose proof (pipe_buffer_refines_queue PipeBuf.new 7) as [[Hok Hnew] Hb].
  split; [exact Hok|]. destruct (Hb Hok) as [Hpush _]. rewrite Hnew in Hpush.
  destruct (PipeBuf.push 7 PipeBuf.new) as [ok b']. destruct Hpush as [_ [= -> Hc]].
  exists b'. split; [reflexivity|exact Hc].
Defined.

(** * Calls on pipes *)

Section pipe.
Context `{Port} {A F : Type} `{PageAllocator A} `{Inode A F}.
Implicit Types s : kernel A F.

(** The CPU holds one lock, [l], and runs process [g]. *)
Definition inside (l : lock) (g : nat) s : Prop :=
  held s = {[l]} ∧ _num_off (cpu s) = 1 ∧ interruptible (cpu s) = false ∧ _cur_proc (cpu s) = Some g ∧
  length (k_proc_pool s) = num_proc.

(** The state after a first lock is taken, and after it is given back. *)
Definition entered (l : lock) s : kernel A F :=
  s <| cpu := mkCpu 1 (interruptible (cpu s)) false (_cur_proc (cpu s)) |> <| held := {[l]} |>.
Definition left s : kernel A F :=
  s <| cpu := mkCpu 0 (_int_ena (cpu s)) (_int_ena (cpu s)) (_cur_proc (cpu s)) |> <| held := ∅ |>.

Lemma enter_run l s : unlocked s → acquire l s = Ret tt (entered l s).
Proof.
  intros [Hn Hh]. rewrite acquire_run by (rewrite Hh; set_solver). f_equal.
  unfold acquired, entered. destruct s as [[n e b c] h]. unfold upd. cbn in *. subst n h.
  f_equal. set_solver.
Qed.

Lemma leave_only l s : held s = {[l]} → _num_off (cpu s) = 1 → interruptible (cpu s) = false →
  release l s = Ret tt (left s).
Proof.
  intros Hh Hn Hi. rewrite release_run; [|rewrite Hh; set_solver|split; [lia|done]].
  f_equal. unfold released, left. destruct s as [[n e b c] h]. unfold upd. cbn in *. subst.
  f_equal. set_solver.
Qed.
Lemma leave_run l g s : inside l g s → release l s = Ret tt (left s).
Proof. intros (Hh & Hn & Hi & _). by apply leave_only. Qed.

Lemma entered_inside l g s :
  unlocked s → _cur_proc (cpu s) = Some g → length (k_proc_pool s) = num_proc → inside l g (entered l s).
Proof. by intros [Hn Hh] Hc Hl. Qed.

Lemma left_entered l s : unlocked s →
  left (entered l s) = s <| cpu := (cpu s) <| _int_ena := interruptible (cpu s) |> |>.
Proof.
  intros [Hn Hh]. unfold left, entered. destruct s as [[n e b c] h]. unfold upd. cbn in *. by subst.
Qed.

Lemma inside_wakeup l g ch s : inside l g s → (∀ g', l ≠ ProcLock g') →
  wakeup ch s = Ret tt (s <| k_proc_pool := wake ch <$> k_proc_pool s |>).
Proof.
  intros (Hh & Hn & Hi & _ & Hl) Hne. apply wakeup_run; [split; [lia|done]|].
  split; [done|]. intros g'. rewrite Hh. set_solver.
Qed.

(** The assertions of [call_sched] hold for a process that holds its own lock
    and nothing else, and has left the state [running]. *)
Lemma call_sched_out_run g p s :
  _cur_proc (cpu s) = Some g → ProcLock g ∈ held s → _num_off (cpu s) = 1 → interruptible (cpu s) = false →
  k_proc_pool s !! g = Some p → _state p ≠ running →
  call_sched_out s = Ret (_int_ena (cpu s)) s.
Proof.
  intros Hc Hh Hn Hi Hp Hst. unfold call_sched_out. mstep (cur_run _ _ Hc).
  unfold is_held. krun. rewrite bool_decide_eq_true_2 by done. cbn beta iota.
  rewrite Hn. cbn [Z.eqb Pos.eqb]. rewrite (pcb_run _ _ _ Hp). cbn beta iota.
  rewrite bool_decide_eq_false_2 by done. by rewrite Hi.
Qed.

(** [sleep] from inside the critical section of [l]: the caller sleeps, holding
    its own lock only; none of the scheduler's assertions fails. *)
Definition slept (ch : chan) (g : nat) (p : Pcb) s : kernel A F :=
  s <| held := {[ProcLock g]} |>
    <| k_proc_pool := <[g := p <| _chan := Some ch |> <| _state := sleeping |>]> (k_proc_pool s) |>.

Lemma swap_locks_run l g s :
  inside l g s → l ≠ ProcLock g →
  (acquire (ProcLock g);; release l) s = Ret tt (s <| held := {[ProcLock g]} |>).
Proof.
  intros (Hh & Hn & Hi & Hc & Hl) Hne.
  assert (R1 : acquire (ProcLock g) s = Ret tt (acquired (ProcLock g) s)).
  { apply acquire_run. rewrite Hh. set_solver. }
  mstep R1. rewrite release_run; [|unfold acquired; rsimpl; set_solver|split; unfold acquired; rsimpl; [lia|done]].
  f_equal. unfold released, acquired. rsimpl. rewrite Hh, Hn.
  replace (({[ProcLock g]} ∪ {[l]}) ∖ {[l]} : gset lock) with ({[ProcLock g]} : gset lock) by set_solver.
  destruct s as [[n e b c] h]. cbn in *. by subst.
Qed.

Lemma sleep_out_run l ch g p s :
  inside l g s → l ≠ ProcLock g → k_proc_pool s !! g = Some p →
  sleep_out ch l s = Ret (_int_ena (cpu s)) (slept ch g p s).
Proof.
  intros Hin Hne Hp. pose proof Hin as (Hh & Hn & Hi & Hc & Hl). unfold sleep_out.
  mstep (cur_run _ _ Hc). unfold when. rewrite bool_decide_eq_false_2 by done. cbn [negb].
  mstep (swap_locks_run _ _ _ Hin Hne). set (s1 := s <| held := _ |>).
  assert (Hp1 : k_proc_pool s1 !! g = Some p) by exact Hp.
  assert (Hlt : (g < length (k_proc_pool s))%nat) by (apply lookup_lt_is_Some; eauto).
  mstep (on_pcb_run _ _ (λ p, p <| _chan := Some ch |>) _ Hp1). set (s2 := s1 <| k_proc_pool := _ |>).
  assert (Hp2 : k_proc_pool s2 !! g = Some (p <| _chan := Some ch |>)).
  { unfold s2. rsimpl. by apply list_lookup_insert_eq. }
  mstep (on_pcb_run _ _ (λ p, p <| _state := sleeping |>) _ Hp2). set (s3 := s2 <| k_proc_pool := _ |>).
  assert (Es : s3 = slept ch g p s).
  { unfold s3, s2, s1, slept. rsimpl. by rewrite list_insert_insert_eq. }
  rewrite Es. change (_int_ena (cpu s)) with (_int_ena (cpu (slept ch g p s))).
  apply (call_sched_out_run g (p <| _chan := Some ch |> <| _state := sleeping |>)).
  - exact Hc.
  - unfold slept. rsimpl. set_solver.
  - exact Hn.
  - exact Hi.
  - unfold slept. rsimpl. by apply list_lookup_insert_eq.
  - done.
Qed.

(** ** Writing *)

(** The byte [fetch] delivers does not depend on the pipes. *)
Definition fetches (fetch : Z → M (kernel A F) (option Z)) (byte : Z → Z) s : Prop :=
  ∀ i ps, fetch i (s <| pipes := ps |>) = Ret (Some (byte i)) (s <| pipes := ps |>).

Definition with_pipe (q : Z) (pi : Pipe) s : kernel A F := s <| pipes := <[q := pi]> (pipes s) |>.

Lemma get_cur_run l g s : inside l g s → get_cur_pcb s = Ret g s.
Proof. intros (_ & _ & _ & Hc & _). by apply cur_run. Qed.

Lemma pipe_run q pi s : pipes s !! q = Some pi → pipe q s = Ret pi s.
Proof. intros E. unfold pipe. krun. by rewrite E. Qed.
Lemma on_pipe_run q pi f s : pipes s !! q = Some pi → on_pipe q f s = Ret tt (with_pipe q (f pi) s).
Proof. intros E. unfold on_pipe. by rewrite (bind_ret _ _ _ _ _ (pipe_run _ _ _ E)). Qed.

(** [k] rounds of the loop, while there is room. *)
Lemma write_loop_push fetch byte q g p n (k : nat) : ∀ f i s pi,
  inside (PipeLock q) g s → k_proc_pool s !! g = Some p → _killed p = 0 →
  pipes s !! q = Some pi → ring_ok (_data pi) → _read_is_open pi = true →
  fetches fetch byte s →
  Z.of_nat k ≤ 4096 - _size (_data pi) → 0 ≤ i → i + Z.of_nat k ≤ n →
  write_loop (k + f) fetch q i n s =
  write_loop f fetch q (i + Z.of_nat k) n
    (with_pipe q (pi <| _data := push_all (byte <$> seqZ i (Z.of_nat k)) (_data pi) |>) s).
Proof.
  induction k as [|k IH]; intros f i s pi Hin Hp Hk Hpi Hok Hrd Hf Hroom Hi Hn.
  { cbn [Nat.add]. rewrite Z.add_0_r. change (seqZ i (Z.of_nat 0)) with (@nil Z). cbn [fmap list_fmap].
    f_equal. unfold with_pipe, push_all. cbn. unfold upd. cbn.
    rewrite insert_id; [by destruct s|]. by destruct pi. }
  cbn [Nat.add write_loop]. rewrite (proj2 (Z.ltb_lt i n)) by lia.
  mstep (pipe_run _ _ _ Hpi). mstep (get_cur_run _ _ _ Hin). mstep (pcb_run _ _ _ Hp).
  unfold is_killed. rewrite Hrd, Hk. cbn [negb orb Z.eqb].
  unfold PipeBuf.full, PipeBuf.PIPE_BUF_SIZE. rewrite (proj2 (Z.eqb_neq _ 4096)) by lia.
  pose proof (Hf i (pipes s)) as E. replace (s <| pipes := pipes s |>) with s in E by by destruct s.
  mstep E. cbn iota. mstep (on_pipe_run _ _ (λ p, p <| _data := (PipeBuf.push (byte i) (_data p)).2 |>) _ Hpi).
  set (pi1 := pi <| _data := (PipeBuf.push (byte i) (_data pi)).2 |>).
  destruct (push_spec (_data pi) (byte i) Hok) as (_ & Hok1 & _); [lia|].
  assert (Hs1 : _size (_data pi1) = _size (_data pi) + 1).
  { unfold pi1. rsimpl. unfold PipeBuf.push, PipeBuf.full, PipeBuf.PIPE_BUF_SIZE.
    rewrite (proj2 (Z.eqb_neq _ 4096)) by lia. done. }
  assert (Hl1 : pipes (with_pipe q pi1 s) !! q = Some pi1)
    by (unfold with_pipe; rsimpl; by rewrite lookup_insert_eq).
  assert (Hf1 : fetches fetch byte (with_pipe q pi1 s)) by (intros j ps; apply (Hf j ps)).
  rewrite (IH f (i + 1) (with_pipe q pi1 s) pi1 Hin Hp Hk Hl1 Hok1 Hrd Hf1) by lia.
  f_equal; [lia|]. unfold with_pipe. rsimpl. rewrite (seqZ_cons i (Z.of_nat (S k))) by lia.
  unfold upd at 1 2 4. cbn. rewrite insert_insert_eq.
  replace (Z.succ i) with (i + 1) by lia. replace (Z.pred (Z.of_nat (S k))) with (Z.of_nat k) by lia. done.
Qed.

Lemma write_end_run q g i s : inside (PipeLock q) g s →
  write_end q i s = Ret (Done i) (left (s <| k_proc_pool := wake (AtReadSleep q) <$> k_proc_pool s |>)).
Proof.
  intros Hin. unfold write_end. rewrite (bind_ret _ _ _ _ _ (inside_wakeup _ _ _ _ Hin ltac:(done))).
  set (s1 := s <| k_proc_pool := _ |>).
  assert (Hin1 : inside (PipeLock q) g s1).
  { destruct Hin as (?&?&?&?&?). unfold s1, inside. rsimpl. split_and!; try done. by rewrite length_fmap. }
  by rewrite (bind_ret _ _ _ _ _ (leave_run _ _ _ Hin1)).
Qed.

(** The bytes written, and how many fit. *)
Definition fit (n : Z) (pi : Pipe) : Z := Z.min n (4096 - _size (_data pi)).
Definition filled (byte : Z → Z) (q k : Z) (pi : Pipe) s : kernel A F :=
  with_pipe q (pi <| _data := push_all (byte <$> seqZ 0 k) (_data pi) |>)
    (s <| k_proc_pool := wake (AtReadSleep q) <$> k_proc_pool s |>).

Lemma write_locked fetch byte q g p n s pi :
  inside (PipeLock q) g s → k_proc_pool s !! g = Some p → _killed p = 0 → _state p = running →
  pipes s !! q = Some pi → ring_ok (_data pi) → _read_is_open pi = true →
  fetches fetch byte s → 0 ≤ n →
  write_loop (S (Z.to_nat n)) fetch q 0 n s =
    if n <=? 4096 - _size (_data pi)
    then Ret (Done n) (left (filled byte q n pi s))
    else Ret (Asleep (fit n pi) (_int_ena (cpu s)))
           (slept (AtWriteSleep q) g p (filled byte q (fit n pi) pi s)).
Proof.
  intros Hin Hp Hk Hst Hpi Hok Hrd Hf Hn. unfold fit. pose proof Hok as (_ & _ & Hs & _).
  set (k := Z.min n (4096 - _size (_data pi))).
  replace (S (Z.to_nat n)) with (Z.to_nat k + S (Z.to_nat (n - k)))%nat by lia.
  rewrite (write_loop_push fetch byte q g p n (Z.to_nat k) _ 0 s pi) by (done || lia).
  rewrite Z2Nat.id, Z.add_0_l by lia.
  set (pi' := pi <| _data := _ |>). set (s1 := with_pipe q pi' s).
  assert (Hin1 : inside (PipeLock q) g s1) by exact Hin.
  assert (Hsz : _size (_data pi') = _size (_data pi) + k).
  { assert (E : length (byte <$> seqZ 0 k) = Z.to_nat k) by (by rewrite length_fmap, length_seqZ).
    unfold pi'. rsimpl. rewrite (push_all_size _ _ Hok) by (rewrite E; lia). rewrite E. lia. }
  cbn [write_loop]. destruct (Z.leb_spec n (4096 - _size (_data pi))) as [Hle|Hgt].
  - assert (Ek : k = n) by lia. rewrite <- Ek, Z.ltb_irrefl. by rewrite (write_end_run _ _ _ _ Hin1).
  - rewrite (proj2 (Z.ltb_lt k n)) by lia. 
    assert (Hl : pipes s1 !! q = Some pi') by (unfold s1, with_pipe; rsimpl; by rewrite lookup_insert_eq).
    assert (Hp1 : k_proc_pool s1 !! g = Some p) by exact Hp.
    mstep (pipe_run _ _ _ Hl). mstep (get_cur_run _ _ _ Hin1). mstep (pcb_run _ _ _ Hp1).
    unfold is_killed. rewrite Hk.
    assert (Hrd' : _read_is_open pi' = true) by exact Hrd. rewrite Hrd'. cbn [negb orb Z.eqb].
    unfold PipeBuf.full, PipeBuf.PIPE_BUF_SIZE. rewrite (proj2 (Z.eqb_eq _ 4096)) by lia.
    mstep (inside_wakeup _ _ (AtReadSleep q) _ Hin1 ltac:(done)).
    set (s2 := s1 <| k_proc_pool := _ |>).
    assert (Hin2 : inside (PipeLock q) g s2).
    { destruct Hin1 as (?&?&?&?&?). unfold s2, inside. rsimpl. split_and!; try done. by rewrite length_fmap. }
    assert (Hp2 : k_proc_pool s2 !! g = Some p).
    { unfold s2. rsimpl. rewrite list_lookup_fmap. change (k_proc_pool s1) with (k_proc_pool s). rewrite Hp. cbn.
      unfold wake. by rewrite Hst. }
    by mstep (sleep_out_run _ (AtWriteSleep q) _ _ _ Hin2 ltac:(done) Hp2).
Qed.

(** ** Memory *)

Definition memory s : mem := ram (k_mm s).
Definition with_memory (m : mem) s : kernel A F := s <| k_mm := mkPmm (_allocator (k_mm s)) m |>.

Lemma klib_rd_run a s : klib (Klib.rd a) s = Ret (byte_at (memory s) a) s.
Proof. unfold klib, mm, Vmm.lib, zoom, Klib.rd, gets. cbn. by destruct s as [? ? ? ? ? ? ? ? ? ? ? ? []]. Qed.

Lemma klib_wr_run a v s : klib (Klib.wr a v) s = Ret tt (with_memory (store_byte a (u8 v) (memory s)) s).
Proof. reflexivity. Qed.

(** The bytes [write_in_kernel] reads at [addr]. *)
Definition source (m : mem) (addr i : Z) : Z := byte_at m (addr ⊞ i).

Lemma fetch_kernel_fetches addr s : fetches (fetch_kernel addr) (source (memory s) addr) s.
Proof. intros i ps. unfold fetch_kernel. by mstep (klib_rd_run (addr ⊞ i) (s <| pipes := ps |>)). Qed.

Lemma source_bytes m addr n : 0 ≤ addr → 0 ≤ n → addr + n ≤ 2 ^ 64 →
  source m addr <$> seqZ 0 n = load_bytes m addr (Z.to_nat n).
Proof.
  intros Ha Hn Hle. rewrite <- (Z2Nat.id n) in Hle |- * by done. generalize dependent (Z.to_nat n).
  clear n Hn. intros k. rewrite Nat2Z.id.
  assert (G : ∀ j, 0 ≤ j → addr + j + Z.of_nat k ≤ 2 ^ 64 →
    source m addr <$> seqZ j (Z.of_nat k) = load_bytes m (addr + j) k).
  { induction k as [|k IH]; intros j Hj Hle; [done|].
    rewrite seqZ_cons by lia. cbn [load_bytes fmap list_fmap].
    replace (Z.succ j) with (j + 1) by lia. replace (Z.pred (Z.of_nat (S k))) with (Z.of_nat k) by lia.
    change (list_fmap Z Z) with (@fmap list _ Z Z).
    rewrite (IH (j + 1)) by lia. f_equal; [|f_equal; lia].
    unfold source. rewrite wrap64_small by lia. done. }
  intros Hle. rewrite (G 0) by lia. f_equal. lia.
Qed.

(** ** Reading *)

Lemma read_loop_run q dst (k : nat) : ∀ n i s pi,
  pipes s !! q = Some pi → ring_ok (_data pi) → (k ≤ n)%nat →
  Z.of_nat k ≤ _size (_data pi) → (k = n ∨ Z.of_nat k = _size (_data pi)) →
  0 ≤ dst → 0 ≤ i → dst + i + Z.of_nat k ≤ 2 ^ 64 →
  read_loop n q dst i s =
  Ret (i + Z.of_nat k)
    (with_pipe q (pi <| _data := pop_n k (_data pi) |>)
      (with_memory (store_bytes (memory s) (dst + i) (u8 <$> take k (contents (_data pi)))) s)).
Proof.
  induction k as [|k IH]; intros n i s pi Hpi Hok Hkn Hk Hend Hd Hi Hle.
  - assert (E : with_pipe q (pi <| _data := pop_n 0 (_data pi) |>)
      (with_memory (store_bytes (memory s) (dst + i) []) s) = s).
    { unfold with_pipe, with_memory, memory. cbn. rewrite insert_id.
      - by destruct s as [? ? ? ? ? ? ? ? ? ? ? ? []].
      - rsimpl. rewrite Hpi. by destruct pi. }
    change (take 0 (contents (_data pi))) with (@nil Z). change (u8 <$> []) with (@nil Z). rewrite E, Z.add_0_r.
    destruct Hend as [<-|E0]; [done|].
    destruct n as [|n]; [done|]. cbn [read_loop]. mstep (pipe_run _ _ _ Hpi).
    unfold PipeBuf.empty. by rewrite <- E0.
  - destruct n as [|n]; [lia|]. cbn [read_loop]. mstep (pipe_run _ _ _ Hpi).
    unfold PipeBuf.empty at 1. rewrite (proj2 (Z.eqb_neq _ 0)) by lia.
    mstep (on_pipe_run _ _ (λ p, p <| _data := (PipeBuf.pop (_data p)).2 |>) _ Hpi).
    destruct (pop_spec (_data pi) Hok) as (_ & Hok1 & Hc); [lia|].
    set (pi1 := pi <| _data := _ |>). mstep (klib_wr_run (dst ⊞ i) (PipeBuf.peek (_data pi)) (with_pipe q pi1 s)).
    set (s1 := with_memory _ _).
    assert (Hpi1 : pipes s1 !! q = Some pi1) by (unfold s1, with_memory, with_pipe; rsimpl; by rewrite lookup_insert_eq).
    assert (Hs1 : _size (_data pi1) = _size (_data pi) - 1).
    { unfold pi1. rsimpl. unfold PipeBuf.pop, PipeBuf.empty. rewrite (proj2 (Z.eqb_neq _ 0)) by lia. done. }
    rewrite (IH n (i + 1) s1 pi1 Hpi1 Hok1) by lia. f_equal; [lia|].
    rewrite Hc. cbn [take fmap list_fmap store_bytes].
    unfold s1, with_memory, with_pipe, memory. rsimpl. rewrite (wrap64_small (dst + i)) by lia. replace (dst + (i + 1)) with (dst + i + 1) by lia.
    unfold upd. cbn. by rewrite insert_insert_eq.
Qed.

(** A read that finds bytes, or a closed writing end. *)
Lemma read_run_data q dst n g s pi :
  inside (PipeLock q) g s → pipes s !! q = Some pi → ring_ok (_data pi) →
  0 < _size (_data pi) ∨ _write_is_open pi = false →
  0 ≤ dst → 0 ≤ n → dst + n ≤ 2 ^ 64 →
  let k := Z.to_nat (Z.min n (_size (_data pi))) in
  read_run q dst n s =
  Ret (Done (Z.of_nat k))
    (left ((with_pipe q (pi <| _data := pop_n k (_data pi) |>)
       (with_memory (store_bytes (memory s) dst (u8 <$> take k (contents (_data pi)))) s))
       <| k_proc_pool := wake (AtWriteSleep q) <$> k_proc_pool s |>)).
Proof.
  intros Hin Hpi Hok Hd Hdst Hn Hle k. pose proof Hok as (_ & _ & Hs & _). unfold read_run.
  mstep (pipe_run _ _ _ Hpi).
  assert (E : PipeBuf.empty (_data pi) && _write_is_open pi = false).
  { unfold PipeBuf.empty. destruct Hd as [Hd| ->]; [|by rewrite andb_false_r].
    by rewrite (proj2 (Z.eqb_neq _ 0)) by lia. }
  rewrite E.
  mstep (read_loop_run q dst k (Z.to_nat n) 0 s pi Hpi Hok ltac:(lia) ltac:(lia) ltac:(lia) Hdst ltac:(lia) ltac:(lia)).
  rewrite Z.add_0_r, Z.add_0_l. set (s1 := with_pipe _ _ _).
  assert (Hin1 : inside (PipeLock q) g s1) by exact Hin.
  mstep (inside_wakeup _ _ (AtWriteSleep q) _ Hin1 ltac:(done)).
  set (s2 := s1 <| k_proc_pool := _ |>).
  assert (Hin2 : inside (PipeLock q) g s2).
  { destruct Hin1 as (?&?&?&?&?). unfold s2, inside. rsimpl. split_and!; try done. by rewrite length_fmap. }
  by mstep (leave_run _ _ _ Hin2).
Qed.

End pipe.

(** * The claims *)

Section claims.
Context `{Port} {A F : Type} `{PageAllocator A} `{Inode A F}.
Implicit Types s : kernel A F.

(** Process [g] runs, outside every critical section. *)
Definition runs (g : nat) (p : Pcb) s : Prop :=
  unlocked s ∧ _cur_proc (cpu s) = Some g ∧ length (k_proc_pool s) = num_proc ∧
  k_proc_pool s !! g = Some p ∧ _state p = running.

Lemma runs_entered l g p s : runs g p s → inside l g (entered l s) ∧ k_proc_pool (entered l s) !! g = Some p.
Proof. intros (Hu & Hc & Hl & Hp & _). split; [by apply entered_inside|exact Hp]. Qed.

Lemma write_in_kernel_run (q addr n : Z) (g : nat) (p : Pcb) (pi : Pipe) s :
  runs g p s → pipes s !! q = Some pi → ring_ok (_data pi) → 0 < n →
  let s0 := entered (PipeLock q) s in
  let room := 4096 - _size (_data pi) in
  let bytes := source (memory s) addr in
  write_in_kernel q addr n s =
    if negb (_read_is_open pi) || is_killed p then Ret (Done (-1)) (left s0)
    else if n <=? room then Ret (Done n) (left (filled bytes q n pi s0))
    else Ret (Asleep room (interruptible (cpu s)))
           (slept (AtWriteSleep q) g p (filled bytes q room pi s0)).
Proof.
  intros Hr Hpi Hok Hn s0 room bytes. pose proof Hr as (Hu & Hc & Hl & Hp & Hst).
  destruct (runs_entered (PipeLock q) g p s Hr) as [Hin Hp0]. fold s0 in Hin, Hp0.
  unfold write_in_kernel, pipe_write. mstep (enter_run (PipeLock q) s Hu). fold s0.
  assert (Hpi0 : pipes s0 !! q = Some pi) by exact Hpi.
  destruct (negb (_read_is_open pi) || is_killed p) eqn:E.
  - cbn [write_loop]. rewrite (proj2 (Z.ltb_lt 0 n)) by lia.
    mstep (pipe_run _ _ _ Hpi0). mstep (get_cur_run _ _ _ Hin). mstep (pcb_run _ _ _ Hp0).
    rewrite E. by mstep (leave_run _ _ _ Hin).
  - apply orb_false_iff in E as [Hrd Hk]. apply negb_false_iff in Hrd. unfold is_killed in Hk.
    apply negb_false_iff, Z.eqb_eq in Hk.
    rewrite (write_locked _ bytes q g p n s0 pi Hin Hp0 Hk Hst Hpi0 Hok Hrd
      (fetch_kernel_fetches addr s0)) by lia.
    fold room. destruct (Z.leb_spec n room); [done|].
    unfold fit. fold room. by rewrite Z.min_r by lia.
Qed.

Lemma read_call_run (q dst n : Z) (g : nat) (p : Pcb) (pi : Pipe) s :
  runs g p s → pipes s !! q = Some pi → ring_ok (_data pi) → 0 ≤ dst → 0 ≤ n → dst + n ≤ 2 ^ 64 →
  let s0 := entered (PipeLock q) s in
  let k := Z.to_nat (Z.min n (_size (_data pi))) in
  read q dst n s =
    if PipeBuf.empty (_data pi) && _write_is_open pi then
      if is_killed p then Ret (Done (-1)) (left s0)
      else Ret (Asleep 0 (interruptible (cpu s))) (slept (AtReadSleep q) g p s0)
    else
      Ret (Done (Z.of_nat k))
        (left ((with_pipe q (pi <| _data := pop_n k (_data pi) |>)
           (with_memory (store_bytes (memory s) dst (u8 <$> take k (contents (_data pi)))) s0))
           <| k_proc_pool := wake (AtWriteSleep q) <$> k_proc_pool s |>)).
Proof.
  intros Hr Hpi Hok Hd Hn Hle s0 k. pose proof Hr as (Hu & Hc & Hl & Hp & Hst).
  destruct (runs_entered (PipeLock q) g p s Hr) as [Hin Hp0]. fold s0 in Hin, Hp0.
  unfold read. mstep (enter_run (PipeLock q) s Hu). fold s0.
  assert (Hpi0 : pipes s0 !! q = Some pi) by exact Hpi.
  destruct (PipeBuf.empty (_data pi) && _write_is_open pi) eqn:E.
  - unfold read_run. mstep (pipe_run _ _ _ Hpi0). rewrite E.
    mstep (get_cur_run _ _ _ Hin). mstep (pcb_run _ _ _ Hp0).
    destruct (is_killed p); [by mstep (leave_run _ _ _ Hin)|].
    by mstep (sleep_out_run _ (AtReadSleep q) _ _ _ Hin ltac:(done) Hp0).
  - apply (read_run_data q dst n g s0 pi Hin Hpi0 Hok); [|done..].
    apply andb_false_iff in E as [E|E]; [left|by right].
    unfold PipeBuf.empty in E. apply Z.eqb_neq in E. destruct Hok as (_ & _ & ? & _). lia.
Qed.

Lemma u8_bytes l : Forall (λ b, 0 ≤ b < 256) l → u8 <$> l = l.
Proof.
  intros Hl. induction Hl as [|b l Hb _ IH]; [done|]. cbn [fmap list_fmap].
  rewrite IH. f_equal. by apply Z.mod_small.
Qed.

(** What a pipe holds after a write or a read. *)
Lemma filled_contents addr k pi s :
  ring_ok (_data pi) → mem_ok (memory s) → 0 ≤ addr → 0 ≤ k → addr + k ≤ 2 ^ 64 → k ≤ 4096 - _size (_data pi) →
  contents (push_all (source (memory s) addr <$> seqZ 0 k) (_data pi)) =
    contents (_data pi) ++ load_bytes (memory s) addr (Z.to_nat k).
Proof.
  intros Hok Hm Ha Hk Hle Hroom. pose proof Hok as (_ & _ & Hs & _).
  rewrite source_bytes by done.
  destruct (push_all_spec (load_bytes (memory s) addr (Z.to_nat k)) _ Hok) as [_ ->];
    [rewrite length_load; lia|]. by rewrite u8_bytes by by apply bytes_load.
Qed.

(** A write to an empty pipe. *)
Lemma first_write src n pi s :
  ring_ok (_data pi) → _size (_data pi) = 0 → mem_ok (memory s) → 0 ≤ src → 0 ≤ n ≤ 4096 → src + n ≤ 2 ^ 64 →
  let b := push_all (source (memory s) src <$> seqZ 0 n) (_data pi) in
  ring_ok b ∧ _size b = n ∧ contents b = load_bytes (memory s) src (Z.to_nat n).
Proof.
  intros Hok Hsz Hm Hs Hn Hle b.
  assert (El : length (source (memory s) src <$> seqZ 0 n) = Z.to_nat n) by by rewrite length_fmap, length_seqZ.
  destruct (push_all_spec (source (memory s) src <$> seqZ 0 n) (_data pi) Hok) as [Hok1 _]; [lia|].
  split_and!; [done|unfold b; rewrite push_all_size by (done || lia); lia|].
  unfold b. rewrite (filled_contents src n pi s) by (done || lia).
  assert (contents (_data pi) = []) as ->; [|done]. apply length_zero_iff_nil. rewrite contents_length by done. lia.
Qed.

(** C15: [write_in_kernel], on every branch.  With the reading end open and the
    caller not killed, the bytes at [addr] are appended to the pipe: all [n] of
    them when they fit, and the call returns [n]; otherwise as many as fit, and
    the caller sleeps on the pipe's writing channel holding its own lock only.
    Either way the processes that sleep on the reading channel become
    runnable.  A closed reading end or a killed caller is answered by -1 with
    the pipe as it was.  The last equation says which bytes were appended. *)
Theorem pipe_write_correct (q addr n : Z) (g : nat) (p : Pcb) (pi : Pipe) s :
  runs g p s → pipes s !! q = Some pi → ring_ok (_data pi) → mem_ok (memory s) →
  0 < n → 0 ≤ addr → addr + n ≤ 2 ^ 64 →
  let s0 := entered (PipeLock q) s in
  let room := 4096 - _size (_data pi) in
  let bytes := source (memory s) addr in
  write_in_kernel q addr n s =
    (if negb (_read_is_open pi) || is_killed p then Ret (Done (-1)) (left s0)
     else if n <=? room then Ret (Done n) (left (filled bytes q n pi s0))
     else Ret (Asleep room (interruptible (cpu s)))
            (slept (AtWriteSleep q) g p (filled bytes q room pi s0))) ∧
  ∀ k, 0 ≤ k ≤ Z.min n room →
    (λ pi', contents (_data pi')) <$> pipes (filled bytes q k pi s0) !! q =
      Some (contents (_data pi) ++ load_bytes (memory s) addr (Z.to_nat k)).
Proof.
  intros Hr Hpi Hok Hm Hn Ha Hle s0 room bytes.
  split; [by apply write_in_kernel_run|]. intros k Hk. unfold filled, with_pipe. rsimpl.
  rewrite lookup_insert_eq. cbn. f_equal. apply (filled_contents addr k pi s); try done; lia.
Qed.

(** C16: [read], on every branch.  When the pipe holds bytes, or its writing end
    is closed, the oldest [k] bytes ([k] the smaller of [n] and what is there)
    are stored at [dst] in order and leave the pipe, the processes that sleep on
    the writing channel become runnable, and the call returns [k] (0 at the end
    of the stream).  On an empty pipe with its writing end open a killed caller
    gets -1 and any other caller sleeps on the reading channel.  The last
    equation says what the pipe keeps. *)
Theorem pipe_read_correct (q dst n : Z) (g : nat) (p : Pcb) (pi : Pipe) s :
  runs g p s → pipes s !! q = Some pi → ring_ok (_data pi) → 0 ≤ dst → 0 ≤ n → dst + n ≤ 2 ^ 64 →
  let s0 := entered (PipeLock q) s in
  let k := Z.to_nat (Z.min n (_size (_data pi))) in
  read q dst n s =
    (if PipeBuf.empty (_data pi) && _write_is_open pi then
       if is_killed p then Ret (Done (-1)) (left s0)
       else Ret (Asleep 0 (interruptible (cpu s))) (slept (AtReadSleep q) g p s0)
     else
       Ret (Done (Z.of_nat k))
         (left ((with_pipe q (pi <| _data := pop_n k (_data pi) |>)
            (with_memory (store_bytes (memory s) dst (u8 <$> take k (contents (_data pi)))) s0))
            <| k_proc_pool := wake (AtWriteSleep q) <$> k_proc_pool s |>))) ∧
  contents (pop_n k (_data pi)) = drop k (contents (_data pi)).
Proof.
  intros Hr Hpi Hok Hd Hn Hle s0 k. split; [by apply read_call_run|].
  apply pop_n_spec; [done|]. pose proof Hok as (_ & _ & ? & _). lia.
Qed.

(** The CPU as the scheduler leaves it to process [g], outside every critical
    section. *)
Definition run_next (g : nat) s : kernel A F :=
  s <| cpu := (cpu s) <| _cur_proc := Some g |> |>
    <| k_proc_pool := alter (λ p, p <| _state := running |>) g (k_proc_pool s) |>.

(** C18: bytes travel through a pipe unchanged and in order: after a process
    writes [n] bytes at [src] to an empty pipe (1 to 4096 of them), any process
    that runs next and reads [n] bytes from the pipe finds exactly them at
    [dst], and the pipe is empty again. *)
Theorem pipe_roundtrip (q src dst n : Z) (g g' : nat) (p : Pcb) (pi : Pipe) s :
  runs g p s → is_killed p = false → mem_ok (memory s) →
  pipes s !! q = Some pi → ring_ok (_data pi) → _size (_data pi) = 0 → _read_is_open pi = true →
  0 < n ≤ 4096 → 0 ≤ src → src + n ≤ 2 ^ 64 → 0 ≤ dst → dst + n ≤ 2 ^ 64 →
  is_Some (k_proc_pool s !! g') →
  ∃ s1 s2 pi2,
    write_in_kernel q src n s = Ret (Done n) s1 ∧
    read q dst n (run_next g' s1) = Ret (Done n) s2 ∧
    load_bytes (memory s2) dst (Z.to_nat n) = load_bytes (memory s) src (Z.to_nat n) ∧
    pipes s2 !! q = Some pi2 ∧ contents (_data pi2) = [].
Proof.
  intros Hr Hk Hm Hpi Hok Hsz Hrd Hn Hs0 Hs1 Hd0 Hd1 [p' Hp'].
  pose proof (write_in_kernel_run q src n g p pi s Hr Hpi Hok ltac:(lia)) as W. cbv zeta in W.
  rewrite Hrd, Hk, Hsz in W. cbn [negb orb] in W. rewrite (proj2 (Z.leb_le n _)) in W by lia.
  set (bytes := source (memory s) src) in *.
  set (pi1 := pi <| _data := push_all (bytes <$> seqZ 0 n) (_data pi) |>).
  set (s1 := left _) in W. exists s1.
  destruct (first_write src n pi s Hok Hsz Hm Hs0 ltac:(lia) Hs1) as (Hok1 & Hsz1 & Hc2).
  change (push_all _ _) with (_data pi1) in Hok1, Hsz1, Hc2.
  destruct Hr as (Hu & Hc & Hl & Hp & Hst).
  assert (Hr' : runs g' (wake (AtReadSleep q) p' <| _state := running |>) (run_next g' s1)).
  { assert (Ep : k_proc_pool (run_next g' s1) =
      alter (λ p, p <| _state := running |>) g' (wake (AtReadSleep q) <$> k_proc_pool s)) by exact eq_refl.
    split_and!; [split; done|done|by rewrite Ep, length_alter, length_fmap| |done].
    rewrite Ep, list_lookup_alter_eq, list_lookup_fmap. by rewrite Hp'. }
  assert (Hpi' : pipes (run_next g' s1) !! q = Some pi1) by exact (lookup_insert_eq _ _ _).
  pose proof (read_call_run q dst n g' _ pi1 _ Hr' Hpi' Hok1 Hd0 ltac:(lia) Hd1) as R. cbv zeta in R.
  unfold PipeBuf.empty in R. rewrite Hsz1 in R. rewrite (proj2 (Z.eqb_neq n 0)) in R by lia. cbn [andb] in R.
  rewrite Z.min_id, Z2Nat.id in R by lia.
  assert (Et : take (Z.to_nat n) (contents (_data pi1)) = load_bytes (memory s) src (Z.to_nat n)).
  { rewrite Hc2. rewrite <- (length_load (memory s) src (Z.to_nat n)) at 1. apply firstn_all. }
  set (s2 := left _) in R. exists s2, (pi1 <| _data := pop_n (Z.to_nat n) (_data pi1) |>).
  split; [exact W|]. split; [exact R|]. split; [|split].
  - change (memory s2) with (store_bytes (memory s) dst (u8 <$> take (Z.to_nat n) (contents (_data pi1)))).
    rewrite Et, u8_bytes by by apply bytes_load.
    pose proof (load_store_same (memory s) dst (load_bytes (memory s) src (Z.to_nat n))) as L.
    by rewrite length_load in L.
  - exact (lookup_insert_eq _ _ _).
  - rsimpl. destruct (pop_n_spec (Z.to_nat n) (_data pi1) Hok1) as [_ ->]; [lia|].
    rewrite Hc2, drop_ge; [done|]. by rewrite length_load.
Qed.

End claims.
