(* ===== verification/Proc.v ===== *)
(** The process manager: [pm::ProcessManager], [kernel/pm/process_manager.cc],
    with [Pcb::init] of [kernel/pm/process.cc] and the parts of the ports it
    calls (trap frames and contexts, [hal/*/qemu/qemu.cc]).

    [stk] is the address of the local whose bytes a call copies to or from user
    memory; [kbuf] that of a buffer taken from the kernel heap. *)

From Stdlib Require Import ZArith Lia.
From stdpp Require Import base numbers gmap list.
From S2P Require Import Prelude Page Mem Klib Pmm PageTable Vmm Kbase Kernel KFile.
Import Pmm PT Kernel KFile.

Set Default Goal Selector "!".
Open Scope Z_scope.

(** What the ports differ in: the layout of the trap frame, the number of
    callee-saved registers, and the trampoline page that the RISC-V port maps in
    each address space.  [wrp_fork_ret], [trampoline], [global_pointer] and
    [init_entry] are addresses the linker assigns. *)
Class TrapHal : Type := {
  tf_size : nat;
  tf_a0 : Z; tf_a1 : Z; tf_sp : Z; tf_tp : Z; tf_entry : Z; tf_gp : option Z;
  ctx_saved : nat;
  trampoline_va : option Z;
  trampoline : Z; global_pointer : Z; init_entry : Z; wrp_fork_ret : Z
}.

Definition MAXVA : Z := Z.shiftl 1 (9 + 9 + 9 + 12 - 1).
Definition TRAMPOLINE : Z := MAXVA - page_size.
Definition riscv_trap (tramp gp entry fork_ret : Z) : TrapHal := {|
  tf_size := 288; tf_a0 := 112; tf_a1 := 120; tf_sp := 48; tf_tp := 64; tf_entry := 24; tf_gp := Some 56;
  ctx_saved := 12; trampoline_va := Some TRAMPOLINE;
  trampoline := tramp; global_pointer := gp; init_entry := entry; wrp_fork_ret := fork_ret |}.
Definition loongarch_trap (entry fork_ret : Z) : TrapHal := {|
  tf_size := 288; tf_a0 := 24; tf_a1 := 32; tf_sp := 16; tf_tp := 8; tf_entry := 264; tf_gp := None;
  ctx_saved := 10; trampoline_va := None;
  trampoline := 0; global_pointer := 0; init_entry := entry; wrp_fork_ret := fork_ret |}.

Module Proc.

Definition vm_ustack_end : Z := Vmm.vm_trap_frame - page_size.
Definition ROOT_UID : Z := 0.
Definition ECHILD : Z := 10.
Definition MAP_SHARED : Z := 1.
Definition PROT_WRITE : Z := 2.
Definition CLONE_VM : Z := 0x100.
Definition CLONE_THREAD : Z := 0x10000.
Definition CLONE_SETTLS : Z := 0x80000.
Definition CLONE_PARENT_SETTID : Z := 0x100000.

Definition empty_vma : vma := mkVma false 0 0 0 0 None.

Section procs.
Context `{Port} `{TrapHal} {A F : Type} `{PageAllocator A} `{Inode A F}.
Abbreviation K := (M (kernel A F)).

(** * Trap frames, contexts and the trampoline *)

Definition tf_store (tf off v : Z) : K unit := mm (PT.store (tf + off) v).
Definition set_trap_frame_return_value (tf v : Z) : K unit := tf_store tf tf_a0 v.
Definition set_trap_frame_entry (tf v : Z) : K unit := tf_store tf tf_entry v.
Definition set_trap_frame_user_sp (tf v : Z) : K unit := tf_store tf tf_sp v.
Definition set_trap_frame_user_tp (tf v : Z) : K unit := tf_store tf tf_tp v.
Definition copy_trap_frame (from to : Z) : K unit :=
  klib (modify (λ m, store_bytes m to (load_bytes m from tf_size))).

(** [proc_init], [proc_free], [user_proc_init]. *)
Definition proc_init (pt : PageTable) : K unit :=
  match trampoline_va with
  | Some va => mm (Vmm.map_code_pages pt va page_size trampoline false);; mret tt
  | None => mret tt
  end.
Definition proc_free (pt : PageTable) : K unit :=
  match trampoline_va with
  | Some va => mm (Vmm.vm_unmap pt va 1 false)
  | None => mret tt
  end.
Definition user_proc_init (tf : Z) (pt : PageTable) : K unit :=
  tf_store tf tf_entry init_entry;;
  proc_init pt;;
  match tf_gp with Some off => tf_store tf off global_pointer | None => mret tt end.

(** The [memset] of the context, [set_context_entry] and [set_context_sp]. *)
Definition reset_context (kstack : Z) : Context :=
  mkContext wrp_fork_ret (kstack ⊞ (page_size * Vmm.default_proc_kstack_pages)) (replicate ctx_saved 0).

(** * Initialisation *)

(** [Pcb::init]: the fields it leaves alone are those of static storage. *)
Definition pcb_init (g : Z) (p : Pcb) : K Pcb :=
  kstack ← mm (Vmm.kstack_vm_from_gid g);
  let stack := mkRlimit (default_proc_ustack_pages * page_size) (default_proc_ustack_pages * page_size) in
  mret (p <| _state := unused |> <| _gid := g |> <| _kstack := kstack |>
          <| _pt := mkPt 0 false |> <| _ofile := ∅ |>
          <| _rlim_vec := <[RLIMIT_STACK := stack]> (_rlim_vec p) |>
          <| sigmask := 0 |>
          <| vm := (λ v, v <| is_used := false |>) <$> vm p |>).
(** A [Pcb] of static storage, after its constructor. *)
Definition static_pcb : Pcb :=
  mkPcb 32 (replicate max_program_section_num (mkSec 0 0)) 0 None [] [] unused None 0 0 0 None
    0 0 (mkPt 0 false) 0 (mkContext 0 0 []) ∅ [] 0 0 0 0 0 0 0 0 0
    (replicate max_vma_num empty_vma) 0 0 (replicate RLIM_NLIMITS (mkRlimit 0 0))
    (replicate 64 (mkSigaction 0 0 0)) 0 0 0 0 0.
(** [ProcessManager::init]. *)
Definition init : K unit :=
  for_each (seq 0 num_proc) (λ g,
    p ← pcb_init (Z.of_nat g) static_pcb;
    modify (λ s, s <| k_proc_pool := <[g := p]> (k_proc_pool s) |>));;
  modify (λ s, s <| _cur_pid := 1 |>);;
  modify (λ s, s <| _last_alloc_proc_gid := Z.of_nat num_proc - 1 |>).

(** * Address spaces of processes *)

Definition proc_create_vm_at (g : nat) (pt : PageTable) : K unit :=
  if _base_addr pt =? 0 then mret tt
  else
    p ← pcb g;
    ok ← mm (Vmm.map_data_pages pt Vmm.vm_trap_frame page_size (_trapframe p) false);
    if negb ok then mm (Vmm.vm_unmap pt Vmm.vm_trap_frame 1 false);; panic
    else on_pcb g (λ p, p <| _pt := pt |>).
Definition proc_create_vm (g : nat) : K unit :=
  pt ← mm Vmm.vm_create;
  if _base_addr pt =? 0 then mret tt else proc_create_vm_at g pt.

Definition pt_freewalk (pt : PageTable) : K unit :=
  mm (PT.freewalk (S (length upper_levels)) (_base_addr pt)).

(** The sections with their pages, rounded the way [freeproc] does. *)
Definition free_sections (pt : PageTable) (secs : list program_section_desc) : K unit :=
  for_each secs (λ sec,
    let sec_start := page_round_down (_sec_start sec) in
    let sec_size := page_round_up (_sec_start sec ⊞ _sec_size sec ⊟ sec_start) in
    mm (Vmm.vm_unmap pt sec_start (sec_size / page_size) true)).

Definition ofile_close (g : nat) (i : Z) : K unit :=
  p ← pcb g;
  match _ofile p !! i with
  | Some f =>
      x ← ofile f;
      when (0 <? refcnt x)
        (free_file f;; on_pcb g (λ p, p <| _ofile := delete i (_ofile p) |>))
  | None => mret tt
  end.
Definition fds : list Z := seqZ 0 max_open_files.

(** [freeproc]. *)
Definition free_space (g : nat) : K unit :=
  p ← pcb g;
  let pt := _pt p in
  free_sections pt (take (Z.to_nat (_prog_section_cnt p)) (_prog_sections p));;
  let stackbase := vm_ustack_end - default_proc_ustack_pages * page_size in
  mm (Vmm.vm_unmap pt (stackbase - page_size) (default_proc_ustack_pages + 1) true);;
  let heapsize := page_round_up (_heap_ptr p ⊟ _heap_start p) in
  mm (Vmm.vm_unmap pt (_heap_start p) (heapsize / page_size) true);;
  proc_free pt;;
  pt_freewalk pt.
Definition cleared (p : Pcb) : Pcb :=
  p <| _pt := mkPt 0 (_is_global (_pt p)) |> <| _prog_section_cnt := 0 |> <| _sz := 0 |>
    <| _heap_ptr := 0 |> <| _pid := 0 |> <| parent := None |> <| _chan := None |>
    <| _name := [] |> <| _killed := 0 |> <| _xstate := 0 |> <| _state := unused |>.
Definition freeproc (g : nat) : K unit :=
  p ← pcb g;
  mm (Vmm.vm_unmap (_pt p) Vmm.vm_trap_frame 1 true);;
  on_pcb g (λ p, p <| _trapframe := 0 |>);;
  when (negb (_base_addr (_pt p) =? 0)) (free_space g);;
  on_pcb g cleared;;
  for_each fds (ofile_close g).

(** * Allocation *)

(** The increment of the [int] counter is undefined at the largest value. *)
Definition alloc_pid (g : nat) : K unit :=
  acquire PidLock;;
  s ← get;
  on_pcb g (λ p, p <| _pid := _cur_pid s |>);;
  (if _cur_pid s =? 2 ^ 31 - 1 then stuck else modify (λ s, s <| _cur_pid := _cur_pid s + 1 |>));;
  release PidLock.

(** The slot of round [i] of the search. *)
Definition slot (last : Z) (i : nat) : nat := Z.to_nat (u32 (last + Z.of_nat i) mod 32).

(** The assignments at the head of [alloc_proc] and [alloc_thread]. *)
Definition fresh_ids (tg : Pcb → Z) (p : Pcb) : Pcb :=
  p <| _state := used |> <| _slot := default_proc_slot |> <| _priority := default_proc_prio |>
    <| uid := 0 |> <| gid := 0 |> <| tid := _pid p |> <| tgid := tg p |>.
(** The end of both: the context, the lock, the hint for the next search. *)
Definition claim_slot (g : nat) : K (option nat) :=
  on_pcb g (λ p, p <| _mqmask := 0 |> <| _context := reset_context (_kstack p) |>);;
  release (ProcLock g);;
  p ← pcb g;
  modify (λ s, s <| _last_alloc_proc_gid := _gid p |>);;
  mret (Some g).
Definition give_up_slot (g : nat) : K (option nat) :=
  freeproc g;; release (ProcLock g);; mret None.

Definition setup_proc (g : nat) : K (option nat) :=
  alloc_pid g;;
  on_pcb g (fresh_ids _pid);;
  tf ← mm alloc_page;
  on_pcb g (λ p, p <| _trapframe := tf |>);;
  if tf =? 0 then give_up_slot g
  else
    proc_create_vm g;;
    p ← pcb g;
    if _base_addr (_pt p) =? 0 then give_up_slot g else claim_slot g.
Definition setup_thread (g : nat) : K (option nat) :=
  alloc_pid g;;
  c ← get_cur_pcb;
  pc ← pcb c;
  on_pcb g (fresh_ids (λ _, _pid pc));;
  tf ← mm alloc_page;
  on_pcb g (λ p, p <| _trapframe := tf |>);;
  if tf =? 0 then give_up_slot g else claim_slot g.

(** The search both make, from [_last_alloc_proc_gid] on. *)
Fixpoint find_slot (setup : nat → K (option nat)) (k : nat) (i : nat) : K (option nat) :=
  match k with
  | O => mret None
  | S k' =>
      s ← get;
      let g := slot (_last_alloc_proc_gid s) i in
      acquire (ProcLock g);;
      p ← pcb g;
      if bool_decide (_state p = unused) then setup g
      else release (ProcLock g);; find_slot setup k' (S i)
  end.
Definition alloc_proc : K (option nat) := find_slot setup_proc num_proc 0.
Definition alloc_thread : K (option nat) := find_slot setup_thread num_proc 0.

Definition set_shm (g : nat) : K unit :=
  acquire PidLock;;
  acquire (ProcLock g);;
  on_pcb g (λ p, p <| _shm := Vmm.vm_trap_frame - 64 * 2 * page_size |> <| _shmkeymask := 0 |>);;
  release (ProcLock g);;
  release PidLock.

(** * Open files of a process *)

Fixpoint alloc_fd_loop (l : list Z) (g : nat) (f : Z) : K Z :=
  match l with
  | [] => mret (-1)
  | fd :: l' =>
      p ← pcb g;
      match _ofile p !! fd with
      | None => on_pcb g (λ p, p <| _ofile := <[fd := f]> (_ofile p) |>);; mret fd
      | Some _ => alloc_fd_loop l' g f
      end
  end.
Definition alloc_fd (g : nat) (f : Z) : K Z := alloc_fd_loop fds g f.

(** The overload with a descriptor of the caller's choice. *)
Definition alloc_fd_at (g : nat) (f : option Z) (fd : Z) : K Z :=
  match f with
  | Some f =>
      if (fd <? 0) || (max_open_files <=? fd) then mret (-1)
      else
        p ← pcb g;
        match _ofile p !! fd with
        | Some _ => mret (-1)
        | None => on_pcb g (λ p, p <| _ofile := <[fd := f]> (_ofile p) |>);; mret fd
        end
  | None => mret (-1)
  end.

Definition close (fd : Z) : K Z :=
  if (fd <? 0) || (max_open_files <=? fd) then mret (-1)
  else
    g ← get_cur_pcb;
    p ← pcb g;
    match _ofile p !! fd with
    | None => mret 0
    | Some f =>
        free_file f;;
        on_pcb g (λ p, p <| _ofile := delete fd (_ofile p) |>);;
        mret 0
    end.

Definition get_open_file (p : Pcb) (fd : Z) : option Z :=
  if (fd <? 0) || (max_open_files <=? fd) then None else _ofile p !! fd.

(** [ProcessManager::pipe]: the descriptors, or [None] for -1. *)
Definition make_pipe : K (option (Z * Z)) :=
  g ← get_cur_pcb;
  q ← new_pipe;
  '(rf, wf) ← pipe_alloc q;
  fd0 ← alloc_fd g rf;
  fd1 ← (if fd0 <? 0 then mret (-1) else alloc_fd g wf);
  if (fd0 <? 0) || (fd1 <? 0) then
    when (0 <=? fd0) (on_pcb g (λ p, p <| _ofile := delete fd0 (_ofile p) |>));;
    free_file rf;;
    free_file wf;;
    mret None
  else
    on_pcb g (λ p, p <| _ofile := <[fd0 := rf]> (_ofile p) |>);;
    on_pcb g (λ p, p <| _ofile := <[fd1 := wf]> (_ofile p) |>);;
    mret (Some (fd0, fd1)).

(** * Identity and limits *)

Definition set_tid_address (tidptr : Z) : K Z :=
  g ← get_cur_pcb;
  on_pcb g (λ p, p <| _clear_child_tid := tidptr |>);;
  p ← pcb g;
  mret (_pid p).

Definition robust_list_head_size : Z := 24.
Definition set_robust_list (hd len : Z) : K Z :=
  if negb (len =? robust_list_head_size) then mret (-22)
  else g ← get_cur_pcb; on_pcb g (λ p, p <| _robust_list := hd |>);; mret 0.

Definition set_gid (v : Z) : K Z :=
  g ← get_cur_pcb;
  p ← pcb g;
  if negb (uid p =? ROOT_UID) && negb (v =? gid p) then mret (-1)
  else on_pcb g (λ p, p <| gid := v |>);; mret 0.
Definition set_uid (v : Z) : K Z :=
  g ← get_cur_pcb;
  p ← pcb g;
  if negb (uid p =? ROOT_UID) && negb (v =? uid p) then mret (-1)
  else on_pcb g (λ p, p <| uid := v |>);; mret 0.

(** The first slot with a given pid. *)
Fixpoint find_pid (pool : list Pcb) (pid : Z) (g : nat) : option nat :=
  match pool with
  | [] => None
  | p :: pool' => if _pid p =? pid then Some g else find_pid pool' pid (S g)
  end.
(** [prlimit64]: the code and the old limit. *)
Definition prlimit64 (pid resource : Z) (new_limit : option rlimit64) : K (Z * option rlimit64) :=
  s ← get;
  o ← (if pid =? 0 then g ← get_cur_pcb; mret (Some g) else mret (find_pid (k_proc_pool s) pid 0));
  match o with
  | None => mret (-10, None)
  | Some g =>
      if 16 <=? u32 resource then mret (-11, None)
      else
        let r := Z.to_nat (u32 resource) in
        p ← pcb g;
        old ← deref (_rlim_vec p !! r);
        (match new_limit with
         | Some l => on_pcb g (λ p, p <| _rlim_vec := <[r := l]> (_rlim_vec p) |>)
         | None => mret tt
         end);;
        mret (0, Some old)
  end.

(** The times of the process, then the sums over its children. *)
Definition get_cur_proc_tms : K (Z * Z * Z * Z) :=
  g ← get_cur_pcb;
  p ← pcb g;
  s ← get;
  let mine q := bool_decide (_state q ≠ unused) && bool_decide (parent q = Some g) in
  let kids := filter (λ q, mine q = true) (k_proc_pool s) in
  let cutime := foldl (λ acc q, acc ⊞ _user_ticks q) 0 kids in
  let cstime := foldl (λ acc q, acc ⊞ (_ticks s ⊟ _start_tick q ⊟ _user_ticks q)) 0 kids in
  mret (_user_ticks p, _ticks s ⊟ _start_tick p ⊟ _user_ticks p, cutime, cstime).

(** [kill]: the pid is used as an index of the pool. *)
Definition kill (pid sig : Z) : K Z :=
  if sig =? 0 then mret 0
  else if sig =? 15 then
    if pid <? 0 then stuck
    else on_pcb (Z.to_nat pid) (λ p, p <| _killed := 1 |>);; mret 0
  else mret 0.

End procs.
End Proc.
