(* ===== verification/KDemo.v ===== *)
(** A concrete kernel state, on which the theorems about processes and pipes are
    instantiated: two processes, the second runs, and an open pipe. *)

From Stdlib Require Import ZArith Lia.
From stdpp Require Import base numbers gmap list.
From S2P Require Import Prelude Page Mem Klib Pmm PageTable Vmm Kbase Kernel KFile KLock PipeThm Proc.
Import Pmm PT Kernel KFile Proc.

Set Default Goal Selector "!".
Open Scope Z_scope.

Module KDemo.

(** A memory with no page to give, and a file system with no contents. *)
#[export] Instance no_pages : PageAllocator unit := {|
  pa_alloc_pages := λ _, mret 0; pa_free_pages := λ _, mret 0; pa_mem_desc := λ _, (0, 0) |}.
#[export] Instance no_files : Inode unit unit := {|
  nodeRead := λ _ _ _ _, mret 0; nodeWrite := λ _ _ _ _, mret 0; nodeTruncate := λ _ _, mret 0;
  rFileSize := λ _ _, 0 |}.
#[export] Instance demo_trap : TrapHal := riscv_trap 0 0 0 0.

Definition init_pcb : Pcb := static_pcb <| _gid := 0 |> <| _pid := 1 |> <| _state := runnable |>.
Definition shell_pcb : Pcb :=
  static_pcb <| _gid := 1 |> <| _pid := 2 |> <| _state := running |> <| parent := Some 0%nat |>.
Definition demo_pool : list Pcb :=
  init_pcb :: shell_pcb :: replicate 30 static_pcb.
Definition demo_pipe : Pipe := mkPipe PipeBuf.new true true.
Definition demo_memory : mem := store_bytes ∅ 1000 [104; 105; 10].
Definition demo : kernel unit unit :=
  mkKernel (mkCpu 0 true true (Some 1%nat)) ∅ demo_pool 3 (Some 0%nat) 1 ∅ {[50 := demo_pipe]} ∅ [] 51 0
    (mkPmm tt demo_memory) tt.

Lemma demo_ram_ok : mem_ok (memory demo).
Proof.
  apply mem_ok_bytes; [|repeat constructor; lia].
  intros a. unfold byte_at. rewrite lookup_empty. cbn. lia.
Qed.

Lemma demo_runs : runs 1 shell_pcb demo.
Proof. split_and!; [split; reflexivity|reflexivity|reflexivity|reflexivity|reflexivity]. Qed.

End KDemo.
Import KDemo.

Lemma pipe_write_correct_witness :
  ∃ s', write_in_kernel (A := unit) (F := unit) 50 1000 3 demo = Ret (Done 3) s'.
Proof.
  pose proof (pipe_write_correct 50 1000 3 1 shell_pcb demo_pipe demo demo_runs eq_refl new_ok demo_ram_ok
    ltac:(lia) ltac:(lia) ltac:(lia)) as [W _].
  eexists. exact W.
Defined.

Lemma pipe_read_correct_witness :
  ∃ e s', read (A := unit) (F := unit) 50 2000 3 demo = Ret (Asleep 0 e) s'.
Proof.
  pose proof (pipe_read_correct 50 2000 3 1 shell_pcb demo_pipe demo demo_runs eq_refl new_ok
    ltac:(lia) ltac:(lia) ltac:(lia)) as [R _].
  eexists _, _. exact R.
Defined.

Lemma pipe_roundtrip_witness :
  ∃ s1 s2 pi2,
    write_in_kernel (A := unit) (F := unit) 50 1000 3 demo = Ret (Done 3) s1 ∧
    read 50 2000 3 (run_next 1 s1) = Ret (Done 3) s2 ∧
    load_bytes (memory s2) 2000 3 = [104; 105; 10] ∧
    pipes s2 !! 50 = Some pi2 ∧ contents (_data pi2) = [].
Proof.
  apply (pipe_roundtrip 50 1000 2000 3 1 1 shell_pcb demo_pipe demo demo_runs eq_refl demo_ram_ok eq_refl
    new_ok eq_refl eq_refl ltac:(lia) ltac:(lia) ltac:(lia) ltac:(lia) ltac:(lia)).
  exists shell_pcb. reflexivity.
Defined.
