(* ===== verification/ProcLife.v ===== *)
(** Birth, sleep and death of processes: [fork], [clone], [wait], [exit_proc],
    [reparent], [exit_group], and the address space calls [brk], [mmap],
    [munmap], [mremap] of [kernel/pm/process_manager.cc]; the scheduler,
    [kernel/pm/scheduler.cc]; the timer, [kernel/tm/timer_manager.cc]; signal
    dispositions, [kernel/pm/ipc/signal.cc]. *)

From Stdlib Require Import ZArith Lia.
From stdpp Require Import base numbers gmap list.
From S2P Require Import Prelude Page Mem Klib Pmm PageTable Vmm Kbase Kernel KFile Proc.
Import Pmm PT Kernel KFile Proc.

Set Default Goal Selector "!".
Open Scope Z_scope.

Module Life.
Section life.
Context `{Port} `{TrapHal} {A F : Type} `{PageAllocator A} `{Inode A F}.
Abbreviation K := (M (kernel A F)).

(** * fork *)

(** A part of [fork] that may fail: the code it returns then. *)
Definition copy_range (old_pt new_pt : PageTable) (start size : Z) : K bool :=
  r ← mm (Vmm.vm_copy old_pt new_pt start size);
  mret (r <? 0).

Fixpoint copy_sections (p : Pcb) (np : nat) (j : nat) (secs : list program_section_desc) : K bool :=
  match secs with
  | [] => mret true
  | pd :: secs' =>
      c ← pcb np;
      let sec_start := page_round_down (_sec_start pd) in
      let sec_size := page_round_up (_sec_start pd ⊞ _sec_size pd) ⊟ sec_start in
      bad ← copy_range (_pt p) (_pt c) sec_start sec_size;
      if (bad : bool) then freeproc np;; mret false
      else
        on_pcb np (λ c, c <| _prog_sections := <[j := pd]> (_prog_sections c) |>
                          <| _prog_section_cnt := _prog_section_cnt c + 1 |>);;
        copy_sections p np (S j) secs'
  end.
Definition copy_heap (p : Pcb) (np : nat) : K bool :=
  c ← pcb np;
  let heap_size := page_round_up (_heap_ptr p ⊟ _heap_start p) in
  bad ← copy_range (_pt p) (_pt c) (_heap_start p) heap_size;
  if (bad : bool) then freeproc np;; mret false
  else
    on_pcb np (λ c, c <| _sz := _sz p |> <| _heap_start := _heap_start p |> <| _heap_ptr := _heap_ptr p |>);;
    mret true.
Definition copy_stack (p : Pcb) (np : nat) : K bool :=
  c ← pcb np;
  let n := (1 + default_proc_ustack_pages) * page_size in
  bad ← copy_range (_pt p) (_pt c) (vm_ustack_end - n) n;
  if (bad : bool) then freeproc np;; mret false else mret true.
Definition dup_vfile (o : option Z) : K unit :=
  match o with Some f => file_dup f | None => mret tt end.
Fixpoint copy_vmas (p : Pcb) (np : nat) (i : nat) (vs : list vma) : K bool :=
  match vs with
  | [] => mret true
  | v :: vs' =>
      if is_used v then
        c ← pcb np;
        bad ← copy_range (_pt p) (_pt c) (address v) (u64 (vlength v));
        if (bad : bool) then freeproc np;; mret false
        else
          w ← deref (vm c !! i);
          on_pcb np (λ c, c <| vm := <[i := w <| is_used := true |> <| address := address v |>
                                             <| vlength := vlength v |>]> (vm c) |>);;
          dup_vfile (vfile v);;
          on_pcb np (λ c, c <| vm := alter (λ w, w <| vfile := vfile v |>) i (vm c) |>);;
          copy_vmas p np (S i) vs'
      else copy_vmas p np (S i) vs'
  end.

(** The open files, the working directory and the name. *)
Definition share_file (p : Pcb) (np : nat) (i : Z) : K unit :=
  match _ofile p !! i with
  | Some f => file_dup f;; on_pcb np (λ c, c <| _ofile := <[i := f]> (_ofile c) |>)
  | None => mret tt
  end.
Definition share_cwd (p : Pcb) (np : nat) : K unit :=
  on_pcb np (λ c, c <| _cwd := _cwd p |>);;
  d ← deref (_cwd p);
  dentry_dup d;;
  on_pcb np (λ c, c <| _cwd_name := _cwd_name p |> <| _name := _name p |>).
(** The new process becomes runnable. *)
Definition start_child (g np : nat) : K unit :=
  acquire WaitLock;;
  on_pcb np (λ c, c <| parent := Some g |>);;
  release WaitLock;;
  s ← get;
  on_pcb np (λ c, c <| _state := runnable |> <| _start_tick := _ticks s |> <| _user_ticks := 0 |>).

Definition fork (usp : Z) : K Z :=
  g ← get_cur_pcb;
  o ← alloc_proc;
  match o with
  | None => mret (-1)
  | Some np =>
      p ← pcb g;
      ok ← copy_sections p np 0 (take (Z.to_nat (_prog_section_cnt p)) (_prog_sections p));
      if negb ok then mret (-1) else
      ok ← copy_heap p np;
      if negb ok then mret (-2) else
      ok ← copy_stack p np;
      if negb ok then mret (-3) else
      ok ← copy_vmas p np 0 (vm p);
      if negb ok then mret (-3) else
      c ← pcb np;
      proc_init (_pt c);;
      copy_trap_frame (_trapframe p) (_trapframe c);;
      set_trap_frame_return_value (_trapframe c) 0;;
      when (negb (usp =? 0)) (set_trap_frame_user_sp (_trapframe c) usp);;
      for_each fds (share_file p np);;
      share_cwd p np;;
      c ← pcb np;
      start_child g np;;
      mret (_pid c)
  end.

(** * clone *)

Definition flag (flags mask : Z) : bool := negb (Z.land flags mask =? 0).

(** What the thread shares with its creator. *)
Definition share_space (p c : Pcb) : Pcb :=
  let cnt := Z.to_nat (_prog_section_cnt p) in
  c <| _prog_section_cnt := _prog_section_cnt p |>
    <| _prog_sections := take cnt (_prog_sections p) ++ drop cnt (_prog_sections c) |>
    <| _sz := _sz p |> <| _heap_start := _heap_start p |> <| _heap_ptr := _heap_ptr p |>.
Fixpoint share_vmas (np : nat) (i : nat) (vs : list vma) : K unit :=
  match vs with
  | [] => mret tt
  | v :: vs' =>
      when (is_used v)
        (on_pcb np (λ c, c <| vm := <[i := v]> (vm c) |>);; dup_vfile (vfile v));;
      share_vmas np (S i) vs'
  end.
(** The bytes of a local variable of type [int]. *)
Definition local32 (stk v : Z) : K unit := klib (modify (λ m, store_bytes m stk (le_split 4 v))).

Definition clone_thread (stk flags child_stack parent_tid tls : Z) : K Z :=
  g ← get_cur_pcb;
  o ← alloc_thread;
  match o with
  | None => mret (-1)
  | Some np =>
      if negb (flag flags CLONE_VM) then mret (-1)
      else
        p ← pcb g;
        on_pcb np (λ c, c <| _pt := _pt p |>);;
        on_pcb np (share_space p);;
        share_vmas np 0 (vm p);;
        c ← pcb np;
        copy_trap_frame (_trapframe p) (_trapframe c);;
        set_trap_frame_return_value (_trapframe c) 0;;
        when (negb (child_stack =? 0)) (set_trap_frame_user_sp (_trapframe c) child_stack);;
        for_each fds (share_file p np);;
        share_cwd p np;;
        c ← pcb np;
        start_child g np;;
        local32 stk (_pid c);;
        r ← (if flag flags CLONE_PARENT_SETTID
             then mm (Vmm.copyout (_pt p) parent_tid stk 4) else mret 0);
        if r <? 0 then mret (-1)
        else
          when (flag flags CLONE_SETTLS && negb (tls =? 0))
            (set_trap_frame_user_tp (_trapframe c) tls);;
          mret (_pid c)
  end.
Definition clone (stk flags child_stack parent_tid tls : Z) : K Z :=
  if flag flags CLONE_THREAD then clone_thread stk flags child_stack parent_tid tls
  else fork child_stack.

(** * wait *)

(** One pass over the pool: the value [wait] returns, or whether a child was
    seen. *)
Fixpoint wait_scan (l : list nat) (stk : Z) (g : nat) (child_pid addr : Z) (havekids : bool)
  : K (Z + bool) :=
  match l with
  | [] => mret (inr havekids)
  | np :: l' =>
      c ← pcb np;
      if (0 <? child_pid) && negb (_pid c =? child_pid) then wait_scan l' stk g child_pid addr havekids
      else if bool_decide (parent c = Some g) then
        acquire (ProcLock np);;
        c ← pcb np;
        if bool_decide (_state c = zombie) then
          let pid := _pid c in
          p ← pcb g;
          local32 stk (_xstate c);;
          r ← (if negb (addr =? 0) then mm (Vmm.copyout (_pt p) addr stk 4) else mret 0);
          if r <? 0 then
            release (ProcLock np);; release WaitLock;; mret (inl (-1))
          else
            freeproc np;;
            release (ProcLock np);; release WaitLock;; mret (inl pid)
        else release (ProcLock np);; wait_scan l' stk g child_pid addr true
      else wait_scan l' stk g child_pid addr havekids
  end.
(** The body of the endless loop, up to its [sleep]. *)
Definition wait_run (stk child_pid addr : Z) : K progress :=
  g ← get_cur_pcb;
  r ← wait_scan (seq 0 num_proc) stk g child_pid addr false;
  match r with
  | inl v => mret (Done v)
  | inr havekids =>
      p ← pcb g;
      if negb havekids || negb (_killed p =? 0) then release WaitLock;; mret (Done (- ECHILD))
      else e ← sleep_out (AtProc g) WaitLock; mret (Asleep 0 e)
  end.
Definition wait (stk child_pid addr : Z) : K progress :=
  g ← get_cur_pcb;
  s ← get;
  let mine c := (_pid c =? child_pid) && bool_decide (parent c = Some g) in
  if (0 <? child_pid) && negb (existsb mine (k_proc_pool s)) then mret (Done (-1))
  else acquire WaitLock;; wait_run stk child_pid addr.
Definition wait_resume (stk child_pid addr : Z) (e : bool) : K progress :=
  sleep_in e WaitLock;; wait_run stk child_pid addr.

(** * exit *)

(** The write-back of a shared mapping, page by page. *)
Fixpoint write_back (fuel : nat) (g : nat) (f va1 va_end offset : Z) : K unit :=
  match fuel with
  | O => spin
  | S k =>
      if va1 <? va_end then
        p ← pcb g;
        pa ← mm (PT.kwalk_addr (_pt p) va1);
        normal_write f (to_vir pa) page_size offset true;;
        write_back k g f (va1 ⊞ page_size) va_end (i32 (offset + page_size))
      else mret tt
  end.
Definition writes_back (v : vma) : bool :=
  bool_decide (is_Some (vfile v)) && (vflags v =? MAP_SHARED) && flag (prot v) PROT_WRITE.
Definition write_back_vma (g : nat) (v : vma) (va len : Z) : K unit :=
  match vfile v with
  | Some f =>
      when (writes_back v) (write_back (S (Z.to_nat (len / page_size + 1))) g f va (va ⊞ len) 0)
  | None => mret tt
  end.
Definition on_vma (g : nat) (i : nat) (f : vma → vma) : K unit :=
  on_pcb g (λ p, p <| vm := alter f i (vm p) |>).

Definition exit_vma (g : nat) (i : nat) : K unit :=
  p ← pcb g;
  v ← deref (vm p !! i);
  when (negb (address v =? 0))
    (on_vma g i (λ v, v <| is_used := false |>);;
     let va := address v in
     let len := u64 (vlength v) in
     write_back_vma g v va len;;
     mm (Vmm.vm_unmap (_pt p) (page_round_up va) (len / page_size) true);;
     on_vma g i (λ v, v <| address := 0 |>);;
     match vfile v with Some f => free_file f | None => mret tt end;;
     on_vma g i (λ v, v <| vfile := None |>)).

(** [reparent]: from [_last_alloc_proc_gid] on. *)
Definition reparent_one (g : nat) (pp : nat) : K unit :=
  c ← pcb pp;
  when (bool_decide (parent c = Some g))
    (acquire (ProcLock pp);;
     s ← get;
     on_pcb pp (λ c, c <| parent := _init_proc s |>);;
     release (ProcLock pp)).
Definition reparent (g : nat) : K unit :=
  for_each (seq 0 num_proc) (λ i,
    s ← get;
    reparent_one g (slot (_last_alloc_proc_gid s) i)).

(** [exit_proc] up to the switch, from which it does not return; the result is
    the local of [call_sched]. *)
Definition become_zombie (stk : Z) (g : nat) (state : Z) : K unit :=
  acquire WaitLock;;
  reparent g;;
  p ← pcb g;
  match parent p with Some q => wakeup (AtProc q) | None => mret tt end;;
  acquire (ProcLock g);;
  on_pcb g (λ p, p <| _xstate := i32 (Z.shiftl state 8) |> <| _state := zombie |>);;
  p ← pcb g;
  when (negb (_clear_child_tid p =? 0))
    (local32 stk 0;;
     klib (Klib.memcpy (_clear_child_tid p) stk 4);;
     on_pcb g (λ p, p <| _clear_child_tid := 0 |>));;
  release WaitLock.
Definition exit_proc (stk : Z) (g : nat) (state : Z) : K bool :=
  s ← get;
  if bool_decide (_init_proc s = Some g) then panic
  else
    for_each fds (ofile_close g);;
    for_each (seq 0 max_vma_num) (exit_vma g);;
    become_zombie stk g state;;
    call_sched_out.
Definition exit (stk : Z) (state : Z) : K bool :=
  g ← get_cur_pcb; exit_proc stk g state.

(** The climb from a process towards the root: the processes met, the last one
    first, and whether the current process is the parent of the last. *)
Fixpoint climb (fuel : nat) (pool : list Pcb) (cp g : nat) (stk : list nat) : option (list nat * bool) :=
  match fuel with
  | O => None
  | S f =>
      match pool !! g ≫= parent with
      | None => Some (stk, false)
      | Some q => if bool_decide (q = cp) then Some (stk, true) else climb f pool cp q (q :: stk)
      end
  end.
Fixpoint exit_group_loop (l : list nat) (cp : nat) (visit : list nat) : K unit :=
  match l with
  | [] => mret tt
  | i :: l' =>
      p ← pcb i;
      if bool_decide (_state p = unused) || bool_decide (i ∈ visit) then exit_group_loop l' cp visit
      else
        s ← get;
        match climb (S num_proc) (k_proc_pool s) cp i [i] with
        | None => spin
        | Some (stk, need_chp) =>
            when need_chp (for_each stk freeproc);;
            exit_group_loop l' cp (stk ++ visit)
        end
  end.
Definition exit_group (stk : Z) (status : Z) : K bool :=
  cp ← get_cur_pcb;
  acquire WaitLock;;
  exit_group_loop (seq 0 num_proc) cp [];;
  release WaitLock;;
  exit_proc stk cp status.

(** * The address space of the current process *)

Definition brk (n : Z) : K Z :=
  g ← get_cur_pcb;
  p ← pcb g;
  if n <=? 0 then mret (i64 (_heap_ptr p))
  else
    let oldhp := _heap_ptr p in
    let newhp := u64 n in
    let differ := i64 (i64 newhp - i64 oldhp) in
    ok ← (if differ <? 0 then mm (Vmm.vm_dealloc (_pt p) oldhp newhp);; mret true
          else if 0 <? differ then
            r ← mm (Vmm.vm_alloc (_pt p) oldhp newhp false false true);
            mret (negb (r =? 0))
          else mret true);
    if negb ok then mret (-1)
    else on_pcb g (λ p, p <| _heap_ptr := newhp |>);; mret (i64 newhp).

Fixpoint find_vma (test : vma → bool) (vs : list vma) (i : nat) : option nat :=
  match vs with
  | [] => None
  | v :: vs' => if test v then Some i else find_vma test vs' (S i)
  end.

Definition munmap (va len : Z) : K Z :=
  g ← get_cur_pcb;
  let va := page_round_down va in
  let len := page_round_up len in
  let npages := len / page_size in
  p ← pcb g;
  match find_vma (λ v, va =? address v) (vm p) 0 with
  | None => mret (-1)
  | Some i =>
      on_vma g i (λ v, v <| is_used := false |>);;
      v ← deref (vm p !! i);
      write_back_vma g v va len;;
      match vfile v with Some f => free_file f | None => mret tt end;;
      on_vma g i (λ v, v <| address := 0 |>);;
      mm (Vmm.vm_unmap (_pt p) va npages true);;
      mret 0
  end.

Definition mmap_anonymous (g : nat) (map_size : Z) : K Z :=
  p ← pcb g;
  let fst := _sz p in
  let fsz := u64 map_size in
  newsz ← mm (Vmm.vm_alloc (_pt p) fst (fst ⊞ fsz) false false true);
  if newsz =? 0 then mret (-1)
  else
    match find_vma (λ v, negb (is_used v)) (vm p) 0 with
    | None => mret (-1)
    | Some i =>
        on_vma g i (λ v, v <| is_used := true |> <| address := fst |> <| vlength := i32 fsz |>
                           <| vfile := None |>);;
        on_pcb g (λ p, p <| _sz := newsz |>);;
        mret (i32 fst)
    end.
(** The copy of the file's first bytes into the new mapping. *)
Definition fill_mapping (kbuf : Z) (g : nat) (d fst fsz : Z) : K Z :=
  p ← pcb g;
  vfs (nodeRead d kbuf 0 fsz);;
  r ← mm (Vmm.copyout (_pt p) fst kbuf fsz);
  if r <? 0 then mret (-1) else mret (i32 fst).
Definition mmap_file (kbuf : Z) (g : nat) (fd prot_ flags map_size : Z) : K Z :=
  p ← pcb g;
  f ← deref (_ofile p !! fd);
  x ← ofile f;
  if negb (bool_decide (filetype (_attrs x) = FT_NORMAL)) then mret (-1)
  else
    match kind x with
    | normal_file (Some d) =>
        let fst := _sz p in
        let fsz := u64 map_size in
        match find_vma (λ v, negb (is_used v)) (vm p) 0 with
        | None => mret (-1)
        | Some i =>
            newsz ← mm (Vmm.vm_alloc (_pt p) fst (fst ⊞ fsz) false false true);
            if newsz =? 0 then mret (-1)
            else
              on_vma g i (λ _, mkVma true (_sz p) map_size prot_ flags (Some f));;
              file_dup f;;
              on_pcb g (λ p, p <| _sz := newsz |>);;
              fill_mapping kbuf g d fst fsz
        end
    | normal_file None => mret (-1)
    | _ => stuck
    end.
Definition mmap (kbuf fd prot_ flags map_size : Z) : K Z :=
  g ← get_cur_pcb;
  if fd =? -1 then mmap_anonymous g map_size
  else if (fd <=? 2) || (max_open_files <=? fd) || (map_size <? 0) then mret (-1)
  else mmap_file kbuf g fd prot_ flags map_size.

Definition mremap (kbuf oldaddr oldsize newsize : Z) : K Z :=
  g ← get_cur_pcb;
  p ← pcb g;
  let fst := _sz p in
  let fsz := newsize in
  match find_vma (λ v, address v =? oldaddr) (vm p) 0 with
  | None => mret 0
  | Some i =>
      v ← deref (vm p !! i);
      (if oldaddr <? oldaddr ⊞ oldsize then
         f ← deref (vfile v);
         write_back (S (Z.to_nat (oldsize / page_size + 1))) g f oldaddr (oldaddr ⊞ oldsize) 0
       else mret tt);;
      on_vma g i (λ v, v <| address := fst |> <| vlength := i32 newsize |>);;
      on_pcb g (λ p, p <| _sz := _sz p ⊞ newsize |>);;
      newsz ← mm (Vmm.vm_alloc (_pt p) fst (fst ⊞ fsz) false false true);
      if newsz =? 0 then mret (-1)
      else
        f ← deref (vfile v);
        x ← ofile f;
        if negb (bool_decide (filetype (_attrs x) = FT_NORMAL)) then mret (-1)
        else
          match kind x with
          | normal_file (Some d) => fill_mapping kbuf g d fst fsz
          | _ => stuck
          end
  end.

(** * The first process *)

(** The addresses of the image of the first process, from the linker script. *)
Record UserInit : Type := mkUserInit {
  start_u_init : Z; end_u_init : Z; u_init_txts : Z; u_init_txte : Z; u_init_dats : Z; u_init_date : Z }.

Definition user_init (u : UserInit) (name : list Z) : K unit :=
  o ← alloc_proc;
  g ← match o with Some g => mret g | None => panic end;
  modify (λ s, s <| _init_proc := Some g |>);;
  acquire (ProcLock g);;
  on_pcb g (λ p, p <| _name := name |> <| _sz := end_u_init u ⊟ start_u_init u |>);;
  let stackbase := vm_ustack_end - default_proc_ustack_pages * page_size in
  p ← pcb g;
  r ← mm (Vmm.vm_alloc (_pt p) (stackbase - page_size) vm_ustack_end false false true);
  if r =? 0 then panic
  else
    r ← mm (Vmm.vm_set_super (_pt p) (stackbase - page_size) 1);
    if r <? 0 then panic
    else
      mm (Vmm.vm_set (_pt p) stackbase 0 default_proc_ustack_pages);;
      set_trap_frame_user_sp (_trapframe p) vm_ustack_end;;
      let txt := u_init_txts u ⊟ start_u_init u in
      let dat := u_init_dats u ⊟ start_u_init u in
      let txt_size := u_init_txte u ⊟ u_init_txts u in
      let dat_size := u_init_date u ⊟ u_init_dats u in
      let cnt := Z.to_nat (_prog_section_cnt p) in
      mm (Vmm.map_code_pages (_pt p) txt txt_size (u_init_txts u) true);;
      mm (Vmm.map_data_pages (_pt p) dat dat_size (u_init_dats u) true);;
      let heap := page_round_up (page_round_down dat ⊞ page_round_up dat_size) in
      on_pcb g (λ p, p
        <| _prog_sections :=
             <[S cnt := mkSec (page_round_down dat) (page_round_up dat_size)]>
             (<[cnt := mkSec (page_round_down txt) (page_round_up txt_size)]> (_prog_sections p)) |>
        <| _prog_section_cnt := _prog_section_cnt p + 2 |>
        <| _heap_start := heap |> <| _heap_ptr := heap |>);;
      user_proc_init (_trapframe p) (_pt p);;
      s ← get;
      on_pcb g (λ p, p <| _state := runnable |> <| _start_tick := _ticks s |> <| _user_ticks := 0 |>);;
      release (ProcLock g);;
      set_cur_proc (Some g).

(** * The scheduler *)

Definition get_highest_proirity : K Z :=
  acquire ScheLock;;
  s ← get;
  let prio := foldl (λ prio p, if (_priority p <? prio) && bool_decide (_state p = runnable)
                               then _priority p else prio) lowest_proc_prio (k_proc_pool s) in
  release ScheLock;;
  mret prio.

(** The scan of [start_schedule] over the rest [l] of the pool, up to the switch
    to a process: that process and the rest of the pool; [needed] and
    [priority] are the locals of the loop. *)
Fixpoint schedule_scan (l : list nat) (needed : bool) (priority : Z)
  : K (option (nat * list nat) * bool * Z) :=
  match l with
  | [] => mret (None, needed, priority)
  | g :: l' =>
      priority ← (if needed then get_highest_proirity else mret priority);
      p ← pcb g;
      if negb (bool_decide (_state p = runnable)) || (priority <? _priority p) then
        schedule_scan l' false priority
      else
        acquire (ProcLock g);;
        p ← pcb g;
        if bool_decide (_state p = runnable) then
          on_pcb g (λ p, p <| _state := running |>);;
          set_cur_proc (Some g);;
          mret (Some (g, l'), true, priority)
        else
          release (ProcLock g);;
          schedule_scan l' true priority
  end.
(** After the switch back from process [g]. *)
Definition schedule_back (g : nat) : K unit :=
  set_cur_proc None;;
  release (ProcLock g).

(** [Scheduler::yield], up to the switch and after it. *)
Definition yield_out : K bool :=
  g ← get_cur_pcb;
  acquire (ProcLock g);;
  on_pcb g (λ p, p <| _state := runnable |>);;
  call_sched_out.
Definition yield_in (intena : bool) : K unit :=
  call_sched_in intena;;
  g ← get_cur_pcb;
  release (ProcLock g).

(** [ProcessManager::sche_proc]: whether the time slice ended. *)
Definition sche_proc (g : nat) : K (option bool) :=
  on_pcb g (λ p, p <| _slot := _slot p - 1 |>);;
  p ← pcb g;
  if _slot p =? 0 then
    on_pcb g (λ p, p <| _slot := default_proc_slot |>);;
    e ← yield_out; mret (Some e)
  else mret None.

(** * The timer *)

Definition handle_clock_intr : K Z :=
  acquire TimerLock;;
  modify (λ s, s <| _ticks := _ticks s ⊞ 1 |>);;
  wakeup AtTicks;;
  release TimerLock;;
  mret 0.

(** [sleep_n_ticks] from the test of its loop on. *)
Definition ticks_run (tick_tmp n : Z) : K progress :=
  s ← get;
  if _ticks s ⊟ tick_tmp <? u64 n then
    g ← get_cur_pcb;
    p ← pcb g;
    if is_killed p then release TimerLock;; mret (Done (-2))
    else e ← sleep_out AtTicks TimerLock; mret (Asleep tick_tmp e)
  else release TimerLock;; mret (Done 0).
Definition sleep_n_ticks (n : Z) : K progress :=
  if n <? 0 then mret (Done (-1))
  else acquire TimerLock;; s ← get; ticks_run (_ticks s) n.
Definition sleep_n_ticks_resume (tick_tmp n : Z) (e : bool) : K progress :=
  sleep_in e TimerLock;; ticks_run tick_tmp n.

(** * Signals *)

Definition SIGRTMAX : Z := 64.
Definition SIGKILL : Z := 9.
Definition SIGQUIT : Z := 3.
Definition SIGSTOP : Z := 19.
Definition SIG_BLOCK : Z := 0.
Definition SIG_UNBLOCK : Z := 1.
Definition SIG_SETMASK : Z := 2.
Definition sigset_size : Z := 8.

(** The code and the old action. *)
Definition sigAction (sig : Z) (newact : option sigaction) : K (Z * option sigaction) :=
  if (sig <=? 0) || (SIGRTMAX <=? sig) || (sig =? SIGKILL) || (sig =? SIGQUIT) then mret (-1, None)
  else
    g ← get_cur_pcb;
    p ← pcb g;
    old ← deref (_sigactions p !! Z.to_nat (sig - 1));
    (match newact with
     | Some a => on_pcb g (λ p, p <| _sigactions := <[Z.to_nat (sig - 1) := a]> (_sigactions p) |>)
     | None => mret tt
     end);;
    mret (0, Some old).

Definition unblockable : Z := Z.lor (1 ⋘ (SIGKILL - 1)) (1 ⋘ (SIGSTOP - 1)).
(** The code and the old mask. *)
Definition sigprocmask (how : Z) (newset : option Z) (sigsize : Z) : K (Z * option Z) :=
  if negb (sigsize =? sigset_size) then mret (-22, None)
  else
    g ← get_cur_pcb;
    p ← pcb g;
    let old := sigmask p in
    match newset with
    | None => mret (0, Some old)
    | Some set =>
        let mask := if how =? SIG_BLOCK then Some (Z.lor old set)
                    else if how =? SIG_UNBLOCK then Some (Z.land old (not64 set))
                    else if how =? SIG_SETMASK then Some set
                    else None in
        match mask with
        | None => mret (-22, Some old)
        | Some m =>
            on_pcb g (λ p, p <| sigmask := Z.land m (not64 unblockable) |>);;
            mret (0, Some old)
        end
    end.

End life.
End Life.
