(* ===== verification/ProcInv.v ===== *)
(** The invariant of the process table: every slot has a process identifier
    below the counter, no two slots share one (other than 0, that of a free
    slot), the process in slot [g] knows its index and has the arrays the
    structure declares, the nesting count of the CPU is the number of locks
    held, and interrupts are off while a lock is held.  Every operation
    preserves it. *)

From Stdlib Require Import ZArith Lia.
From stdpp Require Import base numbers gmap list.
From S2P Require Import Prelude Page Mem Klib Pmm PageTable Vmm Kbase Kernel KFile KLock Proc ProcLife.
Import Pmm PT Kernel KFile Proc Life.

Set Default Goal Selector "!".
Open Scope Z_scope.

Module ProcInv.

Section inv.
Context `{Port} `{TrapHal} {A F : Type} `{PageAllocator A} `{Inode A F}.
Implicit Types s : kernel A F.

(** The index of a process and the lengths of its arrays. *)
Definition shape (p : Pcb) : Z * nat * nat * nat * nat :=
  (_gid p, length (_prog_sections p), length (vm p), length (_rlim_vec p), length (_sigactions p)).
Definition shape_at (g : nat) : Z * nat * nat * nat * nat :=
  (Z.of_nat g, max_program_section_num, max_vma_num, RLIM_NLIMITS, 64%nat).
Definition shaped s : Prop :=
  (∀ g p, k_proc_pool s !! g = Some p → shape p = shape_at g) ∧ 0 ≤ _last_alloc_proc_gid s < 32.

Definition pids_ok s : Prop :=
  length (k_proc_pool s) = num_proc ∧ 1 ≤ _cur_pid s ∧
  (∀ g p, k_proc_pool s !! g = Some p → 0 ≤ _pid p < _cur_pid s) ∧
  (∀ g g' p p', k_proc_pool s !! g = Some p → k_proc_pool s !! g' = Some p' →
     _pid p = _pid p' → _pid p ≠ 0 → g = g').

Definition table_ok s : Prop := locks_ok s ∧ pids_ok s ∧ shaped s.

(** ** Primitive steps *)

Lemma pids_insert s g p q : pids_ok s → k_proc_pool s !! g = Some p →
  _pid q = _pid p ∨ _pid q = 0 → pids_ok (s <| k_proc_pool := <[g := q]> (k_proc_pool s) |>).
Proof.
  intros (Hl & Hc & Hr & Hu) Hp Hq. unfold pids_ok. rsimpl. rewrite length_insert.
  assert (Hlt : (g < length (k_proc_pool s))%nat) by (apply lookup_lt_is_Some; eauto).
  split_and!; [done|done| |].
  - intros x y [(<- & <- & _)|[? ?]]%list_lookup_insert_Some; [|eauto].
    destruct (Hr g p Hp). destruct Hq; lia.
  - intros x x' y y' [(<- & <- & _)|[Hne Hy]]%list_lookup_insert_Some
      [(<- & <- & _)|[Hne' Hy']]%list_lookup_insert_Some E E0; [done| | |eauto].
    + destruct Hq as [Hq|Hq]; [|lia]. apply (Hu g x' p y'); congruence.
    + destruct Hq as [Hq|Hq]; [|lia]. apply (Hu x g y p); congruence.
Qed.

Lemma shaped_insert s g p q : shaped s → k_proc_pool s !! g = Some p → shape q = shape p →
  shaped (s <| k_proc_pool := <[g := q]> (k_proc_pool s) |>).
Proof.
  intros [Hs Hl] Hp Hq. split; [|exact Hl]. rsimpl.
  intros x y [(<- & <- & _)|[? ?]]%list_lookup_insert_Some; [rewrite Hq|]; by apply Hs.
Qed.

(** Changes of one process: the identifier is kept or cleared, the shape kept. *)
Lemma keeps_on_pcb g f :
  (∀ p i, shape p = shape_at i → (_pid (f p) = _pid p ∨ _pid (f p) = 0) ∧ shape (f p) = shape p) →
  keeps (S := kernel A F) table_ok (on_pcb g f).
Proof.
  intros Hf s (Hl & Hs & Hsh). unfold wlp, on_pcb, pcb. krun.
  destruct (k_proc_pool s !! g) as [p|] eqn:E; [|done].
  destruct (Hf p g (proj1 Hsh g p E)) as [Hpid Hsp]. split_and!; [exact Hl| |].
  - exact (pids_insert s g p _ Hs E Hpid).
  - exact (shaped_insert s g p _ Hsh E Hsp).
Qed.

(** Reading a process. *)
Lemma keeps_pcb_bind {B} g (k : Pcb → M (kernel A F) B) :
  (∀ p, (g < num_proc)%nat → shape p = shape_at g → keeps table_ok (k p)) → keeps table_ok (pcb g ≫= k).
Proof.
  intros Hk s Hs. unfold wlp, mbind, M_bind, pcb, mbind, M_bind, get, deref.
  destruct (k_proc_pool s !! g) as [p|] eqn:E; [|done].
  destruct Hs as (Hl & Hp & Hsh). pose proof (lookup_lt_Some _ _ _ E) as Hlt. rewrite (proj1 Hp) in Hlt.
  by apply (Hk p Hlt (proj1 Hsh g p E) s).
Qed.

Lemma keeps_acquire_t l : keeps (S := kernel A F) table_ok (acquire l).
Proof.
  intros s (Hl & Hs). unfold wlp. destruct (acquire l s) as [[] s'| | |] eqn:E; try done.
  split; [exact (keeps_run _ _ _ _ _ (keeps_acquire l) Hl E)|].
  destruct (decide (l ∈ held s)) as [Hin|Hin].
  - exfalso. revert E. unfold acquire, push_interrupt_off, on_cpu, is_held. krun.
    destruct (_num_off (cpu s) =? 0); cbn beta iota; rsimpl; by rewrite bool_decide_eq_true_2.
  - rewrite acquire_run in E by done. apply ret_inj in E as <-. exact Hs.
Qed.

Lemma keeps_release_t l : keeps (S := kernel A F) table_ok (release l).
Proof.
  intros s (Hl & Hs). unfold wlp. destruct (release l s) as [[] s'| | |] eqn:E; try done.
  split; [exact (keeps_run _ _ _ _ _ (keeps_release l) Hl E)|].
  destruct (decide (l ∈ held s)) as [Hin|Hin].
  - rewrite release_run in E; [|done|].
    + apply ret_inj in E as <-. exact Hs.
    + destruct Hl as [Hn Hi]. assert (1 ≤ size (held s))%nat.
      { rewrite <- (size_singleton (C := gset lock) l). apply subseteq_size. set_solver. }
      split; [lia|apply Hi; lia].
  - exfalso. revert E. unfold release, is_held. krun. by rewrite bool_decide_eq_false_2.
Qed.

Lemma keeps_cpu f :
  (∀ c, _num_off (f c) = _num_off c ∧ interruptible (f c) = interruptible c) →
  keeps (S := kernel A F) table_ok (on_cpu f).
Proof.
  intros Hf s [[Hn Hi] Hs]. destruct (Hf (cpu s)) as [E1 E2]. split; [|exact Hs].
  unfold locks_ok. rsimpl. rewrite E1, E2. done.
Qed.

(** Calls of the memory managers and of the file systems. *)
Lemma keeps_mm {B} (m : M (PhysicalMemoryManager A) B) : keeps (S := kernel A F) table_ok (mm m).
Proof. intros s Hs. unfold wlp, mm, zoom. destruct (m (k_mm s)); [exact Hs|done..]. Qed.
Lemma keeps_vfs {B} (m : M (PhysicalMemoryManager A * F) B) : keeps (S := kernel A F) table_ok (vfs m).
Proof. intros s Hs. unfold wlp, vfs, zoom. destruct (m (k_mm s, k_fs s)) as [b []| | |]; [exact Hs|done..]. Qed.
Lemma keeps_klib {B} (m : M mem B) : keeps (S := kernel A F) table_ok (klib m).
Proof. apply keeps_mm. Qed.

Lemma keeps_for_each (I : kernel A F → Prop) {X} (l : list X) body :
  (∀ x, keeps I (body x)) → keeps I (for_each l body).
Proof. intros Hb. induction l as [|x l IH]; cbn [for_each]; keep. Qed.

(** [alloc_pid] gives the slot an identifier no other slot has. *)
Lemma keeps_alloc_pid g : keeps (S := kernel A F) table_ok (alloc_pid g).
Proof.
  unfold alloc_pid. apply keeps_bind; [apply keeps_acquire_t|intros _].
  intros s (Hl & (Hlen & Hc & Hr & Hu) & Hsh). unfold wlp, on_pcb, pcb. krun.
  destruct (k_proc_pool s !! g) as [p|] eqn:E; [|done]. cbn beta iota.
  destruct (_cur_pid s =? 2 ^ 31 - 1); [done|]. cbn beta iota.
  apply (keeps_release_t PidLock). split_and!; [exact Hl| |by apply (shaped_insert s g p)].
  unfold pids_ok. rsimpl. rewrite length_insert.
  assert (Hlt : (g < length (k_proc_pool s))%nat) by (apply lookup_lt_is_Some; eauto).
  split_and!; [done|lia| |].
  - intros x y [(<- & <- & _)|[? Hy]]%list_lookup_insert_Some; rsimpl; [lia|].
    specialize (Hr x y Hy). lia.
  - intros x x' y y' [(<- & <- & _)|[Hne Hy]]%list_lookup_insert_Some
      [(<- & <- & _)|[Hne' Hy']]%list_lookup_insert_Some; rsimpl; intros E1 E2; [done| | |eauto].
    + specialize (Hr x' y' Hy'). lia.
    + specialize (Hr x y Hy). lia.
Qed.

End inv.

#[export] Hint Resolve keeps_acquire_t keeps_release_t keeps_mm keeps_vfs keeps_klib keeps_alloc_pid : keeps.
#[export] Hint Extern 2 (keeps _ (modify _)) => (by intros ? ?) : keeps.
Lemma shape_eq p q : _gid q = _gid p → length (_prog_sections q) = length (_prog_sections p) →
  length (vm q) = length (vm p) → length (_rlim_vec q) = length (_rlim_vec p) →
  length (_sigactions q) = length (_sigactions p) → shape q = shape p.
Proof. unfold shape. by intros -> -> -> -> ->. Qed.
Ltac solve_shape :=
  first [reflexivity | apply shape_eq; rsimpl; rewrite ?length_insert, ?length_alter; reflexivity].
#[export] Hint Extern 2 (keeps _ (on_pcb _ _)) =>
  (apply keeps_on_pcb; intros ? ? ?; split; [first [by left|by right]|solve_shape]) : keeps.
#[export] Hint Extern 2 (keeps _ (on_cpu _)) => (apply keeps_cpu; by intros ?) : keeps.

Ltac keep_table :=
  repeat (first
    [ solve [eauto with keeps]
    | match goal with |- keeps _ (pcb _ ≫= _) => apply keeps_pcb_bind; intros ? ? ? end
    | keep1
    | match goal with |- keeps _ (for_each _ _) => apply keeps_for_each; intros ? end ]).

Section ops.
Context `{Port} `{TrapHal} {A F : Type} `{PageAllocator A} `{Inode A F}.
Abbreviation T := (@table_ok A F).

(** ** Sleeping, waking, pipes and files *)

Lemma keeps_get_cur : keeps T get_cur_pcb.
Proof. unfold get_cur_pcb. keep_table. Qed.
Lemma keeps_pcb g : keeps T (pcb g).
Proof. unfold pcb. keep_table. Qed.
#[local] Hint Resolve keeps_get_cur keeps_pcb : keeps.
Lemma keeps_sched_out : keeps T call_sched_out.
Proof. unfold call_sched_out, is_held. keep_table. Qed.
#[local] Hint Resolve keeps_sched_out : keeps.
Lemma keeps_sleep_out ch l : keeps T (sleep_out ch l).
Proof. unfold sleep_out. keep_table. Qed.
Lemma keeps_sleep_in e l : keeps T (sleep_in e l).
Proof. unfold sleep_in, call_sched_in. keep_table. Qed.
Lemma keeps_wakeup ch : keeps T (wakeup ch).
Proof. unfold wakeup, wakeup_one. keep_table. Qed.
#[local] Hint Resolve keeps_sleep_out keeps_sleep_in keeps_wakeup : keeps.
Lemma keeps_pipe q : keeps T (pipe q).
Proof. unfold pipe. keep_table. Qed.
Lemma keeps_on_pipe q f : keeps T (on_pipe q f).
Proof. unfold on_pipe, pipe. keep_table. Qed.
#[local] Hint Resolve keeps_pipe keeps_on_pipe : keeps.

Lemma keeps_write_loop fetch q n : (∀ i, keeps T (fetch i)) →
  ∀ fuel i, keeps T (write_loop fuel fetch q i n).
Proof.
  intros Hf fuel. induction fuel as [|fuel IH]; intros i; cbn [write_loop]; unfold write_end; keep_table.
Qed.
Lemma keeps_fetch_user stk addr i : keeps T (fetch_user stk addr i).
Proof. unfold fetch_user. keep_table. Qed.
Lemma keeps_fetch_kernel addr i : keeps T (fetch_kernel addr i).
Proof. unfold fetch_kernel. keep_table. Qed.
#[local] Hint Resolve keeps_write_loop keeps_fetch_user keeps_fetch_kernel : keeps.
Lemma keeps_write stk q addr n : keeps T (write stk q addr n).
Proof. unfold write, pipe_write. keep_table. Qed.
Lemma keeps_write_in_kernel q addr n : keeps T (write_in_kernel q addr n).
Proof. unfold write_in_kernel, pipe_write. keep_table. Qed.
Lemma keeps_write_resume fetch q n i e : (∀ i, keeps T (fetch i)) → keeps T (pipe_write_resume fetch q n i e).
Proof. intros. unfold pipe_write_resume. keep_table. Qed.
Lemma keeps_read_loop k q addr : ∀ i, keeps T (read_loop k q addr i).
Proof. induction k as [|k IH]; intros i; cbn [read_loop]; keep_table. Qed.
#[local] Hint Resolve keeps_read_loop : keeps.
Lemma keeps_read_run q addr n : keeps T (read_run q addr n).
Proof. unfold read_run. keep_table. Qed.
#[local] Hint Resolve keeps_read_run : keeps.
Lemma keeps_read q addr n : keeps T (read q addr n).
Proof. unfold read. keep_table. Qed.
Lemma keeps_read_resume q addr n e : keeps T (read_resume q addr n e).
Proof. unfold read_resume. keep_table. Qed.
Lemma keeps_pipe_close q w : keeps T (pipe_close q w).
Proof. unfold pipe_close. keep_table. Qed.
#[local] Hint Resolve keeps_pipe_close : keeps.

Lemma keeps_den d : keeps T (den d).
Proof. unfold den. keep_table. Qed.
Lemma keeps_on_den d f : keeps T (on_den d f).
Proof. unfold on_den, den. keep_table. Qed.
#[local] Hint Resolve keeps_den keeps_on_den : keeps.
Lemma keeps_releaseDentryCache fuel : ∀ d, keeps T (releaseDentryCache fuel d).
Proof. induction fuel as [|fuel IH]; intros d; cbn [releaseDentryCache]; keep_table. Qed.
#[local] Hint Resolve keeps_releaseDentryCache : keeps.
Lemma keeps_dentry_dup d : keeps T (dentry_dup d).
Proof. unfold dentry_dup. keep_table. Qed.
Lemma keeps_dentry_release d : keeps T (dentry_release d).
Proof. unfold dentry_release. keep_table. Qed.
Lemma keeps_ofile f : keeps T (ofile f).
Proof. unfold ofile. keep_table. Qed.
Lemma keeps_on_file f g : keeps T (on_file f g).
Proof. unfold on_file, ofile. keep_table. Qed.
#[local] Hint Resolve keeps_dentry_dup keeps_dentry_release keeps_ofile keeps_on_file : keeps.
Lemma keeps_file_dup f : keeps T (file_dup f).
Proof. unfold file_dup, with_den. keep_table. Qed.
Lemma keeps_free_file f : keeps T (free_file f).
Proof. unfold free_file, with_den. keep_table. Qed.
#[local] Hint Resolve keeps_file_dup keeps_free_file : keeps.
Lemma keeps_normal_write f b n o u : keeps T (normal_write f b n o u).
Proof. unfold normal_write. keep_table. Qed.
Lemma keeps_normal_read f b n o u : keeps T (normal_read f b n o u).
Proof. unfold normal_read. keep_table. Qed.
#[local] Hint Resolve keeps_normal_write keeps_normal_read : keeps.
Lemma keeps_new_object : keeps T new_object.
Proof. unfold new_object. keep_table. Qed.
#[local] Hint Resolve keeps_new_object : keeps.
Lemma keeps_new_file a n k : keeps T (new_file a n k).
Proof. unfold new_file. keep_table. Qed.
#[local] Hint Resolve keeps_new_file : keeps.
Lemma keeps_new_pipe : keeps T new_pipe.
Proof. unfold new_pipe. keep_table. Qed.
Lemma keeps_pipe_alloc q : keeps T (pipe_alloc q).
Proof. unfold pipe_alloc. keep_table. Qed.
#[local] Hint Resolve keeps_new_pipe keeps_pipe_alloc : keeps.

(** ** The process manager *)

Lemma keeps_proc_init pt : keeps T (proc_init pt).
Proof. unfold proc_init. keep_table. Qed.
Lemma keeps_proc_free pt : keeps T (proc_free pt).
Proof. unfold proc_free. keep_table. Qed.
#[local] Hint Resolve keeps_proc_init keeps_proc_free : keeps.
Lemma keeps_user_proc_init tf pt : keeps T (user_proc_init tf pt).
Proof. unfold user_proc_init, tf_store. keep_table. Qed.
Lemma keeps_create_vm_at g pt : keeps T (proc_create_vm_at g pt).
Proof. unfold proc_create_vm_at. keep_table. Qed.
#[local] Hint Resolve keeps_user_proc_init keeps_create_vm_at : keeps.
Lemma keeps_create_vm g : keeps T (proc_create_vm g).
Proof. unfold proc_create_vm. keep_table. Qed.
Lemma keeps_ofile_close g i : keeps T (ofile_close g i).
Proof. unfold ofile_close. keep_table. Qed.
#[local] Hint Resolve keeps_create_vm keeps_ofile_close : keeps.
Lemma keeps_free_space g : keeps T (free_space g).
Proof. unfold free_space, free_sections, pt_freewalk. keep_table. Qed.
#[local] Hint Resolve keeps_free_space : keeps.
Lemma keeps_freeproc g : keeps T (freeproc g).
Proof. unfold freeproc. keep_table. Qed.
#[local] Hint Resolve keeps_freeproc : keeps.
Lemma keeps_last z : 0 ≤ z < 32 → keeps T (modify (λ s, s <| _last_alloc_proc_gid := z |>)).
Proof. intros Hz. apply keeps_modify. by intros s (Hl & Hp & Hs & _). Qed.
Lemma keeps_claim g : keeps T (claim_slot g).
Proof.
  unfold claim_slot. keep_table. apply keeps_last.
  match goal with E : shape _ = _ |- _ => injection E as -> _ end. unfold num_proc in *. lia.
Qed.
Lemma keeps_give_up g : keeps T (give_up_slot g).
Proof. unfold give_up_slot. keep_table. Qed.
#[local] Hint Resolve keeps_claim keeps_give_up : keeps.
Lemma keeps_setup_proc g : keeps T (setup_proc g).
Proof. unfold setup_proc. keep_table. Qed.
Lemma keeps_setup_thread g : keeps T (setup_thread g).
Proof. unfold setup_thread. keep_table. Qed.
Lemma keeps_find_slot setup : (∀ g, keeps T (setup g)) → ∀ k i, keeps T (find_slot setup k i).
Proof. intros Hs k. induction k as [|k IH]; intros i; cbn [find_slot]; keep_table. Qed.
#[local] Hint Resolve keeps_setup_proc keeps_setup_thread keeps_find_slot : keeps.
Lemma keeps_alloc_proc : keeps T alloc_proc.
Proof. unfold alloc_proc. keep_table. Qed.
Lemma keeps_alloc_thread : keeps T alloc_thread.
Proof. unfold alloc_thread. keep_table. Qed.
#[local] Hint Resolve keeps_alloc_proc keeps_alloc_thread : keeps.
Lemma keeps_alloc_fd g f : keeps T (alloc_fd g f).
Proof. unfold alloc_fd. induction fds as [|fd l IH]; cbn [alloc_fd_loop]; keep_table. Qed.
Lemma keeps_alloc_fd_at g f fd : keeps T (alloc_fd_at g f fd).
Proof. unfold alloc_fd_at. keep_table. Qed.
Lemma keeps_close fd : keeps T (close fd).
Proof. unfold close. keep_table. Qed.
#[local] Hint Resolve keeps_alloc_fd : keeps.
Lemma keeps_make_pipe : keeps T make_pipe.
Proof. unfold make_pipe. keep_table. Qed.
Lemma keeps_kill pid sig : keeps T (kill pid sig).
Proof. unfold kill. keep_table. Qed.
Lemma keeps_set_uid v : keeps T (set_uid v).
Proof. unfold set_uid. keep_table. Qed.
Lemma keeps_set_gid v : keeps T (set_gid v).
Proof. unfold set_gid. keep_table. Qed.
Lemma keeps_prlimit pid r l : keeps T (prlimit64 pid r l).
Proof. unfold prlimit64. keep_table. Qed.

(** ** Life and death *)

Lemma keeps_copy_range a b x n : keeps T (copy_range a b x n).
Proof. unfold copy_range. keep_table. Qed.
#[local] Hint Resolve keeps_copy_range : keeps.
Lemma keeps_copy_sections p np secs : ∀ j, keeps T (copy_sections p np j secs).
Proof. induction secs as [|pd secs IH]; intros j; cbn [copy_sections]; keep_table. Qed.
Lemma keeps_copy_heap p np : keeps T (copy_heap p np).
Proof. unfold copy_heap. keep_table. Qed.
Lemma keeps_copy_stack p np : keeps T (copy_stack p np).
Proof. unfold copy_stack. keep_table. Qed.
Lemma keeps_dup_vfile o : keeps T (dup_vfile o).
Proof. unfold dup_vfile. keep_table. Qed.
#[local] Hint Resolve keeps_copy_sections keeps_copy_heap keeps_copy_stack keeps_dup_vfile : keeps.
Lemma keeps_copy_vmas p np vs : ∀ i, keeps T (copy_vmas p np i vs).
Proof. induction vs as [|v vs IH]; intros i; cbn [copy_vmas]; keep_table. Qed.
Lemma keeps_share_vmas np vs : ∀ i, keeps T (share_vmas np i vs).
Proof. induction vs as [|v vs IH]; intros i; cbn [share_vmas]; keep_table. Qed.
Lemma keeps_share_file p np i : keeps T (share_file p np i).
Proof. unfold share_file. keep_table. Qed.
Lemma keeps_share_cwd p np : keeps T (share_cwd p np).
Proof. unfold share_cwd. keep_table. Qed.
Lemma keeps_start_child g np : keeps T (start_child g np).
Proof. unfold start_child. keep_table. Qed.
#[local] Hint Resolve keeps_copy_vmas keeps_share_vmas keeps_share_file keeps_share_cwd keeps_start_child : keeps.
Lemma keeps_fork usp : keeps T (fork usp).
Proof.
  unfold fork, copy_trap_frame, set_trap_frame_return_value, set_trap_frame_user_sp, tf_store. keep_table.
Qed.
#[local] Hint Resolve keeps_fork : keeps.
Lemma share_space_shape p i c j : shape p = shape_at i → shape c = shape_at j → shape (share_space p c) = shape c.
Proof.
  intros [= _ Hp _ _ _] [= _ Hc _ _ _]. apply shape_eq; try reflexivity. unfold share_space. rsimpl.
  rewrite length_app, length_take, length_drop. lia.
Qed.
Lemma keeps_clone stk flags cs pt tls : keeps T (clone stk flags cs pt tls).
Proof.
  unfold clone, clone_thread, copy_trap_frame, set_trap_frame_return_value, set_trap_frame_user_sp,
    set_trap_frame_user_tp, tf_store, local32. keep_table.
  apply keeps_on_pcb. intros c j Hc. split; [by left|]. by eapply share_space_shape.
Qed.
Lemma keeps_wait_scan l stk g cp addr : ∀ hk, keeps T (wait_scan l stk g cp addr hk).
Proof. induction l as [|np l IH]; intros hk; cbn [wait_scan]; unfold local32; keep_table. Qed.
#[local] Hint Resolve keeps_wait_scan : keeps.
Lemma keeps_wait_run stk cp addr : keeps T (wait_run stk cp addr).
Proof. unfold wait_run. keep_table. Qed.
#[local] Hint Resolve keeps_wait_run : keeps.
Lemma keeps_wait stk cp addr : keeps T (wait stk cp addr).
Proof. unfold wait. keep_table. Qed.
Lemma keeps_wait_resume stk cp addr e : keeps T (wait_resume stk cp addr e).
Proof. unfold wait_resume. keep_table. Qed.
Lemma keeps_write_back fuel g f ve : ∀ va off, keeps T (write_back fuel g f va ve off).
Proof. induction fuel as [|fuel IH]; intros va off; cbn [write_back]; keep_table. Qed.
#[local] Hint Resolve keeps_write_back : keeps.
Lemma keeps_write_back_vma g v va len : keeps T (write_back_vma g v va len).
Proof. unfold write_back_vma. keep_table. Qed.
#[local] Hint Resolve keeps_write_back_vma : keeps.
Lemma keeps_exit_vma g i : keeps T (exit_vma g i).
Proof. unfold exit_vma, on_vma. keep_table. Qed.
Lemma keeps_reparent g : keeps T (reparent g).
Proof. unfold reparent, reparent_one. keep_table. Qed.
#[local] Hint Resolve keeps_exit_vma keeps_reparent : keeps.
Lemma keeps_become_zombie stk g st : keeps T (become_zombie stk g st).
Proof. unfold become_zombie, local32. keep_table. Qed.
#[local] Hint Resolve keeps_become_zombie : keeps.
Lemma keeps_exit_proc stk g st : keeps T (exit_proc stk g st).
Proof. unfold exit_proc. keep_table. Qed.
#[local] Hint Resolve keeps_exit_proc : keeps.
Lemma keeps_exit_group_loop l cp : ∀ v, keeps T (exit_group_loop l cp v).
Proof. induction l as [|i l IH]; intros v; cbn [exit_group_loop]; keep_table. Qed.
#[local] Hint Resolve keeps_exit_group_loop : keeps.
Lemma keeps_exit_group stk st : keeps T (exit_group stk st).
Proof. unfold exit_group. keep_table. Qed.
Lemma keeps_brk n : keeps T (brk n).
Proof. unfold brk. keep_table. Qed.
Lemma keeps_munmap va len : keeps T (munmap va len).
Proof. unfold munmap, on_vma. keep_table. Qed.
Lemma keeps_mmap kbuf fd pr fl n : keeps T (mmap kbuf fd pr fl n).
Proof. unfold mmap, mmap_anonymous, mmap_file, fill_mapping, on_vma. keep_table. Qed.
Lemma keeps_mremap kbuf a n n' : keeps T (mremap kbuf a n n').
Proof. unfold mremap, fill_mapping, on_vma. keep_table. Qed.
Lemma keeps_schedule l : ∀ nd pr, keeps T (schedule_scan l nd pr).
Proof.
  induction l as [|g l IH]; intros nd pr; cbn [schedule_scan]; unfold get_highest_proirity, set_cur_proc; keep_table.
Qed.
Lemma keeps_schedule_back g : keeps T (schedule_back g).
Proof. unfold schedule_back, set_cur_proc. keep_table. Qed.
Lemma keeps_yield_out : keeps T yield_out.
Proof. unfold yield_out. keep_table. Qed.
Lemma keeps_yield_in e : keeps T (yield_in e).
Proof. unfold yield_in, call_sched_in. keep_table. Qed.
#[local] Hint Resolve keeps_yield_out : keeps.
Lemma keeps_sche_proc g : keeps T (sche_proc g).
Proof. unfold sche_proc. keep_table. Qed.
Lemma keeps_clock : keeps T handle_clock_intr.
Proof. unfold handle_clock_intr. keep_table. Qed.
Lemma keeps_ticks t n : keeps T (ticks_run t n).
Proof. unfold ticks_run. keep_table. Qed.
#[local] Hint Resolve keeps_ticks : keeps.
Lemma keeps_sleep_ticks n : keeps T (sleep_n_ticks n).
Proof. unfold sleep_n_ticks. keep_table. Qed.
Lemma keeps_sleep_ticks_resume t n e : keeps T (sleep_n_ticks_resume t n e).
Proof. unfold sleep_n_ticks_resume. keep_table. Qed.
Lemma keeps_sigAction sig a : keeps T (sigAction sig a).
Proof. unfold sigAction. keep_table. Qed.
Lemma keeps_sigprocmask how set n : keeps T (sigprocmask how set n).
Proof. unfold sigprocmask. keep_table. Qed.

Lemma keeps_user_init u nm : keeps T (user_init u nm).
Proof. unfold user_init, set_trap_frame_user_sp, tf_store, set_cur_proc. keep_table. Qed.

End ops.

#[export] Hint Resolve keeps_get_cur keeps_pcb keeps_sched_out keeps_sleep_out keeps_sleep_in keeps_wakeup
  keeps_pipe keeps_on_pipe keeps_fetch_kernel keeps_write_in_kernel keeps_write_resume keeps_read
  keeps_read_resume keeps_pipe_close keeps_ofile keeps_on_file keeps_file_dup keeps_free_file keeps_normal_write
  keeps_normal_read keeps_alloc_fd keeps_alloc_fd_at keeps_close keeps_make_pipe keeps_kill keeps_set_uid
  keeps_set_gid keeps_prlimit keeps_clone keeps_wait keeps_wait_resume keeps_exit_proc keeps_exit_group
  keeps_brk keeps_munmap keeps_mmap keeps_mremap keeps_yield_out keeps_yield_in keeps_sleep_ticks
  keeps_sleep_ticks_resume keeps_sigAction keeps_sigprocmask : keeps.
End ProcInv.
