(* ===== verification/ProcAlloc.v ===== *)
(** Allocation of a process: the search for a free slot and the construction of
    the new process's address space, over the theorems of the virtual memory
    manager. *)

From Stdlib Require Import ZArith Lia.
From stdpp Require Import base numbers gmap list.
From S2P Require Import Prelude Page Mem Klib Buddy Pmm PmmThm PageTable PtInv PtWalk Vmm VmmMap VmmCopy VmmFork VmmThm.
From S2P Require Import Kbase Kernel KFile KLock PipeThm Proc ProcLife ProcInv.
Import Pmm PmmThm PT PtInv PtWalk VmmMap VmmCopy VmmFork VmmThm Kernel KFile Proc Life.

Set Default Goal Selector "!".
Open Scope Z_scope.

(** What the construction of an address space needs of a port beyond
    [PortLaws]: user space fits the page tables, and the flags of pages that
    only the kernel may access are well formed. *)
Class KernelFlags `{PL : PortLaws} : Prop := {
  user_space_fits : Vmm.vm_user_end ≤ 2 ^ va_bits;
  kernel_flags_ok : let f := Z.lor (Z.lor map_data_page_flags valid_flag) super_plv_flag in
    0 ≤ f < 2 ^ 64 ∧ get_flags f = f ∧ is_valid f = true ∧ is_dir_page f = false ∧ is_super_plv f = true
}.
#[export] Instance riscv_kernel_flags : KernelFlags (PL := riscv_port_laws).
Proof. split; [by vm_compute|vm_compute; split_and!; done]. Qed.
#[export] Instance loongarch_kernel_flags : KernelFlags (PL := loongarch_port_laws).
Proof. split; [by vm_compute|vm_compute; split_and!; done]. Qed.

Module ProcAlloc.

(** * The search *)

Section search.
Context {A F : Type}.
Implicit Types s : kernel A F.

(** A lock taken and given back from outside every critical section. *)
Definition touched s : kernel A F := s <| cpu := (cpu s) <| _int_ena := interruptible (cpu s) |> |>.

Lemma touched_unlocked s : unlocked s → unlocked (touched s).
Proof. by intros [Hn Hh]. Qed.
Lemma entered_touched l s : entered l (touched s) = entered l s.
Proof. done. Qed.
Lemma touched_touched s : touched (touched s) = touched s.
Proof. done. Qed.

Lemma probe_run l s : unlocked s → release l (entered l s) = Ret tt (touched s).
Proof.
  intros Hu. rewrite leave_only by done. by rewrite left_entered.
Qed.

(** The first round of the search whose slot is free. *)
Fixpoint first_free (pool : list Pcb) (last : Z) (k i : nat) : option nat :=
  match k with
  | O => None
  | S k' =>
      match pool !! slot last i with
      | Some p => if bool_decide (_state p = unused) then Some (slot last i) else first_free pool last k' (S i)
      | None => None
      end
  end.

Lemma slot_lt last i : (slot last i < num_proc)%nat.
Proof. unfold slot, num_proc. pose proof (Z.mod_pos_bound (u32 (last + Z.of_nat i)) 32). lia. Qed.

Lemma find_slot_run setup k : ∀ i s,
  unlocked s → length (k_proc_pool s) = num_proc →
  (0 < k)%nat →
  find_slot setup k i s =
    match first_free (k_proc_pool s) (_last_alloc_proc_gid s) k i with
    | Some g => setup g (entered (ProcLock g) s)
    | None => Ret None (touched s)
    end.
Proof.
  induction k as [|k IH]; intros i s Hu Hl Hk; [lia|]. cbn [find_slot first_free].
  set (g := slot (_last_alloc_proc_gid s) i).
  destruct (lookup_lt_is_Some_2 (k_proc_pool s) g) as [p Hp]; [rewrite Hl; apply slot_lt|].
  rewrite Hp. unfold mbind at 1, M_bind at 1, get at 1. cbn beta iota. fold g.
  mstep (enter_run (ProcLock g) s Hu).
  assert (Hp1 : k_proc_pool (entered (ProcLock g) s) !! g = Some p) by exact Hp.
  mstep (pcb_run _ _ _ Hp1). destruct (bool_decide (_state p = unused)); [done|].
  mstep (probe_run (ProcLock g) s Hu).
  destruct k as [|k]; [done|].
  rewrite (IH (S i) (touched s)) by (by apply touched_unlocked || done || lia).
  by rewrite touched_touched.
Qed.

(** A free slot is found whenever there is one. *)
Lemma first_free_some pool last g p :
  length pool = num_proc → 0 ≤ last < 32 → pool !! g = Some p → _state p = unused →
  ∃ g' p', first_free pool last num_proc 0 = Some g' ∧ pool !! g' = Some p' ∧ _state p' = unused.
Proof.
  intros Hl Hlast Hg Hu.
  assert (Hglt : (g < 32)%nat) by (apply lookup_lt_Some in Hg; rewrite Hl in Hg; exact Hg).
  set (i0 := Z.to_nat ((Z.of_nat g - last) mod 32)).
  assert (Hi0 : (i0 < 32)%nat) by (unfold i0; pose proof (Z.mod_pos_bound (Z.of_nat g - last) 32); lia).
  assert (Hs : slot last i0 = g).
  { unfold slot, i0. rewrite Z2Nat.id by (apply Z.mod_pos_bound; lia).
    rewrite wrap32_small by (pose proof (Z.mod_pos_bound (Z.of_nat g - last) 32); lia).
    rewrite Z.add_mod_idemp_r by lia. replace (last + (Z.of_nat g - last)) with (Z.of_nat g) by lia.
    rewrite Z.mod_small by lia. lia. }
  assert (G : ∀ k i, (i ≤ i0)%nat → (i0 < i + k)%nat →
    ∃ g' p', first_free pool last k i = Some g' ∧ pool !! g' = Some p' ∧ _state p' = unused).
  { induction k as [|k IH]; intros i Hi Hk; [lia|]. cbn [first_free].
    destruct (lookup_lt_is_Some_2 pool (slot last i)) as [q Hq]; [rewrite Hl; apply slot_lt|].
    rewrite Hq. destruct (decide (_state q = unused)) as [E|E].
    - rewrite bool_decide_eq_true_2 by done. eauto.
    - rewrite bool_decide_eq_false_2 by done. apply IH; [|lia].
      destruct (decide (i = i0)) as [->|]; [|lia]. rewrite Hs in Hq. congruence. }
  apply (G num_proc 0%nat); unfold num_proc; lia.
Qed.

Lemma first_free_sound pool last k : ∀ i g, first_free pool last k i = Some g →
  ∃ p, pool !! g = Some p ∧ _state p = unused.
Proof.
  induction k as [|k IH]; intros i g; cbn [first_free]; [done|].
  destruct (pool !! slot last i) as [p|] eqn:E; [|done].
  destruct (decide (_state p = unused)) as [Eu|Eu].
  - rewrite bool_decide_eq_true_2 by done. intros [= <-]. eauto.
  - rewrite bool_decide_eq_false_2 by done. apply IH.
Qed.

End search.

(** * The new process *)

Section setup.
#[local] Opaque fill_words store64 load64 load_bytes.
Context `{KF : KernelFlags} `{TrapHal} {A F : Type} `{PA : PageAllocatorLaws A} `{Inode A F}.
Implicit Types s : kernel A F.
Abbreviation K := (M (kernel A F)).

Lemma kernel_ext s s' :
  cpu s = cpu s' → held s = held s' → k_proc_pool s = k_proc_pool s' → _cur_pid s = _cur_pid s' →
  _init_proc s = _init_proc s' → _last_alloc_proc_gid s = _last_alloc_proc_gid s' →
  files s = files s' → pipes s = pipes s' → dentries s = dentries s' → freeList_ s = freeList_ s' →
  next_obj s = next_obj s' → _ticks s = _ticks s' → k_mm s = k_mm s' → k_fs s = k_fs s' → s = s'.
Proof. destruct s, s'; cbn; intros; by subst. Qed.

Lemma mm_run {B} (m : M (PhysicalMemoryManager A) B) s b σ :
  m (k_mm s) = Ret b σ → mm m s = Ret b (s <| k_mm := σ |>).
Proof. intros E. unfold mm, zoom. by rewrite E. Qed.

Lemma alloc_pid_run g p s : nested s → PidLock ∉ held s →
  k_proc_pool s !! g = Some p → _cur_pid s ≠ 2 ^ 31 - 1 →
  alloc_pid g s = Ret tt (s <| k_proc_pool := <[g := p <| _pid := _cur_pid s |>]> (k_proc_pool s) |>
                            <| _cur_pid := _cur_pid s + 1 |>).
Proof.
  intros Hn Hl Hp Hc. unfold alloc_pid. mstep (acquire_run PidLock s Hl).
  set (s1 := acquired PidLock s). unfold mbind at 1, M_bind at 1, get at 1. cbn beta iota.
  assert (Hp1 : k_proc_pool s1 !! g = Some p) by exact Hp.
  mstep (on_pcb_run g p (λ p, p <| _pid := _cur_pid s1 |>) s1 Hp1).
  change (_cur_pid s1) with (_cur_pid s). rewrite (proj2 (Z.eqb_neq _ _)) by done.
  unfold mbind at 1, M_bind at 1, modify at 1. cbn beta iota.
  rewrite release_run; [|unfold s1, acquired; rsimpl; set_solver|].
  2:{ destruct Hn. split; unfold s1, acquired; rsimpl; [lia|done]. }
  f_equal. transitivity ((released PidLock (acquired PidLock s))
      <| k_proc_pool := <[g := p <| _pid := _cur_pid s |>]> (k_proc_pool s) |> <| _cur_pid := _cur_pid s + 1 |>); [done|].
  by rewrite acquire_release.
Qed.

(** The process control block of a new process. *)
Definition newborn (pid tf root : Z) (p : Pcb) : Pcb :=
  fresh_ids _pid (p <| _pid := pid |>) <| _trapframe := tf |> <| _pt := pt_at root |>
    <| _mqmask := 0 |> <| _context := reset_context (_kstack p) |>.
(** The state in which the search ends. *)
Definition born (g : nat) (p : Pcb) (tf root : Z) (σ : PhysicalMemoryManager A) s : kernel A F :=
  s <| k_proc_pool := <[g := newborn (_cur_pid s) tf root p]> (k_proc_pool s) |>
    <| _cur_pid := _cur_pid s + 1 |> <| _last_alloc_proc_gid := _gid p |> <| k_mm := σ |>.

(** The address space of a new process: one page, the trap frame, which the
    user may not access. *)
Definition trap_page_only (tf : Z) (σ : PhysicalMemoryManager A) (t : gmap (list Z) Z) : Prop :=
  let f := Z.lor (Z.lor map_data_page_flags valid_flag) super_plv_flag in
  ∀ va, uva va →
    if decide (Vmm.vm_trap_frame ≤ va < Vmm.vm_user_end) then leaf (ram σ) t va = entry tf f
    else is_valid (leaf (ram σ) t va) = false.

Lemma trap_frame_page : Vmm.vm_trap_frame mod 4096 = 0 ∧ 0 ≤ Vmm.vm_trap_frame ∧
  Vmm.vm_trap_frame + 4096 = Vmm.vm_user_end ∧ Vmm.vm_trap_frame + 4096 ≤ 2 ^ va_bits.
Proof. pose proof user_space_fits. split_and!; [done|done|done|exact user_space_fits]. Qed.

(** [vm_create] and the mapping of the trap frame. *)
Lemma create_space_run σ lo hi u tf n : pmm_rep σ lo hi u → window ≤ lo ∧ hi ≤ window + 2 ^ 56 →
  u !! tf = Some n →
  supply (S depth) (_allocator σ) = false ∨
  ∃ root σ1 σ' u' t, Vmm.vm_create σ = Ret (pt_at root) σ1 ∧ root ≠ 0 ∧
    Vmm.map_data_pages (pt_at root) Vmm.vm_trap_frame page_size tf false σ1 = Ret true σ' ∧
    space σ' lo hi u' root t ∧ u ⊆ u' ∧ trap_page_only tf σ' t.
Proof.
  intros Hr Hw Htf. destruct trap_frame_page as (Ht1 & Ht2 & Ht3 & Ht4).
  set (f := Z.lor (Z.lor map_data_page_flags valid_flag) super_plv_flag).
  destruct kernel_flags_ok as (Hf1 & Hf2 & Hf3 & _). fold f in Hf1, Hf2, Hf3.
  destruct (vm_create_run σ lo hi u Hr Hw) as [[_ R]|(root & σ1 & k & R & Hroot & Sp & Hiv & _)].
  { left. apply (supply_false 1); [lia|by apply (alloc_page_short _ _ R)]. }
  pose proof (vm_create_spends _ _ _ R) as Hs.
  assert (Hrk : kpage root) by exact (block_kpage σ1 lo hi _ root k (sp_pmm _ _ _ _ _ _ Sp) Hw (lookup_insert_eq _ _ _)).
  assert (Hne : root ≠ tf) by congruence.
  assert (Htk : kpage tf).
  { apply (block_kpage σ1 lo hi (<[root := k]> u) tf n (sp_pmm _ _ _ _ _ _ Sp) Hw). by rewrite lookup_insert_ne. }
  assert (Hr0 : root ≠ 0) by (destruct Hrk; lia).
  destruct (map_pages_run σ1 lo hi _ root {[ [] := root ]} Vmm.vm_trap_frame page_size tf f Sp Ht1 eq_refl Ht2)
    as [[_ Hs1]|(j & σ' & u' & t & Hj & R1 & Sp' & Ad & Hl & _ & Hbad & _)]; [done|done|done| | |].
  { change (page_size / 4096) with 1. intros i Hi. by replace (tf + 4096 * i) with tf by lia. }
  { left. apply (spends_short 1 _ σ σ1); [done|]. by rewrite Nat.mul_1_l in Hs1. }
  right. change (page_size / 4096) with 1 in *. assert (uva Vmm.vm_trap_frame) as Hut by (unfold uva; lia).
  assert (j = 1) as ->.
  { destruct (Z.eq_dec j 1); [done|]. assert (j = 0) as -> by lia. specialize (Hbad ltac:(lia)).
    rewrite Z.mul_0_r, Z.add_0_r, Hiv in Hbad by done. done. }
  exists root, σ1, σ', u', t. split_and!; [done|done|exact R1|exact Sp'| |].
  - transitivity (<[root := k]> u); [by apply insert_subseteq|]. apply Ad.
  - intros va Hva. rewrite Hl by done. unfold mapped. fold f.
    destruct (decide (Vmm.vm_trap_frame ≤ va < Vmm.vm_user_end)) as [Hin|Hout].
    + rewrite decide_True by lia. f_equal. Z.div_mod_to_equations; lia.
    + rewrite decide_False by lia. by apply Hiv.
Qed.

(** [proc_create_vm] for a process with a trap frame. *)
Lemma proc_create_vm_run g p lo hi u n s :
  k_proc_pool s !! g = Some p → pmm_rep (k_mm s) lo hi u → window ≤ lo ∧ hi ≤ window + 2 ^ 56 →
  u !! _trapframe p = Some n →
  supply (S depth) (_allocator (k_mm s)) = false ∨
  ∃ root σ u' t, proc_create_vm g s = Ret tt (s <| k_mm := σ |>
      <| k_proc_pool := <[g := p <| _pt := pt_at root |>]> (k_proc_pool s) |>) ∧ root ≠ 0 ∧
    u ⊆ u' ∧ space σ lo hi u' root t ∧ trap_page_only (_trapframe p) σ t.
Proof.
  intros Hp Hr Hw Htf. unfold proc_create_vm.
  destruct (create_space_run (k_mm s) lo hi _ _ n Hr Hw Htf)
    as [Hs|(root & σ2 & σ' & u' & t & Rc & Hr0 & Rm & Sp & Hsub & Honly)].
  - by left.
  - right. exists root, σ', u', t. split_and!; [|done..].
    mstep (mm_run _ s _ _ Rc). unfold proc_create_vm_at. cbn [_base_addr].
    rewrite (proj2 (Z.eqb_neq root 0)) by done.
    assert (Hp' : k_proc_pool (s <| k_mm := σ2 |>) !! g = Some p) by exact Hp.
    mstep (pcb_run _ _ _ Hp').
    assert (Rm' : Vmm.map_data_pages (pt_at root) Vmm.vm_trap_frame page_size (_trapframe p) false
      (k_mm (s <| k_mm := σ2 |>)) = Ret true σ') by exact Rm.
    mstep (mm_run _ _ _ _ Rm'). cbn [negb]. by rewrite (on_pcb_run g p).
Qed.

(** [setup_proc] on a free slot, its lock held. *)
Lemma setup_proc_run g p lo hi u s :
  unlocked s → length (k_proc_pool s) = num_proc →
  k_proc_pool s !! g = Some p → _cur_pid s ≠ 2 ^ 31 - 1 →
  pmm_rep (k_mm s) lo hi u → window ≤ lo ∧ hi ≤ window + 2 ^ 56 →
  supply (S (S depth)) (_allocator (k_mm s)) = false ∨
  ∃ tf root σ u' t, setup_proc g (entered (ProcLock g) s) = Ret (Some g) (touched (born g p tf root σ s)) ∧
    u !! tf = None ∧ u ⊆ u' ∧ is_Some (u' !! tf) ∧ space σ lo hi u' root t ∧ trap_page_only tf σ t.
Proof.
  intros Hu Hl Hp Hpid Hr Hw. pose proof (lookup_lt_Some _ _ _ Hp) as Hlt.
  set (s0 := entered (ProcLock g) s).
  assert (Hn0 : nested s0) by done.
  destruct (alloc_page_run (k_mm s) lo hi u Hr) as [(tf & n & σ1 & R & _ & Htf0 & Htf & Hr1 & _)|R].
  2:{ left. apply (supply_false 1); [lia|by apply (alloc_page_short _ _ R)]. }
  pose proof (alloc_page_spends _ _ _ R Htf0) as Hs.
  unfold setup_proc.
  assert (Hp0 : k_proc_pool s0 !! g = Some p) by exact Hp.
  assert (R1 := alloc_pid_run g p s0 Hn0 ltac:(unfold s0, entered; rsimpl; set_solver) Hp0 Hpid).
  mstep R1. set (p1 := p <| _pid := _cur_pid s0 |>). set (s1 := s0 <| k_proc_pool := _ |> <| _cur_pid := _ |>).
  assert (Hp1 : k_proc_pool s1 !! g = Some p1) by exact (list_lookup_insert_eq _ _ _ Hlt).
  assert (Hlen1 : length (k_proc_pool s1) = num_proc) by exact (eq_trans (length_insert _ _ _) Hl).
  rewrite <- Hl in Hlen1. mstep (on_pcb_run g p1 (fresh_ids _pid) s1 Hp1). set (s2 := s1 <| k_proc_pool := _ |>).
  assert (Hlen2 : length (k_proc_pool s2) = length (k_proc_pool s)) by exact (eq_trans (length_insert _ _ _) Hlen1).
  assert (Ra : alloc_page (k_mm s2) = Ret tf σ1) by (change (k_mm s2) with (k_mm s); exact R).
  mstep (mm_run alloc_page s2 tf σ1 Ra). set (s3 := s2 <| k_mm := σ1 |>).
  assert (Hp3 : k_proc_pool s3 !! g = Some (fresh_ids _pid p1)).
  { refine (list_lookup_insert_eq (k_proc_pool s1) g _ _). by rewrite Hlen1. }
  mstep (on_pcb_run g _ (λ p, p <| _trapframe := tf |>) s3 Hp3). set (s4 := s3 <| k_proc_pool := _ |>).
  set (p4 := fresh_ids _pid p1 <| _trapframe := tf |>).
  assert (Hl4 : length (k_proc_pool s4) = num_proc).
  { rewrite <- Hl. exact (eq_trans (length_insert _ _ _) Hlen2). }
  assert (Hp4 : k_proc_pool s4 !! g = Some p4).
  { refine (list_lookup_insert_eq (k_proc_pool s2) g _ _). by rewrite Hlen2. }
  rewrite (proj2 (Z.eqb_neq tf 0)) by done.
  destruct (proc_create_vm_run g p4 lo hi _ n s4 Hp4 Hr1 Hw (lookup_insert_eq _ _ _))
    as [Hs'|(root & σ' & u' & t & Rv & Hr0 & Hsub & Sp & Honly)].
  - left. exact (spends_short 1 (S depth) _ σ1 Hs Hs').
  - right. exists tf, root, σ', u', t. split_and!; [|done| | |done|done].
    2:{ transitivity (<[tf := n]> u); [by apply insert_subseteq|done]. }
    2:{ exists n. by apply (lookup_weaken _ _ _ _ (lookup_insert_eq u tf n) Hsub). }
    mstep Rv. set (s5 := s4 <| k_mm := _ |> <| k_proc_pool := _ |>). set (p5 := p4 <| _pt := pt_at root |>).
    assert (Hp5 : k_proc_pool s5 !! g = Some p5).
    { refine (list_lookup_insert_eq (k_proc_pool s4) g _ _). by rewrite Hl4, <- Hl. }
    mstep (pcb_run _ _ _ Hp5). change (_base_addr (_pt p5)) with root. rewrite (proj2 (Z.eqb_neq root 0)) by done.
    unfold claim_slot. mstep (on_pcb_run g p5 (λ p, p <| _mqmask := 0 |> <| _context := reset_context (_kstack p) |>) s5 Hp5).
    set (s6 := s5 <| k_proc_pool := _ |>).
    mstep (leave_only (ProcLock g) s6 eq_refl eq_refl eq_refl).
    assert (Es : left s6 <| _last_alloc_proc_gid := _gid p |> = touched (born g p tf root σ' s)).
    { assert (E1 : k_proc_pool s1 = <[g := p1]> (k_proc_pool s)) by exact eq_refl.
      assert (E2 : k_proc_pool s2 = <[g := fresh_ids _pid p1]> (k_proc_pool s1)) by exact eq_refl.
      assert (E4 : k_proc_pool s4 = <[g := p4]> (k_proc_pool s2)) by exact eq_refl.
      assert (E5 : k_proc_pool s5 = <[g := p5]> (k_proc_pool s4)) by exact eq_refl.
      assert (E6 : k_proc_pool s6 = <[g := newborn (_cur_pid s) tf root p]> (k_proc_pool s5)) by exact eq_refl.
      rewrite E5, E4, E2, E1, !list_insert_insert_eq in E6.
      assert (Ec : cpu (left s6) = cpu (touched s)).
      { change (cpu (left s6)) with (cpu (left s0)). unfold s0. by rewrite left_entered. }
      apply kernel_ext; [exact Ec|destruct Hu as [_ Hh]; exact (eq_sym Hh)|exact E6|exact eq_refl..]. }
    assert (Hp6 : k_proc_pool (left s6) !! g = Some (newborn (_cur_pid s) tf root p)).
    { refine (list_lookup_insert_eq (k_proc_pool s5) g _ _).
      rewrite (eq_trans (length_insert _ _ _) Hl4 : length (k_proc_pool s5) = _), <- Hl. exact Hlt. }
    mstep (pcb_run _ _ _ Hp6). unfold modify, mbind, M_bind, mret, M_ret. cbn beta iota.
    f_equal. exact Es.
Qed.

(** C7: [alloc_proc], called outside every critical section.  When every slot
    is taken it returns null and changes nothing; when one is free and the
    allocator can serve the pages, it returns a free slot whose process is
    [used], with the next process identifier, a fresh trap frame page and a
    page table in which exactly the trap frame is mapped, for the kernel only;
    every other process, every block in use and the locks are as before. *)
Theorem alloc_proc_correct lo hi u s :
  unlocked s → length (k_proc_pool s) = num_proc →
  0 ≤ _last_alloc_proc_gid s < 32 → _cur_pid s ≠ 2 ^ 31 - 1 →
  pmm_rep (k_mm s) lo hi u → window ≤ lo ∧ hi ≤ window + 2 ^ 56 →
  supply (S (S depth)) (_allocator (k_mm s)) = true →
  ((∀ g p, k_proc_pool s !! g = Some p → _state p ≠ unused) ∧ alloc_proc s = Ret None (touched s)) ∨
  ∃ g p tf root σ u' t, k_proc_pool s !! g = Some p ∧ _state p = unused ∧
    alloc_proc s = Ret (Some g) (touched (born g p tf root σ s)) ∧
    u !! tf = None ∧ u ⊆ u' ∧ is_Some (u' !! tf) ∧ space σ lo hi u' root t ∧ trap_page_only tf σ t.
Proof.
  intros Hu Hl Hlast Hpid Hr Hw Hs. unfold alloc_proc.
  rewrite (find_slot_run setup_proc num_proc 0 s Hu Hl) by (unfold num_proc; lia).
  destruct (first_free (k_proc_pool s) (_last_alloc_proc_gid s) num_proc 0) as [g|] eqn:E.
  - right. apply first_free_sound in E as (p & Hp & Hun).
    destruct (setup_proc_run g p lo hi u s Hu Hl Hp Hpid Hr Hw) as [Hs'|(tf & root & σ & u' & t & R & Hrest)]; [congruence|].
    by exists g, p, tf, root, σ, u', t.
  - left. split; [|done]. intros g p Hg Hun.
    destruct (first_free_some _ _ _ _ Hl Hlast Hg Hun) as (g' & p' & E' & _). congruence.
Qed.

End setup.

(** ** Witness: the first process, on RISC-V over the buddy allocator *)

Section witness.
#[local] Existing Instance riscv_port | 0.
#[local] Existing Instance riscv_port_laws | 0.
#[local] Existing Instance riscv_kernel_flags | 0.
#[local] Instance boot_trap : TrapHal := riscv_trap 0 0 0 0.
#[local] Instance no_inodes : Inode Allocator.BuddyAllocator unit := {|
  nodeRead := λ _ _ _ _, mret 0; nodeWrite := λ _ _ _ _, mret 0; nodeTruncate := λ _ _, mret 0;
  rFileSize := λ _ _, 0 |}.

Definition booted : kernel Allocator.BuddyAllocator unit :=
  mkKernel (mkCpu 0 true true None) ∅ (replicate 32 static_pcb) 1 None 0 ∅ ∅ ∅ [] 1 0 demo_pmm tt.

Lemma alloc_proc_correct_witness :
  ∃ g p tf root σ u' t, alloc_proc booted = Ret (Some g) (touched (born g p tf root σ booted)) ∧
    space σ 0x100000 (0x100000 + 4096 * 69) u' root t ∧ trap_page_only tf σ t.
Proof.
  destruct (alloc_proc_correct 0x100000 (0x100000 + 4096 * 69) ∅ booted)
    as [[Hall _]|(g & p & tf & root & σ & u' & t & _ & _ & R & _ & _ & _ & Sp & Ht)].
  - split; reflexivity.
  - reflexivity.
  - cbn. lia.
  - cbn. lia.
  - exact demo_pmm_rep.
  - vm_compute. by split.
  - vm_compute. reflexivity.
  - exfalso. by apply (Hall 0%nat static_pcb).
  - exists g, p, tf, root, σ, u', t. split; [exact R|]. split; [exact Sp|exact Ht].
Defined.
End witness.
End ProcAlloc.
