(* ===== verification/ProcThm.v ===== *)
(** The claims about the process table: what holds in every state the kernel
    reaches from its initialisation by any sequence of calls, context switches
    and clock interrupts. *)

From Stdlib Require Import ZArith Lia.
From stdpp Require Import base numbers gmap list.
From S2P Require Import Prelude Page Mem Klib Pmm PageTable Vmm Kbase Kernel KFile KLock PipeThm Proc ProcLife ProcInv KDemo.
Import Pmm PT Kernel KFile Proc Life ProcInv.

Set Default Goal Selector "!".
Open Scope Z_scope.

Module ProcThm.

(** * Initialisation *)

Section boot.
Context `{Port} `{TrapHal} {A F : Type} `{PageAllocator A} `{Inode A F}.
Implicit Types s : kernel A F.

(** Slot [g] after [Pcb::init]. *)
Definition boot_pcb (g : nat) : Pcb :=
  let stack := mkRlimit (default_proc_ustack_pages * page_size) (default_proc_ustack_pages * page_size) in
  static_pcb <| _state := unused |> <| _gid := Z.of_nat g |>
    <| _kstack := Vmm.vm_kernel_end ⊟
         u32 (Z.shiftl (u32 (u32 (Z.of_nat g + 1) * (Vmm.default_proc_kstack_pages + 1))) page_size_shift) |>
    <| _pt := mkPt 0 false |> <| _ofile := ∅ |>
    <| _rlim_vec := <[RLIMIT_STACK := stack]> (_rlim_vec static_pcb) |>
    <| sigmask := 0 |>
    <| vm := (λ v, v <| is_used := false |>) <$> vm static_pcb |>.

Lemma pcb_init_run g s : (g < num_proc)%nat → pcb_init (Z.of_nat g) static_pcb s = Ret (boot_pcb g) s.
Proof.
  intros Hg. unfold pcb_init, mm, zoom, Vmm.kstack_vm_from_gid. krun.
  unfold num_proc in Hg. rewrite (proj2 (Z.leb_gt _ _)) by (unfold Vmm.num_process; lia). cbn beta iota.
  f_equal. by destruct s.
Qed.

Definition init_slot (g : nat) : M (kernel A F) unit :=
  p ← pcb_init (Z.of_nat g) static_pcb;
  modify (λ s, s <| k_proc_pool := <[g := p]> (k_proc_pool s) |>).

Lemma init_slots_run k : ∀ a s, (a + k ≤ num_proc)%nat → length (k_proc_pool s) = num_proc →
  ∃ pool, for_each (seq a k) init_slot s = Ret tt (s <| k_proc_pool := pool |>) ∧ length pool = num_proc ∧
    ∀ g, pool !! g = if decide (a ≤ g < a + k)%nat then Some (boot_pcb g) else k_proc_pool s !! g.
Proof.
  induction k as [|k IH]; intros a s Hk Hl.
  - exists (k_proc_pool s). split; [by rewrite pool_eta|]. split; [done|].
    intros g. by rewrite decide_False by lia.
  - set (s1 := s <| k_proc_pool := <[a := boot_pcb a]> (k_proc_pool s) |>).
    assert (R : init_slot a s = Ret tt s1).
    { unfold init_slot. by mstep (pcb_init_run a s ltac:(lia)). }
    destruct (IH (S a) s1) as (pool & R1 & Hl1 & Hg); [lia|unfold s1; rsimpl; by rewrite length_insert|].
    exists pool. cbn [seq for_each]. mstep R. split; [exact R1|]. split; [done|].
    intros g. rewrite Hg. destruct (decide (g = a)) as [->|Hne].
    + rewrite decide_False, decide_True by lia. unfold s1. rsimpl.
      apply list_lookup_insert_eq. lia.
    + destruct (decide (S a ≤ g < S a + k)%nat).
      * by rewrite decide_True by lia.
      * rewrite decide_False by lia. unfold s1. rsimpl. by apply list_lookup_insert_ne.
Qed.

Lemma init_run s : length (k_proc_pool s) = num_proc →
  init s = Ret tt (s <| k_proc_pool := boot_pcb <$> seq 0 num_proc |> <| _cur_pid := 1 |>
                     <| _last_alloc_proc_gid := 31 |>).
Proof.
  intros Hl. destruct (init_slots_run num_proc 0 s) as (pool & R & Hlen & Hg); [lia|done|].
  unfold init. mstep R. unfold modify, mbind, M_bind. cbn beta iota.
  enough (pool = boot_pcb <$> seq 0 num_proc) as -> by done.
  apply list_eq. intros g. rewrite Hg, list_lookup_fmap.
  destruct (decide (0 ≤ g < 0 + num_proc)%nat) as [Hin|Hout].
  - by rewrite lookup_seq_lt by lia.
  - rewrite (lookup_ge_None_2 (seq _ _)) by (rewrite length_seq; lia). apply lookup_ge_None_2. lia.
Qed.

Lemma init_table s s' : length (k_proc_pool s) = num_proc → locks_ok s → init s = Ret tt s' → table_ok s'.
Proof.
  intros Hl Hlk R. rewrite (init_run s Hl) in R. apply ret_inj in R as <-. split; [exact Hlk|].
  assert (Hpid : ∀ g p, (boot_pcb <$> seq 0 num_proc) !! g = Some p → _pid p = 0).
  { intros g p. rewrite list_lookup_fmap. intros (x & _ & ->)%fmap_Some. done. }
  unfold pids_ok, shaped. rsimpl. split_and!; [by rewrite length_fmap, length_seq|lia| | | |lia|lia].
  - intros g p Hp. rewrite (Hpid g p Hp). lia.
  - intros g g' p p' Hp _ _ Hne. by rewrite (Hpid g p Hp) in Hne.
  - intros g p. rewrite list_lookup_fmap. intros (x & Hx & ->)%fmap_Some.
    apply lookup_seq in Hx as [-> _]. reflexivity.
Qed.

(** * Reachable states *)

(** A step of the kernel: a call by the current process up to its end or to the
    switch that puts it to sleep, the rest of a call after the switch back, the
    scheduler between two processes, or a clock interrupt. *)
Inductive step : kernel A F → kernel A F → Prop :=
| step_user_init s u nm s' : user_init u nm s = Ret tt s' → step s s'
| step_fork s usp r s' : fork usp s = Ret r s' → step s s'
| step_clone s stk fl cs pt tls r s' : clone stk fl cs pt tls s = Ret r s' → step s s'
| step_wait s stk cp addr r s' : wait stk cp addr s = Ret r s' → step s s'
| step_wait_resume s stk cp addr e r s' : wait_resume stk cp addr e s = Ret r s' → step s s'
| step_exit s stk g st r s' : exit_proc stk g st s = Ret r s' → step s s'
| step_exit_group s stk st r s' : exit_group stk st s = Ret r s' → step s s'
| step_kill s pid sig r s' : kill pid sig s = Ret r s' → step s s'
| step_brk s n r s' : brk n s = Ret r s' → step s s'
| step_mmap s kbuf fd pr fl n r s' : mmap kbuf fd pr fl n s = Ret r s' → step s s'
| step_munmap s va n r s' : munmap va n s = Ret r s' → step s s'
| step_mremap s kbuf a n n' r s' : mremap kbuf a n n' s = Ret r s' → step s s'
| step_pipe s r s' : make_pipe s = Ret r s' → step s s'
| step_write s stk q addr n r s' : write stk q addr n s = Ret r s' → step s s'
| step_write_kernel s q addr n r s' : write_in_kernel q addr n s = Ret r s' → step s s'
| step_write_resume s stk q addr n i e r s' :
    pipe_write_resume (fetch_user stk addr) q n i e s = Ret r s' → step s s'
| step_write_kernel_resume s q addr n i e r s' :
    pipe_write_resume (fetch_kernel addr) q n i e s = Ret r s' → step s s'
| step_read s q addr n r s' : read q addr n s = Ret r s' → step s s'
| step_read_resume s q addr n e r s' : read_resume q addr n e s = Ret r s' → step s s'
| step_close s fd r s' : close fd s = Ret r s' → step s s'
| step_fd s g f fd r s' : alloc_fd_at g f fd s = Ret r s' → step s s'
| step_file_write s f b n o u r s' : normal_write f b n o u s = Ret r s' → step s s'
| step_file_read s f b n o u r s' : normal_read f b n o u s = Ret r s' → step s s'
| step_prlimit s pid rs l r s' : prlimit64 pid rs l s = Ret r s' → step s s'
| step_set_uid s v r s' : set_uid v s = Ret r s' → step s s'
| step_set_gid s v r s' : set_gid v s = Ret r s' → step s s'
| step_sigaction s sig a r s' : sigAction sig a s = Ret r s' → step s s'
| step_sigprocmask s how set n r s' : sigprocmask how set n s = Ret r s' → step s s'
| step_schedule s l nd pr r s' : schedule_scan l nd pr s = Ret r s' → step s s'
| step_back s g s' : schedule_back g s = Ret tt s' → step s s'
| step_slice s g r s' : sche_proc g s = Ret r s' → step s s'
| step_yield_in s e s' : yield_in e s = Ret tt s' → step s s'
| step_clock s r s' : handle_clock_intr s = Ret r s' → step s s'
| step_ticks s n r s' : sleep_n_ticks n s = Ret r s' → step s s'
| step_ticks_resume s t n e r s' : sleep_n_ticks_resume t n e s = Ret r s' → step s s'.

(** The states after [ProcessManager::init] and any number of steps; the pool
    has its 32 elements and no lock is held before. *)
Definition reachable s : Prop :=
  ∃ s0 s1, length (k_proc_pool s0) = num_proc ∧ unlocked s0 ∧ init s0 = Ret tt s1 ∧ rtc step s1 s.

Lemma step_table s s' : step s s' → table_ok s → table_ok s'.
Proof.
  intros Hst Hs. destruct Hst as
    [s u nm s' R|s usp r s' R|s stk fl cs pt tls r s' R|s stk cp addr r s' R|s stk cp addr e r s' R
    |s stk g st r s' R|s stk st r s' R|s pid sig r s' R|s n r s' R|s kbuf fd pr fl n r s' R|s va n r s' R
    |s kbuf a n n' r s' R|s r s' R|s stk q addr n r s' R|s q addr n r s' R|s stk q addr n i e r s' R
    |s q addr n i e r s' R|s q addr n r s' R|s q addr n e r s' R|s fd r s' R|s g f fd r s' R
    |s f b n o u r s' R|s f b n o u r s' R|s pid rs l r s' R|s v r s' R|s v r s' R|s sig a r s' R
    |s how set n r s' R|s l nd pr r s' R|s g s' R|s g r s' R|s e s' R|s r s' R|s n r s' R|s t n e r s' R];
    refine (keeps_run _ _ _ _ _ _ Hs R);
    eauto using keeps_user_init, keeps_fork, keeps_clone, keeps_wait, keeps_wait_resume, keeps_exit_proc,
      keeps_exit_group, keeps_kill, keeps_brk, keeps_mmap, keeps_munmap, keeps_mremap, keeps_make_pipe,
      keeps_write, keeps_write_in_kernel, keeps_write_resume, keeps_fetch_user, keeps_fetch_kernel,
      keeps_read, keeps_read_resume, keeps_close, keeps_alloc_fd_at, keeps_normal_write, keeps_normal_read,
      keeps_prlimit, keeps_set_uid, keeps_set_gid, keeps_sigAction, keeps_sigprocmask, keeps_schedule,
      keeps_schedule_back, keeps_sche_proc, keeps_yield_in, keeps_clock, keeps_sleep_ticks,
      keeps_sleep_ticks_resume.
Qed.

Lemma reachable_ok s : reachable s → table_ok s.
Proof.
  intros (s0 & s1 & Hl & Hu & R & Hst).
  pose proof (init_table s0 s1 Hl (unlocked_ok s0 Hu) R) as Htab. clear R Hl Hu s0.
  induction Hst as [s|s s2 s3 H12 _ IH]; [done|]. apply IH. by apply (step_table s).
Qed.

(** C3: in every reachable state no two slots of the process table carry the
    same process identifier other than 0, the identifier of a free slot; every
    identifier is below the counter, so the next one is new; the nesting count
    of the CPU is the number of spin locks held; and interrupts are off while a
    lock is held. *)
Theorem table_invariant s : reachable s →
  (∀ g g' p p', k_proc_pool s !! g = Some p → k_proc_pool s !! g' = Some p' →
     _pid p = _pid p' → _pid p ≠ 0 → g = g') ∧
  (∀ g p, k_proc_pool s !! g = Some p → 0 ≤ _pid p < _cur_pid s) ∧
  _num_off (cpu s) = Z.of_nat (size (held s)) ∧
  (held s ≠ ∅ → interruptible (cpu s) = false).
Proof.
  intros ([Hn Hi] & (_ & _ & Hr & Huniq) & _)%reachable_ok. split_and!; [exact Huniq|exact Hr|exact Hn|].
  intros Hne. apply Hi. rewrite Hn.
  assert (size (held s) ≠ 0%nat) by (by rewrite size_non_empty_iff, leibniz_equiv_iff). lia.
Qed.


End boot.

Import KDemo.

(** The pool before initialisation. *)
Definition cold : kernel unit unit :=
  mkKernel (mkCpu 0 true true (Some 0%nat)) ∅ (replicate 32 static_pcb) 0 None 0 ∅ ∅ ∅ [] 1 0 (mkPmm tt ∅) tt.
Lemma table_invariant_witness :
  ∃ s, reachable (A := unit) (F := unit) s ∧ _cur_pid s = 1 ∧
    ∀ g p, k_proc_pool s !! g = Some p → 0 ≤ _pid p < _cur_pid s.
Proof.
  pose (s1 := match init (A := unit) (F := unit) cold with Ret _ s => s | _ => cold end).
  assert (R : init cold = Ret tt s1) by (unfold s1; rewrite init_run by reflexivity; reflexivity).
  assert (Hr : reachable s1).
  { exists cold, s1. split_and!; [reflexivity|split; reflexivity|exact R|apply rtc_refl]. }
  exists s1. split; [exact Hr|]. split; [reflexivity|]. exact (proj1 (proj2 (table_invariant s1 Hr))).
Defined.


End ProcThm.
