(* ===== verification/ProcSync.v ===== *)
(** How processes wait for each other: waking, exit and the wait for it, the
    choice of the scheduler. *)

From Stdlib Require Import ZArith Lia.
From stdpp Require Import base numbers gmap list.
From S2P Require Import Prelude Page Mem Klib Pmm PageTable Vmm Kbase Kernel KFile KLock PipeThm Proc ProcLife ProcAlloc.
Import Pmm PT Kernel KFile Proc Life ProcAlloc.

Set Default Goal Selector "!".
Open Scope Z_scope.

Module ProcSync.

(** The rounds of a search from any slot visit each slot once. *)
Lemma slot_inj last i j : 0 ≤ last < 32 → (i < num_proc)%nat → (j < num_proc)%nat →
  slot last i = slot last j → i = j.
Proof.
  unfold slot, num_proc. intros Hl Hi Hj E. rewrite !wrap32_small in E by lia.
  apply Z2Nat.inj in E; Z.div_mod_to_equations; lia.
Qed.
Lemma slots_NoDup last : 0 ≤ last < 32 → NoDup (slot last <$> seq 0 num_proc).
Proof.
  intros Hl. apply NoDup_fmap_2_strong; [|apply NoDup_seq].
  intros i j Hi%elem_of_seq Hj%elem_of_seq. apply slot_inj; [done|lia|lia].
Qed.
Lemma slots_all last g : 0 ≤ last < 32 → g ∈ slot last <$> seq 0 num_proc ↔ (g < num_proc)%nat.
Proof.
  intros Hl. split.
  - intros (i & -> & _)%list_elem_of_fmap. apply slot_lt.
  - intros Hg. apply list_elem_of_fmap. exists (Z.to_nat ((Z.of_nat g - last) mod 32)). unfold num_proc in *.
    pose proof (Z.mod_pos_bound (Z.of_nat g - last) 32 ltac:(lia)) as Hb. split; [|apply elem_of_seq; lia].
    unfold slot. rewrite Z2Nat.id by lia. rewrite wrap32_small by lia.
    rewrite Z.add_mod_idemp_r by lia. replace (last + (Z.of_nat g - last)) with (Z.of_nat g) by lia.
    rewrite Z.mod_small by lia. lia.
Qed.

Section sync.
Context `{Port} `{TrapHal} {A F : Type} `{PageAllocator A} `{Inode A F}.
Implicit Types s : kernel A F.

(** ** Handing children over *)

Definition adopt (g : nat) (init : option nat) (p : Pcb) : Pcb :=
  if bool_decide (parent p = Some g) then p <| parent := init |> else p.

Lemma reparent_one_run g h p s : nested s → ProcLock h ∉ held s → k_proc_pool s !! h = Some p →
  reparent_one g h s = Ret tt (s <| k_proc_pool := <[h := adopt g (_init_proc s) p]> (k_proc_pool s) |>).
Proof.
  intros Hn Hl Hp. unfold reparent_one, adopt. mstep (pcb_run _ _ _ Hp).
  destruct (bool_decide (parent p = Some g)).
  - unfold when. mstep (acquire_run _ _ Hl). unfold mbind at 1, M_bind at 1, get at 1. cbn beta iota.
    set (s1 := acquired _ _). assert (Hp1 : k_proc_pool s1 !! h = Some p) by exact Hp.
    mstep (on_pcb_run h p (λ c, c <| parent := _init_proc s1 |>) s1 Hp1).
    rewrite release_run; [|unfold s1, acquired; rsimpl; set_solver|].
    2:{ destruct Hn. split; unfold s1, acquired; rsimpl; [lia|done]. }
    f_equal. transitivity ((released (ProcLock h) (acquired (ProcLock h) s))
      <| k_proc_pool := <[h := p <| parent := _init_proc s |>]> (k_proc_pool s) |>); [done|].
    by rewrite acquire_release.
  - cbn [when]. rewrite list_insert_id by done. by rewrite pool_eta.
Qed.

Lemma reparent_run g s : nested s → procs_free s → 0 ≤ _last_alloc_proc_gid s < 32 →
  reparent g s = Ret tt (s <| k_proc_pool := adopt g (_init_proc s) <$> k_proc_pool s |>).
Proof.
  intros Hn [Hlen Hfree] Hlast. unfold reparent.
  apply (pool_map_run (slot (_last_alloc_proc_gid s))); [by apply slots_NoDup|done|intros; by apply slots_all|].
  intros i p pool Hp. unfold mbind at 1, M_bind at 1, get at 1. cbn beta iota. rsimpl.
  by rewrite (reparent_one_run g _ p) by (exact Hn || apply Hfree || exact Hp).
Qed.

(** ** Exit *)

Definition notify (o : option nat) (p : Pcb) : Pcb :=
  match o with Some q => wake (AtProc q) p | None => p end.
Definition died (state : Z) (p : Pcb) : Pcb :=
  p <| _xstate := i32 (Z.shiftl state 8) |> <| _state := zombie |>.
(** The pool once process [g] is a zombie. *)
Definition buried (g : nat) (state : Z) (p : Pcb) s : list Pcb :=
  <[g := died state p]> (notify (parent p) <$> (adopt g (_init_proc s) <$> k_proc_pool s)).

Lemma notify_running o p : _state p = running → notify o p = p.
Proof. intros E. destruct o; [|done]. cbn. unfold wake. by rewrite E. Qed.
Lemma adopt_other g o p : parent p ≠ Some g → adopt g o p = p.
Proof. intros E. unfold adopt. by rewrite bool_decide_eq_false_2. Qed.

Lemma notify_run o s : nested s → procs_free s →
  match o with Some q => wakeup (AtProc q) | None => mret tt end s =
    Ret tt (s <| k_proc_pool := notify o <$> k_proc_pool s |>).
Proof.
  intros Hn Hf. destruct o as [q|]; cbn [notify]; [by apply wakeup_run|].
  rewrite list_fmap_id. by rewrite pool_eta.
Qed.

Lemma become_zombie_run stk g p state s :
  runs g p s → parent p ≠ Some g → _clear_child_tid p = 0 → 0 ≤ _last_alloc_proc_gid s < 32 →
  become_zombie stk g state s =
    Ret tt (entered (ProcLock g) s <| k_proc_pool := buried g state p s |>).
Proof.
  intros (Hu & Hc & Hlen & Hp & Hst) Hpar Htid Hlast. unfold become_zombie.
  mstep (enter_run WaitLock s Hu). set (s0 := entered WaitLock s).
  assert (Hn0 : nested s0) by done.
  assert (Hf0 : procs_free s0) by (split; [exact Hlen|intros g'; unfold s0, entered; rsimpl; set_solver]).
  mstep (reparent_run g s0 Hn0 Hf0 Hlast). set (s1 := s0 <| k_proc_pool := _ |>).
  assert (Hp1 : k_proc_pool s1 !! g = Some p).
  { unfold s1. rsimpl. rewrite list_lookup_fmap. change (k_proc_pool s0) with (k_proc_pool s). rewrite Hp.
    cbn. by rewrite adopt_other. }
  mstep (pcb_run _ _ _ Hp1).
  assert (Hf1 : procs_free s1) by (split; [unfold s1; rsimpl; rewrite length_fmap; exact Hlen|apply Hf0]).
  mstep (notify_run (parent p) s1 Hn0 Hf1). set (s2 := s1 <| k_proc_pool := _ |>).
  assert (Hp2 : k_proc_pool s2 !! g = Some p).
  { unfold s2. rsimpl. rewrite list_lookup_fmap, Hp1. cbn. by rewrite notify_running. }
  mstep (acquire_run (ProcLock g) s2 ltac:(apply Hf0)). set (s3 := acquired _ s2).
  assert (Hp3 : k_proc_pool s3 !! g = Some p) by exact Hp2.
  mstep (on_pcb_run g p (died state) s3 Hp3). set (s4 := s3 <| k_proc_pool := _ |>).
  assert (Hp4 : k_proc_pool s4 !! g = Some (died state p)).
  { unfold s4. rsimpl. apply list_lookup_insert_eq. by apply lookup_lt_Some in Hp3. }
  mstep (pcb_run _ _ _ Hp4). change (_clear_child_tid (died state p)) with (_clear_child_tid p).
  rewrite Htid. cbn [Z.eqb negb when].
  assert (Hin4 : WaitLock ∈ held s4) by (unfold s4, s3, acquired, s2, s1, s0, entered; rsimpl; set_solver).
  unfold mbind at 1, M_bind at 1, mret at 1, M_ret at 1. cbn beta iota.
  rewrite (release_run WaitLock s4 Hin4 ltac:(done)). f_equal.
  apply kernel_ext; [| |exact eq_refl..].
  - change (cpu (released WaitLock s4)) with (cpu (released WaitLock (acquired (ProcLock g) s0))).
    destruct s as [[nn e b cc] h]. reflexivity.
  - assert (E : ({[ProcLock g]} ∪ {[WaitLock]}) ∖ {[WaitLock]} = ({[ProcLock g]} : gset lock)) by set_solver.
    exact E.
Qed.

(** Exit, from the point where files and mappings are released: the assertions
    of the scheduler hold. *)
Lemma zombie_leaves stk g p state s :
  runs g p s → parent p ≠ Some g → _clear_child_tid p = 0 → 0 ≤ _last_alloc_proc_gid s < 32 →
  (become_zombie stk g state;; call_sched_out) s =
    Ret (interruptible (cpu s)) (entered (ProcLock g) s <| k_proc_pool := buried g state p s |>).
Proof.
  intros Hr Hpar Htid Hlast. mstep (become_zombie_run stk g p state s Hr Hpar Htid Hlast).
  destruct Hr as (Hu & Hc & Hlen & Hp & Hst). set (s1 := _ <| k_proc_pool := _ |>).
  apply (call_sched_out_run g (died state p) s1); [exact Hc|unfold s1, entered; rsimpl; set_solver|done|done| |done].
  unfold s1. rsimpl. apply list_lookup_insert_eq. rewrite !length_fmap. by apply lookup_lt_Some in Hp.
Qed.

(** ** Wait *)

(** A child process [g] waits for. *)
Definition awaited (g : nat) (child_pid : Z) (c : Pcb) : bool :=
  (negb (0 <? child_pid) || (_pid c =? child_pid)) && bool_decide (parent c = Some g).
Definition is_zombie (c : Pcb) : bool := bool_decide (_state c = zombie).

Lemma wait_scan_skip stk g child_pid addr l' s : inside WaitLock g s → ∀ l havekids,
  (∀ i, i ∈ l → ∃ c, k_proc_pool s !! i = Some c ∧ awaited g child_pid c && is_zombie c = false) →
  wait_scan (l ++ l') stk g child_pid addr havekids s =
  wait_scan l' stk g child_pid addr
    (havekids || existsb (λ i, default false (awaited g child_pid <$> k_proc_pool s !! i)) l) s.
Proof.
  intros (Hh & Hn & Hi & _ & Hlen) l. induction l as [|i l IH]; intros hk Hl; cbn [app existsb].
  { by rewrite orb_false_r. }
  destruct (Hl i) as (c & Hc & Hz); [by left|]. cbn [wait_scan]. mstep (pcb_run _ _ _ Hc).
  rewrite Hc. cbn [fmap option_fmap option_map default id].
  assert (IH' := λ hk, IH hk (λ j Hj, Hl j (list_elem_of_further _ _ _ Hj))). clear IH.
  unfold awaited at 1. unfold awaited in Hz.
  destruct (0 <? child_pid), (_pid c =? child_pid); cbn [negb andb orb] in *;
    try (rewrite IH'; by rewrite ?orb_false_l).
  all: destruct (bool_decide (parent c = Some g)); [|by rewrite IH'].
  all: assert (Hl' : ProcLock i ∉ held s) by (rewrite Hh; set_solver).
  all: assert (Hn' : nested s) by (split; [lia|done]).
  all: mstep (acquire_run _ _ Hl'); set (s1 := acquired _ s);
    assert (Hc1 : k_proc_pool s1 !! i = Some c) by exact Hc; mstep (pcb_run _ _ _ Hc1);
    unfold is_zombie in Hz; cbn [andb] in Hz; rewrite Hz;
    assert (R : release (ProcLock i) s1 = Ret tt s)
      by (rewrite release_run; [unfold s1; by rewrite acquire_release|unfold s1, acquired; rsimpl; set_solver|
            split; unfold s1, acquired; rsimpl; [lia|done]]);
    mstep R; rewrite IH'; by rewrite orb_true_l, orb_true_r.
Qed.

Lemma existsb_pool (f : Pcb → bool) s : length (k_proc_pool s) = num_proc →
  existsb (λ i, default false (f <$> k_proc_pool s !! i)) (seq 0 num_proc) = existsb f (k_proc_pool s).
Proof.
  intros Hl. apply eq_true_iff_eq. rewrite !existsb_exists. split.
  - intros (i & _ & Hi). destruct (k_proc_pool s !! i) as [c|] eqn:E; [|done]. exists c. split; [|done].
    apply list_elem_of_In. by eapply list_elem_of_lookup_2.
  - intros (c & Hc & Hf). apply list_elem_of_In, list_elem_of_lookup in Hc as [i Hi]. exists i.
    rewrite Hi. split; [|done]. apply list_elem_of_In, elem_of_seq. apply lookup_lt_Some in Hi. lia.
Qed.

(** No child that could be reaped: the call fails or sleeps. *)
Lemma wait_run_none stk g p child_pid addr s : inside WaitLock g s → k_proc_pool s !! g = Some p →
  (∀ i c, k_proc_pool s !! i = Some c → awaited g child_pid c && is_zombie c = false) →
  wait_run stk child_pid addr s =
    if negb (existsb (awaited g child_pid) (k_proc_pool s)) || is_killed p then Ret (Done (-10)) (left s)
    else Ret (Asleep 0 (_int_ena (cpu s))) (slept (AtProc g) g p s).
Proof.
  intros Hin Hp Hz. unfold wait_run. mstep (get_cur_run _ _ _ Hin).
  pose proof (wait_scan_skip stk g child_pid addr [] s Hin (seq 0 num_proc) false) as R.
  pose proof Hin as (_ & _ & _ & _ & Hlen). rewrite app_nil_r, existsb_pool in R by done.
  rewrite orb_false_l in R. unfold mbind at 1, M_bind at 1. rewrite R; clear R.
  2:{ intros i Hi%elem_of_seq. destruct (lookup_lt_is_Some_2 (k_proc_pool s) i) as [c Hc]; [lia|]. eauto. }
  cbn [wait_scan]. unfold mret at 1, M_ret at 1. cbn beta iota. mstep (pcb_run _ _ _ Hp). unfold is_killed.
  destruct (negb (existsb _ _) || negb (_killed p =? 0)).
  - by mstep (leave_run _ _ _ Hin).
  - by mstep (sleep_out_run _ (AtProc g) _ _ _ Hin ltac:(done) Hp).
Qed.

(** Operations that change memory only. *)
Definition only_mm {B} (m : M (kernel A F) B) : Prop :=
  ∀ s b s', m s = Ret b s' → ∃ σ, s' = s <| k_mm := σ |>.

Lemma only_mm_mm {B} (m : M (PhysicalMemoryManager A) B) : only_mm (mm m).
Proof. intros s b s'. unfold mm, zoom. destruct (m (k_mm s)); [|done..]. intros [= <- <-]. eauto. Qed.
Lemma only_mm_ret {B} (b : B) : only_mm (mret b).
Proof. intros s b' s' [= <- <-]. exists (k_mm s). by destruct s. Qed.
Lemma only_mm_bind {B C} (m : M (kernel A F) B) (k : B → M (kernel A F) C) :
  only_mm m → (∀ b, only_mm (k b)) → only_mm (m ≫= k).
Proof.
  intros Hm Hk s c s2 R. apply bind_inv in R as (b & s1 & R1 & R2).
  apply Hm in R1 as [σ1 ->]. apply Hk in R2 as [σ2 ->]. by exists σ2.
Qed.
Lemma only_mm_pcb g : only_mm (pcb g).
Proof.
  intros s p s' R. unfold pcb, mbind, M_bind, get, deref in R.
  destruct (k_proc_pool s !! g); [|done]. injection R as <- <-. exists (k_mm s). by destruct s.
Qed.
Lemma only_mm_for_each {X} (body : X → M (kernel A F) unit) l :
  (∀ x, only_mm (body x)) → only_mm (for_each l body).
Proof. intros Hb. induction l as [|x l IH]; cbn [for_each]; [apply only_mm_ret|by apply only_mm_bind]. Qed.

Ltac mm_only :=
  repeat first [apply only_mm_pcb | apply only_mm_mm | apply only_mm_ret
               | apply only_mm_for_each; intros ? | apply only_mm_bind; [|intros ?]].

Lemma free_space_mm g : only_mm (free_space g).
Proof.
  unfold free_space, free_sections, proc_free, pt_freewalk.
  mm_only. destruct trampoline_va; mm_only.
Qed.

Lemma ofile_close_none g p i s : k_proc_pool s !! g = Some p → _ofile p = ∅ → ofile_close g i s = Ret tt s.
Proof. intros Hp Ho. unfold ofile_close. mstep (pcb_run _ _ _ Hp). by rewrite Ho, lookup_empty. Qed.

(** [freeproc] of a process without open files: memory is given back and the
    slot is free. *)
Definition freed (c : Pcb) : Pcb := cleared (c <| _trapframe := 0 |>).
Lemma freeproc_effect g c s s2 : k_proc_pool s !! g = Some c → _ofile c = ∅ → freeproc g s = Ret tt s2 →
  ∃ σ, s2 = s <| k_mm := σ |> <| k_proc_pool := <[g := freed c]> (k_proc_pool s) |>.
Proof.
  intros Hc Ho R. unfold freeproc in R. pose proof (lookup_lt_Some _ _ _ Hc) as Hlt.
  rewrite (bind_ret _ _ _ _ _ (pcb_run _ _ _ Hc)) in R.
  apply bind_inv in R as (? & s1 & R1 & R). apply only_mm_mm in R1 as [σ1 ->].
  assert (Hc1 : k_proc_pool (s <| k_mm := σ1 |>) !! g = Some c) by exact Hc.
  rewrite (bind_ret _ _ _ _ _ (on_pcb_run g c (λ p, p <| _trapframe := 0 |>) _ Hc1)) in R.
  set (s3 := _ <| k_proc_pool := _ |>) in R.
  apply bind_inv in R as (? & s4 & R4 & R).
  assert (∃ σ2, s4 = s3 <| k_mm := σ2 |>) as [σ2 ->].
  { destruct (negb (_base_addr (_pt c) =? 0)); [by apply free_space_mm in R4|].
    apply (only_mm_ret tt s3 x0 s4 R4). }
  assert (Hc3 : k_proc_pool (s3 <| k_mm := σ2 |>) !! g = Some (c <| _trapframe := 0 |>))
    by exact (list_lookup_insert_eq _ _ _ Hlt).
  rewrite (bind_ret _ _ _ _ _ (on_pcb_run g _ cleared _ Hc3)) in R.
  set (s5 := _ <| k_proc_pool := _ |>) in R.
  assert (Hc5 : k_proc_pool s5 !! g = Some (freed c)).
  { apply list_lookup_insert_eq. exact (eq_ind_r (λ n, (g < n)%nat) Hlt (length_insert _ _ _)). }
  assert (Rl : ∀ l, for_each l (ofile_close g) s5 = Ret tt s5).
  { induction l as [|i l IH]; [done|]. cbn [for_each].
    rewrite (bind_ret _ _ _ _ _ (ofile_close_none g (freed c) i s5 Hc5 Ho)). apply IH. }
  rewrite Rl in R. injection R as <-. exists σ2.
  assert (E5 : k_proc_pool s5 = <[g := freed c]> (<[g := c <| _trapframe := 0 |>]> (k_proc_pool s))) by exact eq_refl.
  rewrite list_insert_insert_eq in E5. apply kernel_ext; [exact eq_refl|exact eq_refl|exact E5|exact eq_refl..].
Qed.

(** The exit status on its way to the caller. *)
Definition report (stk addr : Z) (p c : Pcb) : M (kernel A F) Z :=
  local32 stk (_xstate c);;
  if negb (addr =? 0) then mm (Vmm.copyout (_pt p) addr stk 4) else mret 0.
Lemma report_mm stk addr p c : only_mm (report stk addr p c).
Proof. unfold report, local32, klib. mm_only. destruct (negb (addr =? 0)); mm_only. Qed.

(** The first dead child is reaped. *)
Definition reaped (np : nat) (c : Pcb) (σ : PhysicalMemoryManager A) s : kernel A F :=
  s <| k_mm := σ |> <| k_proc_pool := <[np := freed c]> (k_proc_pool s) |>.

Lemma wait_run_reap stk g p child_pid addr np c s s1 s2 :
  inside WaitLock g s → k_proc_pool s !! g = Some p → k_proc_pool s !! np = Some c → _ofile c = ∅ →
  awaited g child_pid c && is_zombie c = true →
  (∀ i ci, (i < np)%nat → k_proc_pool s !! i = Some ci → awaited g child_pid ci && is_zombie ci = false) →
  report stk addr p c (acquired (ProcLock np) s) = Ret 0 s1 → freeproc np s1 = Ret tt s2 →
  wait_run stk child_pid addr s = Ret (Done (_pid c)) (left (reaped np c (k_mm s2) s)).
Proof.
  intros Hin Hp Hc Ho Hz Hfirst Hrep Hfree. unfold wait_run. mstep (get_cur_run _ _ _ Hin).
  pose proof Hin as (Hh & Hn & Hi & Hcur & Hlen).
  pose proof (lookup_lt_Some _ _ _ Hc) as Hlt. rewrite Hlen in Hlt.
  assert (Eseq : seq 0 num_proc = seq 0 np ++ np :: seq (S np) (num_proc - S np)).
  { replace num_proc with (np + S (num_proc - S np))%nat at 1 by lia. by rewrite seq_app. }
  rewrite Eseq. unfold mbind at 1, M_bind at 1. rewrite (wait_scan_skip stk g child_pid addr _ s Hin).
  2:{ intros i Hi'%elem_of_seq. destruct (lookup_lt_is_Some_2 (k_proc_pool s) i) as [ci Hci]; [lia|].
      exists ci. split; [done|]. apply (Hfirst i); [lia|done]. }
  cbn [orb wait_scan]. unfold mbind at 1, M_bind at 1. rewrite (pcb_run _ _ _ Hc).
  apply andb_true_iff in Hz as [Ha Hz]. unfold awaited in Ha. apply andb_true_iff in Ha as [Ha Hpar].
  assert (E1 : (0 <? child_pid) && negb (_pid c =? child_pid) = false).
  { destruct (0 <? child_pid), (_pid c =? child_pid); done. }
  rewrite E1, Hpar. assert (Hl : ProcLock np ∉ held s) by (rewrite Hh; set_solver).
  unfold mbind at 1, M_bind at 1. rewrite (acquire_run _ _ Hl). set (s0 := acquired _ s) in *.
  assert (Hc0 : k_proc_pool s0 !! np = Some c) by exact Hc.
  assert (Hp0 : k_proc_pool s0 !! g = Some p) by exact Hp.
  unfold mbind at 1, M_bind at 1. rewrite (pcb_run _ _ _ Hc0). unfold is_zombie in Hz. rewrite Hz.
  unfold mbind at 1, M_bind at 1. rewrite (pcb_run _ _ _ Hp0).
  pose proof (report_mm _ _ _ _ _ _ _ Hrep) as [σ1 Es1].
  unfold report in Hrep. apply bind_inv in Hrep as ([] & sr & Hr1 & Hr2).
  unfold mbind at 1, M_bind at 1. rewrite Hr1. unfold mbind at 1, M_bind at 1. rewrite Hr2. cbn [Z.ltb Z.compare].
  unfold mbind at 1, M_bind at 1. rewrite Hfree.
  assert (Hc1 : k_proc_pool s1 !! np = Some c) by (rewrite Es1; exact Hc).
  destruct (freeproc_effect np c s1 s2 Hc1 Ho Hfree) as [σ2 Es2].
  assert (R2 : release (ProcLock np) s2 = Ret tt (reaped np c (k_mm s2) s)).
  { assert (Hin2 : ProcLock np ∈ held s2) by (rewrite Es2, Es1; unfold s0, acquired; rsimpl; set_solver).
    assert (Hn2 : nested s2) by (rewrite Es2, Es1; unfold nested, s0, acquired; rsimpl; split; [lia|done]).
    rewrite (release_run _ _ Hin2 Hn2). f_equal.
    transitivity (reaped np c (k_mm s2) (released (ProcLock np) s0)).
    - rewrite Es2, Es1. done.
    - unfold s0. rewrite acquire_release; [done|split; [lia|done]|done]. }
  unfold mbind at 1, M_bind at 1. rewrite R2.
  unfold mbind at 1, M_bind at 1. rewrite (leave_only WaitLock) by done. done.
Qed.

(** ** The scheduler *)

Definition is_runnable (p : Pcb) : bool := bool_decide (_state p = runnable).
(** The smallest priority value of a runnable process, at most 19. *)
Definition best_prio (pool : list Pcb) : Z :=
  foldl (λ prio p, if (_priority p <? prio) && is_runnable p then _priority p else prio) lowest_proc_prio pool.

Lemma best_prio_spec pool : ∀ z,
  let b := foldl (λ prio p, if (_priority p <? prio) && is_runnable p then _priority p else prio) z pool in
  b ≤ z ∧ (∀ p, p ∈ pool → is_runnable p = true → b ≤ _priority p) ∧
  (b = z ∨ ∃ p, p ∈ pool ∧ is_runnable p = true ∧ _priority p = b).
Proof.
  induction pool as [|q pool IH]; intros z; cbn zeta; cbn [foldl].
  { split_and!; [lia|intros p []%not_elem_of_nil|by left]. }
  set (z' := if (_priority q <? z) && is_runnable q then _priority q else z).
  assert (Hz' : z' ≤ z ∧ (is_runnable q = true → z' ≤ _priority q) ∧
    (z' = z ∨ (is_runnable q = true ∧ _priority q = z'))).
  { unfold z'. destruct (Z.ltb_spec (_priority q) z), (is_runnable q); cbn [andb]; split_and!; try lia; auto. }
  destruct Hz' as (H1' & H2' & H3'). destruct (IH z') as (I1 & I2 & I3).
  split_and!; [lia| |].
  - intros p [->|Hp]%elem_of_cons Hr; [|by apply I2]. specialize (H2' Hr). lia.
  - destruct I3 as [->|(p & Hp & Hr & E)].
    + destruct H3' as [->|[Hr E]]; [by left|]. right. exists q. split_and!; [by left|done|done].
    + right. exists p. split_and!; [by right|done|done].
Qed.

Lemma get_highest_run s : unlocked s → get_highest_proirity s = Ret (best_prio (k_proc_pool s)) (touched s).
Proof.
  intros Hu. unfold get_highest_proirity. mstep (enter_run ScheLock s Hu).
  unfold mbind at 1, M_bind at 1, get at 1. cbn beta iota. by mstep (probe_run ScheLock s Hu).
Qed.

Definition eligible (prio : Z) (p : Pcb) : bool := is_runnable p && negb (prio <? _priority p).
(** Process [g] as the scheduler hands it the CPU. *)
Definition dispatched (g : nat) (p : Pcb) s : kernel A F :=
  entered (ProcLock g) s <| k_proc_pool := <[g := p <| _state := running |>]> (k_proc_pool s) |>
    <| cpu := mkCpu 1 (interruptible (cpu s)) false (Some g) |>.

Fixpoint first_eligible (pool : list Pcb) (prio : Z) (l : list nat) : option (nat * Pcb * list nat) :=
  match l with
  | [] => None
  | g :: l' =>
      match pool !! g with
      | Some p => if eligible prio p then Some (g, p, l') else first_eligible pool prio l'
      | None => None
      end
  end.

Lemma schedule_scan_run prio s : unlocked s → ∀ l, (∀ g, g ∈ l → is_Some (k_proc_pool s !! g)) →
  schedule_scan l false prio s =
    match first_eligible (k_proc_pool s) prio l with
    | Some (g, p, l') => Ret (Some (g, l'), true, prio) (dispatched g p s)
    | None => Ret (None, false, prio) s
    end.
Proof.
  intros Hu l. induction l as [|g l IH]; intros Hl; cbn [schedule_scan first_eligible]; [done|].
  destruct (Hl g) as [p Hp]; [by left|]. rewrite Hp.
  unfold mbind at 1, M_bind at 1, mret at 1, M_ret at 1. cbn beta iota. mstep (pcb_run _ _ _ Hp).
  unfold eligible, is_runnable. destruct (bool_decide (_state p = runnable)) eqn:Er; cbn [negb orb andb].
  2:{ apply IH. intros g' Hg'. apply Hl. by right. }
  destruct (prio <? _priority p); cbn [negb].
  { apply IH. intros g' Hg'. apply Hl. by right. }
  mstep (enter_run (ProcLock g) s Hu).
  assert (Hp1 : k_proc_pool (entered (ProcLock g) s) !! g = Some p) by exact Hp.
  mstep (pcb_run _ _ _ Hp1). rewrite Er.
  by mstep (on_pcb_run g p (λ p, p <| _state := running |>) _ Hp1).
Qed.

Lemma schedule_needed_run g l prio s : unlocked s →
  schedule_scan (g :: l) true prio s = schedule_scan (g :: l) false (best_prio (k_proc_pool s)) (touched s).
Proof. intros Hu. cbn [schedule_scan]. by mstep (get_highest_run s Hu). Qed.

Lemma first_eligible_spec pool prio l g p l' : first_eligible pool prio l = Some (g, p, l') →
  pool !! g = Some p ∧ eligible prio p = true ∧
  ∃ l0, l = l0 ++ g :: l' ∧ ∀ i q, i ∈ l0 → pool !! i = Some q → eligible prio q = false.
Proof.
  induction l as [|i l IH]; cbn [first_eligible]; [done|].
  destruct (pool !! i) as [q|] eqn:Hq; [|done]. destruct (eligible prio q) eqn:E.
  - intros [= <- <- <-]. split_and!; [done|done|]. exists []. split; [done|]. intros ? ? []%not_elem_of_nil.
  - intros Hf. destruct (IH Hf) as (Hp & He & l0 & -> & Hl0). split_and!; [done|done|].
    exists (i :: l0). split; [done|]. intros j q' [->|Hj]%elem_of_cons Hq'; [congruence|by apply (Hl0 j)].
Qed.
Lemma first_eligible_none pool prio l g p : (∀ g, g ∈ l → is_Some (pool !! g)) →
  first_eligible pool prio l = None → g ∈ l → pool !! g = Some p → eligible prio p = false.
Proof.
  induction l as [|i l IH]; cbn [first_eligible]; intros Hl; [by intros _ []%not_elem_of_nil|].
  destruct (Hl i) as [q Hq]; [by left|]. rewrite Hq. destruct (eligible prio q) eqn:E; [done|].
  intros Hf [->|Hg]%elem_of_cons Hp; [congruence|].
  apply IH; try done. intros j Hj. apply Hl. by right.
Qed.

End sync.
End ProcSync.
