(* ===== verification/ProcSyncThm.v ===== *)
(** The theorems about processes that wait for each other: exit and wait, the
    scheduler's choice, readers woken by writers. *)

From Stdlib Require Import ZArith Lia.
From stdpp Require Import base numbers gmap list.
From S2P Require Import Prelude Page Mem Klib Pmm PageTable Vmm Kbase Kernel KFile KLock PipeThm Proc KDemo ProcLife.
From S2P Require Import ProcAlloc ProcSync.
Import Pmm PT Kernel KFile Proc Life ProcAlloc ProcSync.

Set Default Goal Selector "!".
Open Scope Z_scope.

Module ProcSyncThm.

Section claims.
Context `{Port} `{TrapHal} {A F : Type} `{PageAllocator A} `{Inode A F}.
Implicit Types s : kernel A F.

(** ** Resuming *)

(** What a process finds when it returns from [sleep]: its lock exchanged for
    [l], the channel cleared. *)
Definition resumed (l : lock) (e : bool) (g : nat) (p : Pcb) s : kernel A F :=
  s <| cpu := mkCpu 1 e false (Some g) |> <| held := {[l]} |>
    <| k_proc_pool := <[g := p <| _state := running |> <| _chan := None |>]> (k_proc_pool s) |>.

Lemma sleep_in_run l e g p s : unlocked s → k_proc_pool s !! g = Some p → l ≠ ProcLock g →
  sleep_in e l (dispatched g p s) = Ret tt (resumed l e g p s).
Proof.
  intros Hu Hp Hne. pose proof (lookup_lt_Some _ _ _ Hp) as Hlt. unfold sleep_in, call_sched_in, on_cpu.
  unfold mbind at 1, M_bind at 1, modify at 1. cbn beta iota.
  set (s1 := dispatched g p s <| cpu := _ |>).
  assert (Hc1 : _cur_proc (cpu s1) = Some g) by done. mstep (cur_run g s1 Hc1).
  assert (Hp1 : k_proc_pool s1 !! g = Some (p <| _state := running |>)) by exact (list_lookup_insert_eq _ _ _ Hlt).
  mstep (on_pcb_run g _ (λ p, p <| _chan := None |>) s1 Hp1). set (s2 := s1 <| k_proc_pool := _ |>).
  unfold when. rewrite bool_decide_eq_false_2 by done. cbn [negb].
  mstep (leave_only (ProcLock g) s2 eq_refl eq_refl eq_refl).
  assert (Hu2 : unlocked (left s2)) by done. rewrite (enter_run l _ Hu2). f_equal.
  assert (E1 : k_proc_pool s1 = <[g := p <| _state := running |>]> (k_proc_pool s)) by exact eq_refl.
  assert (E2 : k_proc_pool s2 = <[g := p <| _state := running |> <| _chan := None |>]> (k_proc_pool s1)) by exact eq_refl.
  rewrite E1, list_insert_insert_eq in E2.
  apply kernel_ext; [exact eq_refl|exact eq_refl|exact E2|exact eq_refl..].
Qed.

Lemma resumed_inside l e g p s : k_proc_pool s !! g = Some p → length (k_proc_pool s) = num_proc →
  inside l g (resumed l e g p s) ∧
  k_proc_pool (resumed l e g p s) !! g = Some (p <| _state := running |> <| _chan := None |>).
Proof.
  intros Hp Hl. pose proof (lookup_lt_Some _ _ _ Hp) as Hlt. split; [|exact (list_lookup_insert_eq _ _ _ Hlt)].
  split_and!; [done..|]. exact (eq_trans (length_insert _ _ _) Hl).
Qed.

(** ** Exit *)

(** C12: the end of a process.  Once its files and mappings are released, a
    process other than the first, with no address to clear for its threads,
    leaves the CPU as a zombie that carries its exit status, holding its own
    lock and no other: no assertion of the scheduler fails.  Its children become
    children of the first process, its parent is runnable if it slept waiting
    for children, and every other process is as before. *)
Theorem exit_correct stk g p state s s1 :
  _init_proc s ≠ Some g →
  (for_each fds (ofile_close g);; for_each (seq 0 max_vma_num) (exit_vma g)) s = Ret tt s1 →
  runs g p s1 → parent p ≠ Some g → _clear_child_tid p = 0 → 0 ≤ _last_alloc_proc_gid s1 < 32 →
  ∃ s2, exit_proc stk g state s = Ret (interruptible (cpu s1)) s2 ∧
    held s2 = {[ProcLock g]} ∧ _num_off (cpu s2) = 1 ∧
    k_proc_pool s2 !! g = Some (died state p) ∧
    ∀ c pc, c ≠ g → k_proc_pool s1 !! c = Some pc →
      ∃ pc', k_proc_pool s2 !! c = Some pc' ∧
        parent pc' = (if bool_decide (parent pc = Some g) then _init_proc s1 else parent pc) ∧
        _state pc' = (if bool_decide (_state pc = sleeping) &&
                         match parent p with Some q => bool_decide (_chan pc = Some (AtProc q)) | None => false end
                      then runnable else _state pc) ∧
        pc' <| parent := parent pc |> <| _state := _state pc |> = pc.
Proof.
  intros Hinit Rres Hr Hpar Htid Hlast. unfold exit_proc, mbind at 1, M_bind at 1, get at 1. cbn beta iota.
  rewrite bool_decide_eq_false_2 by done. apply bind_inv in Rres as ([] & s' & R1 & R2). mstep R1. mstep R2.
  eexists. split; [exact (zombie_leaves stk g p state s1 Hr Hpar Htid Hlast)|].
  destruct Hr as (Hu & Hc & Hlen & Hp & Hst). pose proof (lookup_lt_Some _ _ _ Hp) as Hlt.
  split_and!; [done|done| |].
  { rsimpl. apply list_lookup_insert_eq. by rewrite !length_fmap. }
  intros c pc Hne Hpc. exists (notify (parent p) (adopt g (_init_proc s1) pc)). split_and!.
  - rsimpl. unfold buried. by rewrite list_lookup_insert_ne, !list_lookup_fmap, Hpc by done.
  - unfold notify, wake, adopt. by destruct (parent p), (bool_decide (parent pc = Some g)); try destruct (_ && _).
  - unfold notify, wake. assert (Es : ∀ o, _state (adopt g o pc) = _state pc ∧ _chan (adopt g o pc) = _chan pc)
      by (intros o; unfold adopt; by destruct (bool_decide _)).
    destruct (Es (_init_proc s1)) as [E1 E2]. destruct (parent p) as [q|].
    + rewrite E1, E2. by destruct (bool_decide (_state pc = sleeping) && _).
    + by rewrite andb_false_r.
  - assert (Ea : ∀ o, adopt g o pc = pc ∨ adopt g o pc = pc <| parent := o |>)
      by (intros o; unfold adopt; destruct (bool_decide _); auto).
    assert (En : ∀ o x, notify o x = x ∨ notify o x = x <| _state := runnable |>)
      by (intros [q|] x; [|by left]; unfold notify, wake; destruct (_ && _); auto).
    destruct (En (parent p) (adopt g (_init_proc s1) pc)) as [-> | ->];
      destruct (Ea (_init_proc s1)) as [-> | ->]; by destruct pc.
Qed.

(** ** Wait *)

Lemma wait_enters stk g p child_pid addr s : runs g p s →
  wait stk child_pid addr s =
    if (0 <? child_pid) && negb (existsb (awaited g child_pid) (k_proc_pool s)) then Ret (Done (-1)) s
    else wait_run stk child_pid addr (entered WaitLock s).
Proof.
  intros (Hu & Hc & Hlen & Hp & Hst). unfold wait. mstep (cur_run g s Hc).
  unfold mbind at 1, M_bind at 1, get at 1. cbn beta iota.
  destruct (Z.ltb_spec 0 child_pid) as [Hpos|Hpos]; cbn [andb].
  - assert (E : existsb (λ c, (_pid c =? child_pid) && bool_decide (parent c = Some g)) (k_proc_pool s) =
      existsb (awaited g child_pid) (k_proc_pool s)).
    { unfold awaited. by rewrite (proj2 (Z.ltb_lt 0 child_pid)) by done. }
    rewrite E. destruct (negb (existsb _ _)); [done|]. by mstep (enter_run WaitLock s Hu).
  - by mstep (enter_run WaitLock s Hu).
Qed.


(** ** The scheduler *)

Lemma best_prio_le pool q : q ∈ pool → _state q = runnable → best_prio pool ≤ _priority q.
Proof.
  intros Hq Hr. destruct (best_prio_spec pool lowest_proc_prio) as (_ & B & _). apply B; [done|].
  by apply bool_decide_eq_true.
Qed.
Lemma eligible_best pool p : eligible (best_prio pool) p = true → p ∈ pool →
  _state p = runnable ∧ _priority p = best_prio pool.
Proof.
  unfold eligible, is_runnable. rewrite andb_true_iff, bool_decide_eq_true, negb_true_iff, Z.ltb_ge.
  intros [Hr Hb] Hp. pose proof (best_prio_le pool p Hp Hr). split; [done|lia].
Qed.
Lemma best_prio_none pool : (∀ p, p ∈ pool → _state p ≠ runnable) → best_prio pool = 19.
Proof.
  intros Hno. destruct (best_prio_spec pool lowest_proc_prio) as (_ & _ & [E|(q & Hq & Hr & _)]); [exact E|].
  by apply bool_decide_eq_true in Hr as ?%(Hno q Hq).
Qed.
Lemma best_prio_some pool p : p ∈ pool → _state p = runnable → _priority p ≤ 19 →
  ∃ q, q ∈ pool ∧ eligible (best_prio pool) q = true.
Proof.
  intros Hp Hr Hle. destruct (best_prio_spec pool lowest_proc_prio) as (_ & _ & [E|(q & Hq & Hrq & E)]).
  - exists p. split; [done|]. unfold eligible, is_runnable. rewrite bool_decide_eq_true_2 by done.
    change (best_prio pool = 19) in E. rewrite E. cbn [andb]. by apply negb_true_iff, Z.ltb_ge.
  - exists q. split; [done|]. unfold eligible. rewrite Hrq. change (_priority q = best_prio pool) in E.
    by rewrite E, Z.ltb_irrefl.
Qed.
Lemma seq_before n l0 g (l : list nat) i : seq 0 n = l0 ++ g :: l → (i < g)%nat → i ∈ l0.
Proof.
  intros El Hi. assert (Hg : seq 0 n !! length l0 = Some g) by (rewrite El; by apply list_lookup_middle).
  apply lookup_seq in Hg as [Hg Hlt]. apply list_elem_of_lookup. exists i.
  assert (Hlk : seq 0 n !! i = Some i) by (apply lookup_seq; lia).
  rewrite El, lookup_app_l in Hlk by lia. done.
Qed.

(** C11: a pass of the scheduler over the process table, begun outside every
    critical section.  If a process is runnable (with a priority value in range),
    the pass hands the CPU to one: it is runnable, no runnable process has a
    smaller priority value, and among its equals it is the first of the table;
    it becomes the running process and its lock is held.  If none is runnable
    the pass changes nothing. *)
Theorem schedule_correct prio s : unlocked s → length (k_proc_pool s) = num_proc →
  (∀ p, p ∈ k_proc_pool s → _priority p ≤ 19) →
  ((∀ p, p ∈ k_proc_pool s → _state p ≠ runnable) ∧
   schedule_scan (seq 0 num_proc) true prio s = Ret (None, false, 19) (touched s)) ∨
  ∃ g p rest, k_proc_pool s !! g = Some p ∧ _state p = runnable ∧
    schedule_scan (seq 0 num_proc) true prio s = Ret (Some (g, rest), true, _priority p) (dispatched g p s) ∧
    (∀ q, q ∈ k_proc_pool s → _state q = runnable → _priority p ≤ _priority q) ∧
    (∀ i q, (i < g)%nat → k_proc_pool s !! i = Some q → _state q = runnable → _priority p < _priority q).
Proof.
  intros Hu Hlen Hrange. set (b := best_prio (k_proc_pool s)).
  assert (Hall : ∀ g, g ∈ seq 0 num_proc → is_Some (k_proc_pool s !! g)).
  { intros g Hg%elem_of_seq. apply lookup_lt_is_Some. lia. }
  assert (R : schedule_scan (seq 0 num_proc) true prio s = schedule_scan (seq 0 num_proc) false b (touched s))
    by exact (schedule_needed_run 0 (seq 1 31) prio s Hu).
  rewrite R, (schedule_scan_run b (touched s) (touched_unlocked s Hu) _ Hall).
  change (k_proc_pool (touched s)) with (k_proc_pool s).
  destruct (first_eligible (k_proc_pool s) b (seq 0 num_proc)) as [[[g p] rest]|] eqn:E.
  - right. apply first_eligible_spec in E as (Hp & He & l0 & El & Hl0). exists g, p, rest.
    destruct (eligible_best _ p He (list_elem_of_lookup_2 _ _ _ Hp)) as [Hr Hb].
    split_and!; [done|done|by rewrite Hb| |].
    + intros q Hq Hrq. rewrite Hb. by apply best_prio_le.
    + intros i q Hi Hq Hrq. assert (Hin : i ∈ l0) by (eapply seq_before; [exact El|done]).
      specialize (Hl0 i q Hin Hq). unfold eligible, is_runnable in Hl0.
      rewrite bool_decide_eq_true_2 in Hl0 by done. cbn [andb] in Hl0. apply negb_false_iff, Z.ltb_lt in Hl0. lia.
  - left. assert (Hno : ∀ p, p ∈ k_proc_pool s → _state p ≠ runnable).
    { intros p Hp Hr. destruct (best_prio_some _ p Hp Hr (Hrange p Hp)) as (q & Hq & He). fold b in He.
      apply list_elem_of_lookup in Hq as [g Hg].
      rewrite (first_eligible_none _ b _ g q Hall E) in He; [done| |done].
      apply elem_of_seq. apply lookup_lt_Some in Hg. lia. }
    split; [done|]. unfold b. by rewrite (best_prio_none _ Hno).
Qed.

(** ** Giving up the CPU *)

(** The state of the scheduler after [g] gave up the CPU. *)
Definition back (s : kernel A F) : kernel A F :=
  s <| cpu := mkCpu 0 (_int_ena (cpu s)) (_int_ena (cpu s)) None |> <| held := ∅ |>.

Lemma schedule_back_run g s : held s = {[ProcLock g]} → _num_off (cpu s) = 1 → interruptible (cpu s) = false →
  schedule_back g s = Ret tt (back s).
Proof.
  intros Hh Hn Hi. unfold schedule_back, set_cur_proc, on_cpu.
  unfold mbind at 1, M_bind at 1, modify at 1. cbn beta iota.
  by rewrite leave_only by done.
Qed.

Definition yielded (g : nat) (p : Pcb) s : kernel A F :=
  entered (ProcLock g) s <| k_proc_pool := <[g := p <| _state := runnable |>]> (k_proc_pool s) |>.
Lemma yield_out_run g p s : runs g p s → yield_out s = Ret (interruptible (cpu s)) (yielded g p s).
Proof.
  intros (Hu & Hc & Hlen & Hp & Hst). unfold yield_out. mstep (cur_run g s Hc). mstep (enter_run (ProcLock g) s Hu).
  assert (Hp1 : k_proc_pool (entered (ProcLock g) s) !! g = Some p) by exact Hp.
  mstep (on_pcb_run g p (λ p, p <| _state := runnable |>) _ Hp1). pose proof (lookup_lt_Some _ _ _ Hp) as Hlt.
  apply (call_sched_out_run g (p <| _state := runnable |>)); [exact Hc|set_solver|done|done| |done].
  exact (list_lookup_insert_eq _ _ _ Hlt).
Qed.

(** ** Exit and wait together *)


(** ** Readers and writers *)

(** C6: a reader asleep on an empty pipe is woken by a write and gets the
    bytes.  Process [g] writes [n] bytes to the pipe on which [r] sleeps: the
    write returns [n] and [r] is runnable.  When [g] then gives up the CPU and
    the scheduler hands it to [r], the read of [r] returns the smaller of [n]
    and the [m] bytes it asked for, and these are the first bytes written. *)
Theorem pipe_wakes_reader (q src dst n m : Z) (g r : nat) (p pr : Pcb) (pi : Pipe) s :
  runs g p s → is_killed p = false → mem_ok (memory s) →
  pipes s !! q = Some pi → ring_ok (_data pi) → _size (_data pi) = 0 → _read_is_open pi = true →
  0 < n ≤ 4096 → 0 ≤ src → src + n ≤ 2 ^ 64 → 0 ≤ m → 0 ≤ dst → dst + m ≤ 2 ^ 64 →
  k_proc_pool s !! r = Some pr → _state pr = sleeping → _chan pr = Some (AtReadSleep q) →
  let k := Z.min m n in
  ∃ s1 pr1 e1 s2 s3, write_in_kernel q src n s = Ret (Done n) s1 ∧
    k_proc_pool s1 !! r = Some pr1 ∧ _state pr1 = runnable ∧
    yield_out s1 = Ret e1 s2 ∧ schedule_back g s2 = Ret tt s3 ∧
    ∀ e, ∃ s4, read_resume q dst m e (dispatched r pr1 s3) = Ret (Done k) s4 ∧
      load_bytes (memory s4) dst (Z.to_nat k) = load_bytes (memory s) src (Z.to_nat k).
Proof.
  intros Hr Hk Hm Hpi Hok Hsz Hrd Hn Hs0 Hs1 Hm0 Hd0 Hd1 Hpr Hst' Hch k.
  pose proof (write_in_kernel_run q src n g p pi s Hr Hpi Hok ltac:(lia)) as W. cbv zeta in W.
  rewrite Hrd, Hk, Hsz in W. cbn [negb orb] in W. rewrite (proj2 (Z.leb_le n _)) in W by lia.
  set (bytes := source (memory s) src) in *.
  set (pi1 := pi <| _data := push_all (bytes <$> seqZ 0 n) (_data pi) |>).
  set (s1 := left _) in W. destruct Hr as (Hu & Hc & Hl & Hp & Hst). pose proof (lookup_lt_Some _ _ _ Hp) as Hlt.
  assert (Epool : k_proc_pool s1 = wake (AtReadSleep q) <$> k_proc_pool s) by exact eq_refl.
  set (pr1 := pr <| _state := runnable |>).
  assert (Hpr1 : k_proc_pool s1 !! r = Some pr1).
  { rewrite Epool, list_lookup_fmap, Hpr. cbn. unfold wake. by rewrite Hst', Hch, !bool_decide_eq_true_2. }
  assert (Hne : r ≠ g) by (intros ->; congruence).
  assert (Hr1 : runs g p s1).
  { split_and!; [by split|exact Hc|rewrite Epool, length_fmap; exact Hl| |done].
    rewrite Epool, list_lookup_fmap, Hp. cbn. unfold wake. by rewrite Hst. }
  pose proof (yield_out_run g p s1 Hr1) as Y. set (s2 := yielded g p s1) in Y.
  pose proof (schedule_back_run g s2 eq_refl eq_refl eq_refl) as B. set (s3 := back s2) in B.
  assert (Hpr3 : k_proc_pool s3 !! r = Some pr1).
  { change (k_proc_pool s3) with (<[g := p <| _state := runnable |>]> (k_proc_pool s1)).
    by rewrite list_lookup_insert_ne. }
  assert (Hl3 : length (k_proc_pool s3) = num_proc).
  { change (k_proc_pool s3) with (<[g := p <| _state := runnable |>]> (k_proc_pool s1)).
    by rewrite length_insert, Epool, length_fmap. }
  exists s1, pr1, (interruptible (cpu s1)), s2, s3. split_and!; [exact W|done|done|exact Y|exact B|].
  intros e. unfold read_resume.
  mstep (sleep_in_run (PipeLock q) e r pr1 s3 ltac:(by split) Hpr3 ltac:(done)).
  destruct (resumed_inside (PipeLock q) e r pr1 s3 Hpr3 Hl3) as [Hin5 _]. set (s5 := resumed _ _ _ _ _) in *.
  assert (Hpi5 : pipes s5 !! q = Some pi1) by exact (lookup_insert_eq _ _ _).
  destruct (first_write src n pi s Hok Hsz Hm Hs0 ltac:(lia) Hs1) as (Hok1 & Hsz1 & Hc1).
  change (push_all _ _) with (_data pi1) in Hok1, Hsz1, Hc1.
  pose proof (read_run_data q dst m r s5 pi1 Hin5 Hpi5 Hok1 ltac:(left; lia) Hd0 Hm0 Hd1) as R. cbv zeta in R.
  rewrite Hsz1 in R. fold k in R. eexists. split; [rewrite R; by rewrite Z2Nat.id by lia|].
  set (l := take (Z.to_nat k) (load_bytes (memory s) src (Z.to_nat n))).
  assert (Hlen : length l = Z.to_nat k) by (unfold l; rewrite length_take, length_load; lia).
  assert (Et : u8 <$> take (Z.to_nat k) (contents (_data pi1)) = l).
  { rewrite Hc1. apply u8_bytes, Forall_take, bytes_load, Hm. }
  rewrite Et. rewrite <- Hlen at 1.
  refine (eq_trans (load_store_same (memory s5) dst l) _). unfold l.
  symmetry. apply load_prefix. lia.
Qed.

End claims.

(** ** Witnesses *)

Import KDemo.

(** The first process sleeps on [ch]; the shell runs. *)
Definition waiting (ch : chan) : kernel unit unit :=
  demo <| k_proc_pool := <[0%nat := init_pcb <| _state := sleeping |> <| _chan := Some ch |>]> (k_proc_pool demo) |>.

Lemma waiting_runs ch : runs 1 shell_pcb (waiting ch).
Proof. split_and!; [split; reflexivity|reflexivity..]. Qed.

Lemma exit_correct_witness :
  ∃ s2, exit_proc 0 1 7 (waiting (AtProc 0)) = Ret true s2 ∧ k_proc_pool s2 !! 1%nat = Some (died 7 shell_pcb) ∧
    ∃ pc, k_proc_pool s2 !! 0%nat = Some pc ∧ _state pc = runnable.
Proof.
  destruct (exit_correct 0 1 shell_pcb 7 (waiting (AtProc 0)) (waiting (AtProc 0)) ltac:(discriminate)
    ltac:(vm_compute; reflexivity) (waiting_runs _) ltac:(discriminate) eq_refl ltac:(change (0 ≤ 1 < 32); lia))
    as (s2 & R & _ & _ & Hz & Hall).
  destruct (Hall 0%nat _ ltac:(discriminate) eq_refl) as (pc & Hpc & _ & Hst & _).
  exists s2. split; [exact R|]. split; [exact Hz|]. exists pc. split; [exact Hpc|]. rewrite Hst. reflexivity.
Defined.


Lemma schedule_correct_witness : ∃ g p rest,
  schedule_scan (seq 0 num_proc) true 0 demo = Ret (Some (g, rest), true, _priority p) (dispatched g p demo).
Proof.
  destruct (schedule_correct 0 demo) as [[Hno _]|(g & p & rest & _ & _ & R & _)].
  - split; reflexivity.
  - reflexivity.
  - intros p Hp. assert (Hall : forallb (λ p, _priority p <=? 19) (k_proc_pool demo) = true) by reflexivity.
    rewrite forallb_forall in Hall. apply Z.leb_le, Hall, list_elem_of_In, Hp.
  - exfalso. by apply (Hno init_pcb); [left|].
  - exists g, p, rest. exact R.
Defined.


Lemma pipe_wakes_reader_witness :
  ∃ s1 pr1 e1 s2 s3, write_in_kernel 50 1000 3 (waiting (AtReadSleep 50)) = Ret (Done 3) s1 ∧
    yield_out s1 = Ret e1 s2 ∧ schedule_back 1 s2 = Ret tt s3 ∧
    ∃ s4, read_resume 50 2000 10 true (dispatched 0 pr1 s3) = Ret (Done 3) s4 ∧
      load_bytes (memory s4) 2000 3 = [104; 105; 10].
Proof.
  destruct (pipe_wakes_reader 50 1000 2000 3 10 1 0 shell_pcb
    (init_pcb <| _state := sleeping |> <| _chan := Some (AtReadSleep 50) |>) demo_pipe
    (waiting (AtReadSleep 50)) (waiting_runs _) eq_refl demo_ram_ok eq_refl new_ok eq_refl eq_refl
    ltac:(lia) ltac:(lia) ltac:(lia) ltac:(lia) ltac:(lia) ltac:(lia) eq_refl eq_refl eq_refl)
    as (s1 & pr1 & e1 & s2 & s3 & W & _ & _ & Y & B & Hrd).
  exists s1, pr1, e1, s2, s3. split; [exact W|]. split; [exact Y|]. split; [exact B|].
  destruct (Hrd true) as (s4 & R & E). exists s4. split; [exact R|]. exact E.
Defined.

End ProcSyncThm.
