(* ===== verification/ProcCalls.v ===== *)
(** Descriptors, pipes and signal masks of a process: the functional behaviour
    of [alloc_fd], [pipe] and [sigprocmask]. *)

From Stdlib Require Import ZArith Lia.
From stdpp Require Import base numbers gmap list.
From S2P Require Import Prelude Page Mem Klib Pmm PageTable Vmm Kbase Kernel KFile KLock PipeThm Proc KDemo ProcLife.
From S2P Require Import PtInv ProcAlloc ProcSync.
Import Pmm PT Kernel KFile Proc Life ProcAlloc ProcSync.

Set Default Goal Selector "!".
Open Scope Z_scope.

Module ProcCalls.

Section calls.
Context `{Port} `{TrapHal} {A F : Type} `{PageAllocator A} `{Inode A F}.
Implicit Types s : kernel A F.

(** ** Descriptors *)

(** Process [g] with descriptor [fd] open on file [f]. *)
Definition with_fd (g : nat) (p : Pcb) (fd f : Z) s : kernel A F :=
  s <| k_proc_pool := <[g := p <| _ofile := <[fd := f]> (_ofile p) |>]> (k_proc_pool s) |>.

(** [fd] is the smallest descriptor of [p] that is free, at least [a]. *)
Definition lowest_from (a : Z) (p : Pcb) (fd : Z) : Prop :=
  a ≤ fd < 1024 ∧ _ofile p !! fd = None ∧ ∀ i, a ≤ i < fd → is_Some (_ofile p !! i).

Lemma alloc_fd_loop_run g p f s n : k_proc_pool s !! g = Some p → ∀ a, a + Z.of_nat n = 1024 →
  (∃ fd, lowest_from a p fd ∧ alloc_fd_loop (seqZ a (Z.of_nat n)) g f s = Ret fd (with_fd g p fd f s)) ∨
  ((∀ i, a ≤ i < 1024 → is_Some (_ofile p !! i)) ∧ alloc_fd_loop (seqZ a (Z.of_nat n)) g f s = Ret (-1) s).
Proof.
  intros Hp. induction n as [|n IH]; intros a Ha.
  { right. split; [intros i Hi; lia|done]. }
  replace (Z.of_nat (S n)) with (Z.succ (Z.of_nat n)) by lia. rewrite seqZ_cons by lia.
  replace (Z.pred (Z.succ (Z.of_nat n))) with (Z.of_nat n) by lia. cbn [alloc_fd_loop]. mstep (pcb_run g p s Hp).
  destruct (_ofile p !! a) as [x|] eqn:E.
  - replace (Z.succ a) with (a + 1) by lia.
    destruct (IH (a + 1)) as [(fd & (Hfd & Hno & Hlow) & R)|[Hfull R]]; [lia| |].
    + left. exists fd. split; [|exact R]. split_and!; [lia|lia|done|].
      intros i Hi. destruct (Z.eq_dec i a) as [->|]; [by eexists|apply Hlow; lia].
    + right. split; [|exact R]. intros i Hi. destruct (Z.eq_dec i a) as [->|]; [by eexists|apply Hfull; lia].
  - left. exists a. split; [split_and!; [lia|lia|done|intros i Hi; lia]|].
    by mstep (on_pcb_run g p (λ p, p <| _ofile := <[a := f]> (_ofile p) |>) s Hp).
Qed.

Lemma alloc_fd_run g p f s : k_proc_pool s !! g = Some p →
  (∃ fd, lowest_from 0 p fd ∧ alloc_fd g f s = Ret fd (with_fd g p fd f s)) ∨
  ((∀ i, 0 ≤ i < 1024 → is_Some (_ofile p !! i)) ∧ alloc_fd g f s = Ret (-1) s).
Proof. intros Hp. exact (alloc_fd_loop_run g p f s 1024 Hp 0 eq_refl). Qed.


Lemma pcb_ofile_id p m : m = _ofile p → p <| _ofile := m |> = p.
Proof. intros ->. by destruct p. Qed.

(** ** Creating a pipe *)

Definition pipe_end (q : Z) (w : bool) (n : Z) : file :=
  mkFile (mkAttrs FT_PIPE (if w then 0x1FA else 0x1F9)) n 0 false 0 false (pipe_file q w).

(** The state after [new Pipe] and [alloc]. *)
Definition piped s : kernel A F :=
  let q := next_obj s in
  s <| next_obj := q + 3 |> <| pipes := <[q := mkPipe PipeBuf.new true true]> (pipes s) |>
    <| files := <[q + 2 := pipe_end q true 1]> (<[q + 1 := pipe_end q false 1]> (files s)) |>.

Lemma new_file_run attrs q w s :
  new_file attrs 0 (pipe_file q w) s =
    Ret (next_obj s) (s <| next_obj := next_obj s + 1 |>
      <| files := <[next_obj s := mkFile attrs 1 0 false 0 false (pipe_file q w)]> (files s) |>).
Proof.
  unfold new_file, new_object, file_dup, on_file, ofile, with_den. krun. rewrite lookup_insert_eq. cbn beta iota.
  krun. rewrite lookup_insert_eq. cbn beta iota. krun. by rewrite insert_insert_eq.
Qed.

Lemma pipe_open_run {B} (k : Z * Z → M (kernel A F) B) s :
  (q ← new_pipe; r ← pipe_alloc q; k r) s = k (next_obj s + 1, next_obj s + 2) (piped s).
Proof.
  unfold new_pipe, new_object, pipe_alloc. krun. unfold on_pipe, pipe. krun.
  rewrite lookup_insert_eq. cbn beta iota. krun. rewrite lookup_insert_eq. cbn beta iota. krun.
  rewrite !insert_insert_eq. rewrite new_file_run. cbn beta iota. rewrite new_file_run. cbn beta iota. rsimpl.
  unfold piped. replace (next_obj s + 1 + 1) with (next_obj s + 2) by lia.
  by replace (next_obj s + 2 + 1) with (next_obj s + 3) by lia.
Qed.

(** Closing an end of a pipe. *)
Definition end_closed (w : bool) (pi : Pipe) : Pipe :=
  if w then pi <| _write_is_open := false |> else pi <| _read_is_open := false |>.
Definition end_chan (w : bool) (q : Z) : chan := if w then AtReadSleep q else AtWriteSleep q.
Definition hung_up (q : Z) (w : bool) (pi : Pipe) s : kernel A F :=
  let pi' := end_closed w pi in
  touched s <| k_proc_pool := wake (end_chan w q) <$> k_proc_pool s |>
    <| pipes := if negb (_read_is_open pi') && negb (_write_is_open pi')
                then delete q (pipes s) else <[q := pi']> (pipes s) |>.

Lemma pipe_close_run q w pi s : unlocked s → length (k_proc_pool s) = num_proc → pipes s !! q = Some pi →
  pipe_close q w s = Ret tt (hung_up q w pi s).
Proof.
  intros Hu Hl Hpi. unfold pipe_close. mstep (enter_run (PipeLock q) s Hu). set (s0 := entered _ s).
  assert (Hpi0 : pipes s0 !! q = Some pi) by exact Hpi.
  assert (Hf : ∀ s', held s' = held s0 → length (k_proc_pool s') = num_proc → procs_free s').
  { intros s' Eh El. split; [done|]. intros g. rewrite Eh. unfold s0, entered. rsimpl. set_solver. }
  set (s2 := with_pipe q (end_closed w pi) s0 <| k_proc_pool := wake (end_chan w q) <$> k_proc_pool s |>).
  assert (R : (if w then on_pipe q (λ p, p <| _write_is_open := false |>);; wakeup (AtReadSleep q)
               else on_pipe q (λ p, p <| _read_is_open := false |>);; wakeup (AtWriteSleep q)) s0 = Ret tt s2).
  { destruct w; [mstep (on_pipe_run q pi (λ p, p <| _write_is_open := false |>) s0 Hpi0)
      |mstep (on_pipe_run q pi (λ p, p <| _read_is_open := false |>) s0 Hpi0)];
      rewrite wakeup_run by (done || by apply Hf); done. }
  mstep R. assert (Hpi2 : pipes s2 !! q = Some (end_closed w pi)) by exact (lookup_insert_eq _ _ _).
  mstep (pipe_run q _ s2 Hpi2).
  assert (Rl : release (PipeLock q) s2 = Ret tt (left s2)) by by apply leave_only.
  assert (El : left s2 = touched s <| k_proc_pool := wake (end_chan w q) <$> k_proc_pool s |>
    <| pipes := <[q := end_closed w pi]> (pipes s) |>).
  { destruct Hu as [Hn Hh]. apply kernel_ext; try exact eq_refl.
    - destruct s as [[nn e b cc] h]. cbn in Hn. by subst nn.
    - exact (eq_sym Hh). }
  unfold hung_up. destruct (negb (_read_is_open (end_closed w pi)) && negb (_write_is_open (end_closed w pi))).
  - mstep Rl. rewrite El. unfold modify. f_equal. apply kernel_ext; try exact eq_refl.
    change (delete q (<[q := end_closed w pi]> (pipes s)) = delete q (pipes s)). apply delete_insert_eq.
  - by rewrite Rl, El.
Qed.

(** The last reference to an end of a pipe. *)
Lemma free_end_run f q w pi s : unlocked s → length (k_proc_pool s) = num_proc →
  files s !! f = Some (pipe_end q w 1) → pipes s !! q = Some pi →
  free_file f s = Ret tt (hung_up q w pi (s <| files := delete f (files s) |>)).
Proof.
  intros Hu Hl Hf Hpi. unfold free_file, on_file, ofile. krun. rewrite Hf. cbn beta iota. krun.
  rewrite lookup_insert_eq. cbn beta iota. krun.
  cbn [kind pipe_end with_den refcnt]. unfold mret, M_ret. change (u32 (1 - 1) =? 0) with true. cbn beta iota.
  rsimpl. rewrite delete_insert_eq. by apply pipe_close_run.
Qed.

(** Both ends of a new pipe are closed again. *)
Lemma pipe_abandon_run s (t : kernel A F) :
  (∀ k, next_obj s ≤ k → files s !! k = None ∧ pipes s !! k = None) →
  unlocked t → length (k_proc_pool t) = num_proc → files t = files (piped s) → pipes t = pipes (piped s) →
  ∃ t', (free_file (next_obj s + 1);; free_file (next_obj s + 2);; mret (@None (Z * Z))) t = Ret None t' ∧
    files t' = files s ∧ pipes t' = pipes s ∧ unlocked t' ∧
    ∀ g p, k_proc_pool t !! g = Some p → _state p = running → k_proc_pool t' !! g = Some p.
Proof.
  intros Hfresh Hu Hl Ef Eq. set (q := next_obj s) in *. set (pi := mkPipe PipeBuf.new true true).
  assert (Hq : pipes t !! q = Some pi) by (rewrite Eq; exact (lookup_insert_eq _ _ _)).
  assert (Hf1 : files t !! (q + 1) = Some (pipe_end q false 1)).
  { rewrite Ef. change (files (piped s)) with (<[q + 2 := pipe_end q true 1]> (<[q + 1 := pipe_end q false 1]> (files s))).
    rewrite lookup_insert_ne by lia. apply lookup_insert_eq. }
  mstep (free_end_run (q + 1) q false pi t Hu Hl Hf1 Hq). set (t1 := hung_up _ _ _ _).
  assert (Hu1 : unlocked t1) by exact Hu.
  assert (Hl1 : length (k_proc_pool t1) = num_proc) by exact (eq_trans (length_fmap _ _) Hl).
  assert (Ef1 : files t1 = delete (q + 1) (files t)) by exact eq_refl.
  assert (Eq1 : pipes t1 = <[q := end_closed false pi]> (pipes t)) by exact eq_refl.
  assert (Hf2 : files t1 !! (q + 2) = Some (pipe_end q true 1)).
  { rewrite Ef1, lookup_delete_ne, Ef by lia. exact (lookup_insert_eq _ _ _). }
  assert (Hq1 : pipes t1 !! q = Some (end_closed false pi)) by (rewrite Eq1; apply lookup_insert_eq).
  mstep (free_end_run (q + 2) q true _ t1 Hu1 Hl1 Hf2 Hq1). set (t2 := hung_up _ _ _ _).
  exists t2. split; [done|].
  assert (Ef2 : files t2 = delete (q + 2) (files t1)) by exact eq_refl.
  assert (Eq2 : pipes t2 = delete q (pipes t1)) by exact eq_refl.
  split_and!; [| |exact Hu1|].
  - rewrite Ef2, Ef1, Ef.
    change (files (piped s)) with (<[q + 2 := pipe_end q true 1]> (<[q + 1 := pipe_end q false 1]> (files s))).
    rewrite delete_delete, delete_insert_eq.
    rewrite (delete_id (<[_ := _]> _) (q + 2)) by (rewrite lookup_insert_ne by lia; apply Hfresh; lia).
    apply delete_insert_id. apply Hfresh. lia.
  - rewrite Eq2, Eq1, Eq, delete_insert_eq.
    change (pipes (piped s)) with (<[q := pi]> (pipes s)). apply delete_insert_id. apply Hfresh. lia.
  - intros g p Hg Hst. assert (Ep : k_proc_pool t2 = wake (AtReadSleep q) <$> (wake (AtWriteSleep q) <$> k_proc_pool t)) by exact eq_refl.
    rewrite Ep, !list_lookup_fmap, Hg. cbn. unfold wake. by rewrite Hst, !andb_false_l, Hst.
Qed.

(** The assignments at the end of [pipe] repeat what [alloc_fd] stored. *)
Lemma reopen_run g p fd0 fd1 rf wf (r : option (Z * Z)) s : k_proc_pool s !! g = Some p →
  _ofile p !! fd0 = Some rf → _ofile p !! fd1 = Some wf →
  (on_pcb g (λ p, p <| _ofile := <[fd0 := rf]> (_ofile p) |>);;
   on_pcb g (λ p, p <| _ofile := <[fd1 := wf]> (_ofile p) |>);; mret r) s = Ret r s.
Proof.
  intros Hp Hr Hw.
  assert (E : ∀ fd f, _ofile p !! fd = Some f → on_pcb g (λ p, p <| _ofile := <[fd := f]> (_ofile p) |>) s = Ret tt s).
  { intros fd f Hf. rewrite (on_pcb_run g p) by done. rewrite insert_id by done.
    rewrite pcb_ofile_id by done. by rewrite list_insert_id, pool_eta. }
  mstep (E fd0 rf Hr). by mstep (E fd1 wf Hw).
Qed.

(** C20: [pipe], called by the running process.  With two descriptors free it
    opens the two smallest, the reading end on the first and the writing end on
    the second, both files with one reference on a new empty pipe with both ends
    open, and changes nothing else.  With fewer it returns -1 and gives
    everything back: the files, the pipes and the descriptors are as before, and
    no lock is held. *)
Theorem make_pipe_correct g p s : runs g p s →
  (∀ k, next_obj s ≤ k → files s !! k = None ∧ pipes s !! k = None) →
  let q := next_obj s in
  (∃ fd0 fd1, lowest_from 0 p fd0 ∧ lowest_from 0 (p <| _ofile := <[fd0 := q + 1]> (_ofile p) |>) fd1 ∧
     make_pipe s = Ret (Some (fd0, fd1))
       (piped s <| k_proc_pool :=
          <[g := p <| _ofile := <[fd1 := q + 2]> (<[fd0 := q + 1]> (_ofile p)) |>]> (k_proc_pool s) |>)) ∨
  ((∀ i j, 0 ≤ i < 1024 → 0 ≤ j < 1024 → _ofile p !! i = None → _ofile p !! j = None → i = j) ∧
   ∃ s', make_pipe s = Ret None s' ∧ files s' = files s ∧ pipes s' = pipes s ∧ unlocked s' ∧
     k_proc_pool s' !! g = Some p).
Proof.
  intros Hr Hfresh q. pose proof Hr as (Hu & Hc & Hlen & Hp & Hst). pose proof (lookup_lt_Some _ _ _ Hp) as Hlt.
  unfold make_pipe. mstep (cur_run g s Hc). rewrite (pipe_open_run (λ '(rf, wf), _) s). fold q. cbv beta iota.
  assert (Hp0 : k_proc_pool (piped s) !! g = Some p) by exact Hp.
  destruct (alloc_fd_run g p (q + 1) (piped s) Hp0) as [(fd0 & Hlow0 & R0)|[Hfull R0]]; mstep R0.
  - rewrite (proj2 (Z.ltb_ge fd0 0)) by (destruct Hlow0; lia).
    set (p1 := p <| _ofile := <[fd0 := q + 1]> (_ofile p) |>). set (s1 := with_fd g p fd0 (q + 1) (piped s)).
    assert (Hp1 : k_proc_pool s1 !! g = Some p1) by exact (list_lookup_insert_eq _ _ _ Hlt).
    destruct (alloc_fd_run g p1 (q + 2) s1 Hp1) as [(fd1 & Hlow1 & R1)|[Hfull R1]]; mstep R1.
    + left. exists fd0, fd1. split_and!; [done|done|].
      rewrite (proj2 (Z.ltb_ge fd1 0)) by (destruct Hlow1; lia). cbn [orb].
      set (p2 := p1 <| _ofile := <[fd1 := q + 2]> (_ofile p1) |>). set (s2 := with_fd g p1 fd1 (q + 2) s1).
      assert (Hl1 : length (k_proc_pool s1) = length (k_proc_pool s)) by exact (length_insert _ _ _).
      assert (Hl2 : length (k_proc_pool s2) = length (k_proc_pool s)) by exact (eq_trans (length_insert _ _ _) Hl1).
      assert (Hp2 : k_proc_pool s2 !! g = Some p2) by (apply list_lookup_insert_eq; by rewrite Hl1).
      rewrite (reopen_run g p2 fd0 fd1 (q + 1) (q + 2) _ s2 Hp2).
      * f_equal. assert (Es : s2 = piped s <| k_proc_pool := k_proc_pool s2 |>) by done. rewrite Es. f_equal.
        change (k_proc_pool s2) with (<[g := p2]> (<[g := p1]> (k_proc_pool s))). by rewrite !list_insert_insert_eq.
      * change (_ofile p2) with (<[fd1 := q + 2]> (<[fd0 := q + 1]> (_ofile p))).
        destruct Hlow1 as (_ & Hno & _). unfold p1 in Hno. rsimpl in Hno.
        destruct (decide (fd0 = fd1)) as [->|]; [by rewrite lookup_insert_eq in Hno|].
        rewrite lookup_insert_ne by done. apply lookup_insert_eq.
      * exact (lookup_insert_eq _ _ _).
    + right. split.
      { intros i j Hi Hj Ni Nj. assert (Hone : ∀ k, 0 ≤ k < 1024 → _ofile p !! k = None → k = fd0).
        { intros k Hk Nk. destruct (decide (k = fd0)); [done|]. destruct (Hfull k Hk) as [x Hx].
          unfold p1 in Hx. rsimpl in Hx. rewrite lookup_insert_ne in Hx by done. congruence. }
        rewrite (Hone i Hi Ni), (Hone j Hj Nj). done. }
      change (-1 <? 0) with true. rewrite orb_true_r. rewrite (proj2 (Z.leb_le 0 fd0)) by (destruct Hlow0; lia).
      cbn [when]. mstep (on_pcb_run g p1 (λ p, p <| _ofile := delete fd0 (_ofile p) |>) s1 Hp1).
      assert (E1 : p1 <| _ofile := delete fd0 (_ofile p1) |> = p).
      { unfold p1. rsimpl. destruct Hlow0 as (_ & Hno & _). rewrite (delete_insert_id _ _ _ Hno). by destruct p. }
      rewrite E1. set (t := s1 <| k_proc_pool := _ |>).
      assert (Et : k_proc_pool t = k_proc_pool s).
      { change (k_proc_pool t) with (<[g := p]> (<[g := p1]> (k_proc_pool s))).
        rewrite list_insert_insert_eq. by apply list_insert_id. }
      destruct (pipe_abandon_run s t Hfresh Hu ltac:(by rewrite Et) eq_refl eq_refl) as (t' & R & Ef & Eq & Hu' & Hg).
      exists t'. split_and!; [exact R|done|done|done|]. apply Hg; [by rewrite Et|done].
  - right. split; [intros i j Hi _ Ni; destruct (Hfull i Hi) as [x Hx]; congruence|].
    change (-1 <? 0) with true. change (0 <=? -1) with false. cbn [when].
    unfold mbind at 1, M_bind at 1, mret at 1, M_ret at 1. cbn [orb].
    unfold mbind at 1, M_bind at 1, mret at 1, M_ret at 1. cbn beta iota.
    destruct (pipe_abandon_run s (piped s) Hfresh Hu Hlen eq_refl eq_refl) as (t' & R & Ef & Eq & Hu' & Hg).
    exists t'. split_and!; [exact R|done|done|done|]. by apply Hg.
Qed.

(** ** Signal masks *)

Lemma unblockable_bit i : 0 ≤ i < 64 → Z.testbit (not64 unblockable) i = negb ((i =? 8) || (i =? 18)).
Proof.
  intros Hi. assert (Hall : forallb (λ i, eqb (Z.testbit (not64 unblockable) i) (negb ((i =? 8) || (i =? 18)))) (seqZ 0 64) = true)
    by reflexivity.
  rewrite forallb_forall in Hall. apply eqb_prop, Hall, list_elem_of_In, elem_of_seqZ. lia.
Qed.

(** C32: [sigprocmask], on every branch: a wrong set size is refused, as is an
    unknown operation, with the mask kept; otherwise the old mask is reported,
    and with a new set each signal is blocked as the operation says, except
    SIGKILL and SIGSTOP, which no call can block. *)
Theorem sigprocmask_correct how set size g p s : _cur_proc (cpu s) = Some g → k_proc_pool s !! g = Some p →
  (size ≠ 8 → sigprocmask how set size s = Ret (-22, None) s) ∧
  (sigprocmask how None 8 s = Ret (0, Some (sigmask p)) s) ∧
  (∀ new, how ≠ 0 → how ≠ 1 → how ≠ 2 → sigprocmask how (Some new) 8 s = Ret (-22, Some (sigmask p)) s) ∧
  (∀ new, 0 ≤ new < 2 ^ 64 → how = 0 ∨ how = 1 ∨ how = 2 →
     ∃ m, sigprocmask how (Some new) 8 s =
         Ret (0, Some (sigmask p)) (s <| k_proc_pool := <[g := p <| sigmask := m |>]> (k_proc_pool s) |>) ∧
       ∀ i, 0 ≤ i < 64 → Z.testbit m i =
         negb ((i =? SIGKILL - 1) || (i =? SIGSTOP - 1)) &&
         (if how =? 0 then Z.testbit (sigmask p) i || Z.testbit new i
          else if how =? 1 then Z.testbit (sigmask p) i && negb (Z.testbit new i)
          else Z.testbit new i)).
Proof.
  intros Hc Hp. unfold sigprocmask, sigset_size. split_and!.
  - intros Hs. by rewrite (proj2 (Z.eqb_neq size 8)).
  - change (negb (8 =? 8)) with false. cbn iota. mstep (cur_run g s Hc). by mstep (pcb_run g p s Hp).
  - intros new H0' H1' H2'. change (negb (8 =? 8)) with false. cbn iota. mstep (cur_run g s Hc). mstep (pcb_run g p s Hp).
    unfold SIG_BLOCK, SIG_UNBLOCK, SIG_SETMASK. by rewrite !(proj2 (Z.eqb_neq how _)).
  - intros new Hnew Hhow. change (negb (8 =? 8)) with false. cbn iota. mstep (cur_run g s Hc). mstep (pcb_run g p s Hp). unfold SIG_BLOCK, SIG_UNBLOCK, SIG_SETMASK.
    destruct Hhow as [-> | [-> | ->]]; cbn [Z.eqb Pos.eqb];
      rewrite (bind_ret _ _ _ _ _ (on_pcb_run _ _ _ _ Hp)); eexists;
      (split; [reflexivity|]); intros i Hi; change (SIGKILL - 1) with 8; change (SIGSTOP - 1) with 18;
      rewrite Z.land_spec, (unblockable_bit i Hi), andb_comm; f_equal.
    + apply Z.lor_spec.
    + rewrite Z.land_spec. f_equal.
      rewrite not64_bit by (done || lia). by rewrite (proj2 (Z.ltb_lt i 64)) by lia.
Qed.

End calls.

(** ** Witnesses *)

Import KDemo.


Lemma make_pipe_correct_witness : ∃ s', make_pipe (A := unit) (F := unit) demo = Ret (Some (0, 1)) s'.
Proof.
  destruct (make_pipe_correct 1 shell_pcb demo demo_runs)
    as [(fd0 & fd1 & (B0 & _ & L0) & (B1 & N1 & L1) & R)|[Hone _]].
  - intros k Hk. split; [apply lookup_empty|]. apply lookup_singleton_ne. cbn in Hk. lia.
  - assert (E0 : fd0 = 0).
    { destruct (Z.eq_dec fd0 0) as [|Hne]; [done|]. destruct (L0 0 ltac:(lia)) as [x Hx]. discriminate Hx. }
    subst fd0. assert (E1 : fd1 = 1).
    { destruct (Z.eq_dec fd1 0) as [->|H0']; [discriminate N1|]. destruct (Z.eq_dec fd1 1) as [|H1']; [done|].
      destruct (L1 1 ltac:(lia)) as [x Hx]. discriminate Hx. }
    subst fd1. eexists. exact R.
  - exfalso. assert (0 = 1) by (apply Hone; (lia || reflexivity)). lia.
Defined.

Lemma sigprocmask_correct_witness : ∃ m, sigprocmask (A := unit) (F := unit) 2 (Some (2 ^ 64 - 1)) 8 demo =
    Ret (0, Some 0) (demo <| k_proc_pool := <[1%nat := shell_pcb <| sigmask := m |>]> (k_proc_pool demo) |>) ∧
  Z.testbit m 8 = false ∧ Z.testbit m 2 = true.
Proof.
  destruct (sigprocmask_correct 2 None 8 1 shell_pcb demo eq_refl eq_refl) as (_ & _ & _ & Hset).
  destruct (Hset (2 ^ 64 - 1) ltac:(lia) ltac:(auto)) as (m & R & Hm). exists m. split; [exact R|].
  split; [rewrite Hm by lia; reflexivity|rewrite Hm by lia; reflexivity].
Defined.

End ProcCalls.
