(* ===== verification/Syscall.v ===== *)
(** System calls: [syscall::SyscallHandler], [kernel/syscall/syscall_handler.cc],
    and the trap that enters it, [ExceptionManager::_syscall] of both ports.

    A handler is a computation that ends in a [call]: it returned a value, it
    sleeps in a blocking operation [w] and goes on with [k] when that operation
    has returned, or its process is gone.  [stk] is the address of the handler's
    locals, [kbuf] that of the buffer it takes from the kernel heap.  Handlers
    that search paths, and those over devices, are not modelled. *)

From Stdlib Require Import ZArith Lia.
From stdpp Require Import base numbers gmap list strings.
From S2P Require Import Prelude Page Mem Klib Pmm PageTable Vmm UStream Kbase Kernel KFile Proc ProcLife.
Import Pmm PT Kernel KFile Proc Life.

Set Default Goal Selector "!".
Open Scope Z_scope.

Module Syscall.

(** The blocking operation a process sleeps in, with its locals. *)
Inductive waiting : Type :=
| InPipeRead (q addr n : Z) (e : bool)
| InPipeWrite (q addr n i : Z) (e : bool)
| InWait (stk child_pid addr : Z) (e : bool)
| InTicks (tick_tmp n : Z) (e : bool)
| InYield (e : bool)
| InFutex (e : bool).

Inductive call (S : Type) : Type :=
| Returns (v : Z)
| Sleeps (w : waiting) (k : Z → S → outcome S (call S))
| Gone.
Arguments Returns {S} v. Arguments Sleeps {S} w k. Arguments Gone {S}.

(** ** Constants of the kernel's headers and of [linux/] *)

Definition max_syscall_funcs_num : Z := 2048.
Definition ESPIPE : Z := 29.
Definition ENOSYS : Z := 38.
Definition EBADF : Z := 9.
Definition EAFNOSUPPORT : Z := 97.
Definition EAGAIN : Z := 11.
Definition F_DUPFD : Z := 0.
Definition F_GETFD : Z := 1.
Definition F_SETFD : Z := 2.
Definition F_GETFL : Z := 3.
Definition F_SETFL : Z := 4.
Definition F_DUPFD_CLOEXEC : Z := 1030.
Definition FD_CLOEXEC : Z := 1.
Definition O_APPEND : Z := 0x400.
Definition O_NONBLOCK : Z := 0x800.
Definition TCGETS : Z := 0x5401.
Definition TIOCGPGRP : Z := 0x540F.
Definition TIOCGWINSZ : Z := 0x5413.
Definition FUTEX_WAIT : Z := 0.
Definition sizeof_iovec : Z := 16.
Definition sizeof_sigaction : Z := 24.
Definition sizeof_sysinfo : Z := 112.

(** ** The clock, [hal/*/qemu/qemu.cc] *)

Definition qemu_fre : Z := 3125000.
Definition time_stamp_to_usec (ts : Z) : Z := u64 (ts * 8) / 25.
Definition usec_to_time_stamp (us : Z) : Z := u64 (us * 25) / 8.
Definition cycles_per_tick : Z := 200000.

Section calls.
Context `{Port} `{TrapHal} {A F : Type} `{PageAllocator A} `{Inode A F}.
Context (stk kbuf : Z).
Abbreviation K := (M (kernel A F)).
Abbreviation Call := (call (kernel A F)).

Definition ret (v : Z) : K Call := mret (Returns (u64 v)).
(** A blocking operation: its value, or where it sleeps. *)
Abbreviation Blocking := (K (Z + waiting)).
Definition await (m : Blocking) (k : Z → K Call) : K Call :=
  r ← m;
  match r with inl v => k v | inr w => mret (Sleeps w k) end.

(** * Arguments *)

Definition get_arg_from_trap_frame (tf n : Z) : K Z :=
  if (0 <=? n) && (n <=? 5) then mm (PT.load (tf + tf_a0 + 8 * n)) else panic.
Definition _arg_raw (n : Z) : K Z :=
  g ← get_cur_pcb; p ← pcb g; get_arg_from_trap_frame (_trapframe p) n.
Definition _arg_int (n : Z) : K Z := v ← _arg_raw n; mret (i32 v).
Definition _arg_addr (n : Z) : K Z := _arg_raw n.
(** The descriptor and its file, or [None] for -1. *)
Definition _arg_fd (n : Z) : K (option (Z * Z)) :=
  fd ← _arg_int n;
  g ← get_cur_pcb;
  p ← pcb g;
  match get_open_file p fd with Some f => mret (Some (fd, f)) | None => mret None end.

(** The page table of the current process, and copies through it. *)
Definition cur_pt : K PageTable := g ← get_cur_pcb; p ← pcb g; mret (_pt p).
Definition u_copy_in (dst va len : Z) : K Z := pt ← cur_pt; mm (Vmm.copy_in pt dst va (u64 len)).
Definition u_copyout (va p len : Z) : K Z := pt ← cur_pt; mm (Vmm.copyout pt va p (u64 len)).
(** The kernel's address of a user byte: [k_mem->to_vir( pt->walk_addr( va ) )]. *)
Definition user_ptr (va : Z) : K Z := pt ← cur_pt; pa ← mm (walk_addr pt va); mret (to_vir pa).

Definition _fetch_addr (addr : Z) : K (option Z) :=
  r ← u_copy_in stk addr 8;
  if r <? 0 then mret None else v ← mm (PT.load stk); mret (Some v).

(** Words and [int]s of kernel memory. *)
Definition load64 (a : Z) : K Z := mm (PT.load a).
Definition store64 (a v : Z) : K unit := mm (PT.store a v).
Definition load32 (a : Z) : K Z := klib (gets (λ m, i32 (le_combine (load_bytes m a 4)))).
Definition store32 (a v : Z) : K unit := local32 a v.

(** [new char[ n ]]: a negative size is undefined, as is the overflow of the
    [int] sum [n]. *)
Definition new_chars (n : Z) : K Z := if (n <? 0) || (2 ^ 31 <=? n) then stuck else mret kbuf.

(** * Reading and writing open files: the virtual functions of [fs::file] *)

(** [device_file::read] and [write]. *)
Definition device_read (f buf len off : Z) : K Z :=
  x ← ofile f;
  if negb (u_read (_attrs x)) then mret (-1)
  else match kind x with
       | device_file (Some d) => r ← vfs (nodeRead d buf off len); mret (i32 r)
       | _ => stuck
       end.
Definition device_write (f buf len off : Z) : K Z :=
  x ← ofile f;
  if negb (u_write (_attrs x)) then mret (-1)
  else match kind x with
       | device_file (Some d) => r ← vfs (nodeWrite d buf off len); mret (i32 r)
       | _ => stuck
       end.

(** [pipe_file::read] and [write]; the length becomes an [int]. *)
Definition pipe_file_read (q buf len : Z) : Blocking :=
  r ← KFile.read q buf (i32 len);
  match r with Done v => mret (inl v) | Asleep _ e => mret (inr (InPipeRead q buf (i32 len) e)) end.
Definition pipe_file_write (q buf len : Z) : Blocking :=
  r ← write_in_kernel q buf (i32 len);
  match r with Done v => mret (inl v) | Asleep i e => mret (inr (InPipeWrite q buf (i32 len) i e)) end.

Definition file_read (f buf len off : Z) (upgrade : bool) : Blocking :=
  x ← ofile f;
  match kind x with
  | pipe_file q _ => pipe_file_read q buf len
  | normal_file _ => r ← normal_read f buf len off upgrade; mret (inl r)
  | device_file _ => r ← device_read f buf len off; mret (inl r)
  end.
Definition file_write (f buf len off : Z) (upgrade : bool) : Blocking :=
  x ← ofile f;
  match kind x with
  | pipe_file q _ => pipe_file_write q buf len
  | normal_file _ => r ← normal_write f buf len off upgrade; mret (inl r)
  | device_file _ => r ← device_write f buf len off; mret (inl r)
  end.
Definition get_file_offset (f : Z) : K Z := x ← ofile f; mret (_file_ptr x).

Definition file_lseek (f offset whence : Z) : K Z :=
  x ← ofile f;
  match kind x with
  | pipe_file _ _ => mret (- ESPIPE)
  | device_file _ => mret (- EINVAL)
  | normal_file _ => normal_lseek f offset whence
  end.
Definition file_ftruncate (f len : Z) : K Z :=
  x ← ofile f;
  match kind x with normal_file _ => ftruncate f len | _ => mret 0 end.

(** [FileAttrs::transMode]. *)
Definition transMode (a : FileAttrs) : Z :=
  Z.lor (match filetype a with
         | FT_NORMAL => 0x8000 | FT_DIRECT => 0x4000 | FT_SYMLINK => 0xA000
         | FT_PIPE => 0x1000 | FT_DEVICE => 0x2000 | FT_NONE => 0
         end) (Z.land (attr_value a) 0x1ff).

(** * Reading and writing *)

(** The copy goes through a stream over one byte more than asked. *)
Definition _sys_write : K Call :=
  a ← _arg_fd 0;
  match a with
  | None => ret (-1)
  | Some (_, f) =>
      buf_addr ← _arg_addr 1;
      n ← _arg_int 2;
      buf ← new_chars (n + 10);
      pt ← cur_pt;
      us ← mm (UStream.us_open (UStream.us_new buf_addr (u64 (n + 1)) pt));
      mm (UStream.us_get buf (u64 (n + 1)) us);;
      off ← get_file_offset f;
      await (file_write f buf (u64 n) off true) ret
  end.

Fixpoint writev_loop (k : nat) (f iov_ptr i writebytes : Z) : K Call :=
  match k with
  | O => ret writebytes
  | S k' =>
      r ← u_copy_in stk (iov_ptr ⊞ i * sizeof_iovec) sizeof_iovec;
      if r <? 0 then ret (-1)
      else
        iov_base ← load64 stk;
        tempLength ← load32 (stk + 8);
        buf ← new_chars (tempLength + 10);
        r ← u_copy_in buf iov_base tempLength;
        if r <? 0 then ret (-1)
        else
          off ← get_file_offset f;
          await (file_write f buf (u64 tempLength) off true)
            (λ v, writev_loop k' f iov_ptr (i + 1) (writebytes ⊞ v))
  end.
Definition _sys_writev : K Call :=
  a ← _arg_fd 0;
  match a with
  | None => ret (-1)
  | Some (_, f) =>
      iov_ptr ← _arg_addr 1;
      iovcnt ← _arg_int 2;
      writev_loop (Z.to_nat iovcnt) f iov_ptr 0 0
  end.

(** After the read and the write: the offsets go back to the user. *)
Definition copy_range_end (off_in_addr off_out_addr off_in off_out readlen writeLen : Z) : K Call :=
  r ← (if negb (off_in_addr =? 0)
       then store64 stk (off_in ⊞ readlen);; u_copyout off_in_addr stk 8 else mret 0);
  if r <? 0 then ret (-1)
  else
    r ← (if negb (off_out_addr =? 0)
         then store64 (stk + 8) (off_out ⊞ writeLen);; u_copyout off_out_addr (stk + 8) 8 else mret 0);
    if r <? 0 then ret (-1) else ret readlen.
(** An offset of the call: the user's, or that of the file. *)
Definition range_offset (local addr f : Z) : K (option Z) :=
  if negb (addr =? 0) then
    r ← u_copy_in local addr 8;
    if r <? 0 then mret None else v ← load64 local; mret (Some v)
  else off ← get_file_offset f; mret (Some (u64 off)).
Definition _sys_copy_file_range : K Call :=
  a ← _arg_fd 0;
  b ← (match a with None => mret None | Some _ => _arg_fd 2 end);
  match a, b with
  | Some (_, fi), Some (_, fo) =>
      off_in_addr ← _arg_addr 1;
      off_out_addr ← _arg_addr 3;
      len ← _arg_int 4;
      _ ← _arg_addr 5;
      if len =? 0 then ret 0
      else
        oi ← range_offset stk off_in_addr fi;
        match oi with None => ret (-1) | Some off_in =>
        oo ← range_offset (stk + 8) off_out_addr fo;
        match oo with None => ret (-1) | Some off_out =>
          buf ← new_chars len;
          await (file_read fi buf (u64 len) (i64 off_in) (off_in_addr =? 0)) (λ readlen,
            await (file_write fo buf (u64 (i32 readlen)) (i64 off_out) (off_out_addr =? 0)) (λ writeLen,
              copy_range_end off_in_addr off_out_addr off_in off_out (i32 readlen) (i32 writeLen)))
        end end
  | _, _ => ret (-1)
  end.

(** The [uint64] result is never negative. *)
Definition _sys_ftruncate : K Call :=
  a ← _arg_fd 0;
  match a with
  | None => ret (-1)
  | Some (_, f) => len ← _arg_addr 1; file_ftruncate f len;; ret 0
  end.

Definition _sys_read : K Call :=
  a ← _arg_fd 0;
  match a with
  | None => ret (-1)
  | Some (_, f) =>
      buf ← _arg_addr 1;
      n ← _arg_int 2;
      if n <=? 0 then ret (-5)
      else
        k_buf ← new_chars (n + 1);
        off ← get_file_offset f;
        await (file_read f k_buf (u64 n) off true) (λ v,
          if i32 v <? 0 then ret (-6)
          else r ← u_copyout buf k_buf (i32 v); if r <? 0 then ret (-7) else ret (i32 v))
  end.

Fixpoint readv_loop (k : nat) (f iov_ptr i readbytes : Z) : K Call :=
  match k with
  | O => ret readbytes
  | S k' =>
      r ← u_copy_in stk (iov_ptr ⊞ i * sizeof_iovec) sizeof_iovec;
      if r <? 0 then ret (-1)
      else
        iov_base ← load64 stk;
        tempLength ← load32 (stk + 8);
        buf ← new_chars (tempLength + 1);
        off ← get_file_offset f;
        await (file_read f buf (u64 tempLength) off true) (λ v,
          if i32 v <? 0 then ret (-1)
          else
            r ← u_copyout iov_base buf (i32 v);
            if r <? 0 then ret (-1)
            else if i32 v <? tempLength then ret (readbytes ⊞ i32 v)
            else readv_loop k' f iov_ptr (i + 1) (readbytes ⊞ i32 v))
  end.
Definition _sys_readv : K Call :=
  a ← _arg_fd 0;
  match a with
  | None => ret (-1)
  | Some (_, f) =>
      iov_ptr ← _arg_addr 1;
      iovcnt ← _arg_int 2;
      readv_loop (Z.to_nat iovcnt) f iov_ptr 0 0
  end.

Definition _sys_pread64 : K Call :=
  a ← _arg_fd 0;
  match a with
  | None => ret (-1)
  | Some (_, f) =>
      buf ← _arg_addr 1;
      count ← _arg_int 2;
      offset ← _arg_addr 3;
      if count <=? 0 then ret (-6)
      else
        k_buf ← new_chars (count + 1);
        await (file_read f k_buf (u64 count) (i64 offset) false) (λ v,
          if i32 v <? 0 then ret (-7)
          else r ← u_copyout buf k_buf (i32 v); if r <? 0 then ret (-8) else ret (i32 v))
  end.

(** [sendfile]: the offset is read and written through a kernel address. *)
Definition add_offset (p_off n : Z) : K unit :=
  when (negb (p_off =? 0)) (v ← load64 p_off; store64 p_off (v ⊞ n)).
Definition _sys_sendfile : K Call :=
  a ← _arg_fd 0;
  match a with None => ret (-1) | Some (_, out_f) =>
  b ← _arg_fd 1;
  match b with None => ret (-2) | Some (_, in_f) =>
    addr ← _arg_addr 2;
    p_off ← (if negb (addr =? 0) then user_ptr addr else mret 0);
    count ← _arg_addr 3;
    off ← get_file_offset in_f;
    start_off ← (if negb (p_off =? 0) then load64 p_off else mret (u64 off));
    await (file_read in_f kbuf count (i64 start_off) true) (λ rd,
      let readcnt := i32 rd in
      x ← ofile out_f;
      let after v := add_offset p_off (i32 v);; ret (i32 v) in
      if bool_decide (filetype (_attrs x) = FT_PIPE) then
        match kind x with
        | pipe_file q _ => await (pipe_file_write q kbuf (u64 readcnt)) after
        | _ => stuck
        end
      else
        off ← get_file_offset out_f;
        await (file_write out_f kbuf (u64 readcnt) off true) after)
  end end.

(** [cur_proc->_ofile[ fd ]] without a range test. *)
Definition ofile_at (fd : Z) : K (option Z) :=
  if (fd <? 0) || (max_open_files <=? fd) then stuck
  else g ← get_cur_pcb; p ← pcb g; mret (_ofile p !! fd).

(** [splice] once the offsets are known; [addr] is where the new offset of the
    regular file goes. *)
Definition splice_end (addr off write_bytes : Z) : K Call :=
  when (0 <? write_bytes) (store32 stk (i32 (off + write_bytes));; u_copyout addr stk 4;; mret tt);;
  ret write_bytes.
Definition splice_from_pipe (fi fo addr off_out len : Z) : K Call :=
  if len <=? 0 then ret 0
  else
    buf ← new_chars len;
    await (file_read fi buf (u64 len) 0 true) (λ v,
      let read_bytes := i32 v in
      if read_bytes <=? 0 then ret read_bytes
      else await (file_write fo buf (u64 read_bytes) off_out false) (λ v, splice_end addr off_out (i32 v))).
Definition splice_to_pipe (fi fo addr off_in file_size len : Z) : K Call :=
  let remain := file_size - off_in in
  let actual_len := if remain <? len then remain else len in
  if actual_len <=? 0 then ret 0
  else
    buf ← new_chars actual_len;
    await (file_read fi buf (u64 actual_len) off_in false) (λ v,
      let read_bytes := i32 v in
      if read_bytes <=? 0 then ret read_bytes
      else await (file_write fo buf (u64 read_bytes) 0 true) (λ v, splice_end addr off_in (i32 v))).
(** The offset of the regular file: [None] when it cannot be read or is
    negative. *)
Definition splice_offset (addr : Z) : K (option Z) :=
  r ← u_copy_in stk addr 4;
  if r <? 0 then mret None
  else off ← load32 stk; if off <? 0 then mret None else mret (Some off).
Definition _sys_splice : K Call :=
  fd_in ← _arg_int 0;
  off_in_addr ← _arg_addr 1;
  fd_out ← _arg_int 2;
  off_out_addr ← _arg_addr 3;
  len ← _arg_int 4;
  _ ← _arg_int 5;
  a ← ofile_at fd_in;
  b ← ofile_at fd_out;
  match a, b with
  | Some fi, Some fo =>
      x ← ofile fi;
      y ← ofile fo;
      let in_is_pipe := bool_decide (filetype (_attrs x) = FT_PIPE) in
      let out_is_pipe := bool_decide (filetype (_attrs y) = FT_PIPE) in
      if negb (xorb in_is_pipe out_is_pipe) then ret (-1)
      else if in_is_pipe then
        if negb (off_in_addr =? 0) || (off_out_addr =? 0) then ret (-1)
        else
          o ← splice_offset off_out_addr;
          match o with
          | None => ret (-1)
          | Some off_out => splice_from_pipe fi fo off_out_addr off_out len
          end
      else
        if (off_in_addr =? 0) || negb (off_out_addr =? 0) then ret (-1)
        else
          o ← splice_offset off_in_addr;
          match o with
          | None => ret (-1)
          | Some off_in =>
              let file_size := i32 (_stat_size x) in
              if file_size <=? off_in then ret 0
              else splice_to_pipe fi fo off_in_addr off_in file_size len
          end
  | _, _ => ret (-1)
  end.

(** * Descriptors *)

Definition _sys_dup : K Call :=
  g ← get_cur_pcb;
  a ← _arg_fd 0;
  match a with
  | None => ret (-1)
  | Some (_, f) =>
      fd ← alloc_fd g f;
      if fd <? 0 then ret (-1) else file_dup f;; ret fd
  end.

Definition _sys_dup2 : K Call :=
  g ← get_cur_pcb;
  a ← _arg_fd 0;
  match a with
  | None => ret (-1)
  | Some (oldfd, f) =>
      fd ← _arg_int 1;
      if fd =? oldfd then ret fd
      else
        o ← ofile_at fd;
        (match o with Some _ => Proc.close fd;; mret tt | None => mret tt end);;
        r ← alloc_fd_at g (Some f) fd;
        if r <? 0 then ret (-1) else file_dup f;; ret fd
  end.

Definition _sys_close : K Call := fd ← _arg_int 0; r ← Proc.close fd; ret r.

Definition _sys_lseek : K Call :=
  fd ← _arg_int 0;
  offset ← _arg_int 1;
  whence ← _arg_int 2;
  g ← get_cur_pcb;
  p ← pcb g;
  match get_open_file p fd with
  | None => ret (-1)
  | Some f => r ← file_lseek f offset whence; ret r
  end.

Definition _sys_pipe : K Call :=
  addr ← _arg_addr 0;
  r ← u_copy_in stk addr 8;
  if r <? 0 then ret (-1)
  else
    o ← make_pipe;
    match o with
    | None => ret (-1)
    | Some (fd0, fd1) =>
        store32 stk fd0;;
        store32 (stk + 4) fd1;;
        r ← u_copyout addr stk 8;
        if r <? 0 then ret (-1) else ret 0
    end.

(** The loop of [F_DUPFD]: the last descriptor tried, or -1. *)
Fixpoint dupfd_loop (k : nat) (g : nat) (f i retfd : Z) : K Z :=
  match k with
  | O => mret retfd
  | S k' =>
      r ← alloc_fd_at g (Some f) i;
      if r =? i then on_file f (λ x, x <| refcnt := u32 (refcnt x + 1) |>);; mret r
      else dupfd_loop k' g f (i + 1) r
  end.
Definition dupfd (g : nat) (f arg : Z) : K Z :=
  let i := i32 arg in dupfd_loop (Z.to_nat (max_open_files - i)) g f i (-1).
(** [F_SETFL] tests the local [arg] without having read it. *)
Definition _sys_fcntl : K Call :=
  g ← get_cur_pcb;
  a ← _arg_fd 0;
  match a with
  | None => ret (-1)
  | Some (_, f) =>
      op ← _arg_int 1;
      if op =? F_SETFD then
        arg ← _arg_addr 2;
        when (flag arg FD_CLOEXEC) (on_file f (λ x, x <| _fl_cloexec := true |>));; ret 0
      else if op =? F_DUPFD then
        arg ← _arg_addr 2; r ← dupfd g f arg; ret r
      else if op =? F_DUPFD_CLOEXEC then
        arg ← _arg_addr 2;
        r ← dupfd g f arg;
        p ← pcb g;
        h ← deref (get_open_file p r);
        on_file h (λ x, x <| _fl_cloexec := true |>);; ret r
      else if op =? F_GETFL then x ← ofile f; ret (transMode (_attrs x))
      else if op =? F_GETFD then ret 0
      else if op =? F_SETFL then
        arg ← load64 stk;
        x ← ofile f;
        when ((flag arg O_NONBLOCK || flag arg O_APPEND) && bool_decide (filetype (_attrs x) = FT_NORMAL))
          (setAppend f);;
        ret 0
      else ret (-1)
  end.

Definition _sys_ioctl : K Call :=
  a ← _arg_fd 0;
  match a with
  | None => ret (-1)
  | Some (_, f) =>
      x ← ofile f;
      if negb (bool_decide (filetype (_attrs x) = FT_DEVICE)) then ret (-1)
      else
        cmd ← _arg_int 1;
        let cmd := Z.land (u32 cmd) 0xFFFF in
        arg ← _arg_addr 2;
        if cmd =? TCGETS then user_ptr arg;; ret 0
        else if cmd =? TIOCGPGRP then p ← user_ptr arg; store32 p 1;; ret 0
        else if cmd =? TIOCGWINSZ then
          klib (modify (λ m, store_bytes m stk (le_split 2 24 ++ le_split 2 80)));;
          r ← u_copyout arg stk 8;
          if r <? 0 then ret (-1) else ret 0
        else ret 0
  end.

(** * Processes *)

Definition _sys_exit : K Call := n ← _arg_int 0; exit stk n;; mret Gone.
Definition _sys_exit_group : K Call := status ← _arg_int 0; exit_group stk status;; mret Gone.
Definition _sys_clone : K Call := ret (-1).
Definition _sys_fork : K Call :=
  flags ← _arg_int 0;
  stack ← _arg_addr 1;
  parent_tid ← _arg_addr 2;
  _ ← _arg_addr 3;
  tls ← _arg_addr 4;
  r ← clone stk flags stack parent_tid tls;
  ret r.
Definition _sys_clone3 : K Call := _arg_addr 0;; _arg_addr 1;; ret (- ENOSYS).
Definition _sys_getpid : K Call := g ← get_cur_pcb; p ← pcb g; ret (u32 (_pid p)).
Definition _sys_getppid : K Call :=
  g ← get_cur_pcb;
  p ← pcb g;
  match parent p with Some q => r ← pcb q; ret (u32 (_pid r)) | None => ret 0 end.
Definition _sys_gettid : K Call := g ← get_cur_pcb; p ← pcb g; ret (_pid p).
Definition _sys_kill : K Call :=
  pid ← _arg_int 0;
  sig ← _arg_int 1;
  if (sig <? 0) || (64 <? sig) then ret (-3) else r ← kill pid sig; ret r.
Definition _sys_tgkill : K Call := ret 0.
Definition wait_blocking (pid addr : Z) : Blocking :=
  r ← wait stk pid addr;
  match r with Done v => mret (inl v) | Asleep _ e => mret (inr (InWait stk pid addr e)) end.
Definition _sys_wait : K Call :=
  pid ← _arg_int 0;
  wstatus_addr ← _arg_addr 1;
  await (wait_blocking pid wstatus_addr) ret.
Definition _sys_sched_yield : K Call :=
  await (e ← yield_out; mret (inr (InYield e))) (λ _, ret 0).

Definition _sys_set_tid_address : K Call :=
  addr ← _arg_addr 0;
  tidptr ← user_ptr addr;
  if tidptr =? 0 then ret (-10) else r ← set_tid_address tidptr; ret r.
Definition _sys_set_robust_list : K Call :=
  addr ← _arg_addr 0;
  hd ← user_ptr addr;
  if hd =? 0 then ret (-10) else len ← _arg_addr 1; r ← set_robust_list hd len; ret r.

(** The old limit is written before the new one is read. *)
Definition _sys_prlimit64 : K Call :=
  pid ← _arg_int 0;
  rsrc ← _arg_int 1;
  new_limit ← _arg_addr 2;
  old_limit ← _arg_addr 3;
  nlim ← (if negb (new_limit =? 0) then user_ptr new_limit else mret 0);
  olim ← (if negb (old_limit =? 0) then user_ptr old_limit else mret 0);
  '(r, old) ← prlimit64 pid rsrc None;
  match old with
  | None => ret r
  | Some l =>
      when (negb (olim =? 0)) (store64 olim (rlim_cur l);; store64 (olim + 8) (rlim_max l));;
      if negb (nlim =? 0) then
        cur ← load64 nlim;
        max ← load64 (nlim + 8);
        '(r, _) ← prlimit64 pid rsrc (Some (mkRlimit cur max));
        ret r
      else ret r
  end.

Definition _sys_setgid : K Call := v ← _arg_int 0; r ← set_gid v; ret r.
Definition _sys_setuid : K Call := v ← _arg_int 0; r ← set_uid v; ret r.
Definition _sys_getpgid : K Call := _arg_int 0;; ret 0.
Definition _sys_setpgid : K Call := _arg_int 0;; _arg_int 1;; ret 0.
Definition _sys_getuid : K Call := ret 0.
Definition _sys_geteuid : K Call := ret 0.
Definition _sys_getgid : K Call := ret 0.
Definition _sys_getegid : K Call := ret 0.

(** * Signals *)

(** With no new action the call stores the uninitialised local [a_newact]; the
    old action is asked for only then. *)
Definition load_sigaction (a : Z) : K sigaction :=
  h ← load64 a; f ← load64 (a + 8); m ← load64 (a + 16); mret (mkSigaction h f m).
Definition store_sigaction (a : Z) (x : sigaction) : K unit :=
  store64 a (sa_handler x);; store64 (a + 8) (sa_flags x);; store64 (a + 16) (sa_mask x).
Definition old_action (oldactaddr ret_ : Z) (old : sigaction) : K Call :=
  if (ret_ =? 0) && negb (oldactaddr =? 0) then
    store_sigaction (stk + sizeof_sigaction) old;;
    r ← u_copyout oldactaddr (stk + sizeof_sigaction) sizeof_sigaction;
    if r <? 0 then ret (-1) else ret ret_
  else ret ret_.
Definition _sys_sigaction : K Call :=
  sig ← _arg_int 0;
  newactaddr ← _arg_addr 1;
  oldactaddr ← _arg_addr 2;
  if negb (newactaddr =? 0) then
    r ← u_copy_in stk newactaddr sizeof_sigaction;
    if r <? 0 then ret (-1)
    else
      a_newact ← load_sigaction stk;
      '(r, _) ← sigAction sig (Some a_newact);
      old_action oldactaddr r (mkSigaction 0 0 0)
  else
    a_newact ← load_sigaction stk;
    '(r, old) ← sigAction sig (Some a_newact);
    old_action oldactaddr r (default (mkSigaction 0 0 0) old).

Definition _sys_sigprocmask : K Call :=
  how ← _arg_int 0;
  setaddr ← _arg_addr 1;
  oldsetaddr ← _arg_addr 2;
  sigsize ← _arg_int 3;
  r ← (if negb (setaddr =? 0) then u_copy_in stk setaddr sigset_size else mret 0);
  if r <? 0 then ret (-1)
  else
    set ← load64 stk;
    '(ans, old) ← sigprocmask how (if negb (setaddr =? 0) then Some set else None) (u64 sigsize);
    match old with
    | Some m =>
        if (0 <=? ans) && negb (oldsetaddr =? 0) then
          store64 (stk + 8) m;;
          r ← u_copyout oldsetaddr (stk + 8) sigset_size;
          if r <? 0 then ret (-1) else ret ans
        else ret ans
    | None => ret ans
    end.
Definition _sys_rt_sigtimedwait : K Call := ret 0.

(** The process sleeps holding its own lock, on an address no call wakes; the
    lock is not released afterwards. *)
Definition futex_sleep (uaddr : Z) : Blocking :=
  g ← get_cur_pcb;
  acquire (ProcLock g);;
  e ← sleep_out (AtUser uaddr) (ProcLock g);
  mret (inr (InFutex e)).
Definition _sys_futex : K Call :=
  uaddr ← _arg_addr 0;
  op ← _arg_int 1;
  val ← _arg_int 2;
  _ ← _arg_addr 3;
  _ ← _arg_addr 4;
  _ ← _arg_int 5;
  if Z.land op 0x7f =? FUTEX_WAIT then
    r ← u_copy_in stk uaddr 4;
    if r <? 0 then ret (-1)
    else
      expected_val ← load32 stk;
      if negb (expected_val =? val) then ret (- EAGAIN)
      else await (futex_sleep uaddr) (λ _, ret 0)
  else ret 0.

(** * Memory *)

Definition _sys_brk : K Call := n ← _arg_addr 0; r ← brk (i64 n); ret r.
Definition _sys_mmap : K Call :=
  _ ← _arg_addr 0;
  map_size ← _arg_addr 1;
  prot_ ← _arg_int 2;
  flags ← _arg_int 3;
  fd ← _arg_int 4;
  _ ← _arg_addr 5;
  r ← mmap kbuf fd prot_ flags (i32 map_size);
  ret r.
Definition _sys_mremap : K Call :=
  oldaddr ← _arg_addr 0;
  oldsize ← _arg_int 1;
  newsize ← _arg_int 2;
  _ ← _arg_int 3;
  r ← mremap kbuf oldaddr (u64 oldsize) (u64 newsize);
  ret r.
Definition _sys_munmap : K Call :=
  start ← _arg_addr 0;
  len ← _arg_addr 1;
  r ← munmap start len;
  ret r.
Definition _sys_mprotect : K Call := ret 0.
Definition _sys_madvise : K Call := ret 0.

(** * Time *)

Definition sleep_from_tv (tv_sec tv_usec : Z) : Blocking :=
  let n := (u64 (tv_sec * qemu_fre) ⊞ usec_to_time_stamp tv_usec) / cycles_per_tick in
  r ← sleep_n_ticks (i32 n);
  match r with Done v => mret (inl v) | Asleep t e => mret (inr (InTicks t (i32 n) e)) end.
Definition _sys_sleep : K Call :=
  tv_addr ← _arg_addr 0;
  r ← u_copy_in stk tv_addr 16;
  if r <? 0 then ret (-1)
  else
    tv_sec ← load64 stk;
    tv_usec ← load64 (stk + 8);
    await (sleep_from_tv tv_sec tv_usec) ret.
(** The locals [dur] and [rem]; [tv_nsec] is signed. *)
Definition _sys_nanosleep : K Call :=
  _ ← _arg_int 0;
  _ ← _arg_int 1;
  dur_addr ← _arg_addr 2;
  rem_addr ← _arg_addr 3;
  r ← (if negb (dur_addr =? 0) then u_copy_in stk dur_addr 16 else mret 0);
  if r <? 0 then ret (-1)
  else
    r ← (if negb (rem_addr =? 0) then u_copy_in (stk + 16) rem_addr 16 else mret 0);
    if r <? 0 then ret (-1)
    else
      tv_sec ← load64 stk;
      tv_nsec ← load64 (stk + 8);
      await (sleep_from_tv tv_sec (u64 (Z.quot (i64 tv_nsec) 1000))) (λ _, ret 0).
(** [now] is the hardware's time stamp. *)
Definition get_time_val (now : Z) : K (Z * Z) :=
  acquire TimerLock;;
  s ← get;
  let t_val := now ⊞ u64 (_ticks s * cycles_per_tick) in
  release TimerLock;;
  mret (t_val / qemu_fre, time_stamp_to_usec (t_val mod qemu_fre)).
Definition _sys_gettimeofday (now : Z) : K Call :=
  tv_addr ← _arg_addr 0;
  '(tv_sec, tv_usec) ← get_time_val now;
  store64 stk tv_sec;;
  store64 (stk + 8) tv_usec;;
  r ← u_copyout tv_addr stk 16;
  if r <? 0 then ret (-1) else ret 0.
Definition _sys_times : K Call :=
  tms_addr ← _arg_addr 0;
  '(ut, st, cu, cs) ← get_cur_proc_tms;
  store64 stk ut;; store64 (stk + 8) st;; store64 (stk + 16) cu;; store64 (stk + 24) cs;;
  r ← u_copyout tms_addr stk 32;
  if r <? 0 then ret (-1) else s ← get; ret (_ticks s).

(** * Information *)

Definition _sys_getcwd : K Call :=
  buf ← _arg_addr 0;
  size ← _arg_int 1;
  if 256 <=? size then ret (-1)
  else
    g ← get_cur_pcb;
    p ← pcb g;
    klib (modify (λ m, store_bytes m stk (_cwd_name p ++ [0])));;
    r ← u_copyout buf stk (u32 (Z.of_nat (length (_cwd_name p)) + 1));
    if r <? 0 then ret (-1) else ret buf.

(** The sizes of the six strings, and their offsets in the structure. *)
Definition uts_sizes : list Z := [6; 12; 7; 35; 17; 14].
Fixpoint uname_loop (rodata : nat → Z) (usta : Z) (i : nat) (sizes : list Z) : K Call :=
  match sizes with
  | [] => ret 0
  | n :: sizes' =>
      r ← u_copyout (usta ⊞ 65 * Z.of_nat i) (rodata i) n;
      if r <? 0 then ret (-1) else uname_loop rodata usta (S i) sizes'
  end.
(** [rodata i]: the address of the [i]-th string constant. *)
Definition _sys_uname (rodata : nat → Z) : K Call :=
  usta ← _arg_addr 0; uname_loop rodata usta 0 uts_sizes.

Definition _sys_sysinfo : K Call :=
  sysinfoaddr ← _arg_addr 0;
  klib (Klib.memset stk 0 sizeof_sysinfo);;
  store32 (stk + 104) 1;;
  r ← u_copyout sysinfoaddr stk sizeof_sysinfo;
  if r <? 0 then ret (-1) else ret 0.

Definition random_word : Z := 0x42494C474B435546.
Fixpoint random_loop (fuel : nat) (buf i n : Z) : K unit :=
  match fuel with
  | O => spin
  | S f =>
      if i <? n then
        let copy_size := if i + 8 <=? n then 8 else n - i in
        klib (Klib.memcpy (buf + i) stk copy_size);;
        random_loop f buf (i + 8) n
      else mret tt
  end.
(** The length comes from argument 2, over that of argument 1. *)
Definition _sys_getrandom : K Call :=
  bufaddr ← _arg_addr 0;
  _ ← _arg_int 1;
  buflen ← _arg_int 2;
  if (bufaddr =? 0) && (buflen =? 0) then ret (-1)
  else
    k_buf ← new_chars buflen;
    store64 stk random_word;;
    random_loop (S (Z.to_nat buflen)) k_buf 0 buflen;;
    r ← u_copyout bufaddr k_buf buflen;
    if r <? 0 then ret (-1) else ret buflen.

(** * Sockets: the arguments are read, the call fails *)

Definition arg_kinds (l : list bool) : K unit :=
  for_each (zip (seqZ 0 6) l) (λ '(n, is_int), (if is_int : bool then _arg_int n else _arg_addr n);; mret tt).
Definition _sys_socket : K Call := arg_kinds [true; true; true];; ret (- EAFNOSUPPORT).
Definition _sys_bind : K Call := arg_kinds [true; false; true];; ret (- EBADF).
Definition _sys_listen : K Call := arg_kinds [true; true];; ret (- EBADF).
Definition _sys_accept : K Call := arg_kinds [true; false; false];; ret (- EBADF).
Definition _sys_connect : K Call := arg_kinds [true; false; true];; ret (- EBADF).
Definition _sys_getsockname : K Call := arg_kinds [true; false; false];; ret (- EBADF).
Definition _sys_sendto : K Call := arg_kinds [true; false; true; true; false; true];; ret (- EBADF).
Definition _sys_recvfrom : K Call := arg_kinds [true; false; true; true; false; false];; ret (- EBADF).
Definition _sys_setsockopt : K Call := arg_kinds [true; true; true; false; true];; ret (- EBADF).

(** * The table of handlers *)

(** [enum SyscallNumber]. *)
Definition SyscallNumber : list (string * Z) :=
  [("getcwd", 17); ("dup", 23); ("dup2", 24); ("fcntl", 25); ("ioctl", 29); ("mkdir", 34);
   ("unlinkat", 35); ("umount", 39); ("mount", 40); ("statfs", 43); ("faccessat", 48); ("chdir", 49);
   ("openat", 56); ("close", 57); ("pipe", 59); ("getdents", 61); ("lseek", 62); ("read", 63);
   ("write", 64); ("writev", 66); ("pread64", 67); ("sendfile", 71); ("ppoll", 73); ("splice", 76);
   ("readlinkat", 78); ("fstatat", 79); ("fstat", 80); ("utimensat", 88); ("exit", 93); ("exit_group", 94);
   ("set_tid_address", 96); ("set_robust_list", 99); ("sleep", 101); ("clock_gettime", 113);
   ("nanosleep", 115); ("syslog", 116); ("sched_yield", 124); ("kill", 129); ("sigaction", 134);
   ("sigprocmask", 135); ("setgid", 144); ("setuid", 146); ("times", 153); ("setpgid", 154);
   ("getpgid", 155); ("uname", 160); ("getrusage", 165); ("gettimeofday", 169); ("getpid", 172);
   ("getppid", 173); ("getuid", 174); ("geteuid", 175); ("getgid", 176); ("getegid", 177); ("gettid", 178);
   ("sysinfo", 179); ("brk", 214); ("munmap", 215); ("mremap", 216); ("clone", 220); ("fork", 220);
   ("execve", 221); ("mmap", 222); ("mprotect", 226); ("madvise", 233); ("wait", 260); ("prlimit64", 261);
   ("renameat2", 276); ("getrandom", 278); ("statx", 291); ("poweroff", 2024); ("tgkill", 131);
   ("readv", 65); ("rt_sigtimedwait", 137); ("futex", 98); ("socket", 198); ("bind", 200); ("listen", 201);
   ("accept", 202); ("connect", 203); ("getsockname", 204); ("sendto", 206); ("recvfrom", 207);
   ("setsockopt", 208); ("clone3", 435); ("copy_file_range", 285); ("ftruncate", 46)].
Fixpoint sys_num (l : list (string * Z)) (name : string) : Z :=
  match l with
  | [] => 0
  | (x, n) :: l' => if bool_decide (x = name) then n else sys_num l' name
  end.
Abbreviation SYS := (sys_num SyscallNumber).

(** The bindings of [init], in its order; [None] for a handler that is not
    modelled. *)
Definition bindings (now : Z) (rodata : nat → Z) : list (string * option (K Call)) :=
  [("write", Some _sys_write); ("read", Some _sys_read); ("exit", Some _sys_exit);
   ("clone", Some _sys_clone); ("fork", Some _sys_fork); ("clone3", Some _sys_clone3);
   ("getpid", Some _sys_getpid); ("getppid", Some _sys_getppid); ("brk", Some _sys_brk); ("execve", None);
   ("wait", Some _sys_wait); ("poweroff", None); ("dup", Some _sys_dup); ("dup2", Some _sys_dup2);
   ("getcwd", Some _sys_getcwd); ("gettimeofday", Some (_sys_gettimeofday now));
   ("sched_yield", Some _sys_sched_yield); ("sleep", Some _sys_sleep); ("times", Some _sys_times);
   ("uname", Some (_sys_uname rodata)); ("openat", None); ("close", Some _sys_close); ("fstat", None);
   ("getdents", None); ("mkdir", None); ("chdir", None); ("mount", None); ("umount", None);
   ("mmap", Some _sys_mmap); ("munmap", Some _sys_munmap); ("statx", None); ("unlinkat", None);
   ("pipe", Some _sys_pipe); ("set_tid_address", Some _sys_set_tid_address);
   ("set_robust_list", Some _sys_set_robust_list); ("prlimit64", Some _sys_prlimit64);
   ("clock_gettime", None); ("mprotect", Some _sys_mprotect); ("getuid", Some _sys_getuid);
   ("readlinkat", None); ("getrandom", Some _sys_getrandom); ("sigaction", Some _sys_sigaction);
   ("ioctl", Some _sys_ioctl); ("fcntl", Some _sys_fcntl); ("getpgid", Some _sys_getpgid);
   ("setpgid", Some _sys_setpgid); ("geteuid", Some _sys_geteuid); ("getegid", Some _sys_getegid);
   ("ppoll", None); ("getgid", Some _sys_getgid); ("setgid", Some _sys_setgid);
   ("setuid", Some _sys_setuid); ("gettid", Some _sys_gettid); ("fstatat", None);
   ("sendfile", Some _sys_sendfile); ("exit_group", Some _sys_exit_group); ("statfs", None);
   ("syslog", None); ("faccessat", None); ("madvise", Some _sys_madvise); ("mremap", Some _sys_mremap);
   ("sysinfo", Some _sys_sysinfo); ("nanosleep", Some _sys_nanosleep); ("getrusage", None);
   ("utimensat", None); ("lseek", Some _sys_lseek); ("splice", Some _sys_splice);
   ("sigprocmask", Some _sys_sigprocmask); ("kill", Some _sys_kill); ("writev", Some _sys_writev);
   ("pread64", Some _sys_pread64); ("tgkill", Some _sys_tgkill); ("renameat2", None);
   ("readv", Some _sys_readv); ("rt_sigtimedwait", Some _sys_rt_sigtimedwait); ("futex", Some _sys_futex);
   ("socket", Some _sys_socket); ("bind", Some _sys_bind); ("listen", Some _sys_listen);
   ("accept", Some _sys_accept); ("connect", Some _sys_connect); ("getsockname", Some _sys_getsockname);
   ("sendto", Some _sys_sendto); ("recvfrom", Some _sys_recvfrom); ("setsockopt", Some _sys_setsockopt);
   ("copy_file_range", Some _sys_copy_file_range); ("ftruncate", Some _sys_ftruncate)].
(** [BIND_SYSCALL]: a later binding of a number replaces an earlier one. *)
Definition BIND_SYSCALL (tbl : Z → option (K Call)) (b : string * option (K Call)) : Z → option (K Call) :=
  λ n, if n =? SYS b.1 then b.2 else tbl n.
(** [init]: every entry returns 0 before it is bound. *)
Definition _syscall_funcs (now : Z) (rodata : nat → Z) : Z → option (K Call) :=
  foldl BIND_SYSCALL (λ _, Some (ret 0)) (bindings now rodata).
(** The table has [max_syscall_funcs_num] entries. *)
Definition invoke_syscaller (now : Z) (rodata : nat → Z) (n : Z) : option (K Call) :=
  if (n <? 0) || (max_syscall_funcs_num <=? n) then Some stuck else _syscall_funcs now rodata n.

(** * The trap *)

(** The return value goes to the user's first argument register. *)
Definition finish (c : Call) : K unit :=
  match c with
  | Returns v => g ← get_cur_pcb; p ← pcb g; set_trap_frame_return_value (_trapframe p) v
  | _ => mret tt
  end.
(** [ExceptionManager::_syscall], up to the end of the call or to a switch: a
    process that was killed exits, the program counter moves past the trap,
    interrupts are enabled, and the number in [a7] selects the handler.  [None]
    for a call that is not modelled. *)
Definition _syscall (now : Z) (rodata : nat → Z) : K (option Call) :=
  g ← get_cur_pcb;
  p ← pcb g;
  let tf := _trapframe p in
  if is_killed p then exit_proc stk g (-1);; mret (Some Gone)
  else
    epc ← load64 (tf + tf_entry);
    set_trap_frame_entry tf (epc ⊞ 4);;
    on_cpu (λ c, c <| interruptible := true |>);;
    num ← load64 (tf + tf_a0 + 56);
    if (0 <? num) && (num <? max_syscall_funcs_num) then
      match invoke_syscaller now rodata num with
      | Some h => c ← h; finish c;; mret (Some c)
      | None => mret None
      end
    else finish (Returns (u64 (-1)));; mret (Some (Returns (u64 (-1)))).

(** The rest of a blocking operation after the switch back. *)
Definition resume_wait (w : waiting) : Blocking :=
  match w with
  | InPipeRead q addr n e =>
      r ← read_resume q addr n e;
      match r with Done v => mret (inl v) | Asleep _ e => mret (inr (InPipeRead q addr n e)) end
  | InPipeWrite q addr n i e =>
      r ← pipe_write_resume (fetch_kernel addr) q n i e;
      match r with Done v => mret (inl v) | Asleep i e => mret (inr (InPipeWrite q addr n i e)) end
  | InWait l pid addr e =>
      r ← wait_resume l pid addr e;
      match r with Done v => mret (inl v) | Asleep _ e => mret (inr (InWait l pid addr e)) end
  | InTicks t n e =>
      r ← sleep_n_ticks_resume t n e;
      match r with Done v => mret (inl v) | Asleep t e => mret (inr (InTicks t n e)) end
  | InYield e => yield_in e;; mret (inl 0)
  | InFutex e => g ← get_cur_pcb; sleep_in e (ProcLock g);; mret (inl 0)
  end.
(** The rest of a system call: until it returns or sleeps again. *)
Definition resume (w : waiting) (k : Z → K Call) : K Call :=
  r ← resume_wait w;
  match r with
  | inl v => c ← k v; finish c;; mret c
  | inr w => mret (Sleeps w k)
  end.

End calls.
End Syscall.
