(* ===== verification/KBalance.v ===== *)
(** Which locks a call holds: [lk g Hs m Q] says that if [m], run by process [g]
    with the locks [Hs] held, returns [b], it holds the locks [Q b] and [g] is
    still the current process.  A call is [quiet] when it holds the same locks
    before and after.  Every operation of the process manager is quiet, apart
    from those that put their process to sleep, which hold its lock alone. *)

From Stdlib Require Import ZArith Lia.
From stdpp Require Import base numbers gmap list.
From S2P Require Import Prelude Page Mem Klib Pmm PageTable Vmm Kbase Kernel KFile KLock Proc ProcLife.
Import Pmm PT Kernel KFile Proc Life.

Set Default Goal Selector "!".
Open Scope Z_scope.

Module KBalance.

Section logic.
Context {A F : Type}.
Abbreviation K := (M (kernel A F)).

Definition lk (g : nat) (Hs : gset lock) {B} (m : K B) (Q : B → gset lock) : Prop :=
  ∀ s, held s = Hs → _cur_proc (cpu s) = Some g →
    wlp m (λ b s', held s' = Q b ∧ _cur_proc (cpu s') = Some g) s.
Definition quiet {B} (m : K B) : Prop := ∀ g Hs, lk g Hs m (λ _, Hs).

Lemma lk_bind {B C} g Hs (m : K B) (k : B → K C) P Q :
  lk g Hs m P → (∀ b, lk g (P b) (k b) Q) → lk g Hs (m ≫= k) Q.
Proof.
  intros Hm Hk s E Ec. apply wlp_bind. apply (wlp_mono _ _ _ _ (Hm s E Ec)).
  intros b s' [E' Ec']. by apply Hk.
Qed.
Lemma lk_quiet_bind {B C} g Hs (m : K B) (k : B → K C) Q :
  quiet m → (∀ b, lk g Hs (k b) Q) → lk g Hs (m ≫= k) Q.
Proof. intros Hm Hk. apply (lk_bind _ _ _ _ (λ _, Hs)); [apply Hm|done]. Qed.
Lemma lk_weaken {B} g Hs (m : K B) P Q : lk g Hs m P → (∀ b, P b = Q b) → lk g Hs m Q.
Proof. intros Hm E s Es Ec. apply (wlp_mono _ _ _ _ (Hm s Es Ec)). intros b s' [-> ?]. by rewrite E. Qed.
Lemma lk_quiet {B} g Hs (m : K B) Q : quiet m → (∀ b, Hs = Q b) → lk g Hs m Q.
Proof. intros Hm E. by apply (lk_weaken _ _ _ _ _ (Hm g Hs)). Qed.
Lemma lk_ret {B} g Hs (b : B) Q : Hs = Q b → lk g Hs (mret b) Q.
Proof. by intros -> s E Ec. Qed.
Lemma lk_panic {B} g Hs Q : lk g Hs (@panic _ B) Q.
Proof. by intros s E Ec. Qed.
Lemma lk_stuck {B} g Hs Q : lk g Hs (@stuck _ B) Q.
Proof. by intros s E Ec. Qed.
Lemma lk_spin {B} g Hs Q : lk g Hs (@spin _ B) Q.
Proof. by intros s E Ec. Qed.

Lemma lk_acquire g Hs l : lk g Hs (acquire l) (λ _, {[l]} ∪ Hs).
Proof.
  intros s E Ec. unfold wlp. destruct (acquire l s) as [[] s'| | |] eqn:R; try done.
  destruct (decide (l ∈ held s)) as [Hin|Hin].
  - exfalso. revert R. unfold acquire, push_interrupt_off, on_cpu, is_held. krun.
    destruct (_num_off (cpu s) =? 0); cbn beta iota; rsimpl; by rewrite bool_decide_eq_true_2.
  - rewrite acquire_run in R by done. apply ret_inj in R as <-. unfold acquired. rsimpl. by rewrite E.
Qed.
Lemma acquired_new (l : lock) s : l ∈ held s → acquire (A := A) (F := F) l s = Panic.
Proof.
  intros Hin. unfold acquire, push_interrupt_off, on_cpu, is_held. krun.
  destruct (_num_off (cpu s) =? 0); cbn beta iota; rsimpl; by rewrite bool_decide_eq_true_2.
Qed.
(** After an acquire, the lock was free before. *)
Lemma lk_acquire_bind {C} g Hs l (k : unit → K C) Q :
  (l ∉ Hs → lk g ({[l]} ∪ Hs) (k tt) Q) → lk g Hs (acquire l ≫= k) Q.
Proof.
  intros Hk s E Ec. destruct (decide (l ∈ Hs)) as [Hin|Hin].
  - unfold wlp, mbind, M_bind. by rewrite acquired_new by (by rewrite E).
  - by apply (lk_bind g Hs (acquire l) k _ Q (lk_acquire g Hs l) (λ 'tt, Hk Hin)).
Qed.
Lemma lk_release g Hs l : lk g Hs (release l) (λ _, Hs ∖ {[l]}).
Proof.
  intros s E Ec. unfold wlp, release, pop_intterupt_off, on_cpu, is_held, when. krun.
  destruct (bool_decide (l ∈ held s)); cbn [negb]; cbn beta iota; rsimpl; [|done].
  destruct (interruptible (cpu s)); cbn beta iota; [done|].
  destruct (_num_off (cpu s) <? 1); cbn beta iota; rsimpl; [done|].
  destruct (_ && _); cbn beta iota; rsimpl; by rewrite E.
Qed.
Lemma lk_cur {C} g Hs (k : nat → K C) Q : lk g Hs (k g) Q → lk g Hs (get_cur_pcb ≫= k) Q.
Proof.
  intros Hk s E Ec. unfold wlp, mbind at 1, M_bind at 1, get_cur_pcb. krun. rewrite Ec. cbn. by apply Hk.
Qed.
Lemma lk_if {B} g Hs (b : bool) (m n : K B) Q : lk g Hs m Q → lk g Hs n Q → lk g Hs (if b then m else n) Q.
Proof. by destruct b. Qed.

(** ** Quiet primitives *)

Lemma quiet_get : quiet (@get (kernel A F)).
Proof. by intros g Hs s E Ec. Qed.
Lemma quiet_gets {B} (f : kernel A F → B) : quiet (gets f).
Proof. by intros g Hs s E Ec. Qed.
Lemma quiet_deref {B} (o : option B) : quiet (deref o : K B).
Proof. by destruct o; intros g Hs s E Ec. Qed.
Lemma quiet_assert b : quiet (assert b : K unit).
Proof. by destruct b; intros g Hs s E Ec. Qed.
Lemma quiet_when b (m : K unit) : quiet m → quiet (when b m).
Proof. destruct b; [done|]. by intros _ g Hs s E Ec. Qed.
Lemma quiet_modify f : (∀ s, held (f s) = held s ∧ _cur_proc (cpu (f s)) = _cur_proc (cpu s)) →
  quiet (modify f : K unit).
Proof. intros Hf g Hs s E Ec. destruct (Hf s) as [E1 E2]. unfold wlp, modify. by rewrite E1, E2. Qed.
Lemma quiet_pcb n : quiet (pcb n : K Pcb).
Proof. intros g Hs s E Ec. unfold wlp, pcb. krun. by destruct (k_proc_pool s !! n). Qed.
Lemma quiet_on_pcb n f : quiet (on_pcb n f : K unit).
Proof. intros g Hs s E Ec. unfold wlp, on_pcb, pcb. krun. by destruct (k_proc_pool s !! n). Qed.
Lemma quiet_cur : quiet (get_cur_pcb : K nat).
Proof. intros g Hs s E Ec. unfold wlp, get_cur_pcb. krun. by rewrite Ec. Qed.
Lemma quiet_held l : quiet (is_held l : K bool).
Proof. by intros g Hs s E Ec. Qed.
Lemma quiet_on_cpu f : (∀ c, _cur_proc (f c) = _cur_proc c) → quiet (on_cpu f : K unit).
Proof. intros Hf. apply quiet_modify. intros s. split; [done|]. rsimpl. apply Hf. Qed.
Lemma quiet_mm {B} (m : M (PhysicalMemoryManager A) B) : quiet (mm m : K B).
Proof. intros g Hs s E Ec. unfold wlp, mm, zoom. by destruct (m (k_mm s)). Qed.
Lemma quiet_vfs {B} (m : M (PhysicalMemoryManager A * F) B) : quiet (vfs m : K B).
Proof. intros g Hs s E Ec. unfold wlp, vfs, zoom. by destruct (m (k_mm s, k_fs s)) as [b []| | |]. Qed.
Lemma quiet_klib {B} (m : M mem B) : quiet (klib m : K B).
Proof. apply quiet_mm. Qed.
Lemma quiet_for_each {X} (l : list X) body : (∀ x, quiet (body x)) → quiet (for_each (A := A) (F := F) l body).
Proof.
  intros Hb. induction l as [|x l IH]; cbn [for_each]; intros g Hs; [by apply lk_ret|].
  apply lk_quiet_bind; [apply Hb|]. intros _. apply IH.
Qed.

End logic.

Create HintDb lk discriminated.
#[export] Hint Constants Opaque : lk.
#[export] Hint Variables Opaque : lk.
#[export] Hint Resolve quiet_get quiet_gets quiet_deref quiet_assert quiet_pcb quiet_on_pcb quiet_cur quiet_held
  quiet_mm quiet_vfs quiet_klib lk_panic lk_stuck lk_spin : lk.
#[export] Hint Extern 2 (quiet (modify _)) => (apply quiet_modify; by intros ?) : lk.
#[export] Hint Extern 2 (quiet (on_cpu _)) => (apply quiet_on_cpu; by intros ?) : lk.

(** Locks taken are given back. *)
Lemma taken_back (l : lock) (Hs : gset lock) : l ∉ Hs → ({[l]} ∪ Hs) ∖ {[l]} = Hs.
Proof. set_solver. Qed.
Ltac locks := first [reflexivity | by rewrite taken_back | set_solver].

(** Follow a computation call by call. *)
Ltac lk1 :=
  match goal with
  | |- quiet (for_each _ _) => apply quiet_for_each; intros ?
  | |- quiet (when _ _) => apply quiet_when
  | |- quiet _ => intros ? ?
  | |- lk _ _ (let _ := _ in _) _ => cbv zeta
  | |- lk _ _ (acquire _ ≫= _) _ => apply lk_acquire_bind; intros ?
  | |- lk _ _ (release _ ≫= _) _ => eapply lk_bind; [apply lk_release|intros ?; cbv beta]
  | |- lk _ _ (get_cur_pcb ≫= _) _ => apply lk_cur
  | |- lk _ _ (?m ≫= _) _ => apply lk_quiet_bind; [solve [lk0] | intros ?]
  | |- lk _ _ (mret _) _ => apply lk_ret; locks
  | |- lk _ _ (release _) _ => eapply lk_weaken; [apply lk_release|intros ?; locks]
  | |- lk _ _ (if _ then _ else _) _ => apply lk_if
  | |- lk _ _ (match ?x with _ => _ end) _ => destruct x
  | |- lk _ _ (when _ _) _ => apply lk_quiet; [apply quiet_when; solve [lk0] | intros ?; locks]
  | |- lk _ _ (for_each _ _) _ => apply lk_quiet; [apply quiet_for_each; intros ?; solve [lk0] | intros ?; locks]
  | |- lk _ _ _ _ => apply lk_quiet; [solve [eauto with lk] | intros ?; locks]
  end
with lk0 := repeat (first [solve [eauto with lk] | lk1]).
Section ops.
Context `{Port} `{TrapHal} {A F : Type} `{PageAllocator A} `{Inode A F}.
Abbreviation K := (M (kernel A F)).

(** ** Waking, pipes and files *)

Lemma quiet_wakeup ch : quiet (wakeup ch : K unit).
Proof. unfold wakeup, wakeup_one. lk0. Qed.
Lemma quiet_pipe q : quiet (pipe q : K Pipe).
Proof. unfold pipe. lk0. Qed.
Lemma quiet_on_pipe q f : quiet (on_pipe q f : K unit).
Proof. unfold on_pipe, pipe. lk0. Qed.
#[local] Hint Resolve quiet_wakeup quiet_pipe quiet_on_pipe : lk.
Lemma quiet_pipe_close q w : quiet (pipe_close q w : K unit).
Proof.
  unfold pipe_close. intros g Hs. apply lk_acquire_bind. intros Hq. apply lk_quiet_bind; [destruct w; lk0|intros _]. lk0.
Qed.
Lemma quiet_den d : quiet (den d : K dentry).
Proof. unfold den. lk0. Qed.
Lemma quiet_on_den d f : quiet (on_den d f : K unit).
Proof. unfold on_den, den. lk0. Qed.
#[local] Hint Resolve quiet_pipe_close quiet_den quiet_on_den : lk.
Lemma quiet_releaseDentryCache fuel : ∀ d, quiet (releaseDentryCache fuel d : K unit).
Proof.
  induction fuel as [|fuel IH]; intros d; cbn [releaseDentryCache]; intros g Hs; [apply lk_spin|].
  apply lk_quiet_bind; [apply quiet_den|intros x]. apply lk_if; [by apply lk_ret|].
  apply lk_quiet_bind; [destruct (d_parent x); lk0|intros _]. lk0.
Qed.
#[local] Hint Resolve quiet_releaseDentryCache : lk.
Lemma quiet_dentry_dup d : quiet (dentry_dup d : K unit).
Proof. unfold dentry_dup. lk0. Qed.
Lemma quiet_dentry_release d : quiet (dentry_release d : K unit).
Proof. unfold dentry_release. lk0. Qed.
Lemma quiet_ofile f : quiet (ofile f : K file).
Proof. unfold ofile. lk0. Qed.
Lemma quiet_on_file f g : quiet (on_file f g : K unit).
Proof. unfold on_file, ofile. lk0. Qed.
#[local] Hint Resolve quiet_dentry_dup quiet_dentry_release quiet_ofile quiet_on_file : lk.
Lemma quiet_file_dup f : quiet (file_dup f : K unit).
Proof. unfold file_dup, with_den. lk0. Qed.
Lemma quiet_with_den k act : (∀ d, quiet (act d : K unit)) → quiet (with_den k act).
Proof. intros Ha. unfold with_den. lk0. Qed.
#[local] Hint Resolve quiet_file_dup quiet_with_den : lk.
Lemma quiet_free_file f : quiet (free_file f : K unit).
Proof.
  unfold free_file. intros g Hs. apply lk_quiet_bind; [lk0|intros _]. apply lk_quiet_bind; [lk0|intros x].
  apply lk_quiet_bind; [lk0|intros _]. apply lk_quiet; [|done]. apply quiet_when. lk0.
Qed.
Lemma quiet_normal_write f b n o u : quiet (normal_write f b n o u : K Z).
Proof. unfold normal_write. lk0. Qed.
Lemma quiet_normal_read f b n o u : quiet (normal_read f b n o u : K Z).
Proof. unfold normal_read. lk0. Qed.
Lemma quiet_normal_lseek f o w : quiet (normal_lseek f o w : K Z).
Proof. unfold normal_lseek. lk0. Qed.
Lemma quiet_setAppend f : quiet (setAppend f : K unit).
Proof. unfold setAppend. lk0. Qed.
Lemma quiet_ftruncate f n : quiet (ftruncate f n : K Z).
Proof. unfold ftruncate. lk0. Qed.
Lemma quiet_new_object : quiet (new_object : K Z).
Proof. unfold new_object. lk0. Qed.
#[local] Hint Resolve quiet_free_file quiet_normal_write quiet_normal_read quiet_new_object : lk.
Lemma quiet_new_file a n k : quiet (new_file a n k : K Z).
Proof. unfold new_file. lk0. Qed.
Lemma quiet_new_pipe : quiet (new_pipe : K Z).
Proof. unfold new_pipe. lk0. Qed.
#[local] Hint Resolve quiet_new_file quiet_new_pipe : lk.
Lemma quiet_pipe_alloc q : quiet (pipe_alloc q : K (Z * Z)).
Proof. unfold pipe_alloc. lk0. Qed.
#[local] Hint Resolve quiet_pipe_alloc : lk.

(** ** Allocation and release of processes *)

Lemma quiet_proc_init pt : quiet (proc_init pt : K unit).
Proof. unfold proc_init. lk0. Qed.
Lemma quiet_proc_free pt : quiet (proc_free pt : K unit).
Proof. unfold proc_free. lk0. Qed.
Lemma quiet_create_vm_at g pt : quiet (proc_create_vm_at g pt : K unit).
Proof. unfold proc_create_vm_at. lk0. Qed.
#[local] Hint Resolve quiet_proc_init quiet_proc_free quiet_create_vm_at : lk.
Lemma quiet_create_vm g : quiet (proc_create_vm g : K unit).
Proof. unfold proc_create_vm. lk0. Qed.
Lemma quiet_ofile_close g i : quiet (ofile_close g i : K unit).
Proof. unfold ofile_close. lk0. Qed.
#[local] Hint Resolve quiet_create_vm quiet_ofile_close : lk.
Lemma quiet_free_space g : quiet (free_space g : K unit).
Proof. unfold free_space, free_sections, pt_freewalk. lk0. Qed.
#[local] Hint Resolve quiet_free_space : lk.
Lemma quiet_freeproc g : quiet (freeproc g : K unit).
Proof. unfold freeproc. lk0. Qed.
Lemma quiet_alloc_pid g : quiet (alloc_pid g : K unit).
Proof.
  unfold alloc_pid. intros c Hs. apply lk_acquire_bind. intros Hl. apply lk_quiet_bind; [lk0|intros s].
  apply lk_quiet_bind; [lk0|intros _]. apply lk_quiet_bind; [destruct (_ =? _); lk0|intros _]. lk0.
Qed.
#[local] Hint Resolve quiet_freeproc quiet_alloc_pid : lk.

(** A slot is given back to the table unlocked. *)
Lemma lk_claim c Hs g : lk c Hs (claim_slot g : K (option nat)) (λ _, Hs ∖ {[ProcLock g]}).
Proof. unfold claim_slot. lk0. Qed.
Lemma lk_give_up c Hs g : lk c Hs (give_up_slot g : K (option nat)) (λ _, Hs ∖ {[ProcLock g]}).
Proof. unfold give_up_slot. lk0. Qed.
#[local] Hint Resolve lk_claim lk_give_up : lk.
Lemma lk_setup_proc c Hs g : lk c Hs (setup_proc g : K (option nat)) (λ _, Hs ∖ {[ProcLock g]}).
Proof. unfold setup_proc. lk0. Qed.
Lemma lk_setup_thread c Hs g : lk c Hs (setup_thread g : K (option nat)) (λ _, Hs ∖ {[ProcLock g]}).
Proof. unfold setup_thread. lk0. Qed.
Lemma quiet_find_slot setup : (∀ c Hs g, lk c Hs (setup g : K (option nat)) (λ _, Hs ∖ {[ProcLock g]})) →
  ∀ k i, quiet (find_slot setup k i).
Proof.
  intros Hset k. induction k as [|k IH]; intros i c Hs; cbn [find_slot]; [by apply lk_ret|].
  apply lk_quiet_bind; [lk0|intros s]. cbv zeta. apply lk_acquire_bind. intros Hl. apply lk_quiet_bind; [lk0|intros p].
  apply lk_if.
  - eapply lk_weaken; [apply Hset|]. intros b. by apply taken_back.
  - eapply lk_bind; [apply lk_release|]. intros u. cbv beta. rewrite taken_back by done. apply IH.
Qed.
Lemma quiet_alloc_proc : quiet (alloc_proc : K (option nat)).
Proof. unfold alloc_proc. apply quiet_find_slot. intros. apply lk_setup_proc. Qed.
Lemma quiet_alloc_thread : quiet (alloc_thread : K (option nat)).
Proof. unfold alloc_thread. apply quiet_find_slot. intros. apply lk_setup_thread. Qed.
#[local] Hint Resolve quiet_alloc_proc quiet_alloc_thread : lk.

Lemma quiet_alloc_fd_loop l g f : quiet (alloc_fd_loop l g f : K Z).
Proof. induction l as [|fd l IH]; cbn [alloc_fd_loop]; lk0. Qed.
Lemma quiet_alloc_fd g f : quiet (alloc_fd g f : K Z).
Proof. apply quiet_alloc_fd_loop. Qed.
Lemma quiet_alloc_fd_at g f fd : quiet (alloc_fd_at g f fd : K Z).
Proof. unfold alloc_fd_at. lk0. Qed.
Lemma quiet_close fd : quiet (close fd : K Z).
Proof. unfold close. lk0. Qed.
#[local] Hint Resolve quiet_alloc_fd : lk.
Lemma quiet_make_pipe : quiet (make_pipe : K (option (Z * Z))).
Proof.
  unfold make_pipe. intros g Hs. apply lk_cur. apply lk_quiet_bind; [lk0|intros q]. apply lk_quiet_bind; [lk0|intros [rf wf]].
  apply lk_quiet_bind; [lk0|intros fd0]. apply lk_quiet_bind; [destruct (fd0 <? 0); lk0|intros fd1]. lk0.
Qed.
Lemma quiet_kill pid sig : quiet (kill pid sig : K Z).
Proof. unfold kill. lk0. Qed.
Lemma quiet_set_tid_address a : quiet (set_tid_address a : K Z).
Proof. unfold set_tid_address. lk0. Qed.
Lemma quiet_set_robust_list a n : quiet (set_robust_list a n : K Z).
Proof. unfold set_robust_list. lk0. Qed.
Lemma quiet_set_uid v : quiet (set_uid v : K Z).
Proof. unfold set_uid. lk0. Qed.
Lemma quiet_set_gid v : quiet (set_gid v : K Z).
Proof. unfold set_gid. lk0. Qed.
Lemma quiet_prlimit pid r l : quiet (prlimit64 pid r l : K (Z * option rlimit64)).
Proof.
  unfold prlimit64. intros g Hs. apply lk_quiet_bind; [lk0|intros s].
  apply lk_quiet_bind; [destruct (pid =? 0); lk0|intros [n|]]; [|lk0]. apply lk_if; [lk0|].
  apply lk_quiet_bind; [lk0|intros p]. apply lk_quiet_bind; [lk0|intros old].
  apply lk_quiet_bind; [destruct l; lk0|intros _]. lk0.
Qed.
Lemma quiet_tms : quiet (get_cur_proc_tms : K (Z * Z * Z * Z)).
Proof. unfold get_cur_proc_tms. lk0. Qed.
(** ** Sleeping *)

Lemma quiet_sched_out : quiet (call_sched_out : K bool).
Proof. unfold call_sched_out. lk0. Qed.
#[local] Hint Resolve quiet_sched_out : lk.
Lemma lk_sleep_out g ch l : l ≠ ProcLock g → lk g {[l]} (sleep_out ch l : K bool) (λ _, {[ProcLock g]}).
Proof.
  intros Hl. unfold sleep_out. apply lk_cur. rewrite bool_decide_eq_false_2 by done. cbn [negb when].
  apply (lk_bind _ _ _ _ (λ _, {[ProcLock g]})).
  - apply lk_acquire_bind. intros Hg. eapply lk_weaken; [apply lk_release|]. intros u. set_solver.
  - intros u. cbv beta. lk0.
Qed.
Lemma lk_sleep_in g e l : l ≠ ProcLock g → lk g {[ProcLock g]} (sleep_in e l : K unit) (λ _, {[l]}).
Proof.
  intros Hl. unfold sleep_in, call_sched_in. apply lk_quiet_bind; [lk0|intros u]. apply lk_cur.
  rewrite bool_decide_eq_false_2 by done. cbn [negb when]. apply lk_quiet_bind; [lk0|intros u'].
  eapply lk_bind; [apply lk_release|intros u'']. cbv beta. eapply lk_weaken; [apply lk_acquire|]. intros b. set_solver.
Qed.

(** The locks of a blocking call that started with none: none when it returned,
    that of its process while it sleeps. *)
Definition asleep (g : nat) (r : progress) : gset lock :=
  match r with Done _ => ∅ | Asleep _ _ => {[ProcLock g]} end.

Lemma lk_release_ret g l v : lk g {[l]} (release l;; mret (Done v) : K progress) (asleep g).
Proof. eapply lk_bind; [apply lk_release|intros u]. cbv beta. apply lk_ret. cbn. set_solver. Qed.
Lemma lk_sleep_ret g ch l i : l ≠ ProcLock g →
  lk g {[l]} (e ← sleep_out ch l; mret (Asleep i e) : K progress) (asleep g).
Proof. intros Hl. eapply lk_bind; [by apply lk_sleep_out|intros e]. by apply lk_ret. Qed.
#[local] Hint Resolve lk_release_ret : lk.
#[local] Hint Extern 1 (lk _ _ (sleep_out _ _ ≫= _) _) => (apply lk_sleep_ret; done) : lk.

Lemma quiet_fetch_kernel addr i : quiet (fetch_kernel addr i : K (option Z)).
Proof. unfold fetch_kernel. lk0. Qed.
#[local] Hint Resolve quiet_fetch_kernel : lk.
Lemma lk_write_loop g q n fetch : (∀ i, quiet (fetch i)) →
  ∀ fuel i, lk g {[PipeLock q]} (write_loop fuel fetch q i n : K progress) (asleep g).
Proof.
  intros Hf fuel. induction fuel as [|fuel IH]; intros i; cbn [write_loop]; unfold write_end; lk0.
Qed.
Lemma lk_acquire_first {C} g l (k : unit → K C) Q :
  lk g {[l]} (k tt) Q → lk g ∅ (acquire l ≫= k) Q.
Proof. intros Hk. apply lk_acquire_bind. intros _. by rewrite union_empty_r_L. Qed.
Lemma lk_write_in_kernel g q addr n : lk g ∅ (write_in_kernel q addr n : K progress) (asleep g).
Proof. unfold write_in_kernel, pipe_write. apply lk_acquire_first. apply lk_write_loop. apply quiet_fetch_kernel. Qed.
Lemma lk_write_resume g q addr n i e :
  lk g {[ProcLock g]} (pipe_write_resume (fetch_kernel addr) q n i e : K progress) (asleep g).
Proof.
  unfold pipe_write_resume. eapply lk_bind; [by apply lk_sleep_in|intros u]. apply lk_write_loop. apply quiet_fetch_kernel.
Qed.
Lemma quiet_read_loop k q addr : ∀ i, quiet (read_loop k q addr i : K Z).
Proof. induction k as [|k IH]; intros i; cbn [read_loop]; lk0. Qed.
#[local] Hint Resolve quiet_read_loop : lk.
Lemma lk_read_run g q addr n : lk g {[PipeLock q]} (read_run q addr n : K progress) (asleep g).
Proof. unfold read_run. lk0. Qed.
Lemma lk_read g q addr n : lk g ∅ (read q addr n : K progress) (asleep g).
Proof. unfold read. apply lk_acquire_first, lk_read_run. Qed.
Lemma lk_read_resume g q addr n e : lk g {[ProcLock g]} (read_resume q addr n e : K progress) (asleep g).
Proof. unfold read_resume. eapply lk_bind; [by apply lk_sleep_in|intros u]. apply lk_read_run. Qed.

Lemma lk_ticks g t n : lk g {[TimerLock]} (ticks_run t n : K progress) (asleep g).
Proof. unfold ticks_run. lk0. Qed.
Lemma lk_sleep_ticks g n : lk g ∅ (sleep_n_ticks n : K progress) (asleep g).
Proof.
  unfold sleep_n_ticks. apply lk_if; [lk0|]. apply lk_acquire_first. apply lk_quiet_bind; [lk0|intros s]. apply lk_ticks.
Qed.
Lemma lk_sleep_ticks_resume g t n e : lk g {[ProcLock g]} (sleep_n_ticks_resume t n e : K progress) (asleep g).
Proof. unfold sleep_n_ticks_resume. eapply lk_bind; [by apply lk_sleep_in|intros u]. apply lk_ticks. Qed.

Lemma lk_yield_out g : lk g ∅ (yield_out : K bool) (λ _, {[ProcLock g]}).
Proof. unfold yield_out. apply lk_cur, lk_acquire_first. lk0. Qed.
Lemma lk_yield_in g e : lk g {[ProcLock g]} (yield_in e : K unit) (λ _, ∅).
Proof. unfold yield_in, call_sched_in. lk0. Qed.

(** ** Life and death *)

Lemma quiet_copy_range a b x n : quiet (copy_range a b x n : K bool).
Proof. unfold copy_range. lk0. Qed.
#[local] Hint Resolve quiet_copy_range : lk.
Lemma quiet_copy_sections p np secs : ∀ j, quiet (copy_sections p np j secs : K bool).
Proof. induction secs as [|pd secs IH]; intros j; cbn [copy_sections]; lk0. Qed.
Lemma quiet_copy_heap p np : quiet (copy_heap p np : K bool).
Proof. unfold copy_heap. lk0. Qed.
Lemma quiet_copy_stack p np : quiet (copy_stack p np : K bool).
Proof. unfold copy_stack. lk0. Qed.
Lemma quiet_dup_vfile o : quiet (dup_vfile o : K unit).
Proof. unfold dup_vfile. lk0. Qed.
#[local] Hint Resolve quiet_copy_sections quiet_copy_heap quiet_copy_stack quiet_dup_vfile : lk.
Lemma quiet_copy_vmas p np vs : ∀ i, quiet (copy_vmas p np i vs : K bool).
Proof. induction vs as [|v vs IH]; intros i; cbn [copy_vmas]; lk0. Qed.
Lemma quiet_share_vmas np vs : ∀ i, quiet (share_vmas np i vs : K unit).
Proof. induction vs as [|v vs IH]; intros i; cbn [share_vmas]; lk0. Qed.
Lemma quiet_share_file p np i : quiet (share_file p np i : K unit).
Proof. unfold share_file. lk0. Qed.
Lemma quiet_share_cwd p np : quiet (share_cwd p np : K unit).
Proof. unfold share_cwd. lk0. Qed.
Lemma quiet_start_child g np : quiet (start_child g np : K unit).
Proof.
  unfold start_child. intros c Hs. apply lk_acquire_bind. intros Hl. apply lk_quiet_bind; [lk0|intros u].
  eapply lk_bind; [apply lk_release|intros u']. cbv beta. rewrite taken_back by done. lk0.
Qed.
#[local] Hint Resolve quiet_copy_vmas quiet_share_vmas quiet_share_file quiet_share_cwd quiet_start_child : lk.
Lemma quiet_fork usp : quiet (fork usp : K Z).
Proof.
  unfold fork, copy_trap_frame, set_trap_frame_return_value, set_trap_frame_user_sp, tf_store. lk0.
Qed.
#[local] Hint Resolve quiet_fork : lk.
Lemma quiet_clone stk flags cs pt tls : quiet (clone stk flags cs pt tls : K Z).
Proof.
  unfold clone, clone_thread, copy_trap_frame, set_trap_frame_return_value, set_trap_frame_user_sp,
    set_trap_frame_user_tp, tf_store, local32. intros g Hs. apply lk_if; [|lk0].
  apply lk_cur. apply lk_quiet_bind; [lk0|intros [np|]]; [|lk0]. apply lk_if; [lk0|].
  do 12 (apply lk_quiet_bind; [solve [lk0]|intros ?]).
  apply lk_quiet_bind; [destruct (flag flags CLONE_PARENT_SETTID); lk0|intros r]. lk0.
Qed.

Definition scanned (r : Z + bool) : gset lock := match r with inl _ => ∅ | inr _ => {[WaitLock]} end.
Lemma lk_unlock2 g np (v : Z) :
  lk g ({[ProcLock np]} ∪ {[WaitLock]}) (release (ProcLock np);; release WaitLock;; mret (inl v) : K (Z + bool)) scanned.
Proof.
  eapply lk_bind; [apply lk_release|intros u]. eapply lk_bind; [apply lk_release|intros u']. apply lk_ret. cbn. set_solver.
Qed.
#[local] Hint Resolve lk_unlock2 : lk.
Lemma lk_wait_scan l stk c g cp addr : ∀ hk, lk c {[WaitLock]} (wait_scan l stk g cp addr hk : K (Z + bool)) scanned.
Proof.
  induction l as [|np l IH]; intros hk; cbn [wait_scan]; [by apply lk_ret|].
  apply lk_quiet_bind; [lk0|intros x]. apply lk_if; [apply IH|]. apply lk_if; [|apply IH].
  apply lk_acquire_bind. intros Hl. apply lk_quiet_bind; [lk0|intros y]. apply lk_if.
  - cbv zeta. do 2 (apply lk_quiet_bind; [unfold local32; lk0|intros ?]).
    apply lk_quiet_bind; [destruct (negb (addr =? 0)); lk0|intros r]. lk0.
  - eapply lk_bind; [apply lk_release|intros u]. cbv beta. rewrite taken_back by done. apply IH.
Qed.
Lemma lk_wait_run g stk cp addr : lk g {[WaitLock]} (wait_run stk cp addr : K progress) (asleep g).
Proof.
  unfold wait_run. apply lk_cur. eapply lk_bind; [apply lk_wait_scan|]. intros [v|hk]; cbn [scanned]; [by apply lk_ret|]. lk0.
Qed.
Lemma lk_wait g stk cp addr : lk g ∅ (wait stk cp addr : K progress) (asleep g).
Proof.
  unfold wait. apply lk_cur. apply lk_quiet_bind; [lk0|intros s]. cbv zeta. apply lk_if; [by apply lk_ret|].
  apply lk_acquire_first, lk_wait_run.
Qed.
Lemma lk_wait_resume g stk cp addr e : lk g {[ProcLock g]} (wait_resume stk cp addr e : K progress) (asleep g).
Proof. unfold wait_resume. eapply lk_bind; [by apply lk_sleep_in|intros u]. apply lk_wait_run. Qed.

Lemma quiet_write_back fuel g f ve : ∀ va off, quiet (write_back fuel g f va ve off : K unit).
Proof. induction fuel as [|fuel IH]; intros va off; cbn [write_back]; lk0. Qed.
#[local] Hint Resolve quiet_write_back : lk.
Lemma quiet_write_back_vma g v va len : quiet (write_back_vma g v va len : K unit).
Proof. unfold write_back_vma. lk0. Qed.
Lemma quiet_on_vma g i f : quiet (on_vma g i f : K unit).
Proof. unfold on_vma. lk0. Qed.
#[local] Hint Resolve quiet_write_back_vma quiet_on_vma : lk.
Lemma quiet_free_vfile o : quiet (match o with Some f => free_file f | None => mret tt end : K unit).
Proof. destruct o; lk0. Qed.
#[local] Hint Resolve quiet_free_vfile : lk.
Lemma quiet_exit_vma g i : quiet (exit_vma g i : K unit).
Proof.
  unfold exit_vma. intros c Hs. do 2 (apply lk_quiet_bind; [lk0|intros ?]). apply lk_quiet; [|done]. apply quiet_when.
  intros c' Hs'. cbv zeta. lk0.
Qed.
Lemma quiet_reparent g : quiet (reparent g : K unit).
Proof. unfold reparent, reparent_one. lk0. Qed.
#[local] Hint Resolve quiet_exit_vma quiet_reparent : lk.
Lemma lk_become_zombie stk g st : lk g ∅ (become_zombie stk g st : K unit) (λ _, {[ProcLock g]}).
Proof.
  unfold become_zombie, local32. apply lk_acquire_first. do 2 (apply lk_quiet_bind; [lk0|intros ?]).
  apply lk_quiet_bind; [destruct (parent _); lk0|intros ?]. apply lk_acquire_bind. intros Hl.
  do 3 (apply lk_quiet_bind; [lk0|intros ?]). eapply lk_weaken; [apply lk_release|]. intros u. set_solver.
Qed.
Lemma lk_exit_proc stk g st : lk g ∅ (exit_proc stk g st : K bool) (λ _, {[ProcLock g]}).
Proof.
  unfold exit_proc. apply lk_quiet_bind; [lk0|intros s]. apply lk_if; [apply lk_panic|].
  do 2 (apply lk_quiet_bind; [lk0|intros ?]). eapply lk_bind; [apply lk_become_zombie|intros u]. lk0.
Qed.
Lemma quiet_exit_group_loop l cp : ∀ v, quiet (exit_group_loop l cp v : K unit).
Proof. induction l as [|i l IH]; intros v; cbn [exit_group_loop]; lk0. Qed.
#[local] Hint Resolve quiet_exit_group_loop : lk.
Lemma lk_exit_group stk g st : lk g ∅ (exit_group stk st : K bool) (λ _, {[ProcLock g]}).
Proof.
  unfold exit_group. apply lk_cur, lk_acquire_first. apply lk_quiet_bind; [lk0|intros u].
  eapply lk_bind; [apply lk_release|intros u']. cbv beta. rewrite difference_diag_L. apply lk_exit_proc.
Qed.

(** ** Address spaces, signals *)

Lemma quiet_brk n : quiet (brk n : K Z).
Proof.
  unfold brk. intros g Hs. apply lk_cur. apply lk_quiet_bind; [lk0|intros p]. apply lk_if; [lk0|]. cbv zeta.
  apply lk_quiet_bind; [destruct (_ <? 0); [|destruct (0 <? _)]; lk0|intros ok]. lk0.
Qed.
Lemma quiet_munmap va len : quiet (munmap va len : K Z).
Proof.
  unfold munmap. intros g Hs. apply lk_cur. cbv zeta. apply lk_quiet_bind; [lk0|intros p].
  destruct (find_vma _ _ _); [|lk0]. do 3 (apply lk_quiet_bind; [lk0|intros ?]). lk0.
Qed.
Lemma quiet_fill_mapping kbuf g d x n : quiet (fill_mapping kbuf g d x n : K Z).
Proof. unfold fill_mapping. lk0. Qed.
#[local] Hint Resolve quiet_fill_mapping : lk.
Lemma quiet_mmap kbuf fd pr fl n : quiet (mmap kbuf fd pr fl n : K Z).
Proof. unfold mmap, mmap_anonymous, mmap_file. lk0. Qed.
Lemma quiet_mremap kbuf a n n' : quiet (mremap kbuf a n n' : K Z).
Proof.
  unfold mremap. intros g Hs. apply lk_cur. apply lk_quiet_bind; [lk0|intros p]. cbv zeta.
  destruct (find_vma _ _ _); [|lk0]. apply lk_quiet_bind; [lk0|intros v].
  apply lk_quiet_bind; [destruct (_ <? _); lk0|intros u]. lk0.
Qed.
Lemma quiet_sigAction sig a : quiet (sigAction sig a : K (Z * option sigaction)).
Proof.
  unfold sigAction. intros g Hs. apply lk_if; [lk0|]. apply lk_cur. do 2 (apply lk_quiet_bind; [lk0|intros ?]).
  apply lk_quiet_bind; [destruct a; lk0|intros u]. lk0.
Qed.
Lemma quiet_sigprocmask how set n : quiet (sigprocmask how set n : K (Z * option Z)).
Proof. unfold sigprocmask. lk0. Qed.

End ops.

#[export] Hint Resolve quiet_sched_out quiet_wakeup quiet_ofile quiet_on_file quiet_file_dup quiet_free_file quiet_normal_write
  quiet_normal_read quiet_normal_lseek quiet_setAppend quiet_ftruncate quiet_alloc_fd quiet_alloc_fd_at quiet_close
  quiet_make_pipe quiet_kill quiet_set_tid_address quiet_set_robust_list quiet_set_uid quiet_set_gid quiet_prlimit
  quiet_tms quiet_clone quiet_brk quiet_munmap quiet_mmap quiet_mremap quiet_sigAction quiet_sigprocmask : lk.
End KBalance.
