(* ===== verification/SysInv.v ===== *)
(** Every system call keeps the invariant of the process table and gives back
    the locks it takes.

    [fine g c s] is what holds of a call [c] of process [g] when it stops in
    state [s]: the table is in order; a call that returned holds no lock, one
    that sleeps or left the process for good holds the lock of its process, as
    the switch to the scheduler requires.  [safe g c] says the same of all that
    the call may still do: whatever its blocking operation returns, the rest of
    it stops in such a state and is safe. *)

From Stdlib Require Import ZArith Lia.
From stdpp Require Import base numbers gmap list strings.
From S2P Require Import Prelude Page Mem Klib Pmm PageTable Vmm UStream Kbase Kernel KFile KLock Proc ProcLife ProcInv Syscall KBalance.
Import Pmm PT Kernel KFile Proc Life ProcInv Syscall KBalance.

Set Default Goal Selector "!".
Open Scope Z_scope.

Module SysInv.

Section safety.
Context `{Port} `{TrapHal} {A F : Type} `{PageAllocator A} `{Inode A F}.
Abbreviation K := (M (kernel A F)).
Abbreviation Call := (call (kernel A F)).
Abbreviation T := (@table_ok A F).

(** Process [g] runs in the kernel with the locks [Hs]. *)
Definition runs_with (g : nat) (Hs : gset lock) (s : kernel A F) : Prop :=
  T s ∧ held s = Hs ∧ _cur_proc (cpu s) = Some g.
Definition fine (g : nat) (c : Call) (s : kernel A F) : Prop :=
  runs_with g (match c with Returns _ => ∅ | _ => {[ProcLock g]} end) s.
Fixpoint safe (g : nat) (c : Call) : Prop :=
  match c with
  | Sleeps _ k => ∀ v s, runs_with g ∅ s →
      match k v s with Ret c' s' => fine g c' s' ∧ safe g c' | _ => True end
  | _ => True
  end.
Definition calls (m : K Call) : Prop :=
  ∀ g s, runs_with g ∅ s → wlp m (λ c s', fine g c s' ∧ safe g c) s.

(** An operation a handler may call: it keeps the table and is quiet. *)
Definition op {B} (m : K B) : Prop := keeps T m ∧ quiet m.

Lemma calls_bind {B} (m : K B) (k : B → K Call) : op m → (∀ b, calls (k b)) → calls (m ≫= k).
Proof.
  intros [Ht Hq] Hk g s (Hs & E & Ec). apply wlp_bind.
  apply (wlp_mono _ _ _ _ (wlp_and _ _ _ _ (Ht s Hs) (Hq g ∅ s E Ec))). intros b s' (Hs' & E' & Ec'). by apply Hk.
Qed.
Lemma calls_ret v : calls (ret v).
Proof. intros g s Hs. by split. Qed.
Lemma calls_stuck : calls stuck.
Proof. by intros g s Hs. Qed.

Definition waits (g : nat) (r : Z + waiting) : gset lock := match r with inl _ => ∅ | inr _ => {[ProcLock g]} end.
(** A blocking operation. *)
Definition blocks (m : K (Z + waiting)) : Prop := keeps T m ∧ ∀ g, lk g ∅ m (waits g).

Lemma calls_await m k : blocks m → (∀ v, calls (k v)) → calls (await m k).
Proof.
  intros [Ht Hq] Hk g s (Hs & E & Ec). unfold await. apply wlp_bind.
  apply (wlp_mono _ _ _ _ (wlp_and _ _ _ _ (Ht s Hs) (Hq g s E Ec))). intros [v|w] s' (Hs' & E' & Ec').
  - by apply Hk.
  - split; [by split|]. cbn [safe]. intros v s1 Hs1. apply (Hk v g s1 Hs1).
Qed.
Lemma blocks_bind {B} (m : K B) k : op m → (∀ b, blocks (k b)) → blocks (m ≫= k).
Proof.
  intros [Ht Hq] Hk. split; [apply keeps_bind; [done|apply Hk]|]. intros g. apply lk_quiet_bind; [done|]. intros b. apply Hk.
Qed.
Lemma blocks_ret v : blocks (mret (inl v)).
Proof. split; [apply keeps_mret|]. intros g. by apply lk_ret. Qed.
Lemma blocks_stuck : blocks stuck.
Proof. split; [apply keeps_stuck|]. intros g. apply lk_stuck. Qed.
(** Operations that report [progress]. *)
Lemma blocks_progress (m : K progress) (w : Z → bool → waiting) : keeps T m → (∀ g, lk g ∅ m (asleep g)) →
  blocks (r ← m; match r with Done v => mret (inl v) | Asleep i e => mret (inr (w i e)) end).
Proof.
  intros Ht Hq. split; [keep_table|]. intros g. eapply lk_bind; [apply Hq|]. intros [v|i e]; by apply lk_ret.
Qed.

(** ** Operations of handlers *)

Lemma op_bind {B C} (m : K B) (k : B → K C) : op m → (∀ b, op (k b)) → op (m ≫= k).
Proof.
  intros [Ht Hq] Hk. split; [apply keeps_bind; [done|apply Hk]|]. intros g Hs. apply lk_quiet_bind; [done|].
  intros b. apply Hk.
Qed.
Lemma op_ret {B} (b : B) : op (mret b).
Proof. split; [apply keeps_mret|]. intros g Hs. by apply lk_ret. Qed.
Lemma op_stuck {B} : op (@stuck _ B).
Proof. split; [apply keeps_stuck|]. intros g Hs. apply lk_stuck. Qed.
Lemma op_panic {B} : op (@panic _ B).
Proof. split; [apply keeps_panic|]. intros g Hs. apply lk_panic. Qed.
Lemma op_spin {B} : op (@spin _ B).
Proof. split; [apply keeps_spin|]. intros g Hs. apply lk_spin. Qed.
Lemma op_when b (m : K unit) : op m → op (when b m).
Proof. intros Hm. destruct b; [done|]. apply op_ret. Qed.
Lemma op_for_each {X} (l : list X) body : (∀ x, op (body x)) → op (for_each l body).
Proof. intros Hb. split; [apply keeps_for_each|apply quiet_for_each]; intros x; apply Hb. Qed.

Lemma op_both {B} (m : K B) : keeps T m → quiet m → op m.
Proof. by split. Qed.
End safety.

Ltac opp := apply op_both; [solve [keep_table] | solve [lk0]].
Ltac calls1 :=
  match goal with
  | |- calls (let _ := _ in _) => cbv zeta
  | |- calls (ret _) => apply calls_ret
  | |- calls stuck => apply calls_stuck
  | |- calls (await _ _) => apply calls_await; [|intros ?]
  | |- calls (_ ≫= _) => apply calls_bind; [|intros ?]
  | |- calls (if ?b then _ else _) => destruct b
  | |- calls (match ?x with _ => _ end) => destruct x
  | |- calls (match ?x with _ => _ end _) => destruct x
  | |- op (let _ := _ in _) => cbv zeta
  | |- op (mret _) => apply op_ret
  | |- op stuck => apply op_stuck
  | |- op panic => apply op_panic
  | |- op spin => apply op_spin
  | |- op (when _ _) => apply op_when
  | |- op (for_each _ _) => apply op_for_each; intros ?
  | |- op (if ?b then _ else _) => destruct b
  | |- op (match ?x with _ => _ end) => destruct x
  | |- op (_ ≫= _) => apply op_bind; [|intros ?]
  | |- op _ => opp
  | |- blocks (_ ≫= _) => apply blocks_bind; [|intros ?]
  | |- blocks (match ?x with _ => _ end) => destruct x
  end.
Create HintDb calls discriminated.
#[export] Hint Constants Opaque : calls.
Ltac calls0 := repeat (first [solve [eauto 2 with calls] | calls1]).

Section handlers.
Context `{Port} `{TrapHal} {A F : Type} `{PageAllocator A} `{Inode A F}.
Context (stk kbuf : Z).
Abbreviation K := (M (kernel A F)).
Abbreviation T := (@table_ok A F).

Lemma op_arg_raw n : op (_arg_raw n : K Z).
Proof. unfold _arg_raw, get_arg_from_trap_frame. opp. Qed.
#[local] Hint Resolve op_arg_raw : calls.
Lemma op_arg_int n : op (_arg_int n : K Z).
Proof. unfold _arg_int. calls0. Qed.
Lemma op_arg_addr n : op (_arg_addr n : K Z).
Proof. apply op_arg_raw. Qed.
#[local] Hint Resolve op_arg_int op_arg_addr : calls.
Lemma op_arg_fd n : op (_arg_fd n : K (option (Z * Z))).
Proof. unfold _arg_fd. apply op_bind; [apply op_arg_int|intros fd]. opp. Qed.
Lemma op_cur_pt : op (cur_pt : K PageTable).
Proof. unfold cur_pt. opp. Qed.
#[local] Hint Resolve op_arg_fd op_cur_pt : calls.
Lemma op_copy_in dst va n : op (u_copy_in dst va n : K Z).
Proof. unfold u_copy_in. calls0. Qed.
Lemma op_copyout va a n : op (u_copyout va a n : K Z).
Proof. unfold u_copyout. calls0. Qed.
Lemma op_user_ptr va : op (user_ptr va : K Z).
Proof. unfold user_ptr. calls0. Qed.
Lemma op_load64 a : op (load64 a : K Z).
Proof. unfold load64. opp. Qed.
Lemma op_store64 a v : op (store64 a v : K unit).
Proof. unfold store64. opp. Qed.
Lemma op_load32 a : op (load32 a : K Z).
Proof. unfold load32. opp. Qed.
Lemma op_store32 a v : op (store32 a v : K unit).
Proof. unfold store32, local32. opp. Qed.
Lemma op_new_chars n : op (new_chars kbuf n : K Z).
Proof. unfold new_chars. calls0. Qed.
#[local] Hint Resolve op_copy_in op_copyout op_user_ptr op_load64 op_store64 op_load32 op_store32 op_new_chars : calls.

Lemma op_file_offset f : op (get_file_offset f : K Z).
Proof. unfold get_file_offset. calls0. Qed.
Lemma op_device_read f b n o : op (device_read f b n o : K Z).
Proof. unfold device_read. opp. Qed.
Lemma op_device_write f b n o : op (device_write f b n o : K Z).
Proof. unfold device_write. opp. Qed.
Lemma op_file_lseek f o w : op (file_lseek f o w : K Z).
Proof. unfold file_lseek, normal_lseek. opp. Qed.
Lemma op_file_ftruncate f n : op (file_ftruncate f n : K Z).
Proof. unfold file_ftruncate, ftruncate. opp. Qed.
#[local] Hint Resolve op_file_offset op_device_read op_device_write op_file_lseek op_file_ftruncate : calls.

Lemma blocks_pipe_read q b n : blocks (A := A) (F := F) (pipe_file_read q b n).
Proof.
  unfold pipe_file_read. apply (blocks_progress _ (λ _, InPipeRead q b (i32 n))); [eauto with keeps|intros g; apply lk_read].
Qed.
Lemma blocks_pipe_write q b n : blocks (A := A) (F := F) (pipe_file_write q b n).
Proof. unfold pipe_file_write. apply blocks_progress; [eauto with keeps|intros g; apply lk_write_in_kernel]. Qed.
#[local] Hint Resolve blocks_pipe_read blocks_pipe_write blocks_ret : calls.
Lemma blocks_file_read f b n o u : blocks (A := A) (F := F) (file_read f b n o u).
Proof. unfold file_read. calls0. Qed.
Lemma blocks_file_write f b n o u : blocks (A := A) (F := F) (file_write f b n o u).
Proof. unfold file_write. calls0. Qed.
#[local] Hint Resolve blocks_file_read blocks_file_write : calls.

(** ** Reading and writing *)

Lemma calls_write : calls (A := A) (F := F) (_sys_write kbuf).
Proof. unfold _sys_write. calls0. Qed.
Lemma calls_writev_loop k f p : ∀ i n, calls (A := A) (F := F) (writev_loop stk kbuf k f p i n).
Proof. induction k as [|k IH]; intros i n; cbn [writev_loop]; calls0. Qed.
#[local] Hint Resolve calls_writev_loop : calls.
Lemma calls_writev : calls (A := A) (F := F) (_sys_writev stk kbuf).
Proof. unfold _sys_writev. calls0. Qed.
Lemma calls_copy_range_end a b c d x y : calls (A := A) (F := F) (copy_range_end stk a b c d x y).
Proof. unfold copy_range_end. calls0. Qed.
Lemma op_range_offset l a f : op (range_offset l a f : K (option Z)).
Proof. unfold range_offset. calls0. Qed.
#[local] Hint Resolve calls_copy_range_end op_range_offset : calls.
Lemma calls_copy_file_range : calls (A := A) (F := F) (_sys_copy_file_range stk kbuf).
Proof. unfold _sys_copy_file_range. calls0. Qed.
Lemma calls_ftruncate : calls (A := A) (F := F) _sys_ftruncate.
Proof. unfold _sys_ftruncate. calls0. Qed.
Lemma calls_read : calls (A := A) (F := F) (_sys_read kbuf).
Proof. unfold _sys_read. calls0. Qed.
Lemma calls_readv_loop k f p : ∀ i n, calls (A := A) (F := F) (readv_loop stk kbuf k f p i n).
Proof. induction k as [|k IH]; intros i n; cbn [readv_loop]; calls0. Qed.
#[local] Hint Resolve calls_readv_loop : calls.
Lemma calls_readv : calls (A := A) (F := F) (_sys_readv stk kbuf).
Proof. unfold _sys_readv. calls0. Qed.
Lemma calls_pread64 : calls (A := A) (F := F) (_sys_pread64 kbuf).
Proof. unfold _sys_pread64. calls0. Qed.
Lemma calls_sendfile : calls (A := A) (F := F) (_sys_sendfile kbuf).
Proof. unfold _sys_sendfile, add_offset. calls0. Qed.
Lemma op_ofile_at fd : op (ofile_at fd : K (option Z)).
Proof. unfold ofile_at. opp. Qed.
Lemma calls_splice_end a o n : calls (A := A) (F := F) (splice_end stk a o n).
Proof. unfold splice_end. calls0. Qed.
#[local] Hint Resolve op_ofile_at calls_splice_end : calls.
Lemma calls_splice : calls (A := A) (F := F) (_sys_splice stk kbuf).
Proof. unfold _sys_splice, splice_offset, splice_from_pipe, splice_to_pipe. calls0. Qed.

(** ** Descriptors *)

Lemma calls_dup : calls (A := A) (F := F) _sys_dup.
Proof. unfold _sys_dup. calls0. Qed.
Lemma calls_dup2 : calls (A := A) (F := F) _sys_dup2.
Proof. unfold _sys_dup2. calls0. Qed.
Lemma calls_close : calls (A := A) (F := F) _sys_close.
Proof. unfold _sys_close. calls0. Qed.
Lemma calls_lseek : calls (A := A) (F := F) _sys_lseek.
Proof. unfold _sys_lseek. calls0. Qed.
Lemma calls_pipe : calls (A := A) (F := F) (_sys_pipe stk).
Proof. unfold _sys_pipe. calls0. Qed.
Lemma op_dupfd_loop k g f : ∀ i r, op (dupfd_loop k g f i r : K Z).
Proof. induction k as [|k IH]; intros i r; cbn [dupfd_loop]; calls0. Qed.
Lemma op_dupfd g f a : op (dupfd g f a : K Z).
Proof. apply op_dupfd_loop. Qed.
#[local] Hint Resolve op_dupfd : calls.
Lemma calls_fcntl : calls (A := A) (F := F) (_sys_fcntl stk).
Proof. unfold _sys_fcntl, setAppend. calls0. Qed.
Lemma calls_ioctl : calls (A := A) (F := F) (_sys_ioctl stk).
Proof. unfold _sys_ioctl. calls0. Qed.

(** ** Processes *)

(** A call from which the process does not come back. *)
Lemma calls_gone {B} (m : K B) : keeps T m → (∀ g, lk g ∅ m (λ _, {[ProcLock g]})) → calls (m;; mret Gone).
Proof.
  intros Ht Hq g s (Hs & E & Ec). apply wlp_bind.
  apply (wlp_mono _ _ _ _ (wlp_and _ _ _ _ (Ht s Hs) (Hq g s E Ec))). intros b s' (Hs' & E' & Ec'). by split.
Qed.
Lemma calls_exit : calls (A := A) (F := F) (_sys_exit stk).
Proof.
  unfold _sys_exit, exit. apply calls_bind; [apply op_arg_int|intros n]. apply calls_gone; [keep_table|].
  intros g. apply lk_cur. apply lk_exit_proc.
Qed.
Lemma calls_exit_group : calls (A := A) (F := F) (_sys_exit_group stk).
Proof.
  unfold _sys_exit_group. apply calls_bind; [apply op_arg_int|intros n].
  apply calls_gone; [eauto with keeps|intros g; apply lk_exit_group].
Qed.
Lemma calls_fork : calls (A := A) (F := F) (_sys_fork stk).
Proof. unfold _sys_fork. calls0. Qed.
Lemma blocks_wait pid addr : blocks (A := A) (F := F) (wait_blocking stk pid addr).
Proof.
  unfold wait_blocking. apply (blocks_progress _ (λ _, InWait stk pid addr)); [eauto with keeps|intros g; apply lk_wait].
Qed.
#[local] Hint Resolve blocks_wait : calls.
Lemma calls_wait : calls (A := A) (F := F) (_sys_wait stk).
Proof. unfold _sys_wait. calls0. Qed.
Lemma blocks_yield : blocks (A := A) (F := F) (e ← yield_out; mret (inr (InYield e))).
Proof.
  split; [keep_table|]. intros g. eapply lk_bind; [apply lk_yield_out|intros e]. by apply lk_ret.
Qed.
Lemma calls_sched_yield : calls (A := A) (F := F) _sys_sched_yield.
Proof. unfold _sys_sched_yield. apply calls_await; [apply blocks_yield|intros v; apply calls_ret]. Qed.
Lemma calls_clone : calls (A := A) (F := F) _sys_clone.
Proof. unfold _sys_clone. calls0. Qed.
Lemma calls_getpid : calls (A := A) (F := F) _sys_getpid.
Proof. unfold _sys_getpid. calls0. Qed.
Lemma calls_getppid : calls (A := A) (F := F) _sys_getppid.
Proof. unfold _sys_getppid. calls0. Qed.
Lemma calls_gettid : calls (A := A) (F := F) _sys_gettid.
Proof. unfold _sys_gettid. calls0. Qed.
Lemma calls_kill : calls (A := A) (F := F) _sys_kill.
Proof. unfold _sys_kill. calls0. Qed.
Lemma calls_tgkill : calls (A := A) (F := F) _sys_tgkill.
Proof. unfold _sys_tgkill. calls0. Qed.
Lemma calls_setgid : calls (A := A) (F := F) _sys_setgid.
Proof. unfold _sys_setgid. calls0. Qed.
Lemma calls_setuid : calls (A := A) (F := F) _sys_setuid.
Proof. unfold _sys_setuid. calls0. Qed.
Lemma calls_getpgid : calls (A := A) (F := F) _sys_getpgid.
Proof. unfold _sys_getpgid. calls0. Qed.
Lemma calls_setpgid : calls (A := A) (F := F) _sys_setpgid.
Proof. unfold _sys_setpgid. calls0. Qed.
Lemma calls_getuid : calls (A := A) (F := F) _sys_getuid.
Proof. unfold _sys_getuid. calls0. Qed.
Lemma calls_geteuid : calls (A := A) (F := F) _sys_geteuid.
Proof. unfold _sys_geteuid. calls0. Qed.
Lemma calls_getgid : calls (A := A) (F := F) _sys_getgid.
Proof. unfold _sys_getgid. calls0. Qed.
Lemma calls_getegid : calls (A := A) (F := F) _sys_getegid.
Proof. unfold _sys_getegid. calls0. Qed.
Lemma calls_rt_sigtimedwait : calls (A := A) (F := F) _sys_rt_sigtimedwait.
Proof. unfold _sys_rt_sigtimedwait. calls0. Qed.
Lemma calls_brk : calls (A := A) (F := F) _sys_brk.
Proof. unfold _sys_brk. calls0. Qed.
Lemma calls_munmap : calls (A := A) (F := F) _sys_munmap.
Proof. unfold _sys_munmap. calls0. Qed.
Lemma calls_mprotect : calls (A := A) (F := F) _sys_mprotect.
Proof. unfold _sys_mprotect. calls0. Qed.
Lemma calls_madvise : calls (A := A) (F := F) _sys_madvise.
Proof. unfold _sys_madvise. calls0. Qed.
Lemma calls_set_tid_address : calls (A := A) (F := F) _sys_set_tid_address.
Proof. unfold _sys_set_tid_address, set_tid_address. calls0. Qed.
Lemma calls_set_robust_list : calls (A := A) (F := F) _sys_set_robust_list.
Proof. unfold _sys_set_robust_list, set_robust_list. calls0. Qed.
Lemma calls_prlimit64 : calls (A := A) (F := F) _sys_prlimit64.
Proof. unfold _sys_prlimit64. calls0. Qed.
Lemma calls_clone3 : calls (A := A) (F := F) _sys_clone3.
Proof. unfold _sys_clone3. calls0. Qed.

(** ** Signals, memory, time *)

Lemma op_load_sigaction a : op (load_sigaction a : K sigaction).
Proof. unfold load_sigaction. calls0. Qed.
Lemma calls_old_action a r o : calls (A := A) (F := F) (old_action stk a r o).
Proof. unfold old_action, store_sigaction. calls0. Qed.
#[local] Hint Resolve op_load_sigaction calls_old_action : calls.
Lemma calls_sigaction : calls (A := A) (F := F) (_sys_sigaction stk).
Proof. unfold _sys_sigaction. calls0. Qed.
Lemma calls_sigprocmask : calls (A := A) (F := F) (_sys_sigprocmask stk).
Proof. unfold _sys_sigprocmask. calls0. Qed.
Lemma blocks_futex a : blocks (A := A) (F := F) (futex_sleep a).
Proof.
  unfold futex_sleep. split; [keep_table|]. intros g. apply lk_cur, lk_acquire_first.
  apply (lk_bind _ _ _ _ (λ _, {[ProcLock g]})); [|intros e; by apply lk_ret].
  unfold sleep_out. apply lk_cur. rewrite bool_decide_eq_true_2 by done. cbn [negb when]. lk0.
Qed.
#[local] Hint Resolve blocks_futex : calls.
Lemma calls_futex : calls (A := A) (F := F) (_sys_futex stk).
Proof. unfold _sys_futex. calls0. Qed.
Lemma calls_mmap : calls (A := A) (F := F) (_sys_mmap kbuf).
Proof. unfold _sys_mmap. calls0. Qed.
Lemma calls_mremap : calls (A := A) (F := F) (_sys_mremap kbuf).
Proof. unfold _sys_mremap. calls0. Qed.
Lemma blocks_sleep a b : blocks (A := A) (F := F) (sleep_from_tv a b).
Proof.
  unfold sleep_from_tv. cbv zeta. apply (blocks_progress _ (λ t, InTicks t _)); [eauto with keeps|intros g; apply lk_sleep_ticks].
Qed.
#[local] Hint Resolve blocks_sleep : calls.
Lemma calls_sleep : calls (A := A) (F := F) (_sys_sleep stk).
Proof. unfold _sys_sleep. calls0. Qed.
Lemma calls_nanosleep : calls (A := A) (F := F) (_sys_nanosleep stk).
Proof. unfold _sys_nanosleep. calls0. Qed.
Lemma op_time_val now : op (get_time_val now : K (Z * Z)).
Proof. unfold get_time_val. opp. Qed.
#[local] Hint Resolve op_time_val : calls.
Lemma calls_gettimeofday now : calls (A := A) (F := F) (_sys_gettimeofday stk now).
Proof. unfold _sys_gettimeofday. calls0. Qed.
Lemma calls_times : calls (A := A) (F := F) (_sys_times stk).
Proof. unfold _sys_times, get_cur_proc_tms. calls0. Qed.

(** ** Information and sockets *)

Lemma calls_getcwd : calls (A := A) (F := F) (_sys_getcwd stk).
Proof. unfold _sys_getcwd. calls0. Qed.
Lemma calls_uname_loop ro u l : ∀ i, calls (A := A) (F := F) (uname_loop ro u i l).
Proof. induction l as [|n l IH]; intros i; cbn [uname_loop]; calls0. Qed.
#[local] Hint Resolve calls_uname_loop : calls.
Lemma calls_uname ro : calls (A := A) (F := F) (_sys_uname ro).
Proof. unfold _sys_uname. calls0. Qed.
Lemma calls_sysinfo : calls (A := A) (F := F) (_sys_sysinfo stk).
Proof. unfold _sys_sysinfo. calls0. Qed.
Lemma op_random_loop fuel b n : ∀ i, op (random_loop stk fuel b i n : K unit).
Proof. induction fuel as [|fuel IH]; intros i; cbn [random_loop]; calls0. Qed.
#[local] Hint Resolve op_random_loop : calls.
Lemma calls_getrandom : calls (A := A) (F := F) (_sys_getrandom stk kbuf).
Proof. unfold _sys_getrandom. calls0. Qed.
Lemma op_arg_kinds l : op (arg_kinds l : K unit).
Proof. unfold arg_kinds. apply op_for_each. intros [n []]; calls0. Qed.
#[local] Hint Resolve op_arg_kinds : calls.
Lemma calls_refused l v : calls (A := A) (F := F) (arg_kinds l;; ret v).
Proof. calls0. Qed.

(** ** The table and the trap *)

#[local] Hint Resolve calls_write calls_read calls_exit calls_clone calls_fork calls_clone3 calls_getpid calls_getppid
  calls_brk calls_wait calls_dup calls_dup2 calls_getcwd calls_gettimeofday calls_sched_yield calls_sleep calls_times
  calls_uname calls_close calls_mmap calls_munmap calls_pipe calls_set_tid_address calls_set_robust_list
  calls_prlimit64 calls_mprotect calls_getuid calls_getrandom calls_sigaction calls_ioctl calls_fcntl calls_getpgid
  calls_setpgid calls_geteuid calls_getegid calls_getgid calls_setgid calls_setuid calls_gettid calls_sendfile
  calls_exit_group calls_madvise calls_mremap calls_sysinfo calls_nanosleep calls_lseek calls_splice
  calls_sigprocmask calls_kill calls_writev calls_pread64 calls_tgkill calls_readv calls_rt_sigtimedwait calls_futex
  calls_copy_file_range calls_ftruncate calls_refused : calls.
Definition bound_ok (o : option (K (call (kernel A F)))) : Prop := match o with Some h => calls h | None => True end.
Definition entry_ok (b : string * option (K (call (kernel A F)))) : Prop := bound_ok b.2.
Lemma entries_none x l : Forall entry_ok l → Forall entry_ok ((x, None) :: l).
Proof. by constructor. Qed.
Lemma entries_some x h l : calls h → Forall entry_ok l → Forall entry_ok ((x, Some h) :: l).
Proof. by constructor. Qed.
Lemma bindings_ok now ro : Forall entry_ok (bindings stk kbuf now ro).
Proof.
  unfold bindings, _sys_socket, _sys_bind, _sys_listen, _sys_accept, _sys_connect, _sys_getsockname, _sys_sendto,
    _sys_recvfrom, _sys_setsockopt.
  repeat (first [apply entries_none | apply entries_some; [solve [eauto 2 with calls]|] | apply Forall_nil_2]).
Qed.
Lemma table_calls tbl (l : list (string * option (K (call (kernel A F))))) : (∀ n, bound_ok (tbl n)) → Forall entry_ok l →
  ∀ n, bound_ok (foldl BIND_SYSCALL tbl l n).
Proof.
  intros Ht Hl. revert tbl Ht. induction Hl as [|b l Hb Hl IH]; intros tbl Ht n; cbn [foldl]; [apply Ht|].
  apply IH. intros m. unfold BIND_SYSCALL. destruct (_ =? _); [exact Hb|apply Ht].
Qed.
Lemma calls_invoke now ro n h : invoke_syscaller stk kbuf now ro n = Some h → calls (A := A) (F := F) h.
Proof.
  unfold invoke_syscaller. destruct (_ || _); [intros [= <-]; apply calls_stuck|].
  intros E. pose proof (table_calls (λ _, Some (ret 0)) _ (λ _, calls_ret 0) (bindings_ok now ro) n) as Hb.
  unfold _syscall_funcs in E. rewrite E in Hb. exact Hb.
Qed.

End handlers.

End SysInv.
