(* ===== verification/SysThm.v ===== *)
(** The theorems about system calls: locks and the process table, the table of
    handlers, duplicated descriptors. *)

From Stdlib Require Import ZArith Lia.
From stdpp Require Import base numbers gmap list strings.
From S2P Require Import Prelude Page Mem Klib Pmm PageTable Vmm UStream Kbase Kernel KFile KLock PipeThm Proc ProcLife ProcInv KDemo PtInv ProcAlloc ProcSync ProcCalls Syscall KBalance SysInv.
Import Pmm PT Kernel KFile Proc Life ProcInv ProcAlloc ProcCalls Syscall KBalance SysInv.

Set Default Goal Selector "!".
Open Scope Z_scope.

Module SysThm.

Section locks.
Context `{Port} `{TrapHal} {A F : Type} `{PageAllocator A} `{Inode A F}.
Context (stk kbuf now : Z) (rodata : nat → Z).
Abbreviation K := (M (kernel A F)).
Abbreviation Call := (call (kernel A F)).

Implicit Types s : kernel A F.

Definition is_futex (w : waiting) : bool := match w with InFutex _ => true | _ => false end.

(** A system call of process [g] stopped in state [s]: it was entered by a trap
    with no lock held, and after each sleep it went on in some state in which
    the scheduler had switched back to its process. *)
Inductive stopped (g : nat) : Call → kernel A F → Prop :=
| stopped_trap s c s' : runs_with g ∅ s → _syscall stk kbuf now rodata s = Ret (Some c) s' → stopped g c s'
| stopped_resume w k s0 s c s' : stopped g (Sleeps w k) s0 → is_futex w = false →
    runs_with g {[ProcLock g]} s → resume w k s = Ret c s' → stopped g c s'.

Lemma intr_on_run g s : runs_with g ∅ s →
  runs_with g ∅ (s <| cpu := cpu s <| interruptible := true |> |>).
Proof.
  intros (([Hn Hi] & Ht) & Hh & Hc). split; [|by split]. split; [|exact Ht].
  unfold locks_ok. rsimpl. split; [exact Hn|]. rewrite Hh, size_empty in Hn. lia.
Qed.

Lemma op_finish (c : Call) : op (finish c).
Proof. unfold finish, set_trap_frame_return_value, tf_store. calls0. Qed.

(** The end of a call stores its value. *)
Lemma finish_calls (m : K Call) : calls m → calls (c ← m; finish c;; mret c).
Proof.
  intros Hm g s Hs. apply wlp_bind. apply (wlp_mono _ _ _ _ (Hm g s Hs)). intros c s' [(Ht & Hh & Hc) Hsafe].
  destruct (op_finish c) as [Hk Hq]. apply wlp_bind.
  apply (wlp_mono _ _ _ _ (wlp_and _ _ _ _ (Hk s' Ht) (Hq g _ s' Hh Hc))). intros u s1 (Ht1 & Hh1 & Hc1).
  split; [by split|exact Hsafe].
Qed.

Lemma syscall_run_fine g s c s' : runs_with g ∅ s → _syscall stk kbuf now rodata s = Ret (Some c) s' →
  fine g c s' ∧ safe g c.
Proof.
  intros Hs. enough (wlp (_syscall stk kbuf now rodata)
    (λ o s', match o with Some c => fine g c s' ∧ safe g c | None => True end) s) as W.
  { intros R. exact (wlp_run _ _ _ _ _ W R). }
  assert (forall (B : Type) (m : K B) (k : B → K (option Call)) Q s1, op m → runs_with g ∅ s1 →
    (∀ b s2, runs_with g ∅ s2 → wlp (k b) Q s2) → wlp (m ≫= k) Q s1) as step.
  { intros B m k Q s1 [Hk Hq] (Ht & Hh & Hc) Hr. apply wlp_bind.
    apply (wlp_mono _ _ _ _ (wlp_and _ _ _ _ (Hk s1 Ht) (Hq g ∅ s1 Hh Hc))). intros b s2 (Ht2 & Hh2 & Hc2). by apply Hr. }
  unfold _syscall. apply wlp_bind. unfold wlp at 1. rewrite (cur_run g s) by apply Hs.
  apply step; [opp|done|]. intros p s1 Hs1. cbv zeta. destruct (is_killed p).
  - apply wlp_bind. destruct Hs1 as (Ht & Hh & Hc).
    apply (wlp_mono _ _ _ _ (wlp_and _ _ _ _ (keeps_exit_proc stk g (-1) s1 Ht) (lk_exit_proc stk g (-1) s1 Hh Hc))).
    intros b s2 (Ht2 & Hh2 & Hc2). by split.
  - apply step; [apply op_load64|done|]. intros epc s2 Hs2. apply step; [unfold set_trap_frame_entry, tf_store; opp|done|].
    intros u s3 Hs3. unfold on_cpu at 1. apply wlp_bind. unfold wlp at 1, modify.
    apply intr_on_run in Hs3. set (s4 := s3 <| cpu := _ |>) in *.
    refine (step _ _ _ _ s4 (op_load64 _) Hs3 _). intros num s5 Hs5. destruct (_ && _).
    + destruct (invoke_syscaller stk kbuf now rodata num) as [h|] eqn:E; [|done].
      pose proof (finish_calls h (calls_invoke stk kbuf now rodata num h E) g s5 Hs5) as W. revert W.
      unfold wlp, mbind, M_bind. destruct (h s5) as [c1 s6| | |]; [|done..]. by destruct (finish c1 s6).
    + destruct (op_finish (Returns (u64 (-1)))) as [Hk Hq]. destruct Hs5 as (Ht & Hh & Hc). apply wlp_bind.
      apply (wlp_mono _ _ _ _ (wlp_and _ _ _ _ (Hk s5 Ht) (Hq g _ s5 Hh Hc))). intros u' s6 (Ht6 & Hh6 & Hc6). by split.
Qed.

Lemma resume_wait_fine g w : is_futex w = false →
  keeps (@table_ok A F) (resume_wait w) ∧ lk g {[ProcLock g]} (resume_wait w : K (Z + waiting)) (waits g).
Proof.
  intros Hw. split; [destruct w; cbn [resume_wait]; keep_table; by apply keeps_write_resume; intros; apply keeps_fetch_kernel|].
  destruct w; try discriminate; cbn [resume_wait].
  - eapply lk_bind; [apply lk_read_resume|]. intros [v|i e']; by apply lk_ret.
  - eapply lk_bind; [apply lk_write_resume|]. intros [v|i' e']; by apply lk_ret.
  - eapply lk_bind; [apply lk_wait_resume|]. intros [v|i e']; by apply lk_ret.
  - eapply lk_bind; [apply lk_sleep_ticks_resume|]. intros [v|i e']; by apply lk_ret.
  - eapply lk_bind; [apply lk_yield_in|]. intros u. by apply lk_ret.
Qed.

Lemma stopped_fine g c s : stopped g c s → fine g c s ∧ safe g c.
Proof.
  induction 1 as [s c s' Hs R|w k s0 s c s' _ [_ IH] Hw Hs R]; [by apply (syscall_run_fine g s)|].
  destruct (resume_wait_fine g w Hw) as [Hk Hq]. destruct Hs as (Ht & Hh & Hc).
  enough (wlp (resume w k) (λ c s', fine g c s' ∧ safe g c) s) as W by exact (wlp_run _ _ _ _ _ W R).
  unfold resume. apply wlp_bind. apply (wlp_mono _ _ _ _ (wlp_and _ _ _ _ (Hk s Ht) (Hq s Hh Hc))).
  intros [v|w'] s1 (Ht1 & Hh1 & Hc1).
  - assert (runs_with g ∅ s1) as Hs1 by done. pose proof (IH v s1 Hs1) as Hkv.
    destruct (k v s1) as [c1 s2| | |] eqn:Ek; unfold wlp, mbind at 1, M_bind at 1; rewrite Ek; [|done..].
    destruct Hkv as [(Ht2 & Hh2 & Hc2) Hsafe]. destruct (op_finish c1) as [Fk Fq]. apply wlp_bind.
    apply (wlp_mono _ _ _ _ (wlp_and _ _ _ _ (Fk s2 Ht2) (Fq g _ s2 Hh2 Hc2))). intros u s3 (Ht3 & Hh3 & Hc3).
    split; [by split|exact Hsafe].
  - split; [by split|exact IH].
Qed.


(** A process that sleeps in [futex] comes back with its own lock held, and
    returns to the user with it. *)
Lemma futex_lk g e : lk g {[ProcLock g]} (resume (InFutex e) (λ _, ret 0) : K Call) (λ _, {[ProcLock g]}).
Proof.
  unfold resume, resume_wait, sleep_in, call_sched_in. eapply (lk_bind _ _ _ _ (λ _, {[ProcLock g]})).
  - apply lk_cur. apply (lk_bind _ _ _ _ (λ _, {[ProcLock g]})); [|intros u; by apply lk_ret].
    apply lk_quiet_bind; [lk0|intros u]. apply lk_cur. apply lk_quiet_bind; [lk0|intros u'].
    rewrite bool_decide_eq_true_2 by done. by apply lk_ret.
  - intros [v|w]; [|by apply lk_ret]. apply lk_quiet_bind; [|intros c]; [unfold ret; lk0|].
    apply lk_quiet_bind; [apply op_finish|intros u]. by apply lk_ret.
Qed.
Theorem futex_keeps_lock g e s c s' : held s = {[ProcLock g]} → _cur_proc (cpu s) = Some g →
  resume (InFutex e) (λ _, ret 0) s = Ret c s' → held s' = {[ProcLock g]}.
Proof. intros Hh Hc R. exact (proj1 (wlp_run _ _ _ _ _ (futex_lk g e s Hh Hc) R)). Qed.

End locks.

(** * The table of handlers *)

Abbreviation SYS := (sys_num SyscallNumber).

Section dispatch.
Context `{Port} `{TrapHal} {A F : Type} `{PageAllocator A} `{Inode A F}.
Context (stk kbuf now : Z) (rodata : nat → Z).
Abbreviation K := (M (kernel A F)).
Abbreviation Call := (call (kernel A F)).
Implicit Types (tbl : Z → option (K Call)) (l : list (string * option (K Call))).

Lemma bind_none tbl l n : n ∉ SYS <$> l.*1 → foldl BIND_SYSCALL tbl l n = tbl n.
Proof.
  revert tbl. induction l as [|b l IH]; intros tbl Hn; [done|]. cbn [foldl]. rewrite IH by set_solver.
  unfold BIND_SYSCALL. rewrite (proj2 (Z.eqb_neq n (SYS b.1))); [done|]. set_solver.
Qed.
Lemma bind_last tbl l1 b l2 : SYS b.1 ∉ SYS <$> l2.*1 → foldl BIND_SYSCALL tbl (l1 ++ b :: l2) (SYS b.1) = b.2.
Proof.
  intros Hn. rewrite foldl_app. cbn [foldl]. rewrite bind_none by done. unfold BIND_SYSCALL. by rewrite Z.eqb_refl.
Qed.

(** The names bound, and their numbers. *)
Abbreviation names := ((bindings stk kbuf now rodata).*1 : list string).
(** Every number but that of [clone] is bound once, and fits the table. *)
Fixpoint once (l : list string) : bool :=
  match l with
  | [] => true
  | x :: l' => (bool_decide (x = "clone"%string) || negb (bool_decide (SYS x ∈ SYS <$> l')))
               && (0 <? SYS x) && (SYS x <? max_syscall_funcs_num) && once l'
  end.
Lemma once_at l i x : once l.*1 = true → l.*1 !! i = Some x →
  0 < SYS x < 2048 ∧ (x ≠ "clone"%string → SYS x ∉ SYS <$> (drop (S i) l).*1).
Proof.
  revert i. induction l as [|[y h] l IH]; intros i; [done|]. cbn [once fmap list_fmap fst].
  intros [[[Hb Hlo%Z.ltb_lt]%andb_true_iff Hhi%Z.ltb_lt]%andb_true_iff Hl]%andb_true_iff.
  destruct i as [|i]; cbn; [|by apply IH]. intros [= ->]. split; [done|]. intros Hne.
  rewrite bool_decide_eq_false_2 in Hb by done. cbn in Hb. rewrite drop_0.
  by apply negb_true_iff, bool_decide_eq_false in Hb.
Qed.
Lemma names_once : once names = true.
Proof. vm_compute. reflexivity. Qed.

End dispatch.

(** * Duplicated descriptors *)

Section dup.
Context `{Port} `{TrapHal} {A F : Type} `{PageAllocator A} `{Inode A F}.
Implicit Types s : kernel A F.

(** The directory entry of an open file. *)
Definition den_of (x : file) : option Z :=
  match kind x with device_file o | normal_file o => o | pipe_file _ _ => None end.
Definition den_more (d : Z) s : gmap Z dentry :=
  match dentries s !! d with
  | Some y => <[d := y <| d_refcnt := d_refcnt y + 1 |>]> (dentries s)
  | None => dentries s
  end.
(** File [f] with one more reference, and its directory entry too. *)
Definition shared (f : Z) (x : file) s : kernel A F :=
  s <| files := <[f := x <| refcnt := refcnt x + 1 |>]> (files s) |>
    <| dentries := match den_of x with Some d => den_more d s | None => dentries s end |>.
(** [f] is open, its counts are positive and can grow. *)
Definition live (f : Z) (x : file) s : Prop :=
  files s !! f = Some x ∧ 1 ≤ refcnt x < 2 ^ 32 - 1 ∧
  ∀ d, den_of x = Some d → ∃ y, dentries s !! d = Some y ∧ 1 ≤ d_refcnt y.

Lemma ofile_run f x s : files s !! f = Some x → ofile f s = Ret x s.
Proof. intros E. unfold ofile. krun. by rewrite E. Qed.
Lemma on_file_run f x h s : files s !! f = Some x → on_file f h s = Ret tt (s <| files := <[f := h x]> (files s) |>).
Proof. intros E. unfold on_file. by mstep (ofile_run f x s E). Qed.
Lemma on_den_run d y h s : dentries s !! d = Some y → on_den d h s = Ret tt (s <| dentries := <[d := h y]> (dentries s) |>).
Proof. intros E. unfold on_den, den. krun. by rewrite E. Qed.
Lemma den_run d y s : dentries s !! d = Some y → den d s = Ret y s.
Proof. intros E. unfold den. krun. by rewrite E. Qed.

Lemma with_den_of (k : file_kind) act x : kind x = k →
  with_den (A := A) (F := F) k act = match den_of x with Some d => act d | None => mret tt end.
Proof. unfold den_of. intros ->. by destruct k as [[]|[]|]. Qed.

Lemma file_dup_run f x s : live f x s → file_dup f s = Ret tt (shared f x s).
Proof.
  intros (Hx & Hr & Hd). unfold file_dup. mstep (on_file_run f x (λ x, x <| refcnt := u32 (refcnt x + 1) |>) s Hx).
  rewrite wrap32_small by lia. set (x1 := x <| refcnt := refcnt x + 1 |>). set (s1 := s <| files := _ |>).
  mstep (ofile_run f x1 s1 (lookup_insert_eq _ _ _)). rewrite (with_den_of (kind x1) _ x eq_refl).
  unfold shared. destruct (den_of x) as [d|] eqn:E; [|by destruct s].
  destruct (Hd d eq_refl) as (y & Hy & Hy1). unfold dentry_dup. rewrite (on_den_run d y _ s1 Hy). unfold den_more. by rewrite Hy.
Qed.

Lemma free_shared f x s : live f x s → free_file f (shared f x s) = Ret tt s.
Proof.
  intros (Hx & Hr & Hd). unfold free_file. set (x1 := x <| refcnt := refcnt x + 1 |>).
  mstep (on_file_run f x1 (λ x, x <| refcnt := u32 (refcnt x - 1) |>) (shared f x s) (lookup_insert_eq _ _ _)).
  assert (x1 <| refcnt := u32 (refcnt x1 - 1) |> = x) as ->.
  { unfold x1. rsimpl. replace (refcnt x + 1 - 1) with (refcnt x) by lia. rewrite wrap32_small by lia. by destruct x. }
  set (s1 := shared f x s <| files := _ |>).
  assert (files s1 = files s) as Ef.
  { change (<[f := x]> (<[f := x1]> (files s)) = files s). by rewrite insert_insert_eq, insert_id. }
  mstep (ofile_run f x s1 ltac:(by rewrite Ef)). rewrite (with_den_of (kind x) _ x eq_refl).
  assert (R : match den_of x with Some d => dentry_release d | None => mret tt end s1 = Ret tt s).
  { destruct (den_of x) as [d|] eqn:E.
    - destruct (Hd d eq_refl) as (y & Hy & Hy1). unfold dentry_release.
      assert (Hy2 : dentries s1 !! d = Some (y <| d_refcnt := d_refcnt y + 1 |>)).
      { unfold s1, shared. rsimpl. rewrite E. unfold den_more. rewrite Hy. apply lookup_insert_eq. }
      mstep (on_den_run d _ (λ x, x <| d_refcnt := d_refcnt x - 1 |>) s1 Hy2).
      set (s2 := s1 <| dentries := _ |>). assert (s2 = s) as ->.
      { apply kernel_ext; try exact eq_refl; [exact Ef|].
        unfold s2, s1, shared. rsimpl. rewrite E. unfold den_more. rewrite Hy, insert_insert_eq.
        apply insert_id. rewrite Hy. f_equal. replace (d_refcnt y + 1 - 1) with (d_refcnt y) by lia. by destruct y. }
      mstep (den_run d y s Hy). unfold mbind, M_bind, get. cbn beta iota. by rewrite (proj2 (Z.leb_gt _ 0)) by lia.
    - unfold mret, M_ret. f_equal. apply kernel_ext; try exact eq_refl; [exact Ef|]. unfold s1, shared. rsimpl. by rewrite E. }
  mstep R. by rewrite (proj2 (Z.eqb_neq (refcnt x) 0)) by lia.
Qed.

(** The argument registers the process trapped with. *)
Definition user_arg (p : Pcb) (n : Z) s : Z := i32 (Mem.load64 (ram (k_mm s)) (_trapframe p + tf_a0 + 8 * n)).

Lemma load_run a s : mm (PT.load a) s = Ret (Mem.load64 (ram (k_mm s)) a) s.
Proof. unfold mm, zoom, PT.load, gets. f_equal. by destruct s. Qed.
Lemma arg_int_run g p n s : _cur_proc (cpu s) = Some g → k_proc_pool s !! g = Some p → 0 ≤ n ≤ 5 →
  _arg_int n s = Ret (user_arg p n s) s.
Proof.
  intros Hc Hp Hn. assert (R : _arg_raw n s = Ret (Mem.load64 (ram (k_mm s)) (_trapframe p + tf_a0 + 8 * n)) s).
  { unfold _arg_raw. mstep (cur_run g s Hc). mstep (pcb_run g p s Hp). unfold get_arg_from_trap_frame.
    rewrite (proj2 (Z.leb_le 0 n)), (proj2 (Z.leb_le n 5)) by lia. apply load_run. }
  unfold _arg_int. by mstep R.
Qed.
Lemma arg_fd_run g p n f s : _cur_proc (cpu s) = Some g → k_proc_pool s !! g = Some p → 0 ≤ n ≤ 5 →
  get_open_file p (user_arg p n s) = Some f → _arg_fd n s = Ret (Some (user_arg p n s, f)) s.
Proof.
  intros Hc Hp Hn Hf. unfold _arg_fd. mstep (arg_int_run g p n s Hc Hp Hn). mstep (cur_run g s Hc).
  mstep (pcb_run g p s Hp). by rewrite Hf.
Qed.

Lemma alloc_at_run g p f fd s : k_proc_pool s !! g = Some p → 0 ≤ fd < 1024 → _ofile p !! fd = None →
  alloc_fd_at g (Some f) fd s = Ret fd (with_fd g p fd f s).
Proof.
  intros Hp Hfd Hno. unfold alloc_fd_at, max_open_files. rewrite (proj2 (Z.ltb_ge fd 0)), (proj2 (Z.leb_gt 1024 fd)) by lia.
  cbn [orb]. mstep (pcb_run g p s Hp). rewrite Hno.
  by mstep (on_pcb_run g p (λ p, p <| _ofile := <[fd := f]> (_ofile p) |>) s Hp).
Qed.

Lemma ret_small v s : 0 ≤ v < 2 ^ 64 → ret v s = Ret (Returns v) s.
Proof. intros Hv. unfold ret. by rewrite wrap64_small. Qed.

(** Closing the descriptor of a duplicate undoes it. *)
Lemma close_shared g p fd f x s : _cur_proc (cpu s) = Some g → k_proc_pool s !! g = Some p →
  0 ≤ fd < 1024 → _ofile p !! fd = None → live f x s →
  Proc.close fd (shared f x (with_fd g p fd f s)) = Ret 0 s.
Proof.
  intros Hc Hp Hfd Hno Hl. set (s1 := with_fd g p fd f s). assert (live f x s1) as Hl1 by exact Hl.
  set (p1 := p <| _ofile := <[fd := f]> (_ofile p) |>).
  assert (Hp1 : k_proc_pool s1 !! g = Some p1) by (apply list_lookup_insert_eq; by eapply lookup_lt_Some).
  unfold Proc.close, max_open_files. rewrite (proj2 (Z.ltb_ge fd 0)), (proj2 (Z.leb_gt 1024 fd)) by lia. cbn [orb].
  mstep (cur_run g (shared f x s1) Hc). mstep (pcb_run g p1 (shared f x s1) Hp1).
  replace (_ofile p1 !! fd) with (Some f) by exact (eq_sym (lookup_insert_eq (_ofile p) fd f)).
  mstep (free_shared f x s1 Hl1). mstep (on_pcb_run g p1 (λ p, p <| _ofile := delete fd (_ofile p) |>) s1 Hp1).
  unfold mret, M_ret. f_equal. apply kernel_ext; try exact eq_refl.
  change (<[g := p1 <| _ofile := delete fd (<[fd := f]> (_ofile p)) |>]> (<[g := p1]> (k_proc_pool s)) = k_proc_pool s).
  rewrite list_insert_insert_eq. apply list_insert_id. rewrite Hp. f_equal.
  rewrite delete_insert_id by done. by destruct p.
Qed.

(** C19: duplicating a descriptor.  For a descriptor that is open on a file,
    [dup] opens the same file on the smallest free descriptor and [dup2] on the
    one asked for, with one more reference to the file and to its directory
    entry; closing the duplicate restores the state before the call exactly.
    [dup2] of a descriptor onto itself does nothing; onto an open one it acts
    after closing it. *)
Theorem dup_close_roundtrip g p s f x : _cur_proc (cpu s) = Some g → k_proc_pool s !! g = Some p →
  get_open_file p (user_arg p 0 s) = Some f → live f x s →
  (∀ fd, 0 ≤ fd < 1024 → _ofile p !! fd = None →
     let s1 := shared f x (with_fd g p fd f s) in
     Proc.close fd s1 = Ret 0 s ∧
     (lowest_from 0 p fd → _sys_dup s = Ret (Returns fd) s1) ∧
     (user_arg p 1 s = fd → _sys_dup2 s = Ret (Returns fd) s1)) ∧
  (user_arg p 1 s = user_arg p 0 s → _sys_dup2 s = Ret (Returns (user_arg p 0 s)) s) ∧
  (∀ fd h s' p' x', user_arg p 1 s = fd → fd ≠ user_arg p 0 s → 0 ≤ fd < 1024 → _ofile p !! fd = Some h →
     Proc.close fd s = Ret 0 s' → k_proc_pool s' !! g = Some p' → _ofile p' !! fd = None → live f x' s' →
     _sys_dup2 s = Ret (Returns fd) (shared f x' (with_fd g p' fd f s'))).
Proof.
  intros Hc Hp Hf Hl. pose proof (arg_fd_run g p 0 f s Hc Hp ltac:(lia) Hf) as Ra.
  pose proof (arg_int_run g p 1 s Hc Hp ltac:(lia)) as Rb.
  assert (Hold : 0 ≤ user_arg p 0 s < 1024 ∧ _ofile p !! user_arg p 0 s = Some f).
  { revert Hf. unfold get_open_file, max_open_files.
    destruct (Z.ltb_spec (user_arg p 0 s) 0), (Z.leb_spec 1024 (user_arg p 0 s)); cbn [orb]; done || by intros ->. }
  assert (Rat : ∀ fd, 0 ≤ fd < 1024 → ofile_at fd s = Ret (_ofile p !! fd) s).
  { intros fd Hfd. unfold ofile_at, max_open_files. rewrite (proj2 (Z.ltb_ge fd 0)), (proj2 (Z.leb_gt 1024 fd)) by lia.
    cbn [orb]. mstep (cur_run g s Hc). by mstep (pcb_run g p s Hp). }
  split_and!.
  - intros fd Hfd Hno s1. split_and!; [by apply close_shared| |].
    + intros Hlow. unfold _sys_dup. mstep (cur_run g s Hc). mstep Ra.
      destruct (alloc_fd_run g p f s Hp) as [(fd' & Hlow' & R)|[Hfull _]].
      * assert (fd' = fd) as ->.
        { destruct Hlow as (Hr & Hn & Hb), Hlow' as (Hr' & Hn' & Hb').
          destruct (Z.lt_trichotomy fd fd') as [Hlt|[<-|Hlt]]; [|done|].
          - destruct (Hb' fd) as [? E]; [lia|congruence].
          - destruct (Hb fd') as [? E]; [lia|congruence]. }
        mstep R. rewrite (proj2 (Z.ltb_ge fd 0)) by lia. mstep (file_dup_run f x (with_fd g p fd f s) Hl). apply ret_small. lia.
      * exfalso. destruct (Hfull fd Hfd). congruence.
    + intros E. unfold _sys_dup2. mstep (cur_run g s Hc). mstep Ra. mstep Rb. rewrite E.
      rewrite (proj2 (Z.eqb_neq fd (user_arg p 0 s))) by (intros ->; destruct Hold; congruence).
      mstep (Rat fd Hfd). rewrite Hno, bind_mret. mstep (alloc_at_run g p f fd s Hp Hfd Hno).
      rewrite (proj2 (Z.ltb_ge fd 0)) by lia. mstep (file_dup_run f x (with_fd g p fd f s) Hl). apply ret_small. lia.
  - intros E. unfold _sys_dup2. mstep (cur_run g s Hc). mstep Ra. mstep Rb. rewrite E, Z.eqb_refl. apply ret_small. lia.
  - intros fd h s' p' x' E Hne Hfd Hh Rc Hp' Hno Hl'. unfold _sys_dup2. mstep (cur_run g s Hc). mstep Ra. mstep Rb.
    rewrite E, (proj2 (Z.eqb_neq fd _)) by done. mstep (Rat fd Hfd). rewrite Hh.
    assert (Rc' : (Proc.close fd;; mret tt) s = Ret tt s') by by mstep Rc. mstep Rc'.
    mstep (alloc_at_run g p' f fd s' Hp' Hfd Hno). rewrite (proj2 (Z.ltb_ge fd 0)) by lia.
    mstep (file_dup_run f x' (with_fd g p' fd f s') Hl'). apply ret_small. lia.
Qed.
End dup.

Import KDemo.

(** A trap of process 1 (pid 2) with the number of [getpid] in [a7]. *)
Definition trap_pool : list Pcb :=
  init_pcb :: shell_pcb :: ((λ g, static_pcb <| _gid := Z.of_nat g |>) <$> seq 2 30).
Definition trap_demo : kernel unit unit :=
  demo <| k_proc_pool := trap_pool |> <| k_mm := mkPmm tt (Mem.store64 168 172 ∅) |>.

Lemma trap_table : runs_with 1 ∅ trap_demo.
Proof.
  assert (Hslot : ∀ g p, trap_pool !! g = Some p → 0 ≤ _pid p < 3 ∧ shape p = shape_at g ∧ (_pid p ≠ 0 → _pid p = Z.of_nat g + 1)).
  { intros [|[|g]] p; [intros [= <-]; split_and!; done || (cbn; lia)..|]. change (trap_pool !! S (S g)) with (((λ g, static_pcb <| _gid := Z.of_nat g |>) <$> seq 2 30) !! g).
    rewrite list_lookup_fmap. intros (x & Hx & ->)%fmap_Some. apply lookup_seq in Hx as [-> _].
    split_and!; done || (cbn; lia). }
  split_and!; [|reflexivity|reflexivity]. split_and!; [split; [reflexivity|done]|split_and!; [reflexivity|done| |]|split; [|done]].
  - intros g p Hp. apply (Hslot g p Hp).
  - intros g g' p p' Hp Hp' E Hne. destruct (Hslot g p Hp) as (_ & _ & E1), (Hslot g' p' Hp') as (_ & _ & E2).
    rewrite E in Hne. specialize (E2 Hne). rewrite E in E1. specialize (E1 Hne). lia.
  - intros g p Hp. apply (Hslot g p Hp).
Qed.

#[local] Existing Instance riscv_port | 0.
Definition trapped : outcome (kernel unit unit) (option (call (kernel unit unit))) :=
  _syscall 4096 8192 0 (λ _, 0) trap_demo.

(** Process 1 with descriptor 3 open on the reading end of a pipe, and 3 in
    [a0]. *)
Definition dup_pcb : Pcb := shell_pcb <| _ofile := {[3 := 60]} |>.
Definition dup_demo : kernel unit unit :=
  demo <| k_proc_pool := <[1%nat := dup_pcb]> demo_pool |> <| files := {[60 := pipe_end 50 false 1]} |>
       <| k_mm := mkPmm tt (Mem.store64 112 3 ∅) |>.
Lemma dup_close_roundtrip_witness : ∃ s1, _sys_dup dup_demo = Ret (Returns 0) s1 ∧ Proc.close 0 s1 = Ret 0 dup_demo.
Proof.
  destruct (dup_close_roundtrip 1 dup_pcb dup_demo 60 (pipe_end 50 false 1)) as (Hdup & _).
  - reflexivity.
  - reflexivity.
  - vm_compute. reflexivity.
  - split_and!; [reflexivity|cbn; lia|cbn; lia|]. intros d [=].
  - destruct (Hdup 0 ltac:(lia) eq_refl) as (Hcl & Hd & _).
    eexists. split; [apply Hd|exact Hcl]. split_and!; [lia|lia|reflexivity|intros i Hi; lia].
Defined.

End SysThm.
